(* ===== verification/_CoqProject ===== *)
-Q . S2P
Prelude.v
Messages.v
CommUtil.v
Utility.v
GravityLogger.v
GravityLoggerProofs.v
GravityDataProduct.v
MessageCodecs.v
Config.v
ConfigProofs.v
ServiceDirectory.v
ServiceDirectoryRegistry.v
ServiceDirectoryProofs.v
ServiceDirectoryRequests.v
ServiceDirectoryUDP.v
ServiceDirectoryUDPProofs.v
ServiceDirectorySynchronizer.v
ServiceDirectorySynchronizerProofs.v
GravityMetrics.v
GravitySubscriptionManager.v
GravitySubscriptionManagerProofs.v
GravitySubscriptionManagerUpdates.v
GravitySubscriptionManagerDelivery.v
GravitySubscriptionManagerRequests.v
GravitySubscriptionManagerExamples.v
GravityPublishManager.v
GravityPublishManagerProofs.v
ReturnCodes.v
GravityRequests.v
GravityRequestsProofs.v
GravityHeartbeat.v
GravityHeartbeatProofs.v
GravityNode.v
GravityNodeAPI.v
GravityNodeProofs.v
GravityNodeComponents.v
GravityNodeSubscriptions.v
FileArchive.v
FileArchiveProofs.v
FileArchiveReplay.v
GravityNodeInit.v
GravityNodeInitProofs.v
GravityNodeInitSettings.v
LogRecorder.v
Relay.v
LogRecorderProofs.v
ServiceDirectoryStart.v
ServiceDirectoryStartProofs.v
ServiceDirectoryRetries.v
ServiceDirectorySpec.v
GravityNodeDirectory.v
GravityNodeSubscribing.v
GravityNodePublications.v
GravityNodeServices.v
Signals.v
DomainDataKey.v
ProductHeap.v
RustGravityDataProduct.v
RustGravityNode.v
DotNetWrapper.v
FileArchiveStart.v
