(* ===== verification/Prelude.v ===== *)
(** * A verification library for Gravity

    Gravity is a message bus.  Components are processes that own a GravityNode; they publish
    data products, subscribe to those of others and offer services.  A ServiceDirectory per
    domain knows who publishes and offers what, and directories of different domains find
    each other by UDP broadcasts and mirror each other's registries.  This library translates
    the C++ of src/src into executable Rocq definitions and proves what they do.

    ** The program's parts, and where they are modelled

    - Messages.v: the protobuf messages (src/src/api/protobufs), a record each.  The generated
      code is third-party: the class [Protobuf] is its interface, [ProtobufLaw] the round trip
      the program relies on.
    - CommUtil.v, Utility.v: frames of ZeroMQ messages, the search for a port, times
      (CommUtil.cpp); strings, file names, integers (Utility.cpp).
    - GravityDataProduct.v: the envelope of every message (GravityDataProduct.cpp,
      FutureResponse.cpp).  ReturnCodes.v: the enums of GravityNode.h.
    - ServiceDirectory.v: the state of the directory and its handlers (ServiceDirectory.cpp);
      proofs in ServiceDirectoryRegistry.v (the map of publishers), ServiceDirectoryProofs.v
      (invariants of reachable states) and ServiceDirectoryRequests.v (what clients are
      promised, lists of domains).  ServiceDirectorySpec.v has the directory's contract, a
      registry without its maps, and that serving requests implements it.
    - ServiceDirectoryUDP.v, ServiceDirectoryUDPProofs.v: the threads that send and receive the
      broadcasts (ServiceDirectoryUDPBroadcaster.cpp, ServiceDirectoryUDPReceiver.cpp).
    - ServiceDirectorySynchronizer.v, ServiceDirectorySynchronizerProofs.v: the thread that
      mirrors other domains (ServiceDirectorySynchronizer.cpp).
    - ServiceDirectoryStart.v, ServiceDirectoryStartProofs.v: from the directory's settings to
      the url it binds and what its threads are started with (ServiceDirectory.cpp, [start]
      before its loop).
    - GravityMetrics.v: counters and samples (GravityMetrics.cpp, GravityMetricsManager.cpp).
    - GravityPublishManager.v, GravityPublishManagerProofs.v: the thread that publishes
      (GravityPublishManager.cpp).
    - GravityRequests.v, GravityRequestsProofs.v: the threads that send requests and serve them
      (GravityRequestManager.cpp, GravityServiceManager.cpp).
    - GravitySubscriptionManager.v: the thread that subscribes (GravitySubscriptionManager.cpp,
      DomainDataKey.cpp).  Proofs in GravitySubscriptionManagerProofs.v (which publishers are
      worth a subscription; the consistency of the maps), GravitySubscriptionManagerUpdates.v
      (lists of publishers), GravitySubscriptionManagerDelivery.v (data and stale publishers),
      GravitySubscriptionManagerRequests.v (timeouts, subscribing, unsubscribing);
      GravitySubscriptionManagerExamples.v has runs, and what goes wrong in some.
    - GravityNode.v, GravityNodeAPI.v, GravityNodeProofs.v: the node, which drives the managers
      over sockets behind locks and talks to the directory (GravityNode.cpp, Semaphore.cpp,
      the lookups of GravityConfigParser.cpp).  GravityNodeSubscriptions.v runs its operations
      against the model of the subscription manager.
    - GravityNodeInit.v: initialization, the thread that listens for the domain's broadcasts,
      and the destructor (GravityNode.cpp); GravityNodeInitProofs.v has what every
      initialization keeps, GravityNodeInitSettings.v the settings and the directory's
      address.
    - Config.v, ConfigProofs.v: files of settings (src/src/keyvalue_parser, the actions of
      the grammar and the hash table; GravityConfigParser.cpp) and the configuration service
      (ConfigServer.cpp).
    - GravityHeartbeat.v, GravityHeartbeatProofs.v: the threads that publish heartbeats and
      listen for them (GravityHeartbeat.cpp).
    - GravityLogger.v, GravityLoggerProofs.v: levels, loggers and log files
      (GravityLogger.cpp).  LogRecorder.v: the sink that publishes log messages and their
      recorder (PublishSink.h, GravityLogRecorder.cpp).  Relay.v: the relay (Relay.cpp).  The
      proofs of both are in LogRecorderProofs.v.
    - FileArchive.v: the archiver and the playback of its files (FileArchiver.cpp,
      FileReader.cpp, FileReplay.cpp); FileArchiveProofs.v has the two threads of the
      playback, FileArchiveReplay.v foreign byte orders and the pace of a replay,
      FileArchiveStart.v the constructors, which drive their nodes.
    - GravityNodeDirectory.v: nodes and the directory together, over a network that may lose
      requests and answers.  It rests on ServiceDirectoryRetries.v, what a request does that
      is served more than once, and on MessageCodecs.v, small codecs that runs evaluate with.
    - GravityNodeComponents.v: a node beside the components it talks to, on which the files
      that compose them rest.  GravityNodeSubscribing.v: a subscribing node, the directory and
      the node's subscription manager together.  GravityNodePublications.v: a publishing node, its publish
      manager, the network and a subscription manager together.  GravityNodeServices.v: a node
      that offers a service and one that requests it, with their managers and the directory.
    - Signals.v: the signals a node catches while it starts (GravityNode.cpp).
      DomainDataKey.v: the key of the map of subscriptions (DomainDataKey.cpp).
    - ProductHeap.v: data products as the objects they are in C++, which share messages, and the
      node's operations on them.  On it rest the bindings: RustGravityDataProduct.v and
      RustGravityNode.v (src/src/api/rust/bridge), DotNetWrapper.v
      (src/src/api/DotNet/gravity_plugin/src/gravity_wrapper.cpp).

    ** How state and code correspond

    A C++ object is a record whose fields carry the member's names; a handler is a function
    from state to state, with the replies and the messages it sends appended to a list of
    outputs in the state.  A thread's loop is a step function: one call is one turn, and what
    the system calls of the turn return (messages, poll results, clocks, new sockets) are
    arguments.  Objects that several containers share (details of subscriptions, timeout
    monitors) live in a store and are referred to by address.  [std::map] is [gmap], iterated
    in key order by [kv_items]; [operator[]], which inserts a default, is [idx] with
    [idx_touch].  Integers of a fixed width are [Z] with the
    wrap-around written out ([u32], [u64], [s32]); a conversion from a double that cannot
    round is exact, and says so where it is used.  A null dereference, a loop that never ends
    and a wait that never ends are outcomes ([None], [Crash], [Hang]).  Operations of the node
    run in a state monad over an environment ([NodeEnvironment]; initialization adds
    [InitEnvironment]: files, signals, spdlog, the polls of the domain); threads of one process
    interact only through messages, and each is a separate step function.

    ** What the theorems show

    - The directory: its announcements are its registry; registering, unregistering and
      looking up do what clients are told, for data and for services; urls are unique; any
      sequence of requests on the wire is answered as an abstract registry answers it
      (serve_refines_registry); where time stamps get lost.
    - Discovery: domains are watched independently, the directory's list of domains is the
      receiver's, when a domain is connected and disconnected, parameters and broadcasts
      survive their encodings.
    - Synchronization: updates go out in order and once, mirrors equal the registry they
      mirror, and what a removed domain leaves behind.
    - Publishing, requests and services: late subscribers catch up; no request is lost or
      dereferenced when missing; answers follow registration times; when timeouts end.
    - Subscriptions: the maps of the thread describe one set of sockets; after a list of
      publishers there is one verified socket per publisher that counts; products are delivered
      once, in order, to every subscriber; a stale publisher is reported and dropped; the
      monitor whose timeout ends first is called; the last unsubscription closes everything.
    - The node and the subscription manager together (GravityNodeSubscriptions.v): the node's
      commands are read as they were meant, and the end of a subscription at the node is its
      end at the manager.
    - The node: which operations give their locks back, initialization included; what a
      registration records; what a restart of the directory does and when it is noticed; which
      file, section and spelling a setting comes from, for any two files; that a directory is found by its broadcast
      within the timeout, and that the search ends with it.
    - From publisher to subscriber: of what a node publishes, the messages that reach a
      connected socket are delivered once each, in order, as they were sent.
    - Node and directory: what one node registers another one finds until it is unregistered,
      though requests are lost and repeated; after a restart of the directory a node that
      registers again is listed as before, unless the directory knows a later registration of
      a url; a subscription is for the publishers that the directory lists.
    - Services: what one node registers answers the requests of another, once, with the
      registration time that both got from the directory.
    - Signals: a signal caught during the start reaches the application; that it is raised
      again ever after.
    - Bindings: the products of a Rust program are values that do not depend on each other,
      the bridge frees what it allocates, and the bytes that a Rust program publishes are
      those that a Rust subscriber reads; the subscribers of managed code can be called as long
      as it deletes none of them, and what happens otherwise; where copies share a message.
    - Settings: the hash table is the list of pairs of the file; the configuration service
      fills in what the node's files leave open.
    - Heartbeats: the queue stays ordered and holds exactly what has a listener; every element
      due is served once, in order; a heartbeat reaches its listener; what stopping does.
    - Archives: the replay gets the archived products of interest, in order and all of them,
      whatever the schedule of its two threads, which never crash and end.
    - Logging: a message reaches the loggers whose level admits it, once; the search for %n
      against its reference; the format fits the buffer; the messages that an application logs
      are the lines of the recorder's file, until it is rotated and as long as each is the
      first of its batch; a relayed product keeps its origin.
    - Data products, metrics, frames, strings, ports, times: round trips, alignment of the
      series, termination and divergence.

    ** Bounds and fuel

    Fuel occurs where the source loops on data that a measure bounds: [parseDomainCSV] and the
    list of valid domains run on the length of their string, which every turn shortens;
    [replaceAll] takes its fuel as an argument, and theorems say when some is enough and when
    none is; the port search runs on the size of its range; [send_requests] on the number of
    retries; [read_loop] of the archive and [detect_loop] of the logger on the length of their
    input; [wait_for_url] on the tenths of a second in the timeout.  Integers in messages keep
    their width; the seconds of a registration's time ([regTimeSecs]) are exact below 2^32,
    above which the conversion to 32 bits is undefined in C++.

    ** Not modelled

    ZeroMQ, protobuf and spdlog (third-party); the creation of sockets and threads, the end
    of the context, and the signal handlers of Utility.cpp; the tables of the lexer and parser
    that flex and bison generate, and arithmetic on numerals, which the files of settings
    allow; floating point (the comparison of floats, settings that are floats); SpdLog.cpp,
    which forwards to spdlog; the bindings for Java, Python and MATLAB, which SWIG generates
    or which are scripts; the tests and examples.  A signal that is ignored is modelled as one
    whose handler does nothing; of the .NET wrapper's nodes there is one. *)
From stdpp Require Export base gmap strings list fin_maps sorting.
From Stdlib Require Export ZArith Lia.

(** * Shared notation, automation and hint databases *)

Declare Scope gravity_scope.
Delimit Scope gravity_scope with gravity.

Create HintDb gravity discriminated.
Create Rewrite HintDb gravity_rw.

(** ** Record update

    [r <| f := v |>] is the record [r] with field [f] set to [v], as an
    assignment to a member writes it.  A record gives its constructor applied to
    its own fields as an instance of [Eta]; the setters are found from it. *)

Class Eta (R : Type) := eta_expansion : R → R.
Class Update {R T : Type} (field : R → T) := update : (T → T) → R → R.
Arguments update {R T} field {_} g r.

Ltac find_update :=
  lazymatch goal with
  | |- @Update ?R ?T ?field =>
      let inst := constr:(_ : Eta R) in
      let body := eval hnf in inst in
      lazymatch eval pattern field in body with
      | ?abstracted _ => exact (λ (g : T → T), abstracted (λ r : R, g (field r)))
      end
  end.

#[export] Hint Extern 1 (Update _) => find_update : typeclass_instances.

Notation "r <| f := v |>" := (update f (λ _, v) r)
  (at level 1, left associativity, f at level 0, v at level 200) : gravity_scope.
Notation "r <| f ::= g |>" := (update f g r)
  (at level 1, left associativity, f at level 0, g at level 200) : gravity_scope.

(** Case analysis on every [match] and [if] of the goal. *)
Ltac split_matches :=
  repeat (case_match; simplify_eq/=).

(** Case analysis on a decision of the goal only. *)
Ltac goal_decide :=
  match goal with |- context [@decide ?P ?dec] => destruct (@decide P dec) end.

(** Reads booleans and decisions as propositions. *)
Ltac to_props :=
  repeat match goal with
  | H : bool_decide _ = true |- _ => apply bool_decide_eq_true in H
  | H : bool_decide _ = false |- _ => apply bool_decide_eq_false in H
  | H : (_ <? _)%Z = true |- _ => apply Z.ltb_lt in H
  | H : (_ <? _)%Z = false |- _ => apply Z.ltb_ge in H
  | H : (_ <=? _)%Z = true |- _ => apply Z.leb_le in H
  | H : (_ <=? _)%Z = false |- _ => apply Z.leb_gt in H
  | H : (_ =? _)%Z = true |- _ => apply Z.eqb_eq in H
  | H : (_ =? _)%Z = false |- _ => apply Z.eqb_neq in H
  | H : (_ && _)%bool = true |- _ => apply andb_true_iff in H as [? ?]
  | H : (_ && _)%bool = false |- _ => apply andb_false_iff in H
  | H : (_ || _)%bool = true |- _ => apply orb_true_iff in H
  | H : (_ || _)%bool = false |- _ => apply orb_false_iff in H as [? ?]
  | H : negb _ = true |- _ => apply negb_true_iff in H
  | H : negb _ = false |- _ => apply negb_false_iff in H
  end.

(** * Machine integers *)

Definition u32_max : Z := 4294967296.
Definition u64_max : Z := 18446744073709551616.

(** Conversion to [uint32_t], [uint64_t] and (two's complement) [int]. *)
Definition u32 (z : Z) : Z := z mod u32_max.
Definition u64 (z : Z) : Z := z mod u64_max.
Definition s32 (z : Z) : Z := (z + 2147483648) mod u32_max - 2147483648.

Definition s64 (z : Z) : Z := (z + 9223372036854775808) mod u64_max - 9223372036854775808.

Definition is_u32 (z : Z) : Prop := (0 <= z < u32_max)%Z.
Definition is_u64 (z : Z) : Prop := (0 <= z < u64_max)%Z.
Definition is_s32 (z : Z) : Prop := (-2147483648 <= z < 2147483648)%Z.
Definition is_s64 (z : Z) : Prop := (-9223372036854775808 <= z < 9223372036854775808)%Z.

#[export] Instance is_u32_dec z : Decision (is_u32 z).
Proof. unfold is_u32; apply _. Defined.
#[export] Instance is_u64_dec z : Decision (is_u64 z).
Proof. unfold is_u64; apply _. Defined.
#[export] Instance is_s32_dec z : Decision (is_s32 z).
Proof. unfold is_s32; apply _. Defined.

Lemma u32_range z : is_u32 (u32 z).
Proof. unfold is_u32, u32, u32_max. apply Z.mod_pos_bound. lia. Qed.

Lemma u64_range z : is_u64 (u64 z).
Proof. unfold is_u64, u64, u64_max. apply Z.mod_pos_bound. lia. Qed.

Lemma s32_range z : is_s32 (s32 z).
Proof.
  unfold is_s32, s32, u32_max.
  pose proof (Z.mod_pos_bound (z + 2147483648) 4294967296). lia.
Qed.

Lemma u32_id z : is_u32 z → u32 z = z.
Proof. unfold is_u32, u32. apply Z.mod_small. Qed.

Lemma u64_id z : is_u64 z → u64 z = z.
Proof. unfold is_u64, u64. apply Z.mod_small. Qed.

Lemma s32_id z : is_s32 z → s32 z = z.
Proof. unfold is_s32, s32, u32_max. intros. rewrite Z.mod_small; lia. Qed.

Lemma s64_id z : is_s64 z → s64 z = z.
Proof. unfold is_s64, s64, u64_max. intros. rewrite Z.mod_small; lia. Qed.

Lemma u32_s32 z : u32 (s32 z) = u32 z.
Proof.
  unfold u32, s32, u32_max.
  rewrite Zminus_mod_idemp_l. f_equal. lia.
Qed.

#[export] Hint Resolve u32_range u64_range s32_range : gravity.
#[export] Hint Rewrite u32_s32 : gravity_rw.

(** * Parts of a list *)

Lemma sublist_fmap_inv {A B} (f : A → B) k l :
  k `sublist_of` f <$> l → ∃ k', k' `sublist_of` l ∧ k = f <$> k'.
Proof.
  intros Hs. remember (f <$> l) as l1 eqn:El. revert l El.
  induction Hs as [|x l1 l2 _ IH|x l1 l2 _ IH]; intros [|y l] [=]; subst.
  - exists []. split; [constructor|done].
  - destruct (IH l eq_refl) as (k' & Hk & ->). exists (y :: k'). split; [by constructor|done].
  - destruct (IH l eq_refl) as (k' & Hk & ->). exists k'. split; [by constructor|done].
Qed.

Lemma StronglySorted_sublist {A} (R : A → A → Prop) k l :
  k `sublist_of` l → StronglySorted R l → StronglySorted R k.
Proof.
  induction 1 as [|x k l Hs IH|x k l Hs IH]; [done|..]; intros [Hx Hl]%StronglySorted_cons; [|by apply IH].
  constructor; [by apply IH|]. rewrite Forall_forall in *. intros y Hy. apply Hx.
  by eapply elem_of_sublist.
Qed.

Lemma sublist_full {A} (k l : list A) : k `sublist_of` l → length l ≤ length k → k = l.
Proof.
  induction 1 as [|x k l Hs IH|x k l Hs IH]; cbn; intros Hl; [done|by rewrite IH by lia|].
  apply sublist_length in Hs. lia.
Qed.

(** * [std::map] and [std::set]

    A [std::map] is a [gmap]; iterating over it visits the keys in increasing
    order, which [kv_items] computes.  [std::string] keys are compared byte by
    byte, [std::pair]-like keys lexicographically, addresses numerically. *)

Class KeyOrder (K : Type) := {
  key_le : relation K;
  key_le_dec :: RelDecision key_le;
  key_le_po :: PartialOrder key_le;
  key_le_total :: Total key_le;
}.

#[export] Program Instance string_key_order : KeyOrder string := {| key_le := String.le |}.

#[export] Program Instance Z_key_order : KeyOrder Z := {| key_le := Z.le |}.

(** Pairs are compared lexicographically. *)
Section pair_order.
Context {A B : Type} `{EqDecision A} `{!KeyOrder A} `{!KeyOrder B}.

Definition pair_le : relation (A * B) := λ p q,
  if decide (p.1 = q.1) then key_le p.2 q.2 else key_le p.1 q.1.

#[local] Instance pair_le_dec : RelDecision pair_le.
Proof. intros p q. unfold Decision, pair_le. destruct (decide (p.1 = q.1)); apply key_le_dec. Defined.

#[local] Instance pair_le_po : PartialOrder pair_le.
Proof.
  split; [split|].
  - intros [a b]. unfold pair_le. cbn. by rewrite decide_True.
  - intros [a1 b1] [a2 b2] [a3 b3]. unfold pair_le. cbn. intros H1 H2.
    repeat case_decide; subst; try done; try (by etrans).
    destruct H. by apply (anti_symm key_le).
  - intros [a1 b1] [a2 b2]. unfold pair_le. cbn. intros H1 H2.
    repeat case_decide; subst; try done.
    + f_equal. by apply (anti_symm key_le).
    + destruct H. by apply (anti_symm key_le).
Qed.

#[local] Instance pair_le_total : Total pair_le.
Proof.
  intros [a1 b1] [a2 b2]. unfold pair_le. cbn. repeat case_decide; subst; try done;
    apply (total key_le).
Qed.

#[export] Instance pair_key_order : KeyOrder (A * B) := {| key_le := pair_le |}.
End pair_order.

Section ordered_iteration.
Context {K : Type} `{Countable K} `{!KeyOrder K} {V : Type}.
Implicit Types m : gmap K V.

Definition kv_le : relation (K * V) := λ p q, key_le p.1 q.1.

#[export] Instance kv_le_dec : RelDecision kv_le.
Proof. intros p q. unfold kv_le. apply _. Defined.
#[export] Instance kv_le_trans : Transitive kv_le.
Proof. intros p q r. unfold kv_le. apply transitivity. Qed.
#[export] Instance kv_le_total : Total kv_le.
Proof. intros p q. unfold kv_le. apply (total key_le). Qed.

(** The pairs of a map in the order a [std::map] iterates over them. *)
Definition kv_items m : list (K * V) := merge_sort kv_le (map_to_list m).

Lemma kv_items_perm m : kv_items m ≡ₚ map_to_list m.
Proof. apply merge_sort_Permutation. Qed.

Lemma elem_of_kv_items m k v : (k, v) ∈ kv_items m ↔ m !! k = Some v.
Proof. by rewrite kv_items_perm, elem_of_map_to_list. Qed.

Lemma NoDup_kv_items_keys m : NoDup (kv_items m).*1.
Proof. rewrite kv_items_perm. apply NoDup_fst_map_to_list. Qed.

Lemma kv_items_sorted m : StronglySorted kv_le (kv_items m).
Proof. apply (StronglySorted_merge_sort kv_le). Qed.

Lemma kv_items_empty : kv_items ∅ = [].
Proof. unfold kv_items. by rewrite map_to_list_empty. Qed.

Lemma length_kv_items m : length (kv_items m) = size m.
Proof. rewrite kv_items_perm. apply length_map_to_list. Qed.

(** A sorted list with distinct keys is the iteration of the map it lists. *)
Lemma kv_items_list_to_map (l : list (K * V)) :
  NoDup l.*1 → StronglySorted kv_le l → kv_items (list_to_map l) = l.
Proof.
  intros Hnd Hs.
  assert (Hp : kv_items (list_to_map l) ≡ₚ l).
  { rewrite kv_items_perm. by apply map_to_list_to_map. }
  apply (StronglySorted_unique_strong kv_le); try done.
  - intros [k1 v1] [k2 v2] H1 H2 Hle1 Hle2. unfold kv_le in *; simpl in *.
    assert (k1 = k2) as -> by (apply (anti_symm key_le); done).
    rewrite Hp in H1.
    f_equal. apply elem_of_list_to_map in H1; [|done].
    apply elem_of_list_to_map in H2; [|done]. congruence.
  - apply kv_items_sorted.
Qed.

Lemma list_to_map_kv_items m : list_to_map (kv_items m) = m.
Proof.
  rewrite <- (list_to_map_to_list m) at 2.
  apply list_to_map_proper; [apply NoDup_kv_items_keys | apply kv_items_perm].
Qed.

(** [m[k]]: the value at [k], a default constructed one being inserted first
    when there is none. *)
Definition idx (d : V) (k : K) m : V := default d (m !! k).
Definition idx_touch (d : V) (k : K) m : gmap K V := <[k := idx d k m]> m.

Lemma idx_touch_lookup d k k' m :
  idx_touch d k m !! k' = if decide (k = k') then Some (idx d k m) else m !! k'.
Proof. unfold idx_touch. by rewrite lookup_insert. Qed.

Lemma idx_touch_idx d k k' m : idx d k' (idx_touch d k m) = idx d k' m.
Proof.
  unfold idx at 1. rewrite idx_touch_lookup.
  case_decide; by simplify_eq.
Qed.

Lemma idx_insert d k k' v m :
  idx d k' (<[k := v]> m) = if decide (k = k') then v else idx d k' m.
Proof. unfold idx. rewrite lookup_insert. by case_decide. Qed.

Lemma idx_delete d k k' m :
  idx d k' (delete k m) = if decide (k = k') then d else idx d k' m.
Proof. unfold idx. rewrite lookup_delete. by case_decide. Qed.
End ordered_iteration.

#[export] Hint Resolve NoDup_kv_items_keys kv_items_sorted : gravity.
#[export] Hint Rewrite @idx_touch_idx : gravity_rw.

(** The elements of a [std::set] in iteration order. *)
Definition set_items {K} `{Countable K} `{!KeyOrder K} (s : gset K) : list K :=
  merge_sort key_le (elements s).

Lemma elem_of_set_items {K} `{Countable K} `{!KeyOrder K} (s : gset K) x :
  x ∈ set_items s ↔ x ∈ s.
Proof. unfold set_items. by rewrite merge_sort_Permutation, elem_of_elements. Qed.

Lemma NoDup_set_items {K} `{Countable K} `{!KeyOrder K} (s : gset K) :
  NoDup (set_items s).
Proof. unfold set_items. rewrite merge_sort_Permutation. apply NoDup_elements. Qed.

(** * Filtering *)

Lemma list_filter_all {A} (P : A → Prop) `{∀ x, Decision (P x)} (l : list A) :
  Forall P l → filter P l = l.
Proof.
  induction 1 as [|x l Hx _ IH]; [done|]. by rewrite filter_cons_True, IH.
Qed.

Lemma list_filter_none {A} (P : A → Prop) `{∀ x, Decision (P x)} (l : list A) :
  Forall (λ x, ¬ P x) l → filter P l = [].
Proof.
  induction 1 as [|x l Hx _ IH]; [done|]. by rewrite filter_cons_False, IH.
Qed.
