(* ===== verification/Messages.v ===== *)
(** * Messages: the protobuf messages of src/src/api/protobufs

    One record per message, a proto2 [optional] (or [required]) field [f] of type
    [T] as an [option T] ([None]: the presence bit [has_f()] is off), a [repeated]
    field as a list.  The accessor [f()] of a field that is not set gives the
    field's default.  The code protobuf generates (serialisation, parsing, type
    names) is third-party: the class [Protobuf] stands for it, and the class
    [ProtobufLaw] states the one thing the program relies on, that parsing the
    serialisation of a message gives the message back. *)

From S2P Require Import Prelude.
#[local] Open Scope gravity_scope.

(** ** The interface of the protobuf library *)

Class Protobuf (M : Type) := {
  (** [SerializeToArray]: the bytes of the message. *)
  serialize : M → string;
  (** [ParseFromArray] into a fresh message: its contents afterwards, and the
      returned success flag. *)
  parse : string → M * bool;
  (** [GetTypeName] *)
  type_name : string;
}.
Arguments type_name M {_}.

Class ProtobufLaw (M : Type) `{Protobuf M} : Prop :=
  parse_serialize : ∀ m : M, parse (serialize m) = (m, true).

(** Accessors of optional fields. *)
Definition str (o : option string) : string := default "" o.
Definition num (o : option Z) : Z := default 0%Z o.
Definition flag (o : option bool) : bool := default false o.

(** [ComponentDataLookupResponsePB.proto] *)
Record PublisherInfoPB := mkPublisherInfoPB {
  pi_url : option string;
  pi_isRelay : option bool;
  pi_componentID : option string;
  pi_ipAddress : option string;
  pi_registration_time : option Z;
}.
#[export] Instance eta_PublisherInfoPB : Eta PublisherInfoPB := λ p,
  mkPublisherInfoPB (pi_url p) (pi_isRelay p) (pi_componentID p) (pi_ipAddress p)
    (pi_registration_time p).
#[export] Instance PublisherInfoPB_eq_dec : EqDecision PublisherInfoPB.
Proof. solve_decision. Defined.
Definition empty_PublisherInfoPB : PublisherInfoPB :=
  mkPublisherInfoPB None None None None None.

Record ComponentDataLookupResponsePB := mkComponentDataLookupResponsePB {
  dl_lookupID : string;
  dl_publishers : list PublisherInfoPB;
  dl_domain_id : string;
}.
#[export] Instance ComponentDataLookupResponsePB_eq_dec :
  EqDecision ComponentDataLookupResponsePB.
Proof. solve_decision. Defined.

(** The enum [RegistrationType] that four of the messages declare alike. *)
Inductive RegistrationType := DATA | SERVICE.
#[export] Instance RegistrationType_eq_dec : EqDecision RegistrationType.
Proof. solve_decision. Defined.

(** [ComponentLookupRequestPB.proto]; [type()] defaults to the first value. *)
Record ComponentLookupRequestPB := mkComponentLookupRequestPB {
  lr_lookupID : option string;
  lr_type : option RegistrationType;
  lr_domain_id : option string;
}.

(** [ComponentServiceLookupResponsePB.proto] *)
Record ComponentServiceLookupResponsePB := mkComponentServiceLookupResponsePB {
  sl_lookupID : string;
  sl_url : string;
  sl_domain_id : string;
  sl_registration_time : option Z;
}.
#[export] Instance eta_ComponentServiceLookupResponsePB :
    Eta ComponentServiceLookupResponsePB := λ r,
  mkComponentServiceLookupResponsePB (sl_lookupID r) (sl_url r) (sl_domain_id r)
    (sl_registration_time r).

(** [ServiceDirectoryRegistrationPB.proto] *)
Record ServiceDirectoryRegistrationPB := mkServiceDirectoryRegistrationPB {
  rg_id : option string;
  rg_url : option string;
  rg_type : option RegistrationType;
  rg_component_id : option string;
  rg_domain : option string;
  rg_timestamp : option Z;
  rg_is_relay : option bool;
  rg_ip_address : option string;
}.
#[export] Instance ServiceDirectoryRegistrationPB_eq_dec :
  EqDecision ServiceDirectoryRegistrationPB.
Proof. solve_decision. Defined.

(** [ServiceDirectoryUnregistrationPB.proto] *)
Record ServiceDirectoryUnregistrationPB := mkServiceDirectoryUnregistrationPB {
  ur_id : option string;
  ur_url : option string;
  ur_type : option RegistrationType;
  ur_domain : option string;
  ur_registration_time : option Z;
}.
#[export] Instance ServiceDirectoryUnregistrationPB_eq_dec :
  EqDecision ServiceDirectoryUnregistrationPB.
Proof. solve_decision. Defined.

(** [ServiceDirectoryResponsePB.proto] *)
Inductive ReturnCodes := SUCCESS | DUPLICATE_REGISTRATION | REGISTRATION_CONFLICT | NOT_REGISTERED.
#[export] Instance ReturnCodes_eq_dec : EqDecision ReturnCodes.
Proof. solve_decision. Defined.

Record ServiceDirectoryResponsePB := mkServiceDirectoryResponsePB {
  sr_id : string;
  sr_returnCode : ReturnCodes;
}.
#[export] Instance ServiceDirectoryResponsePB_eq_dec :
  EqDecision ServiceDirectoryResponsePB.
Proof. solve_decision. Defined.

(** [ServiceDirectoryMapPB.proto] *)
Record ProductLocations := mkProductLocations {
  loc_product_id : string;
  loc_url : list string;
  loc_component_id : list string;
  loc_domain_id : list string;
  loc_timestamp : list Z;
}.
#[export] Instance eta_ProductLocations : Eta ProductLocations := λ l,
  mkProductLocations (loc_product_id l) (loc_url l) (loc_component_id l)
    (loc_domain_id l) (loc_timestamp l).
#[export] Instance ProductLocations_eq_dec : EqDecision ProductLocations.
Proof. solve_decision. Defined.

(** [ServiceDirectory.h] and the message share this enum. *)
Inductive ChangeType := REMOVE | ADD.
#[export] Instance ChangeType_eq_dec : EqDecision ChangeType.
Proof. solve_decision. Defined.

Record ProductChange := mkProductChange {
  ch_product_id : string;
  ch_url : string;
  ch_registration_type : RegistrationType;
  ch_change_type : ChangeType;
  ch_component_id : string;
  ch_timestamp : Z;
}.
#[export] Instance ProductChange_eq_dec : EqDecision ProductChange.
Proof. solve_decision. Defined.

(** What [change()] reads when the field is not set: the default of each field. *)
Definition default_ProductChange : ProductChange :=
  mkProductChange "" "" DATA REMOVE "" 0.

Record ServiceDirectoryMapPB := mkServiceDirectoryMapPB {
  map_service_provider : list ProductLocations;
  map_data_provider : list ProductLocations;
  map_change : option ProductChange;
  map_domain : string;
}.
#[export] Instance ServiceDirectoryMapPB_eq_dec : EqDecision ServiceDirectoryMapPB.
Proof. solve_decision. Defined.

Definition empty_ServiceDirectoryMapPB : ServiceDirectoryMapPB :=
  mkServiceDirectoryMapPB [] [] None "".

(** [ServiceDirectoryDomainUpdatePB.proto] *)
Record ServiceDirectoryDomainUpdatePB := mkServiceDirectoryDomainUpdatePB {
  du_known_domains : list string;
  du_type : ChangeType;
  du_update_domain : string;
}.

(** [ServiceDirectoryBroadcastPB.proto] *)
Record ServiceDirectoryBroadcastPB := mkServiceDirectoryBroadcastPB {
  bc_id : option string;
  bc_domain : string;
  bc_url : string;
  bc_rate : Z;
  bc_starttime : Z;
}.

(** [GravityMetricsDataPB.proto] *)
Inductive MetricsMessageType := PUBLICATION | SUBSCRIPTION | REQUEST | RESPONSE.
#[export] Instance MetricsMessageType_eq_dec : EqDecision MetricsMessageType.
Proof. solve_decision. Defined.

Record GravityMetricsPB := mkGravityMetricsPB {
  gm_dataProductID : option string;
  gm_messageType : option MetricsMessageType;
  gm_startTime : list Z;
  gm_endTime : list Z;
  gm_numBytes : list Z;
  gm_numMessages : list Z;
}.
#[export] Instance eta_GravityMetricsPB : Eta GravityMetricsPB := λ g,
  mkGravityMetricsPB (gm_dataProductID g) (gm_messageType g) (gm_startTime g)
    (gm_endTime g) (gm_numBytes g) (gm_numMessages g).
Definition empty_GravityMetricsPB : GravityMetricsPB :=
  mkGravityMetricsPB None None [] [] [] [].

Record GravityMetricsDataPB := mkGravityMetricsDataPB {
  gmd_componentID : string;
  gmd_ipAddress : string;
  gmd_metrics : list GravityMetricsPB;
}.

(** [GravityConfigParamPB.proto] *)
Record GravityConfigParamPB := mkGravityConfigParamPB {
  cp_key : option string;
  cp_value : option string;
  cp_is_default : option bool;
}.

(** A codec for concrete runs whose results do not depend on the bytes: every message
    parses to [m]. *)
Definition constant_protobuf {M : Type} (m : M) : Protobuf M := {|
  serialize _ := "";
  parse _ := (m, true);
  type_name := "";
|}.

(** Messages that concrete runs encode. *)
#[export] Program Instance RegistrationType_countable : Countable RegistrationType :=
  inj_countable' (λ t, bool_decide (t = DATA)) (λ b : bool, if b then DATA else SERVICE) _.
Next Obligation. by intros []. Qed.

#[export] Program Instance ServiceDirectoryUnregistrationPB_countable :
    Countable ServiceDirectoryUnregistrationPB :=
  inj_countable' (λ u, (ur_id u, ur_url u, ur_type u, ur_domain u, ur_registration_time u))
    (λ '(i, u, t, d, r), mkServiceDirectoryUnregistrationPB i u t d r) _.
Next Obligation. by intros []. Qed.
