(* ===== verification/CommUtil.v ===== *)
(** * CommUtil: message frames, ports and time arithmetic
    (src/src/api/cpp/CommUtil.cpp, CommUtil.h)

    ZeroMQ itself is third-party.  A message frame is the [string] of its bytes; a
    multi-part message is the list of its frames; the functions that read from a
    socket consume the frames that are pending on it, in order, and fail ([None])
    where the C++ code would read outside a frame or leave an integer partly
    uninitialised.  Integers travel in the memory representation of the machine,
    which is little endian. *)

From stdpp Require Import pretty.
From S2P Require Import Prelude.
#[local] Open Scope Z_scope.

(** ** Reserved data product names ([gravity::constants]) *)

Definition REGISTERED_PUBLISHERS_DPID : string := "RegisteredPublishers".
Definition DOMAIN_DETAILS_DPID : string := "ServiceDirectory_DomainDetails".
Definition DOMAIN_UPDATE_DPID : string := "ServiceDirectory_DomainUpdate".
Definition DIRECTORY_SERVICE_DPID : string := "DirectoryService".
Definition METRICS_DATA_DPID : string := "GravityMetricsData".
Definition GRAVITY_SETTINGS_DPID : string := "GRAVITY_SETTINGS".
Definition GRAVITY_LOGGER_DPID : string := "GRAVITY_LOGGER".

(** ** Frames *)

Abbreviation frame := string (only parsing).

Fixpoint le_bytes (n : nat) (z : Z) : frame :=
  match n with
  | O => ""
  | S n => String (Ascii.ascii_of_N (Z.to_N (z mod 256))) (le_bytes n (z / 256))
  end.

Fixpoint le_value (s : frame) : Z :=
  match s with
  | EmptyString => 0
  | String c s => Z.of_N (Ascii.N_of_ascii c) + 256 * le_value s
  end.

Lemma length_le_bytes n z : String.length (le_bytes n z) = n.
Proof. revert z. induction n; intros z; simpl; auto. Qed.

Lemma le_value_bytes n z : le_value (le_bytes n z) = z mod 256 ^ Z.of_nat n.
Proof.
  revert z. induction n as [|n IH]; intros z; [by rewrite Z.mod_1_r|].
  cbn [le_bytes le_value]. rewrite IH.
  assert (Hb : 0 <= z mod 256 < 256) by (apply Z.mod_pos_bound; lia).
  rewrite Ascii.N_ascii_embedding, Z2N.id by lia.
  rewrite Nat2Z.inj_succ, Z.pow_succ_r by lia.
  rewrite Z.rem_mul_r by lia. lia.
Qed.

(** *** Writing: the frame each sending function puts on the socket *)

Definition sendStringMessage (str : string) : frame := str.
Definition sendIntMessage (val : Z) : frame := le_bytes 4 val.
Definition sendUint32Message (val : Z) : frame := le_bytes 4 val.
Definition sendUint64Message (val : Z) : frame := le_bytes 8 val.

(** *** Reading *)

Definition reader (A : Type) : Type := list frame → option (A * list frame).

Definition read_ret {A} (x : A) : reader A := λ fs, Some (x, fs).
Definition read_bind {A B} (m : reader A) (k : A → reader B) : reader B := λ fs,
  match m fs with
  | Some (x, fs') => k x fs'
  | None => None
  end.
Notation "x <~ m ;; k" := (read_bind m (λ x, k))
  (at level 100, m at level 90, right associativity) : gravity_scope.
#[local] Open Scope gravity_scope.

Definition readStringMessage : reader string := λ fs,
  match fs with
  | f :: fs => Some (f, fs)
  | [] => None
  end.

(** [memcpy] of the whole frame into an integer of [n] bytes. *)
Definition readBytes (n : nat) (conv : Z → Z) : reader Z := λ fs,
  match fs with
  | f :: fs => if decide (String.length f = n) then Some (conv (le_value f), fs) else None
  | [] => None
  end.

Definition readIntMessage : reader Z := readBytes 4 s32.
Definition readUint32Message : reader Z := readBytes 4 u32.
Definition readUint64Message : reader Z := readBytes 8 u64.

Lemma read_string_sent str fs :
  readStringMessage (sendStringMessage str :: fs) = Some (str, fs).
Proof. done. Qed.

Lemma readBytes_sent n conv z fs :
  readBytes n conv (le_bytes n z :: fs) = Some (conv (z mod 256 ^ Z.of_nat n), fs).
Proof. cbn. rewrite length_le_bytes, decide_True by done. by rewrite le_value_bytes. Qed.

Lemma read_int_sent z fs : readIntMessage (sendIntMessage z :: fs) = Some (s32 z, fs).
Proof.
  unfold readIntMessage, sendIntMessage. rewrite readBytes_sent.
  do 2 f_equal. change (256 ^ Z.of_nat 4) with u32_max. unfold s32, u32_max.
  by rewrite Zplus_mod_idemp_l.
Qed.

Lemma read_uint32_sent z fs : readUint32Message (sendUint32Message z :: fs) = Some (u32 z, fs).
Proof.
  unfold readUint32Message, sendUint32Message. rewrite readBytes_sent.
  do 2 f_equal. change (256 ^ Z.of_nat 4) with u32_max. apply Zmod_mod.
Qed.

Lemma read_uint64_sent z fs : readUint64Message (sendUint64Message z :: fs) = Some (u64 z, fs).
Proof.
  unfold readUint64Message, sendUint64Message. rewrite readBytes_sent.
  do 2 f_equal. change (256 ^ Z.of_nat 8) with u64_max. apply Zmod_mod.
Qed.

#[export] Hint Rewrite read_string_sent read_int_sent read_uint32_sent read_uint64_sent
  : gravity_rw.

(** ** Ports *)

(** The default range. *)
Definition MIN_PORT : Z := 24000.
Definition MAX_PORT : Z := 24999.

Definition tcp_url (ipAddr : string) (port : Z) : string :=
  "tcp://" +:+ ipAddr +:+ ":" +:+ pretty port.

Section bind.
(** [zmq_bind] on the socket at hand: does it succeed at this address? *)
Variable zmq_bind : string → bool.

Fixpoint bind_from (ipAddr : string) (i : Z) (n : nat) : Z :=
  match n with
  | O => -1
  | S n =>
      if zmq_bind (tcp_url ipAddr i) then i else bind_from ipAddr (i + 1) n
  end.

(** The loop runs over [minPort .. maxPort], so as often as the range is long. *)
Definition bindFirstAvailablePort (ipAddr : string) (minPort maxPort : Z) : Z :=
  bind_from ipAddr minPort (Z.to_nat (maxPort - minPort + 1)).

Lemma bind_from_spec ipAddr i n :
  let r := bind_from ipAddr i n in
  (i <= r < i + Z.of_nat n ∧ zmq_bind (tcp_url ipAddr r) = true ∧
    ∀ j, i <= j < r → zmq_bind (tcp_url ipAddr j) = false) ∨
  (r = -1 ∧ ∀ j, i <= j < i + Z.of_nat n → zmq_bind (tcp_url ipAddr j) = false).
Proof.
  revert i. induction n as [|n IH]; intros i r; subst r; cbn [bind_from].
  { right. split; [done|]. lia. }
  destruct (zmq_bind (tcp_url ipAddr i)) eqn:Hb.
  { left. split_and!; [lia..|done|]. intros j ?; lia. }
  specialize (IH (i + 1)). cbn zeta in IH.
  destruct IH as [(Hr & Hok & Hlt) | (Hr & Hall)].
  - left. split_and!; [lia..|done|].
    intros j ?. destruct (decide (j = i)) as [->|]; [done|]. apply Hlt. lia.
  - right. split; [done|].
    intros j ?. destruct (decide (j = i)) as [->|]; [done|]. apply Hall. lia.
Qed.
End bind.

(** ** [struct timeval] *)

Record timeval := mkTimeval { tv_sec : Z; tv_usec : Z }.
#[export] Instance timeval_eq_dec : EqDecision timeval.
Proof. solve_decision. Defined.

Definition addTime (t1 : timeval) (sec : Z) : timeval :=
  mkTimeval (tv_sec t1 + sec) (tv_usec t1).

Definition timevalcmp (t1 t2 : timeval) : Z :=
  if tv_sec t1 =? tv_sec t2 then
    if tv_usec t1 =? tv_usec t2 then 0
    else if tv_usec t1 <? tv_usec t2 then -1
    else 1
  else if tv_sec t1 <? tv_sec t2 then -1
  else 1.

Definition subtractTime (t1 t2 : timeval) : timeval :=
  if timevalcmp t1 t2 <=? 0 then mkTimeval 0 0
  else
    let sub := if tv_usec t2 >? tv_usec t1 then 1000000 else tv_usec t1 in
    mkTimeval (tv_sec t1 - tv_sec t2) (sub - tv_usec t2).

(** [(unsigned int)(tv_usec / 1000) + tv_sec * 1000], returned as an [unsigned int]. *)
Definition timevalToMilliSeconds (tv : timeval) : Z :=
  u32 (u32 (Z.quot (tv_usec tv) 1000) + tv_sec tv * 1000).

(** The instant a normalised [timeval] denotes, in microseconds. *)
Definition micros (t : timeval) : Z := tv_sec t * 1000000 + tv_usec t.
Definition normalised (t : timeval) : Prop := 0 <= tv_usec t < 1000000.

#[export] Instance normalised_dec t : Decision (normalised t).
Proof. unfold normalised. apply _. Defined.

Lemma micros_addTime t s : micros (addTime t s) = micros t + s * 1000000.
Proof. unfold micros, addTime. simpl. lia. Qed.

Lemma normalised_addTime t s : normalised t → normalised (addTime t s).
Proof. done. Qed.

Ltac timeval_cases :=
  repeat match goal with
  | |- context [Z.eqb ?a ?b] => destruct (Z.eqb_spec a b)
  | |- context [Z.ltb ?a ?b] => destruct (Z.ltb_spec a b)
  | |- context [Z.gtb ?a ?b] => rewrite (Z.gtb_ltb a b)
  | |- context [Z.leb ?a ?b] => destruct (Z.leb_spec a b)
  end; cbv beta iota.

Lemma timevalcmp_le t1 t2 :
  normalised t1 → normalised t2 → timevalcmp t1 t2 <= 0 ↔ micros t1 <= micros t2.
Proof. unfold normalised, timevalcmp, micros. intros. timeval_cases; lia. Qed.

Lemma timevalcmp_lt t1 t2 :
  normalised t1 → normalised t2 → timevalcmp t1 t2 < 0 ↔ micros t1 < micros t2.
Proof. unfold normalised, timevalcmp, micros. intros. timeval_cases; lia. Qed.

Lemma timevalcmp_eq t1 t2 : timevalcmp t1 t2 = 0 ↔ t1 = t2.
Proof.
  destruct t1 as [s1 u1], t2 as [s2 u2]. unfold timevalcmp. simpl.
  timeval_cases; simplify_eq; split; intros; simplify_eq; first [done | lia].
Qed.

#[export] Hint Resolve normalised_addTime : gravity.

(** * Properties *)

(** [bindFirstAvailablePort] returns the lowest port of the range that can be bound, every
    lower one having been refused, or -1 when the whole range is refused. *)
Theorem bindFirstAvailablePort_spec zmq_bind ipAddr minPort maxPort :
  let r := bindFirstAvailablePort zmq_bind ipAddr minPort maxPort in
  (minPort <= r <= maxPort ∧ zmq_bind (tcp_url ipAddr r) = true ∧
    ∀ j, minPort <= j < r → zmq_bind (tcp_url ipAddr j) = false) ∨
  (r = -1 ∧ ∀ j, minPort <= j <= maxPort → zmq_bind (tcp_url ipAddr j) = false).
Proof.
  cbn zeta. unfold bindFirstAvailablePort.
  destruct (bind_from_spec zmq_bind ipAddr minPort (Z.to_nat (maxPort - minPort + 1)))
    as [(Hr & Hok & Hlt) | (Hr & Hall)].
  - left. split_and!; [lia..|done|done].
  - right. split; [done|]. intros j ?. apply Hall. lia.
Qed.

(** [subtractTime] of normalised times is zero when the first is not later, the exact
    difference when no borrow is needed, and otherwise too large by the part of a second the
    first time was short of: the borrow neither decrements the seconds nor adds the
    microseconds of the first time. *)
Theorem subtractTime_spec t1 t2 :
  normalised t1 → normalised t2 →
  micros (subtractTime t1 t2) =
    if decide (micros t1 <= micros t2) then 0
    else if decide (tv_usec t2 <= tv_usec t1) then micros t1 - micros t2
    else micros t1 - micros t2 + (1000000 - tv_usec t1).
Proof.
  intros H1 H2. unfold subtractTime.
  destruct (Z.leb_spec (timevalcmp t1 t2) 0) as [Hle|Hgt].
  - apply timevalcmp_le in Hle; [|done..]. rewrite decide_True by done. done.
  - rewrite decide_False by (rewrite <-timevalcmp_le by done; lia).
    unfold micros, normalised in *. cbn [tv_sec tv_usec].
    rewrite Z.gtb_ltb. destruct (Z.ltb_spec (tv_usec t1) (tv_usec t2));
      case_decide; lia.
Qed.

Example subtractTime_spec_witness :
  micros (subtractTime (mkTimeval 5 100000) (mkTimeval 3 200000)) = 2800000 ∧
  micros (mkTimeval 5 100000) - micros (mkTimeval 3 200000) = 1900000.
Proof.
  split; [|reflexivity].
  rewrite (subtractTime_spec (mkTimeval 5 100000) (mkTimeval 3 200000));
    [reflexivity|unfold normalised; cbn; lia..].
Defined.
