(* ===== verification/Utility.v ===== *)
(** * Utility: strings, file names and clocks (src/src/api/cpp/Utility.cpp)

    A [std::string] is a Rocq [string] of bytes; [npos] is [None].  The loop of
    [replaceAll] runs on fuel and returns [None] when the fuel runs out: whether
    some fuel is enough is what the theorems about it decide. *)

From S2P Require Import Prelude.
From Stdlib Require Import Ascii.
#[local] Open Scope nat_scope.

(** ** Membership, counting and searching in strings *)

Fixpoint char_in (c : ascii) (s : string) : bool :=
  match s with
  | EmptyString => false
  | String d s => bool_decide (c = d) || char_in c s
  end.

Fixpoint all_chars (p : ascii → bool) (s : string) : bool :=
  match s with
  | EmptyString => true
  | String c s => p c && all_chars p s
  end.

Fixpoint count_char (c : ascii) (s : string) : nat :=
  match s with
  | EmptyString => 0
  | String d s => (if decide (c = d) then 1 else 0) + count_char c s
  end.

Fixpoint find_first_not_of (delimiters s : string) : option nat :=
  match s with
  | EmptyString => None
  | String c s =>
      if char_in c delimiters then S <$> find_first_not_of delimiters s else Some 0
  end.

Fixpoint find_last_not_of (delimiters s : string) : option nat :=
  match s with
  | EmptyString => None
  | String c s =>
      match find_last_not_of delimiters s with
      | Some i => Some (S i)
      | None => if char_in c delimiters then None else Some 0
      end
  end.

(** [s.erase(n)] keeps the first [n] characters, [s.erase(0, n)] drops them. *)
Definition str_take (n : nat) (s : string) : string := String.substring 0 n s.
Fixpoint str_drop (n : nat) (s : string) : string :=
  match n, s with
  | S n, String _ s => str_drop n s
  | _, _ => s
  end.

Lemma str_take_0 s : str_take 0 s = EmptyString.
Proof. by destruct s. Qed.

Lemma str_take_drop n s : s = (str_take n s +:+ str_drop n s).
Proof.
  revert n. induction s as [|c s IH]; intros [|n]; try done.
  cbn. unfold String.app. cbn. f_equal. apply IH.
Qed.

Lemma count_char_app c s t :
  count_char c (s +:+ t) = count_char c s + count_char c t.
Proof.
  induction s as [|d s IH]; [done|]. unfold String.app in *. cbn. rewrite IH. lia.
Qed.

Lemma str_app_cons c s t : (String c s +:+ t) = String c (s +:+ t).
Proof. done. Qed.
Lemma str_app_nil t : (EmptyString +:+ t) = t.
Proof. done. Qed.
Lemma str_app_nil_r t : (t +:+ EmptyString) = t.
Proof. induction t as [|c t IH]; [done|]. by rewrite str_app_cons, IH. Qed.
Lemma str_app_assoc s t u : ((s +:+ t) +:+ u) = (s +:+ (t +:+ u)).
Proof. induction s as [|c s IH]; [done|]. by rewrite !str_app_cons, IH. Qed.
#[export] Hint Rewrite str_app_cons str_app_nil str_app_nil_r str_app_assoc : gravity_rw.

(** The parts of a concatenation. *)
Lemma str_take_app s t : str_take (String.length s) (s +:+ t) = s.
Proof.
  unfold str_take. induction s as [|c s IH]; [by destruct t|].
  rewrite str_app_cons. cbn [String.length String.substring]. by rewrite IH.
Qed.
Lemma str_drop_app s t : str_drop (String.length s) (s +:+ t) = t.
Proof. induction s as [|c s IH]; [by destruct t|]. by rewrite str_app_cons. Qed.
Lemma str_length_app s t : String.length (s +:+ t) = String.length s + String.length t.
Proof. induction s as [|c s IH]; [done|]. rewrite str_app_cons. cbn. by rewrite IH. Qed.

(** ** Trimming *)

Definition trim_right_inplace (s delimiters : string) : string :=
  match find_last_not_of delimiters s with
  | Some i => str_take (S i) s
  | None => str_take 0 s  (* npos + 1 = 0 *)
  end.

Definition trim_left_inplace (s delimiters : string) : string :=
  match find_first_not_of delimiters s with
  | Some i => str_drop i s
  | None => str_drop (String.length s) s
  end.

Definition trim (s delimiters : string) : string :=
  trim_left_inplace (trim_right_inplace s delimiters) delimiters.

(** The string neither starts nor ends with a delimiter. *)
Fixpoint last_char (s : string) : option ascii :=
  match s with
  | EmptyString => None
  | String c EmptyString => Some c
  | String _ s => last_char s
  end.
Definition head_char (s : string) : option ascii :=
  match s with
  | EmptyString => None
  | String c _ => Some c
  end.
Definition bare (delimiters s : string) : Prop :=
  (∀ c, head_char s = Some c → char_in c delimiters = false) ∧
  (∀ c, last_char s = Some c → char_in c delimiters = false).

Lemma last_char_cons c s : s ≠ EmptyString → last_char (String c s) = last_char s.
Proof. by destruct s. Qed.

(** What trimming on the right keeps, and what it drops. *)
Lemma trim_right_spec delimiters s :
  ∃ post, s = (trim_right_inplace s delimiters +:+ post) ∧
    all_chars (λ c, char_in c delimiters) post = true ∧
    (∀ c, last_char (trim_right_inplace s delimiters) = Some c →
      char_in c delimiters = false).
Proof.
  unfold trim_right_inplace.
  induction s as [|c s IH]; [by exists EmptyString|].
  cbn [find_last_not_of].
  destruct (find_last_not_of delimiters s) as [i|] eqn:Hl.
  - destruct IH as (post & Heq & Hall & Hlast). exists post.
    change (str_take (S (S i)) (String c s)) with (String c (str_take (S i) s)).
    split_and!; [by rewrite str_app_cons, <-Heq|done|].
    intros d. destruct (str_take (S i) s) eqn:E; [|by apply Hlast].
    exfalso. destruct s; [done|]. done.
  - destruct IH as (post & Heq & Hall & Hlast).
    rewrite str_take_0, str_app_nil in Heq. rewrite str_take_0. subst post.
    destruct (char_in c delimiters) eqn:Hc.
    + exists (String c s). split_and!; [done| |done]. cbn. by rewrite Hc.
    + exists s. destruct s as [|d s]; cbn; split_and!; try done; intros ? [= <-]; done.
Qed.

Lemma trim_left_spec delimiters s :
  ∃ pre, s = (pre +:+ trim_left_inplace s delimiters) ∧
    all_chars (λ c, char_in c delimiters) pre = true ∧
    (∀ c, head_char (trim_left_inplace s delimiters) = Some c →
      char_in c delimiters = false).
Proof.
  unfold trim_left_inplace.
  induction s as [|c s IH]; [by exists EmptyString|].
  cbn [find_first_not_of].
  destruct (char_in c delimiters) eqn:Hc; cbn.
  - destruct IH as (pre & Heq & Hall & Hhead).
    destruct (find_first_not_of delimiters s) as [i|] eqn:Hl; cbn in *;
      exists (String c pre); cbn; rewrite Hc, Hall, str_app_cons; split_and!;
        try done; by f_equal.
  - exists EmptyString. split_and!; [done..|]. by intros ? [= <-].
Qed.

(** Dropping a prefix changes the last character only when nothing is left. *)
Lemma last_char_app s t c :
  last_char t = Some c → last_char (s +:+ t) = Some c.
Proof.
  intros Ht. induction s as [|d s IH]; [done|].
  rewrite str_app_cons, last_char_cons; [done|].
  destruct s; [|done]. by destruct t.
Qed.

(** ** Replacing *)

Section replaceAll.
Variables oldValue newValue : string.

(** [target.replace(pos, oldValue.size(), newValue)] *)
Definition str_replace (target : string) (pos : nat) : string :=
  str_take pos target +:+
    (newValue +:+ str_drop (pos + String.length oldValue) target).

(** The [while] loop; [target.find(oldValue)] starts at 0 every time. *)
Fixpoint replace_loop (fuel : nat) (target : string) : option string :=
  match String.index 0 oldValue target with
  | None => Some target
  | Some pos =>
      match fuel with
      | O => None
      | S fuel => replace_loop fuel (str_replace target pos)
      end
  end.

Definition replaceAll (fuel : nat) (target : string) : option string :=
  if decide (oldValue = EmptyString) then Some target
  else replace_loop fuel target.

Lemma str_drop_add n m s : str_drop (n + m) s = str_drop m (str_drop n s).
Proof.
  revert s. induction n as [|n IH]; intros s; [done|].
  destruct s; [by destruct m|]. apply IH.
Qed.

Lemma substring_drop n m s : String.substring n m s = str_take m (str_drop n s).
Proof.
  revert n. induction s as [|c s IH]; intros [|n]; [done|by destruct m|done|].
  apply IH.
Qed.

(** Around an occurrence, the target is prefix, [oldValue], suffix. *)
Lemma index_split target pos :
  String.index 0 oldValue target = Some pos →
  target = (str_take pos target +:+
    (oldValue +:+ str_drop (pos + String.length oldValue) target)).
Proof.
  intros Hi. pose proof (String.index_correct1 _ _ _ _ Hi) as Hs.
  rewrite substring_drop in Hs.
  rewrite (str_take_drop pos target) at 1. f_equal.
  rewrite (str_take_drop (String.length oldValue) (str_drop pos target)) at 1.
  by rewrite Hs, str_drop_add.
Qed.

Lemma count_replace c target pos :
  String.index 0 oldValue target = Some pos →
  count_char c (str_replace target pos) + count_char c oldValue =
    count_char c target + count_char c newValue.
Proof.
  intros Hi. pose proof (index_split _ _ Hi) as Hs.
  apply (f_equal (count_char c)) in Hs. rewrite !count_char_app in Hs.
  unfold str_replace. rewrite !count_char_app. lia.
Qed.
End replaceAll.

(** A string is found where it occurs. *)
Lemma prefix_app p s : String.prefix p (p +:+ s) = true.
Proof.
  induction p as [|c p IH]; [by destruct s|]. rewrite str_app_cons. cbn.
  destruct (Ascii.ascii_dec c c); [|congruence]. apply IH.
Qed.

Lemma index_occurs pat pre post : ∃ pos, String.index 0 pat (pre +:+ (pat +:+ post)) = Some pos.
Proof.
  induction pre as [|c pre IH].
  - rewrite str_app_nil. pose proof (prefix_app pat post) as Hp.
    destruct (pat +:+ post) as [|c t] eqn:E.
    + destruct pat; [by exists 0|done].
    + cbn [String.index]. rewrite Hp. by exists 0.
  - rewrite str_app_cons. cbn. destruct IH as [pos Hpos]. rewrite Hpos.
    match goal with |- context [if ?b then _ else _] => destruct b end; eauto.
Qed.

(** ** File names *)

(** A [char] is signed. *)
Definition char_value (c : ascii) : Z :=
  let n := Z.of_N (N_of_ascii c) in if (n <? 128)%Z then n else (n - 256)%Z.

Definition dquote : ascii := ascii_of_nat 34.
Definition restrictedChars : string := "/\?%*:|" +:+ String dquote "<>".

(** The loop over the characters: [None] when it returns [false], else the number
    of dots. *)
Fixpoint filename_loop (filename : string) (numDots : nat) : option nat :=
  match filename with
  | EmptyString => Some numDots
  | String c rest =>
      if (char_value c <? 31)%Z then None
      else if char_in c restrictedChars then None
      else filename_loop rest (if decide (c = "."%char) then S numDots else numDots)
  end.

Definition IsValidFilename (filename : string) : bool :=
  match filename_loop filename 0 with
  | None => false
  | Some numDots => if decide (numDots = String.length filename) then false else true
  end.

Definition filename_char_ok (c : ascii) : bool :=
  negb (char_value c <? 31)%Z && negb (char_in c restrictedChars).

Lemma filename_loop_spec s n :
  filename_loop s n =
    if all_chars filename_char_ok s then Some (n + count_char "."%char s) else None.
Proof.
  revert n. induction s as [|c s IH]; intros n; cbn; [f_equal; lia|].
  unfold filename_char_ok at 1.
  destruct (char_value c <? 31)%Z; [done|]. destruct (char_in c restrictedChars); [done|].
  rewrite IH. cbn.
  destruct (all_chars filename_char_ok s); [|done].
  do 2 case_decide; try congruence; f_equal; lia.
Qed.

Lemma count_char_all c s :
  count_char c s = String.length s ↔ all_chars (λ d, bool_decide (c = d)) s = true.
Proof.
  assert (Hle : ∀ t, count_char c t ≤ String.length t).
  { intros t. induction t; cbn; [done|]. case_decide; lia. }
  induction s as [|d s IH]; [done|]. cbn. specialize (Hle s).
  rewrite andb_true_iff, bool_decide_eq_true.
  case_decide; split; intros; destruct_and?; try done; try lia.
  - split; [done|]. apply IH. lia.
  - f_equal. by apply IH.
Qed.

(** ** Numbers *)

(** [isspace] in the classic locale. *)
Definition is_space (c : ascii) : bool :=
  char_in c (String " " (String "009" (String "010" (String "011" (String "012"
    (String "013" EmptyString)))))).

Fixpoint skip_space (s : string) : string :=
  match s with
  | String c s' => if is_space c then skip_space s' else s
  | EmptyString => s
  end.

Definition digit (c : ascii) : option Z :=
  let n := Z.of_N (N_of_ascii c) in
  if ((48 <=? n) && (n <=? 57))%Z%bool then Some (n - 48)%Z else None.

(** The digits at the start of [s] as a number, and whether there was one. *)
Fixpoint read_digits (s : string) (acc : Z) (seen : bool) : Z * bool :=
  match s with
  | EmptyString => (acc, seen)
  | String c s =>
      match digit c with
      | Some d => read_digits s (acc * 10 + d)%Z true
      | None => (acc, seen)
      end
  end.

(** [ss >> ret_val] for an [int]: blanks, a sign, decimal digits; it fails without
    a digit and for a number an [int] cannot hold. *)
Definition extract_int (s : string) : option Z :=
  let s := skip_space s in
  let '(sign, s) :=
    match s with
    | String "-" s' => ((-1)%Z, s')
    | String "+" s' => (1%Z, s')
    | _ => (1%Z, s)
    end in
  let '(n, seen) := read_digits s 0 false in
  if seen && bool_decide (is_s32 (sign * n)) then Some (sign * n)%Z else None.

Definition StringToInt (str : string) (default_value : Z) : Z :=
  match extract_int str with
  | Some ret_val => ret_val
  | None => default_value
  end.

Definition in_range (a b : ascii) (c : ascii) : bool :=
  (N_of_ascii a <=? N_of_ascii c)%N && (N_of_ascii c <=? N_of_ascii b)%N.
(** [tolower] of the locale "C" *)
Definition c_tolower (c : ascii) : ascii :=
  if in_range "A" "Z" c then ascii_of_N (N_of_ascii c + 32) else c.

(** [ctype<char>::tolower] of the user's locale is a parameter. *)
Fixpoint StringToLowerCase (tolower : ascii → ascii) (str : string) : string :=
  match str with
  | EmptyString => EmptyString
  | String c str => String (tolower c) (StringToLowerCase tolower str)
  end.

(** ** Time *)

(** [clock_gettime] returned [tv_sec] and [tv_nsec]; the result is in microseconds. *)
Definition getCurrentTime (tv_sec tv_nsec : Z) : Z :=
  u64 (u64 (tv_sec * 1000000) + u64 tv_nsec / 1000).

(** The argument given to [usleep]; [None] when the multiplication overflows. *)
Definition sleep (milliseconds : Z) : option Z :=
  let milliseconds := Z.max 0 milliseconds in
  if decide (is_s32 (milliseconds * 1000)) then Some (milliseconds * 1000)%Z else None.

(** * Properties *)

(** [trim] removes exactly the delimiters around a string: the string is a run of
    delimiters, the result and another run of delimiters, and the result neither starts nor
    ends with a delimiter. *)
Theorem trim_correct s delimiters :
  ∃ pre post, s = (pre +:+ (trim s delimiters +:+ post)) ∧
    all_chars (λ c, char_in c delimiters) pre = true ∧
    all_chars (λ c, char_in c delimiters) post = true ∧
    bare delimiters (trim s delimiters).
Proof.
  destruct (trim_right_spec delimiters s) as (post & Heq & Hpost & Hlast).
  unfold trim.
  destruct (trim_left_spec delimiters (trim_right_inplace s delimiters))
    as (pre & Heq' & Hpre & Hhead).
  set (t := trim_left_inplace _ _) in *.
  exists pre, post. split_and!; try done.
  - by rewrite Heq at 1; rewrite Heq' at 1; rewrite str_app_assoc.
  - split; [done|]. intros c Hc. apply Hlast. rewrite Heq'. by apply last_char_app.
Qed.

Lemma replace_loop_total oldValue newValue c fuel target :
  count_char c newValue < count_char c oldValue → count_char c target ≤ fuel →
  ∃ t, replace_loop oldValue newValue fuel target = Some t ∧
    String.index 0 oldValue t = None.
Proof.
  intros Hc. revert target. induction fuel as [|fuel IH]; intros target Hle;
    cbn [replace_loop]; (destruct (String.index 0 oldValue target) eqn:Hi; [|by eauto]).
  - pose proof (count_replace oldValue newValue c target n Hi). lia.
  - pose proof (count_replace oldValue newValue c target n Hi). apply IH. lia.
Qed.

(** [replaceAll] terminates whenever some character occurs more often in the old value than
    in the new one (the number of its occurrences in the target bounds the iterations), and the
    result no longer contains the old value.  The Service Directory's own use, replacing
    localhost by 127.0.0.1, is of this kind. *)
Theorem replaceAll_terminates oldValue newValue c target fuel :
  count_char c newValue < count_char c oldValue → count_char c target ≤ fuel →
  ∃ t, replaceAll oldValue newValue fuel target = Some t ∧
    String.index 0 oldValue t = None.
Proof.
  intros Hc Hle. unfold replaceAll.
  destruct (decide (oldValue = EmptyString)) as [->|]; [cbn in Hc; lia|].
  by apply (replace_loop_total _ _ c).
Qed.

Example replaceAll_terminates_witness :
  ∃ t, replaceAll "localhost" "127.0.0.1" 3 "tcp://localhost:5555" = Some t ∧
    String.index 0 "localhost" t = None.
Proof. apply (replaceAll_terminates _ _ "l"%char); vm_compute; lia. Defined.

Lemma replace_loop_diverges oldValue newValue pre post fuel a b :
  newValue = (pre +:+ (oldValue +:+ post)) →
  replace_loop oldValue newValue fuel (a +:+ (oldValue +:+ b)) = None.
Proof.
  intros Hn.
  assert (E : ∀ x, (newValue +:+ x) = (pre +:+ (oldValue +:+ (post +:+ x)))).
  { intros x. by rewrite Hn, !str_app_assoc. }
  revert a b. induction fuel as [|fuel IH]; intros a b; cbn [replace_loop];
    destruct (index_occurs oldValue a b) as [pos Hpos]; rewrite Hpos; [done|].
  unfold str_replace. rewrite E, <-(str_app_assoc _ pre). apply IH.
Qed.

(** [replaceAll] never returns when the new value contains the old one and the old one
    occurs in the target: no amount of fuel is enough, because the search restarts at position 0
    after each replacement and finds the occurrence it has just written. *)
Theorem replaceAll_diverges oldValue newValue pre post a b fuel :
  oldValue ≠ EmptyString → newValue = (pre +:+ (oldValue +:+ post)) →
  replaceAll oldValue newValue fuel (a +:+ (oldValue +:+ b)) = None.
Proof.
  intros Hne Hn. unfold replaceAll. rewrite decide_False by done.
  by apply (replace_loop_diverges _ _ pre post).
Qed.

Example replaceAll_diverges_witness :
  replaceAll "tcp" "tcps" 1000 "tcp://host" = None.
Proof.
  apply (replaceAll_diverges "tcp" "tcps" "" "s" "" "://host" 1000);
    [discriminate|reflexivity].
Defined.

(** [IsValidFilename] accepts exactly the names of which every character is neither a
    control character below 31 nor negative as a [char] nor one of the restricted ones, and that
    are not made of dots only (so not empty). *)
Theorem IsValidFilename_spec filename :
  IsValidFilename filename = true ↔
    all_chars filename_char_ok filename = true ∧
    all_chars (λ c, bool_decide ("."%char = c)) filename = false.
Proof.
  unfold IsValidFilename. rewrite filename_loop_spec, Nat.add_0_l.
  destruct (all_chars filename_char_ok filename); [|naive_solver].
  case_decide as Hd.
  - apply count_char_all in Hd. rewrite Hd. naive_solver.
  - rewrite count_char_all in Hd. apply not_true_is_false in Hd. rewrite Hd. naive_solver.
Qed.

(** [sleep] hands [usleep] the clamped number of milliseconds in microseconds exactly when it
    is at most 2147483 (about 35 minutes); beyond, the [int] multiplication overflows. *)
Theorem sleep_bounds milliseconds :
  (sleep milliseconds = Some (Z.max 0 milliseconds * 1000)%Z ↔ (milliseconds <= 2147483)%Z) ∧
  (sleep milliseconds = None ↔ (2147483 < milliseconds)%Z).
Proof.
  unfold sleep, is_s32. case_decide as Hd.
  - split; split; intros; try done; lia.
  - split; split; intros; try done; lia.
Qed.
