(* ===== verification/GravityLogger.v ===== *)
(** * Logging: levels, loggers and log files
    (src/src/api/cpp/GravityLogger.cpp, GravityLogger.h)

    The loggers are a list of addresses with the set of levels each wants, as bits.  A call to
    a logger is an output.  [vsnprintf] with the arguments of the call is a function of the
    format; the file system is a map from names to contents.  [None] is undefined behaviour:
    an access outside of a string, or a second [fclose]. *)

From Stdlib Require Import Ascii.
From S2P Require Import Prelude.
From S2P Require Import Utility.
#[local] Open Scope gravity_scope.
#[local] Open Scope Z_scope.

(** ** Levels *)

Inductive LogLevel := NONE | FATAL | CRITICAL | WARNING | MESSAGE | DEBUG | TRACE.
#[export] Instance LogLevel_eq_dec : EqDecision LogLevel.
Proof. solve_decision. Defined.

Definition LogLevel_code (level : LogLevel) : Z :=
  match level with
  | NONE => 0
  | FATAL => 1
  | CRITICAL => Z.shiftl 1 1
  | WARNING => Z.shiftl 1 2
  | MESSAGE => Z.shiftl 1 3
  | DEBUG => Z.shiftl 1 4
  | TRACE => Z.shiftl 1 5
  end.

Definition LogLevelToString (level : LogLevel) : string :=
  match level with
  | FATAL => "FATAL"
  | CRITICAL => "CRITICAL"
  | WARNING => "WARNING"
  | MESSAGE => "MESSAGE"
  | DEBUG => "DEBUG"
  | TRACE => "TRACE"
  | NONE => ""
  end.

Definition LogStringToLevel (tolower : ascii → ascii) (level : string) : LogLevel :=
  let llevel := StringToLowerCase tolower level in
  if decide (llevel = "fatal") then FATAL
  else if decide (llevel = "critical") then CRITICAL
  else if decide (llevel = "warning") then WARNING
  else if decide (llevel = "message") then MESSAGE
  else if decide (llevel = "debug") then DEBUG
  else if decide (llevel = "trace") then TRACE
  else NONE.

(** The bits of the level and of those above it. *)
Definition bits (levels : list LogLevel) : Z := foldl (λ b l, Z.lor b (LogLevel_code l)) 0 levels.

Definition LevelToInt (level : LogLevel) : Z :=
  match level with
  | FATAL => bits [FATAL]
  | CRITICAL => bits [FATAL; CRITICAL]
  | WARNING => bits [FATAL; CRITICAL; WARNING]
  | MESSAGE => bits [FATAL; CRITICAL; WARNING; MESSAGE]
  | DEBUG => bits [FATAL; CRITICAL; WARNING; MESSAGE; DEBUG]
  | TRACE => bits [FATAL; CRITICAL; WARNING; MESSAGE; DEBUG; TRACE]
  | NONE => 0
  end.

(** ** The search for %n *)

(** The first position from [pos] on of a character with [p]. *)
Fixpoint find_char (p : ascii → bool) (s : string) (pos : nat) : option nat :=
  match s, pos with
  | EmptyString, _ => None
  | String c s, O => if p c then Some O else S <$> find_char p s O
  | String _ s, S pos => S <$> find_char p s pos
  end.

Definition subspecs : string := "-+0 #0123456789.*hlLzjt".

Section logging.
(** The array of characters has no terminator: [find_first_not_of] goes on through the bytes
    behind it in memory, up to the first zero. *)
Variable behind_subspecs : string.

Definition is_subspec (c : ascii) : bool := char_in c (subspecs +:+ behind_subspecs).

Fixpoint detect_loop (fuel : nat) (checkStr : string) (pos : nat) : option Z :=
  match fuel with
  | O => None
  | S fuel =>
      if decide (pos < String.length checkStr)%nat then
        match find_char (λ c, bool_decide (c = "%"%char)) checkStr pos with
        | None => Some (-1)
        | Some percentPos =>
            match find_char (λ c, negb (is_subspec c)) checkStr (S percentPos) with
            | None => None
            | Some pos =>
                if decide (String.get pos checkStr = Some "n"%char) then Some (Z.of_nat percentPos)
                else detect_loop fuel checkStr pos
            end
        end
      else Some (-1)
  end.

Definition detectPercentN (format : string) : option Z :=
  detect_loop (S (String.length format)) format 0.

(** ** Messages *)

Definition maxStrLen : nat := 4096.
Definition truncStr : string := " !!!!!!!!! '%n' DETECTED, MESSAGE TRUNCATED".

(** [vsnprintf] of a size: one character less. *)
Definition printed (size : nat) (output : string) : string := str_take (size - 1) output.

Definition format_message (vsnprintf : string → string) (format : string) : option string :=
  percentNPos ← detectPercentN format;
  if decide (0 <= percentNPos) then
    let truncLen := (Z.to_nat percentNPos `min` (maxStrLen - String.length truncStr - 1))%nat in
    let truncFormat := str_take truncLen format in
    Some (printed truncLen (vsnprintf truncFormat) +:+ truncStr)
  else Some (printed maxStrLen (vsnprintf format)).

(** ** The list of loggers *)

Abbreviation Loggers := (list (Z * Z)) (only parsing).

Definition initAndAddLogger (logger : Z) (log_level : LogLevel) (loggers : Loggers) : Loggers :=
  if decide (logger ∈ loggers.*1) then loggers else loggers ++ [(logger, LevelToInt log_level)].

Definition RemoveLogger (logger : Z) (loggers : Loggers) : Loggers :=
  base.filter (λ i, i.1 ≠ logger) loggers.

Definition CloseLoggers (_ : Loggers) : Loggers := [].
Definition NumberOfLoggers (loggers : Loggers) : nat := length loggers.

(** The loggers that are called, with the message. *)
Definition vLog (vsnprintf : string → string) (level : LogLevel) (format : string) (loggers : Loggers)
    : option (list (Z * string)) :=
  match loggers with
  | [] => Some []
  | _ =>
      messageStr ← format_message vsnprintf format;
      Some ((λ i, (i.1, messageStr))
        <$> base.filter (λ i, Z.land i.2 (LogLevel_code level) ≠ 0) loggers)
  end.

(** The functions [fatal] to [trace] (there is none for [NONE]): those above the level of the
    compilation are empty. *)
Definition GRAVITY_LOG (level : LogLevel) : Z :=
  match level with
  | NONE => -1 | FATAL => 0 | CRITICAL => 1 | WARNING => 2 | MESSAGE => 3 | DEBUG => 4 | TRACE => 5
  end.

Definition log_call (COMPILE_GRAVITY_LOGGING_LEVEL : Z) (vsnprintf : string → string) (level : LogLevel)
    (format : string) (loggers : Loggers) : option (list (Z * string)) :=
  if decide (GRAVITY_LOG level <= COMPILE_GRAVITY_LOGGING_LEVEL)
  then vLog vsnprintf level format loggers else Some [].
End logging.

(** ** Loggers to a file *)

Abbreviation FileSystem := (gmap string string) (only parsing).

Record FileLogger := mkFileLogger {
  fl_filename : string;
  (* the name of the open stream; [None] once it is closed *)
  fl_log_file : option string;
  fl_component_id : string;
  fl_close_file_after_write : bool;
}.
#[export] Instance eta_FileLogger : Eta FileLogger := λ l,
  mkFileLogger (fl_filename l) (fl_log_file l) (fl_component_id l) (fl_close_file_after_write l).

Definition log_filename (log_dir component_id : string) : string :=
  if decide (log_dir = "" ∨ last_char log_dir = Some "/"%char)
  then log_dir +:+ component_id +:+ ".log"
  else log_dir +:+ "/" +:+ component_id +:+ ".log".

(** The file that is opened to append to; [/dev/null] can always be opened. *)
Definition open_log (can_open : string → bool) (filename : string) : string :=
  if can_open filename then filename
  else if can_open "Gravity.log" then "Gravity.log" else "/dev/null".

Definition new_FileLogger (can_open : string → bool) (log_dir comp_id : string) (close_file : bool)
    : FileLogger :=
  let filename := log_filename log_dir comp_id in
  mkFileLogger filename (if close_file then None else Some (open_log can_open filename)) comp_id
    close_file.

Definition newline : string := String (ascii_of_nat 10) "".

Definition log_line (timestr component_id : string) (level : LogLevel) (messagestr : string) : string :=
  "[" +:+ timestr +:+ " " +:+ component_id +:+ "-" +:+ LogLevelToString level +:+ "] "
    +:+ messagestr +:+ newline.

Definition append_file (name line : string) (files : FileSystem) : FileSystem :=
  if decide (name = "/dev/null") then files
  else <[name := default "" (files !! name) +:+ line]> files.

(** [Log]; a logger that closes its file opens it for every message, and gives up when there
    is nothing but [/dev/null].  [None] when the stream was closed. *)
Definition file_log (can_open : string → bool) (timestr : string) (level : LogLevel)
    (messagestr : string) (l : FileLogger) (files : FileSystem) : option (FileLogger * FileSystem) :=
  let line := log_line timestr (fl_component_id l) level messagestr in
  if fl_close_file_after_write l then
    let name := open_log can_open (fl_filename l) in
    if can_open (fl_filename l) || can_open "Gravity.log"
    then Some (l <| fl_log_file := None |>, append_file name line files)
    else Some (l <| fl_log_file := Some name |>, files)
  else
    match fl_log_file l with
    | Some name => Some (l, append_file name line files)
    | None => None
    end.

(** The destructor closes the stream. *)
Definition delete_FileLogger (l : FileLogger) : option FileLogger :=
  match fl_log_file l with
  | Some _ => Some (l <| fl_log_file := None |>)
  | None => None
  end.
