(* ===== verification/GravityLoggerProofs.v ===== *)
(** * Properties of logging

    Which loggers a message reaches; that the search for %n ends and what it finds; that a
    message fits its buffer; names of levels; what a log file contains. *)

From Stdlib Require Import Ascii.
From S2P Require Import Prelude.
From S2P Require Import Utility.
From S2P Require Import GravityLogger.
#[local] Open Scope gravity_scope.
#[local] Open Scope Z_scope.

(** ** Levels *)

(** From the most severe level on. *)
Definition severity (level : LogLevel) : Z :=
  match level with
  | NONE => 0 | FATAL => 1 | CRITICAL => 2 | WARNING => 3 | MESSAGE => 4 | DEBUG => 5 | TRACE => 6
  end.

Lemma level_bits level threshold : level ≠ NONE →
  Z.land (LevelToInt threshold) (LogLevel_code level) ≠ 0 ↔ severity level <= severity threshold.
Proof. intros Hl. destruct level, threshold; try done; vm_compute; split; congruence. Qed.

Lemma lower_capitals tolower s :
  (∀ c, in_range "A" "Z" c = true → tolower c = c_tolower c) → all_chars (in_range "A" "Z") s = true →
  StringToLowerCase tolower s = StringToLowerCase c_tolower s.
Proof.
  intros Ht. induction s as [|c s IH]; [done|]. cbn. intros [Hc Hs]%andb_true_iff.
  by rewrite Ht, IH.
Qed.

(** The name of a level is read back as that level, in every locale that maps the capital
    letters A to Z to the small ones. *)
Theorem log_level_roundtrip tolower level :
  (∀ c, in_range "A" "Z" c = true → tolower c = c_tolower c) →
  LogStringToLevel tolower (LogLevelToString level) = level.
Proof.
  intros Ht. unfold LogStringToLevel. rewrite (lower_capitals tolower) by (done || by destruct level).
  by destruct level.
Qed.

Lemma log_level_roundtrip_witness : LogStringToLevel c_tolower "WARNING" = WARNING.
Proof. apply (log_level_roundtrip c_tolower WARNING). done. Defined.

(** ** Loggers *)

Inductive LoggerOperation :=
| AddLogger (logger : Z) (level : LogLevel)
| DropLogger (logger : Z)
| CloseAll.

Definition logger_operation (loggers : list (Z * Z)) (op : LoggerOperation) : list (Z * Z) :=
  match op with
  | AddLogger a level => initAndAddLogger a level loggers
  | DropLogger a => RemoveLogger a loggers
  | CloseAll => CloseLoggers loggers
  end.

(** What a logger was added with, if it is there: a second addition does nothing. *)
Definition threshold_step (a : Z) (t : option LogLevel) (op : LoggerOperation) : option LogLevel :=
  match op with
  | AddLogger b level => if decide (a = b) then (match t with Some _ => t | None => Some level end) else t
  | DropLogger b => if decide (a = b) then None else t
  | CloseAll => None
  end.
Definition logger_threshold (ops : list LoggerOperation) (a : Z) : option LogLevel :=
  foldl (threshold_step a) None ops.

Lemma NoDup_fmap_filter {A B} (f : A → B) (P : A → Prop) `{∀ x, Decision (P x)} l :
  NoDup (f <$> l) → NoDup (f <$> base.filter P l).
Proof.
  induction l as [|x l IH]; [done|]. rewrite filter_cons, fmap_cons. intros [Hx Hl]%NoDup_cons.
  case_decide; [|by apply IH]. cbn. apply NoDup_cons. split; [|by apply IH].
  intros (y & Hy & [_ Hyl]%list_elem_of_filter)%list_elem_of_fmap. apply Hx. rewrite Hy.
  by apply list_elem_of_fmap_2.
Qed.

(** The list holds the loggers with their thresholds, each once. *)
Definition loggers_ok (threshold : Z → option LogLevel) (loggers : list (Z * Z)) : Prop :=
  NoDup loggers.*1 ∧
  ∀ a b, (a, b) ∈ loggers ↔ ∃ level, threshold a = Some level ∧ b = LevelToInt level.

Lemma loggers_ok_fst threshold loggers a :
  loggers_ok threshold loggers → a ∈ loggers.*1 ↔ is_Some (threshold a).
Proof.
  intros [_ Hl]. rewrite list_elem_of_fmap. split.
  - intros ([a' b] & -> & (level & Hlev & _)%Hl). cbn. by eexists.
  - intros [level Hlev]. exists (a, LevelToInt level). split; [done|]. apply Hl. eauto.
Qed.

Lemma logger_operation_ok threshold loggers op :
  loggers_ok threshold loggers →
  loggers_ok (λ a, threshold_step a (threshold a) op) (logger_operation loggers op).
Proof.
  intros Hok. pose proof (loggers_ok_fst threshold loggers) as Hfst. destruct Hok as [Hd Hl].
  destruct op as [x level|x|]; cbn.
  - unfold initAndAddLogger. destruct (decide (x ∈ loggers.*1)) as [Hx|Hx].
    + split; [done|]. intros a b. rewrite Hl. destruct (decide (a = x)) as [->|]; [|done].
      apply Hfst in Hx as [l ->]; done.
    + split.
      { rewrite fmap_app. apply NoDup_app. split; [done|]. split; [|apply NoDup_singleton].
        cbn. by intros y Hy ->%list_elem_of_singleton. }
      intros a b. rewrite elem_of_app, list_elem_of_singleton, Hl.
      assert (Hn : threshold x = None).
      { apply eq_None_not_Some. intros Hs%Hfst; done. }
      destruct (decide (a = x)) as [->|Hne]; [rewrite Hn|]; naive_solver.
  - unfold RemoveLogger. split.
    + by apply NoDup_fmap_filter.
    + intros a b. rewrite list_elem_of_filter, Hl. cbn. case_decide; naive_solver.
  - split; [by apply NoDup_nil|]. intros a b. unfold CloseLoggers.
    split; [by intros ?%not_elem_of_nil|naive_solver].
Qed.

Lemma logger_operations_ok ops threshold loggers :
  loggers_ok threshold loggers →
  loggers_ok (λ a, foldl (threshold_step a) (threshold a) ops) (foldl logger_operation loggers ops).
Proof.
  revert threshold loggers. induction ops as [|op ops IH]; intros threshold loggers Hok; [done|].
  cbn. apply IH. by apply logger_operation_ok.
Qed.

(** C40. After any operations a message of a level that was compiled in reaches exactly the loggers
    that were added, and not removed since, with a level no more severe; each once, with the
    same text. *)
Theorem message_reaches_loggers behind compiled vsnprintf ops level format calls :
  level ≠ NONE →
  log_call behind compiled vsnprintf level format (foldl logger_operation [] ops) = Some calls →
  NoDup calls.*1 ∧
  ∀ a text, (a, text) ∈ calls ↔
    GRAVITY_LOG level <= compiled ∧ format_message behind vsnprintf format = Some text ∧
    ∃ threshold, logger_threshold ops a = Some threshold ∧ severity level <= severity threshold.
Proof.
  intros Hlevel. unfold log_call. case_decide as Hc.
  2:{ intros [= <-]. split; [by apply NoDup_nil|]. intros a text.
      split; [by intros ?%not_elem_of_nil|by intros [? _]]. }
  assert (Hok : loggers_ok (logger_threshold ops) (foldl logger_operation [] ops)).
  { apply (logger_operations_ok ops (λ _, None)). split; [by apply NoDup_nil|].
    intros a b. split; [by intros ?%not_elem_of_nil|naive_solver]. }
  revert Hok. generalize (foldl logger_operation [] ops). intros loggers Hok.
  destruct loggers as [|i l] eqn:El; cbn [vLog].
  { intros [= <-]. split; [by apply NoDup_nil|]. intros a text.
    split; [by intros ?%not_elem_of_nil|]. intros (_ & _ & t & Ht & _).
    assert (Hi : is_Some (logger_threshold ops a)) by by eexists.
    by apply (loggers_ok_fst _ _ a Hok), not_elem_of_nil in Hi. }
  rewrite <- El in *. clear El i l.
  destruct (format_message behind vsnprintf format) as [messageStr|]; [|done]. cbn.
  intros [= <-]. destruct Hok as [Hd Hl]. split.
  - rewrite <- list_fmap_compose.
    by apply (NoDup_fmap_filter fst).
  - intros a text. rewrite list_elem_of_fmap. split.
    + intros ([a' b] & [= -> ->] & [Hb (t & Ht & ->)%Hl]%list_elem_of_filter). cbn in Hb.
      split; [done|]. split; [done|]. exists t. split; [done|]. by apply level_bits.
    + intros (_ & [= <-] & t & Ht & Hs). exists (a, LevelToInt t). split; [done|].
      apply list_elem_of_filter. split; [cbn; by apply level_bits|]. apply Hl. eauto.
Qed.

Lemma message_reaches_loggers_witness :
  NoDup ([(7, "late")] : list (Z * string)).*1 ∧
  ((7, "late") ∈ [(7, "late")] ↔
    GRAVITY_LOG WARNING <= 5 ∧ format_message "" id "late" = Some "late" ∧
    ∃ threshold, logger_threshold [AddLogger 5 FATAL; AddLogger 7 DEBUG; AddLogger 7 NONE] 7 = Some threshold ∧
      severity WARNING <= severity threshold).
Proof.
  destruct (message_reaches_loggers "" 5 id [AddLogger 5 FATAL; AddLogger 7 DEBUG; AddLogger 7 NONE] WARNING
    "late" [(7, "late")]) as [Hd Hc]; [done|by vm_compute|]. split; [exact Hd|apply Hc].
Defined.

(** ** The search for %n *)

Lemma find_char_Some p s pos e : find_char p s pos = Some e →
  (pos <= e)%nat ∧ (e < String.length s)%nat ∧ (∃ c, String.get e s = Some c ∧ p c = true) ∧
  ∀ i c, (pos <= i < e)%nat → String.get i s = Some c → p c = false.
Proof.
  revert pos e. induction s as [|c s IH]; intros pos e; [by destruct pos|]. cbn.
  destruct pos as [|pos].
  - destruct (p c) eqn:Hc.
    + intros [= <-]. split_and!; [lia|lia|by exists c|]. intros i d Hi. lia.
    + intros (e' & He & ->)%fmap_Some. apply IH in He as (? & ? & Hg & Hb).
      split_and!; [lia|lia|done|]. intros [|i] d Hi; cbn; [by intros [= <-]|]. apply Hb. lia.
  - intros (e' & He & ->)%fmap_Some. apply IH in He as (? & ? & Hg & Hb).
    split_and!; [lia|lia|done|]. intros [|i] d Hi; cbn; [lia|]. apply Hb. lia.
Qed.

Lemma find_char_None p s pos i c :
  find_char p s pos = None → (pos <= i)%nat → String.get i s = Some c → p c = false.
Proof.
  revert pos i. induction s as [|d s IH]; intros pos i; [done|]. cbn. destruct pos as [|pos].
  - destruct (p d) eqn:Hd; [done|]. intros He%fmap_None Hi.
    destruct i as [|i]; [by intros [= <-]|]. apply (IH O); [done|lia].
  - intros He%fmap_None Hi. destruct i as [|i]; [lia|]. apply (IH pos); [done|lia].
Qed.

Lemma get_length i s c : String.get i s = Some c → (i < String.length s)%nat.
Proof.
  revert i. induction s as [|d s IH]; intros i; [done|]. cbn. destruct i; [lia|].
  intros Hi%IH. lia.
Qed.

Section detect.
Variable behind_subspecs : string.

(** At [p] there is a %, then flags, a width or a modifier, and then an n. *)
Definition percent_n (s : string) (p : nat) : Prop :=
  String.get p s = Some "%"%char ∧
  ∃ e, (p < e)%nat ∧ String.get e s = Some "n"%char ∧
    ∀ i c, (p < i < e)%nat → String.get i s = Some c → is_subspec behind_subspecs c = true.
(** At [p] there is a %, and flags, a width or a modifier up to the end. *)
Definition unfinished (s : string) (p : nat) : Prop :=
  String.get p s = Some "%"%char ∧
  ∀ i c, (p < i)%nat → String.get i s = Some c → is_subspec behind_subspecs c = true.

Definition detected (s : string) (r : option Z) : Prop :=
  match r with
  | Some p =>
      p = -1 ∧ (∀ q, ¬ percent_n s q ∧ ¬ unfinished s q) ∨
      0 <= p ∧ percent_n s (Z.to_nat p) ∧ ∀ q, (q < Z.to_nat p)%nat → ¬ percent_n s q
  | None => (∃ p, unfinished s p) ∧ ∀ q, ¬ percent_n s q
  end.

Lemma percent_n_end s q e : is_subspec behind_subspecs "n" = false →
  percent_n s q → (q < e)%nat → (∀ i c, (q < i < e)%nat → String.get i s = Some c →
    is_subspec behind_subspecs c = true) →
  (∃ c, String.get e s = Some c ∧ is_subspec behind_subspecs c = false) → String.get e s = Some "n"%char.
Proof.
  intros Hn [_ (e' & Hqe & He' & Hb')] Hlt Hb (c & Hc & Hs).
  destruct (lt_eq_lt_dec e e') as [[Hl|<-]|Hl]; [|done|].
  - specialize (Hb' e c). rewrite Hb' in Hs; [done|lia|done].
  - rewrite (Hb e' "n"%char) in Hn; [done|lia|done].
Qed.

Lemma detect_loop_spec fuel s pos :
  is_subspec behind_subspecs "n" = false → (pos <= String.length s < fuel + pos)%nat →
  (∀ q, (q < pos)%nat → ¬ percent_n s q ∧ ¬ unfinished s q) →
  detected s (detect_loop behind_subspecs fuel s pos).
Proof.
  intros Hn. revert pos. induction fuel as [|fuel IH]; intros pos Hf Hq; [lia|]. cbn [detect_loop].
  destruct (decide (pos < String.length s)%nat) as [Hlt|Hge].
  2:{ left. split; [done|]. intros q. destruct (decide (q < pos)%nat) as [|Hqp]; [by apply Hq|].
      split; intros [Hg%get_length _]; lia. }
  destruct (find_char (λ c, bool_decide (c = "%"%char)) s pos) as [pp|] eqn:Ep.
  2:{ left. split; [done|]. intros q. destruct (decide (q < pos)%nat) as [|Hqp]; [by apply Hq|].
      split; intros [Hg _]; by apply (find_char_None _ s pos q _ Ep) in Hg; [|lia]. }
  apply find_char_Some in Ep as (Hpp & Hppl & (c & Hc & Hcp) & Hbefore).
  apply bool_decide_eq_true in Hcp as ->.
  assert (Hq' : ∀ q, (q < pp)%nat → ¬ percent_n s q ∧ ¬ unfinished s q).
  { intros q Hqp. destruct (decide (q < pos)%nat) as [|]; [by apply Hq|].
    split; intros [Hg _]; by apply (Hbefore q) in Hg; [|lia]. }
  destruct (find_char (λ c, negb (is_subspec behind_subspecs c)) s (S pp)) as [e|] eqn:Ee.
  - apply find_char_Some in Ee as (He & Hel & (d & Hd & Hds%negb_true_iff) & Hb).
    assert (Hb' : ∀ i c, (pp < i < e)%nat → String.get i s = Some c → is_subspec behind_subspecs c = true).
    { intros i x Hi Hx. apply (Hb i) in Hx; [by apply negb_false_iff in Hx|lia]. }
    destruct (decide (String.get e s = Some "n"%char)) as [Hen|Hen].
    + right. rewrite Nat2Z.id. split; [lia|]. split; [|intros q Hqp; by apply Hq'].
      split; [done|]. exists e. split; [lia|done].
    + apply IH; [lia|]. intros q Hqe. destruct (decide (q < pp)%nat) as [|Hqp]; [by apply Hq'|]. split.
      * intros Hpn. apply Hen. apply (percent_n_end s q e Hn Hpn Hqe); [|by exists d].
        intros i x Hi. apply Hb'. lia.
      * intros [_ Hu]. rewrite (Hu e d) in Hds by done. done.
  - cbn. assert (Hu : ∀ i c, (pp < i)%nat → String.get i s = Some c → is_subspec behind_subspecs c = true).
    { intros i x Hi Hx. apply (find_char_None _ s (S pp) i x Ee) in Hx; [by apply negb_false_iff in Hx|lia]. }
    split; [by exists pp|]. intros q Hpn. destruct (decide (q < pp)%nat) as [Hqp|Hqp].
    + by destruct (Hq' q Hqp).
    + destruct Hpn as [_ (e & Hqe & Hen & _)]. rewrite (Hu e "n"%char) in Hn; [done|lia|done].
Qed.

(** The search for %n ends for every format.  It finds the first position of one, and tells
    formats without one apart, except that a format whose last directive has no conversion
    makes it look behind the end of the string; provided that the bytes behind its table of
    characters do not happen to contain an n. *)
Theorem detectPercentN_spec format :
  char_in "n" behind_subspecs = false → detected format (detectPercentN behind_subspecs format).
Proof.
  intros Hn. apply detect_loop_spec; [|lia|intros q; lia].
  unfold is_subspec, subspecs. autorewrite with gravity_rw. cbn. exact Hn.
Qed.
End detect.

Lemma detectPercentN_spec_witness : detected "" "x%5n" (Some 1).
Proof. apply (detectPercentN_spec "" "x%5n"). done. Defined.

(** A literal percent sign in front of an n counts as %n; a percent sign at the end of the
    text is undefined behaviour; and the table may be longer than it looks. *)
Lemma literal_percent_n_found : detectPercentN "" "100%%name" = Some 4.
Proof. done. Qed.
Lemma final_percent_undefined : detectPercentN "" "load 100%" = None.
Proof. done. Qed.
Lemma unterminated_table : detectPercentN "n" "%nx" = Some (-1).
Proof. done. Qed.

(** ** The text *)

Lemma str_take_length n s : (String.length (str_take n s) <= n)%nat.
Proof.
  unfold str_take. revert n. induction s as [|c s IH]; intros [|n]; cbn; try lia.
  specialize (IH n). lia.
Qed.

(** A message fits the buffer of 4096 characters with its terminator, truncated or not. *)
Theorem message_fits behind vsnprintf format text :
  format_message behind vsnprintf format = Some text → (String.length text < maxStrLen)%nat.
Proof.
  unfold format_message. destruct (detectPercentN behind format) as [p|]; [|done]. cbn -[str_take String.length].
  case_decide; intros [= <-].
  - rewrite str_length_app. unfold printed.
    match goal with |- context [str_take ?n ?s] => pose proof (str_take_length n s) as Hl end.
    unfold maxStrLen in *. change (String.length truncStr) with 43%nat in *. lia.
  - unfold printed. pose proof (str_take_length (maxStrLen - 1) (vsnprintf format)).
    unfold maxStrLen in *. lia.
Qed.

Lemma message_fits_witness : (String.length (" !!!!!!!!! '%n' DETECTED, MESSAGE TRUNCATED") < maxStrLen)%nat.
Proof. apply (message_fits "" id "%n"). by vm_compute. Defined.

(** The text in front of %n loses its last character. *)
Lemma truncation_drops_character :
  format_message "" id "ab%n" = Some ("a" +:+ truncStr).
Proof. by vm_compute. Qed.

(** ** Files *)

Section files.
Variable can_open : string → bool.

(** A message as its time, level and text. *)
Fixpoint log_all (messages : list (string * LogLevel * string)) (l : FileLogger)
    (files : gmap string string) : option (FileLogger * gmap string string) :=
  match messages with
  | [] => Some (l, files)
  | (timestr, level, text) :: messages =>
      '(l, files) ← file_log can_open timestr level text l files; log_all messages l files
  end.

Fixpoint log_lines (comp_id : string) (messages : list (string * LogLevel * string)) : string :=
  match messages with
  | [] => ""
  | (timestr, level, text) :: messages =>
      log_line timestr comp_id level text +:+ log_lines comp_id messages
  end.

(** A logger that writes to the file it is named after. *)
Definition writes_to (name comp_id : string) (l : FileLogger) : Prop :=
  fl_filename l = name ∧ fl_component_id l = comp_id ∧
  (fl_close_file_after_write l = false → fl_log_file l = Some name).

Lemma file_log_writes name comp_id timestr level text l files :
  can_open name = true → name ≠ "/dev/null" → writes_to name comp_id l →
  ∃ l', file_log can_open timestr level text l files =
      Some (l', <[name := default "" (files !! name) +:+ log_line timestr comp_id level text]> files) ∧
    writes_to name comp_id l'.
Proof.
  intros Hopen Hnull (Hname & Hcomp & Hfile). unfold file_log, open_log, append_file.
  rewrite Hname, Hcomp, Hopen. destruct (fl_close_file_after_write l) eqn:Hclose; cbn.
  - rewrite decide_False by done. eexists. split; [done|].
    unfold writes_to. cbn. by rewrite Hclose.
  - rewrite Hfile, decide_False by done. exists l. split; [done|]. unfold writes_to. by rewrite Hclose.
Qed.

Lemma log_all_writes name comp_id messages l files :
  can_open name = true → name ≠ "/dev/null" → writes_to name comp_id l →
  ∃ l' files', log_all messages l files = Some (l', files') ∧
    default "" (files' !! name) = default "" (files !! name) +:+ log_lines comp_id messages ∧
    ∀ other, other ≠ name → files' !! other = files !! other.
Proof.
  intros Hopen Hnull. revert l files. induction messages as [|[[t lv] m] ms IH]; intros l files Hw; cbn.
  { exists l, files. by rewrite str_app_nil_r. }
  destruct (file_log_writes name comp_id t lv m l files Hopen Hnull Hw) as (l1 & -> & Hw1). cbn.
  destruct (IH l1 (<[name := default "" (files !! name) +:+ log_line t comp_id lv m]> files) Hw1)
    as (l' & files' & -> & Hin & Hout).
  exists l', files'. split; [done|]. split.
  - rewrite Hin, lookup_insert_eq. cbn. apply str_app_assoc.
  - intros o Ho. by rewrite Hout, lookup_insert_ne.
Qed.

(** A logger whose file can be opened adds one line per message to that file and to no other,
    whether it keeps the file open or not. *)
Theorem messages_are_logged log_dir comp_id close_file messages files :
  let name := log_filename log_dir comp_id in
  can_open name = true → name ≠ "/dev/null" →
  ∃ l files', log_all messages (new_FileLogger can_open log_dir comp_id close_file) files = Some (l, files') ∧
    default "" (files' !! name) = default "" (files !! name) +:+ log_lines comp_id messages ∧
    ∀ other, other ≠ name → files' !! other = files !! other.
Proof.
  intros name Hopen Hnull. apply log_all_writes; [exact Hopen|exact Hnull|].
  unfold writes_to, new_FileLogger. cbn. split; [done|]. split; [done|]. intros ->. fold name.
  unfold open_log. by rewrite Hopen.
Qed.

(** Deleting a logger that closes its file after every message closes it once more. *)
Lemma closed_twice log_dir comp_id :
  delete_FileLogger (new_FileLogger can_open log_dir comp_id true) = None.
Proof. done. Qed.
End files.

Lemma messages_are_logged_witness :
  ∃ l files', log_all (λ _, true) [("10:00", FATAL, "stop")] (new_FileLogger (λ _, true) "/var" "C" true) ∅
      = Some (l, files') ∧
    default "" (files' !! log_filename "/var" "C") =
      default "" ((∅ : gmap string string) !! log_filename "/var" "C") +:+
      log_lines "C" [("10:00", FATAL, "stop")] ∧
    ∀ other, other ≠ log_filename "/var" "C" → files' !! other = (∅ : gmap string string) !! other.
Proof.
  apply (messages_are_logged (λ _, true) "/var" "C" true [("10:00", FATAL, "stop")] ∅); done.
Defined.
