(* ===== verification/GravityDataProduct.v ===== *)
(** * GravityDataProduct: the envelope every message travels in
    (src/src/api/cpp/GravityDataProduct.cpp, GravityDataProduct.h, FutureResponse.cpp)

    A data product wraps a [GravityDataProductPB].  The C++ object holds it by a
    shared pointer; here a data product is a value.  ProductHeap.v has the objects, for
    the bindings, whose copies share it.  Serialisation goes through the
    [Protobuf] interface of Messages.v. *)

From S2P Require Import Prelude.
From S2P Require Import Messages.
#[local] Open Scope gravity_scope.

(** [GravityDataProductPB.proto] *)
Record GravityDataProductPB := mkGravityDataProductPB {
  gdp_timestamp : option Z;
  gdp_dataProductID : option string;
  gdp_softwareVersion : option string;
  gdp_data : option string;
  gdp_componentID : option string;
  gdp_domain : option string;
  gdp_future_response : option bool;
  gdp_future_socket_url : option string;
  gdp_received_timestamp : option Z;
  gdp_is_cached_dataproduct : option bool;
  gdp_is_relayed_dataproduct : option bool;
  gdp_protocol : option string;
  gdp_type_name : option string;
  gdp_registration_time : option Z;
}.
#[export] Instance eta_GravityDataProductPB : Eta GravityDataProductPB := λ g,
  mkGravityDataProductPB (gdp_timestamp g) (gdp_dataProductID g) (gdp_softwareVersion g)
    (gdp_data g) (gdp_componentID g) (gdp_domain g) (gdp_future_response g)
    (gdp_future_socket_url g) (gdp_received_timestamp g) (gdp_is_cached_dataproduct g)
    (gdp_is_relayed_dataproduct g) (gdp_protocol g) (gdp_type_name g)
    (gdp_registration_time g).
#[export] Instance GravityDataProductPB_eq_dec : EqDecision GravityDataProductPB.
Proof. solve_decision. Defined.

#[export] Program Instance GravityDataProductPB_countable : Countable GravityDataProductPB :=
  inj_countable' (λ g, (gdp_timestamp g, gdp_dataProductID g, gdp_softwareVersion g,
      gdp_data g, gdp_componentID g, gdp_domain g, gdp_future_response g,
      gdp_future_socket_url g, gdp_received_timestamp g, gdp_is_cached_dataproduct g,
      gdp_is_relayed_dataproduct g, gdp_protocol g, gdp_type_name g, gdp_registration_time g))
    (λ '(ts, i, v, d, c, dom, f, u, rts, ca, re, p, t, r),
      mkGravityDataProductPB ts i v d c dom f u rts ca re p t r) _.
Next Obligation. by intros []. Qed.

Definition empty_GravityDataProductPB : GravityDataProductPB :=
  mkGravityDataProductPB None None None None None None None None None None None None None None.

Abbreviation GravityDataProduct := GravityDataProductPB (only parsing).

(** The constructor from a data product ID. *)
Definition new_GravityDataProduct (dataProductID : string) : GravityDataProduct :=
  empty_GravityDataProductPB <| gdp_dataProductID := Some dataProductID |>.

(** The constructor from an array of bytes, and [parseFromArray]. *)
Definition GravityDataProduct_from_bytes `{Protobuf GravityDataProductPB}
    (array : string) : GravityDataProduct := fst (parse array).

Definition getDataProductID (g : GravityDataProduct) : string := str (gdp_dataProductID g).
Definition setSoftwareVersion (softwareVersion : string) (g : GravityDataProduct) :=
  g <| gdp_softwareVersion := Some softwareVersion |>.
Definition getSoftwareVersion (g : GravityDataProduct) : string := str (gdp_softwareVersion g).
Definition getReceivedTimestamp (g : GravityDataProduct) : Z :=
  match gdp_received_timestamp g with Some ts => ts | None => 0 end.
Definition getGravityTimestamp (g : GravityDataProduct) : Z := num (gdp_timestamp g).

(** [setData(data, size)] *)
Definition setData_bytes (data : string) (g : GravityDataProduct) : GravityDataProduct :=
  g <| gdp_data := Some data |>.

(** [setData(message)] also records protocol and type. *)
Definition setData `{Protobuf M} (data : M) (g : GravityDataProduct) : GravityDataProduct :=
  (setData_bytes (serialize data) g)
    <| gdp_protocol := Some "protobuf2" |>
    <| gdp_type_name := Some (type_name M) |>.

(** [data().length()] converted to [int]. *)
Definition getDataSize (g : GravityDataProduct) : Z :=
  s32 (Z.of_nat (String.length (str (gdp_data g)))).

(** [memcpy] of [size] bytes out of [data().c_str()], which ends in a NUL byte;
    [None]: it reads past the end. *)
Definition getData (size : nat) (g : GravityDataProduct) : option string :=
  let s := str (gdp_data g) +:+ String Ascii.zero EmptyString in
  if decide (size ≤ String.length s) then Some (String.substring 0 size s) else None.

(** The message the bytes parse to, and whether they did. *)
Definition populateMessage `{Protobuf M} (g : GravityDataProduct) : M * bool :=
  parse (str (gdp_data g)).

Definition getSize `{Protobuf GravityDataProductPB} (g : GravityDataProduct) : Z :=
  s32 (Z.of_nat (String.length (serialize g))).

Definition serializeToArray `{Protobuf GravityDataProductPB} (g : GravityDataProduct) : string :=
  serialize g.

(** [memcmp(s, t, n) == 0] *)
Definition memcmp_eq (n : Z) (s t : string) : bool :=
  bool_decide (String.substring 0 (Z.to_nat n) s = String.substring 0 (Z.to_nat n) t).

Definition gdp_eqb (g h : GravityDataProduct) : bool :=
  if negb (getDataSize g =? getDataSize h)%Z then false
  else if bool_decide (getDataProductID g ≠ getDataProductID h) then false
  else memcmp_eq (getDataSize g) (str (gdp_data g)) (str (gdp_data h)).

Definition gdp_neqb (g h : GravityDataProduct) : bool := negb (gdp_eqb g h).

Definition getComponentId (g : GravityDataProduct) : string := str (gdp_componentID g).
Definition getDomain (g : GravityDataProduct) : string := str (gdp_domain g).
Definition isFutureResponse (g : GravityDataProduct) : bool := flag (gdp_future_response g).
Definition isCachedDataproduct (g : GravityDataProduct) : bool :=
  bool_decide (is_Some (gdp_is_cached_dataproduct g)) && flag (gdp_is_cached_dataproduct g).
Definition setIsCachedDataproduct (cached : bool) (g : GravityDataProduct) :=
  g <| gdp_is_cached_dataproduct := Some cached |>.
Definition getFutureSocketUrl (g : GravityDataProduct) : string := str (gdp_future_socket_url g).
Definition isRelayedDataproduct (g : GravityDataProduct) : bool :=
  bool_decide (is_Some (gdp_is_relayed_dataproduct g)) && flag (gdp_is_relayed_dataproduct g).
Definition setIsRelayedDataproduct (relayed : bool) (g : GravityDataProduct) :=
  g <| gdp_is_relayed_dataproduct := Some relayed |>.
Definition getRegistrationTime (g : GravityDataProduct) : Z :=
  match gdp_registration_time g with Some t => t | None => 0 end.

(** Inline setters of the header. *)
Definition setTimestamp (ts : Z) (g : GravityDataProduct) := g <| gdp_timestamp := Some ts |>.
Definition setReceivedTimestamp (ts : Z) (g : GravityDataProduct) :=
  g <| gdp_received_timestamp := Some ts |>.
Definition setComponentId (componentId : string) (g : GravityDataProduct) :=
  g <| gdp_componentID := Some componentId |>.
Definition setDomain (domain : string) (g : GravityDataProduct) :=
  g <| gdp_domain := Some domain |>.
Definition setRegistrationTime (ts : Z) (g : GravityDataProduct) :=
  g <| gdp_registration_time := Some ts |>.

Definition setProtocol (protocol : string) (g : GravityDataProduct) :=
  g <| gdp_protocol := Some protocol |>.
Definition getProtocol (g : GravityDataProduct) : string := str (gdp_protocol g).
Definition setTypeName (dataType : string) (g : GravityDataProduct) :=
  g <| gdp_type_name := Some dataType |>.
Definition getTypeName (g : GravityDataProduct) : string := str (gdp_type_name g).

(** ** Future responses *)

Definition new_FutureResponse (url : string) : GravityDataProduct :=
  (new_GravityDataProduct "FutureResponse")
    <| gdp_future_response := Some true |>
    <| gdp_future_socket_url := Some url |>.

Definition getUrl (g : GravityDataProduct) : string := str (gdp_future_socket_url g).

Definition setResponse `{Protobuf GravityDataProductPB}
    (response future : GravityDataProduct) : GravityDataProduct :=
  setData_bytes (serializeToArray response) future.

(** * Properties *)

Lemma substring_full s n : String.length s ≤ n → String.substring 0 n s = s.
Proof.
  revert n. induction s as [|c s IH]; intros [|n] Hn; try done; cbn in *; [lia|].
  f_equal. apply IH. lia.
Qed.

Lemma getDataSize_small g :
  (Z.of_nat (String.length (str (gdp_data g))) < 2147483648)%Z →
  getDataSize g = Z.of_nat (String.length (str (gdp_data g))).
Proof. intros. unfold getDataSize. apply s32_id. unfold is_s32. lia. Qed.

(** Data products below the 2 GB limit of protobuf compare equal exactly when they have the
    same data product ID and the same data bytes; nothing else (time stamps, component, domain,
    flags) counts. *)
Theorem gdp_eqb_spec g h :
  (Z.of_nat (String.length (str (gdp_data g))) < 2147483648)%Z →
  (Z.of_nat (String.length (str (gdp_data h))) < 2147483648)%Z →
  gdp_eqb g h = true ↔
    getDataProductID g = getDataProductID h ∧ str (gdp_data g) = str (gdp_data h).
Proof.
  intros Hg Hh. unfold gdp_eqb, memcmp_eq. rewrite !getDataSize_small by done.
  destruct (Z.eqb_spec (Z.of_nat (String.length (str (gdp_data g))))
    (Z.of_nat (String.length (str (gdp_data h))))) as [Hl|Hl]; cbn [negb].
  - apply Nat2Z.inj in Hl. rewrite Nat2Z.id. case_bool_decide; [naive_solver|].
    rewrite bool_decide_eq_true, !substring_full by lia.
    split; [|naive_solver]. intros Hd. split; [|done].
    destruct (decide (getDataProductID g = getDataProductID h)); [done|tauto].
  - split; [done|]. intros [_ Heq]. rewrite Heq in Hl. done.
Qed.

Example gdp_eqb_spec_witness :
  gdp_eqb (setTimestamp 1 (setData_bytes "abc" (new_GravityDataProduct "A")))
          (setTimestamp 2 (setData_bytes "abc" (new_GravityDataProduct "A"))) = true.
Proof.
  apply (proj2 (gdp_eqb_spec
    (setTimestamp 1 (setData_bytes "abc" (new_GravityDataProduct "A")))
    (setTimestamp 2 (setData_bytes "abc" (new_GravityDataProduct "A"))) eq_refl eq_refl)).
  split; reflexivity.
Defined.

(** A concrete message codec: a data product that carries a number of bits. *)
Section countable_codec.
Context {M : Type} `{Countable M} (d : M).

Fixpoint bits_of (p : positive) : string :=
  match p with
  | xH => EmptyString
  | xO p => String (Ascii.ascii_of_nat 48) (bits_of p)
  | xI p => String (Ascii.ascii_of_nat 49) (bits_of p)
  end.

Fixpoint of_bits (s : string) : positive :=
  match s with
  | String c s => if decide (c = Ascii.ascii_of_nat 49) then xI (of_bits s) else xO (of_bits s)
  | EmptyString => xH
  end.

Lemma of_bits_bits_of p : of_bits (bits_of p) = p.
Proof.
  induction p; cbn [bits_of of_bits];
    [rewrite decide_True by done|rewrite decide_False by done|]; congruence.
Qed.

(** Any countable message type has a codec that satisfies the law: hypotheses on the
    protobuf library can be met. *)
Definition countable_protobuf (name : string) : Protobuf M := {|
  serialize m := bits_of (encode m);
  parse s := match decode (of_bits s) with Some m => (m, true) | None => (d, false) end;
  type_name := name;
|}.

Lemma countable_protobuf_law name : @ProtobufLaw M (countable_protobuf name).
Proof. intros m. cbn. by rewrite of_bits_bits_of, decode_encode. Qed.
End countable_codec.

(** A message put into a data product with [setData] comes out of [populateMessage] unchanged,
    and the data product says that it holds protobuf data of that type. *)
Theorem setData_populateMessage `{ProtobufLaw M} (m : M) g :
  populateMessage (setData m g) = (m, true) ∧
  gdp_protocol (setData m g) = Some "protobuf2" ∧
  gdp_type_name (setData m g) = Some (type_name M) ∧
  getDataProductID (setData m g) = getDataProductID g.
Proof. split_and!; [apply parse_serialize|done..]. Qed.

Example setData_populateMessage_witness :
  let P : Protobuf string := countable_protobuf "" "String" in
  populateMessage (setData (M:=string) "hello" (new_GravityDataProduct "A")) = ("hello", true).
Proof.
  intros P.
  exact (proj1 (@setData_populateMessage string P (countable_protobuf_law "" "String")
    "hello" (new_GravityDataProduct "A"))).
Defined.
