(* ===== verification/MessageCodecs.v ===== *)
(** * Codecs for concrete runs

    The theorems hold for any codec with the round trip of [ProtobufLaw].  Here is one for the
    messages between nodes and directories, with messages short enough to compute with: a
    message is the sequence of its fields, each quoted. *)

From Stdlib Require Import Ascii.
From S2P Require Import Prelude.
From S2P Require Import Messages.
From S2P Require Import GravityDataProduct.
#[local] Open Scope gravity_scope.

(** ** Quoting: a 1 before each character, a 0 at the end *)

Fixpoint quote (s rest : string) : string :=
  match s with
  | EmptyString => String "0" rest
  | String c s => String "1" (String c (quote s rest))
  end.

Fixpoint read_quoted (s : string) : option (string * string) :=
  match s with
  | String d (String c s') as s0 =>
      if decide (d = "0"%char) then Some ("", String c s')
      else match read_quoted s' with Some (t, rest) => Some (String c t, rest) | None => None end
  | String d EmptyString => if decide (d = "0"%char) then Some ("", "") else None
  | EmptyString => None
  end.

Lemma unquote_quote s rest : read_quoted (quote s rest) = Some (s, rest).
Proof. induction s as [|c s IH]; cbn; [by destruct rest|by rewrite IH]. Qed.

Definition quotes (l : list string) : string := foldr quote "" l.

Fixpoint unquotes (fuel : nat) (s : string) : list string :=
  match fuel, read_quoted s with
  | S fuel, Some (t, rest) => t :: unquotes fuel rest
  | _, _ => []
  end.

Lemma length_quote s rest : (String.length rest < String.length (quote s rest))%nat.
Proof. induction s as [|c s IH]; cbn; lia. Qed.

Lemma unquotes_quotes l fuel :
  (String.length (quotes l) ≤ fuel)%nat → unquotes fuel (quotes l) = l.
Proof.
  revert fuel. induction l as [|s l IH]; intros fuel Hf; [by destruct fuel|]. cbn in *.
  pose proof (length_quote s (quotes l)) as Hl. unfold quotes in *. destruct fuel as [|fuel]; [lia|].
  cbn. rewrite unquote_quote, IH by lia. done.
Qed.

(** ** Fields *)

Class Field (A : Type) := {
  to_field : A → string;
  of_field : string → A;
  of_to_field a : of_field (to_field a) = a;
}.

#[export] Program Instance string_field : Field string := {| to_field s := s; of_field s := s |}.
Next Obligation. done. Qed.
#[export] Program Instance option_field {A} `{Field A} : Field (option A) := {|
  to_field o := match o with Some a => String "+" (to_field a) | None => "" end;
  of_field s := match s with String _ s => Some (of_field s) | EmptyString => None end;
|}.
Next Obligation. intros A F [a|]; cbn; [by rewrite of_to_field|done]. Qed.
#[export] Program Instance list_field {A} `{Field A} : Field (list A) := {|
  to_field l := quotes (to_field <$> l);
  of_field s := of_field <$> unquotes (String.length s) s;
|}.
Next Obligation.
  intros A F l. cbv beta. rewrite unquotes_quotes by lia. induction l as [|a l IH]; [done|]. cbn.
  by rewrite of_to_field, IH.
Qed.
Definition countable_field {A} (d : A) `{Countable A} : Field A.
Proof.
  refine {| to_field a := bits_of (encode a); of_field s := default d (decode (of_bits s)) |}.
  intros a. by rewrite of_bits_bits_of, decode_encode.
Defined.
#[export] Instance Z_field : Field Z := countable_field 0%Z.
#[export] Instance bool_field : Field bool := countable_field false.
#[export] Instance RegistrationType_field : Field RegistrationType := countable_field DATA.

(** ** Messages *)

Section codec.
Context {M : Type} (default_message : M) (pack : M → list string) (unpack : list string → option M).
Context (unpack_pack : ∀ m, unpack (pack m) = Some m).

Definition quoted_protobuf (name : string) : Protobuf M := {|
  serialize m := quotes (pack m);
  parse s := match unpack (unquotes (String.length s) s) with
             | Some m => (m, true) | None => (default_message, false) end;
  type_name := name;
|}.

Lemma quoted_protobuf_law name : @ProtobufLaw M (quoted_protobuf name).
Proof. intros m. cbn. by rewrite unquotes_quotes, unpack_pack by lia. Qed.
End codec.

Definition gdp_to (g : GravityDataProductPB) : list string :=
  [to_field (gdp_timestamp g); to_field (gdp_dataProductID g); to_field (gdp_softwareVersion g);
   to_field (gdp_data g); to_field (gdp_componentID g); to_field (gdp_domain g);
   to_field (gdp_future_response g); to_field (gdp_future_socket_url g);
   to_field (gdp_received_timestamp g); to_field (gdp_is_cached_dataproduct g);
   to_field (gdp_is_relayed_dataproduct g); to_field (gdp_protocol g); to_field (gdp_type_name g);
   to_field (gdp_registration_time g)].
Definition gdp_of (l : list string) : option GravityDataProductPB :=
  match l with
  | [a; b; c; d; e; f; g; h; i; j; k; l; m; n] => Some (mkGravityDataProductPB (of_field a) (of_field b)
      (of_field c) (of_field d) (of_field e) (of_field f) (of_field g) (of_field h) (of_field i)
      (of_field j) (of_field k) (of_field l) (of_field m) (of_field n))
  | _ => None
  end.
Lemma gdp_of_to g : gdp_of (gdp_to g) = Some g.
Proof. destruct g. unfold gdp_to, gdp_of. by rewrite !of_to_field. Qed.

Definition registration_to (r : ServiceDirectoryRegistrationPB) : list string :=
  [to_field (rg_id r); to_field (rg_url r); to_field (rg_type r); to_field (rg_component_id r);
   to_field (rg_domain r); to_field (rg_timestamp r); to_field (rg_is_relay r); to_field (rg_ip_address r)].
Definition registration_of (l : list string) : option ServiceDirectoryRegistrationPB :=
  match l with
  | [a; b; c; d; e; f; g; h] => Some (mkServiceDirectoryRegistrationPB (of_field a) (of_field b)
      (of_field c) (of_field d) (of_field e) (of_field f) (of_field g) (of_field h))
  | _ => None
  end.
Lemma registration_of_to r : registration_of (registration_to r) = Some r.
Proof. destruct r. unfold registration_to, registration_of. by rewrite !of_to_field. Qed.

Definition unregistration_to (r : ServiceDirectoryUnregistrationPB) : list string :=
  [to_field (ur_id r); to_field (ur_url r); to_field (ur_type r); to_field (ur_domain r);
   to_field (ur_registration_time r)].
Definition unregistration_of (l : list string) : option ServiceDirectoryUnregistrationPB :=
  match l with
  | [a; b; c; d; e] => Some (mkServiceDirectoryUnregistrationPB (of_field a) (of_field b)
      (of_field c) (of_field d) (of_field e))
  | _ => None
  end.
Lemma unregistration_of_to r : unregistration_of (unregistration_to r) = Some r.
Proof. destruct r. unfold unregistration_to, unregistration_of. by rewrite !of_to_field. Qed.

Definition lookup_to (r : ComponentLookupRequestPB) : list string :=
  [to_field (lr_lookupID r); to_field (lr_type r); to_field (lr_domain_id r)].
Definition lookup_of (l : list string) : option ComponentLookupRequestPB :=
  match l with
  | [a; b; c] => Some (mkComponentLookupRequestPB (of_field a) (of_field b) (of_field c))
  | _ => None
  end.
Lemma lookup_of_to r : lookup_of (lookup_to r) = Some r.
Proof. destruct r. unfold lookup_to, lookup_of. by rewrite !of_to_field. Qed.

Definition publisher_to (p : PublisherInfoPB) : list string :=
  [to_field (pi_url p); to_field (pi_isRelay p); to_field (pi_componentID p); to_field (pi_ipAddress p);
   to_field (pi_registration_time p)].
Definition publisher_of (l : list string) : option PublisherInfoPB :=
  match l with
  | [a; b; c; d; e] => Some (mkPublisherInfoPB (of_field a) (of_field b) (of_field c) (of_field d) (of_field e))
  | _ => None
  end.
Lemma publisher_of_to p : publisher_of (publisher_to p) = Some p.
Proof. destruct p. unfold publisher_to, publisher_of. by rewrite !of_to_field. Qed.
#[export] Program Instance publisher_field : Field PublisherInfoPB := {|
  to_field p := quotes (publisher_to p);
  of_field s := default empty_PublisherInfoPB (publisher_of (unquotes (String.length s) s));
|}.
Next Obligation. intros p. cbv beta. by rewrite unquotes_quotes, publisher_of_to by lia. Qed.

Definition data_lookup_to (r : ComponentDataLookupResponsePB) : list string :=
  [to_field (dl_lookupID r); to_field (dl_publishers r); to_field (dl_domain_id r)].
Definition data_lookup_of (l : list string) : option ComponentDataLookupResponsePB :=
  match l with
  | [a; b; c] => Some (mkComponentDataLookupResponsePB (of_field a) (of_field b) (of_field c))
  | _ => None
  end.
Lemma data_lookup_of_to r : data_lookup_of (data_lookup_to r) = Some r.
Proof. destruct r. unfold data_lookup_to, data_lookup_of. by rewrite !of_to_field. Qed.

Definition service_lookup_to (r : ComponentServiceLookupResponsePB) : list string :=
  [sl_lookupID r; sl_url r; sl_domain_id r; to_field (sl_registration_time r)].
Definition service_lookup_of (l : list string) : option ComponentServiceLookupResponsePB :=
  match l with
  | [a; b; c; d] => Some (mkComponentServiceLookupResponsePB a b c (of_field d))
  | _ => None
  end.
Lemma service_lookup_of_to r : service_lookup_of (service_lookup_to r) = Some r.
Proof. destruct r. unfold service_lookup_to, service_lookup_of. by rewrite !of_to_field. Qed.
