(* ===== verification/Config.v ===== *)
(** * Configuration: tables of settings, their precedence, and the server
    (src/src/keyvalue_parser/keyvalue_parser.c, src/src/api/cpp/KeyValueParserWrap.h,
    src/src/api/cpp/GravityConfigParser.cpp, src/src/components/cpp/ConfigServer/ConfigServer.cpp)

    A file of settings is read once per section that is asked for.  The generated lexer and
    parser are not modelled: a file is the sequence of section names and pairs of expressions
    they find in it, the same every time, as they do unless the file ends inside a comment.  What the actions of the grammar do with them is modelled, with the
    variable that says in which section the parser is, which is global and never reset.  A
    doubly linked list of C is a list here, with its length. *)

From Stdlib Require Import Ascii.
From S2P Require Import Prelude.
From S2P Require Import Messages.
From S2P Require Import Utility.
From S2P Require Import GravityDataProduct.
#[local] Open Scope gravity_scope.
#[local] Open Scope Z_scope.

(** ** The table *)

Record var_el := mkVarEl {
  ve_key : string;
  ve_val : string;
}.

Definition NBUCKETS : Z := 64.

Fixpoint bucket_sum (val : Z) (key : string) : Z :=
  match key with
  | EmptyString => val
  | String c key => bucket_sum (u32 (val + char_value c)) key
  end.

Definition get_bucket_idx (key : string) : nat :=
  Z.to_nat (Z.land (bucket_sum 0 key) (NBUCKETS - 1)).

Abbreviation var_list := (list var_el) (only parsing).

Fixpoint var_list_find (l : var_list) (key : string) : option var_el :=
  match l with
  | [] => None
  | e :: l => if decide (ve_key e = key) then Some e else var_list_find l key
  end.

Definition var_list_insert (e : var_el) (l : var_list) : var_list := l ++ [e].

Abbreviation table := (list var_list) (only parsing).
Definition new_table : table := replicate 64 [].

Definition table_insert (t : table) (e : var_el) : table :=
  alter (var_list_insert e) (get_bucket_idx (ve_key e)) t.

(** ** The file (src/src/keyvalue_parser/keyvalue.y, keyvalue.l) *)

(** What the generated lexer and parser find, in the order of the reductions. *)
Inductive config_expr :=
| TOKEN (yytext : string)
| TOKEN_STRING (yytext : string)
| VAR (name : string)
| BINARY (op : ascii) (e1 e3 : config_expr)
| ERROR.

Inductive config_item :=
| SECTION (yytext : string)
| KVPAIR (e1 e3 : config_expr).

(** The items up to the end of the file, or up to an error of its syntax. *)
Record config_file := mkConfigFile {
  cf_items : list config_item;
  cf_complete : bool;
}.

(** In the locale "C", in which the C functions run. *)
Definition isalnum (c : ascii) : bool :=
  in_range "a" "z" c || in_range "A" "Z" c || in_range "0" "9" c.
Definition strcasecmp (s1 s2 : string) : bool :=
  bool_decide (StringToLowerCase c_tolower s1 = StringToLowerCase c_tolower s2).

Fixpoint drop_until (p : ascii → bool) (s : string) : string :=
  match s with
  | EmptyString => ""
  | String c s' => if p c then s else drop_until p s'
  end.

(** The name of a section, between its first and last alphanumeric characters; the lexer
    gives a text with none for [[_]], for which the code runs off its ends, and the model
    gives no name. *)
Definition section_name (yytext : string) : string :=
  String.rev (drop_until isalnum (String.rev (drop_until isalnum yytext))).

(** What a string token quotes. *)
Definition unquote (yytext : string) : string :=
  str_drop 1 (str_take (String.length yytext - 1) yytext).

Section parse.
(** [atof], an operation on [double] and [%f]; the operator is one of [+*-/]. *)
Variable arithmetic : ascii → string → string → string.

(** The value of an expression in a section that is read, given the value of a variable;
    [None] for [YYABORT]. *)
Fixpoint eval_expr (value_of : string → option string) (e : config_expr) : option string :=
  match e with
  | TOKEN s => Some s
  | TOKEN_STRING s => Some (unquote s)
  | VAR x => value_of x
  | BINARY op e1 e3 =>
      v1 ← eval_expr value_of e1; v3 ← eval_expr value_of e3; Some (arithmetic op v1 v3)
  | ERROR => None
  end.

(** In another section only an error counts. *)
Fixpoint skip_expr (e : config_expr) : bool :=
  match e with
  | BINARY _ e1 e3 => skip_expr e1 && skip_expr e3
  | ERROR => false
  | _ => true
  end.

(** The actions of the parser for the section [g_section_name], on a state of the table and
    [g_current_section]: the table is a parameter, with its lookup and insertion. *)
Section actions.
Context {T : Type} (find : T → string → option string) (insert_el : T → var_el → T).

Definition CHECK_SECTION (g_section_name : string) (g_current_section : option string) : bool :=
  match g_current_section with
  | Some s => strcasecmp s g_section_name
  | None => false
  end.

Fixpoint yyparse (g_section_name : string) (items : list config_item)
    (g_current_section : option string) (t : T) : option string * option T :=
  match items with
  | [] => (g_current_section, Some t)
  | SECTION yytext :: items => yyparse g_section_name items (Some (section_name yytext)) t
  | KVPAIR e1 e3 :: items =>
      if CHECK_SECTION g_section_name g_current_section then
        match eval_expr (find t) e1, eval_expr (find t) e3 with
        | Some key, Some val =>
            yyparse g_section_name items g_current_section (insert_el t (mkVarEl key val))
        | _, _ => (g_current_section, None)
        end
      else if skip_expr e1 && skip_expr e3 then yyparse g_section_name items g_current_section t
      else (g_current_section, None)
  end.

(** Once per section that is asked for; the current section stays from one time to the
    next, for it is a global variable. *)
Fixpoint parse_sections (file : config_file) (section_list : list string)
    (g_current_section : option string) (t : T) : option string * option T :=
  match section_list with
  | [] => (g_current_section, Some t)
  | g_section_name :: section_list =>
      let '(g_current_section, parsed) :=
        yyparse g_section_name (cf_items file) g_current_section t in
      match parsed with
      | Some t =>
          if cf_complete file then parse_sections file section_list g_current_section t
          else (g_current_section, None)
      | None => (g_current_section, None)
      end
  end.

(** The initial [retval] is an error, which stays when the file cannot be opened. *)
Definition keyvalue_parse_params (file : option config_file) (section_list : list string)
    (g_current_section : option string) (t : T) : option string * option T :=
  match file with
  | Some file =>
      if decide (section_list = []) then (g_current_section, None)
      else parse_sections file section_list g_current_section t
  | None => (g_current_section, None)
  end.
End actions.

Definition table_find (t : table) (key : string) : option string :=
  ve_val <$> var_list_find (default [] (t !! get_bucket_idx key)) key.

(** The handle, which is null after an error, and the current section it leaves. *)
Definition keyvalue_open (file : option config_file) (sections : list string)
    (g_current_section : option string) : option string * option table :=
  keyvalue_parse_params table_find table_insert file sections g_current_section new_table.
End parse.

Definition keyvalue_getkeys (h : option table) : list string :=
  match h with
  | Some t => ve_key <$> concat t
  | None => []
  end.

Definition keyvalue_getstring (h : option table) (key : string) : string :=
  match h ≫= λ t, var_list_find (default [] (t !! get_bucket_idx key)) key with
  | Some e => ve_val e
  | None => ""
  end.

(** [KeyValueConfigParser::GetString] with the default value. *)
Definition GetString (h : option table) (key : string) : string := keyvalue_getstring h key.

(** ** The settings of a node *)

Section parser.
Variable tolower : ascii → ascii.
Variable arithmetic : ascii → string → string → string.

Definition StringCopyToLowerCase (str : string) : string := StringToLowerCase tolower str.

(** The settings, and the current section that is left. *)
Definition ParseConfigFile (componentID : string) (file : option config_file)
    (g_current_section : option string) (key_value_map : gmap string string)
    : option string * gmap string string :=
  let '(g_current_section, parser) :=
    keyvalue_open arithmetic file [componentID; "general"] g_current_section in
  (g_current_section, foldl (λ m key, <[StringCopyToLowerCase key := GetString parser key]> m) key_value_map
    (keyvalue_getkeys parser)).

Record ConfigRequestPB := mkConfigRequestPB { cr_componentID : option string }.
Record ConfigeResponsePB := mkConfigeResponsePB {
  cs_key : list string;
  cs_value : list string;
}.

(** The answer of the configuration service is for the keys that are not there yet. *)
Definition parse_config_response (response : ConfigeResponsePB) (key_value_map : gmap string string)
    : gmap string string :=
  foldl (λ m kv, let key_lower := StringCopyToLowerCase kv.1 in
      if decide (m !! key_lower = None) then <[key_lower := kv.2]> m else m)
    key_value_map (zip (cs_key response) (cs_value response)).

Definition config_request `{Protobuf ConfigRequestPB} (componentID : string) : GravityDataProduct :=
  setData (mkConfigRequestPB (Some componentID)) (new_GravityDataProduct "ConfigRequestPB").

(** ** The server *)

(** The settings for a component, without empty values. *)
Definition server_settings (file : option config_file) (g_current_section : option string)
    (componentID : string) : option string * gmap string string :=
  let '(g_current_section, parser) :=
    keyvalue_open arithmetic file ["general"; componentID] g_current_section in
  (g_current_section, foldl (λ m key, let value := GetString parser key in
      if decide (value ≠ "") then <[key := value]> m else m) ∅ (keyvalue_getkeys parser)).

(** [ConfigServer::request]; null when there are no settings. *)
Definition ConfigServer_request `{Protobuf ConfigRequestPB, Protobuf ConfigeResponsePB}
    (file : option config_file) (g_current_section : option string)
    (dataProduct : GravityDataProduct) : option string * option GravityDataProduct :=
  let cfpb : ConfigRequestPB := (populateMessage dataProduct).1 in
  let '(g_current_section, key_value_map) :=
    server_settings file g_current_section (str (cr_componentID cfpb)) in
  (g_current_section,
   if decide (size key_value_map = 0%nat) then None
   else
     let items := kv_items key_value_map in
     let message := mkConfigeResponsePB items.*1 items.*2 in
     Some (setData message (new_GravityDataProduct "ConfigResponsePB"))).
End parser.
