(* ===== verification/ConfigProofs.v ===== *)
(** * Configuration: the table is an association list, and who has precedence *)

From Stdlib Require Import Ascii.
From S2P Require Import Prelude.
From S2P Require Import Messages.
From S2P Require Import Utility.
From S2P Require Import GravityDataProduct.
From S2P Require Import Config.
#[local] Open Scope gravity_scope.
#[local] Open Scope Z_scope.

(** ** The table *)

(** The first value of a key. *)
Fixpoint first_value (key : string) (l : list var_el) : option string :=
  match l with
  | [] => None
  | e :: l => if decide (ve_key e = key) then Some (ve_val e) else first_value key l
  end.

Lemma first_value_app key l l' :
  first_value key (l ++ l') =
    match first_value key l with Some v => Some v | None => first_value key l' end.
Proof. induction l as [|e l IH]; [done|]. cbn. by case_decide. Qed.

Lemma first_value_Some key l : is_Some (first_value key l) ↔ key ∈ ve_key <$> l.
Proof.
  induction l as [|e l IH]; cbn; [by split; [intros []|intros ?%not_elem_of_nil]|].
  rewrite elem_of_cons. case_decide; [by split; [left|]|]. rewrite IH. naive_solver.
Qed.

Lemma var_list_find_first l key : ve_val <$> var_list_find l key = first_value key l.
Proof. induction l as [|e l IH]; [done|]. cbn. by case_decide. Qed.

(** Every bucket holds, in their order, the elements whose keys belong there. *)
Definition represents (t : table) (l : list var_el) : Prop :=
  length t = 64%nat ∧
  ∀ i, (i < 64)%nat → t !! i = Some (base.filter (λ e, get_bucket_idx (ve_key e) = i) l).

Lemma get_bucket_idx_lt key : (get_bucket_idx key < 64)%nat.
Proof.
  unfold get_bucket_idx, NBUCKETS. change (64 - 1) with (Z.ones 6). rewrite Z.land_ones by lia.
  pose proof (Z.mod_pos_bound (bucket_sum 0 key) (2 ^ 6)) as Hb. change (2 ^ 6) with 64 in *. lia.
Qed.

Lemma represents_new : represents new_table [].
Proof. split; [done|]. intros i Hi. unfold new_table. by rewrite lookup_replicate_2. Qed.

Lemma represents_insert t l e : represents t l → represents (table_insert t e) (l ++ [e]).
Proof.
  intros [Hl Ht]. unfold table_insert. split; [by rewrite length_alter|]. intros i Hi.
  rewrite filter_app. destruct (decide (get_bucket_idx (ve_key e) = i)) as [Hi'|Hi'].
  - rewrite Hi', list_lookup_alter_eq, Ht, filter_cons_True by done. done.
  - rewrite list_lookup_alter_ne, Ht, filter_cons_False, app_nil_r by done. done.
Qed.

Lemma represents_inserts t l l' : represents t l → represents (foldl table_insert t l') (l ++ l').
Proof.
  revert t l. induction l' as [|e l' IH]; intros t l Ht; [by rewrite app_nil_r|].
  cbn [foldl]. rewrite (cons_middle e l l'), app_assoc. by apply IH, represents_insert.
Qed.

Lemma represents_find t l key :
  represents t l → var_list_find (default [] (t !! get_bucket_idx key)) key = var_list_find l key.
Proof.
  intros [_ Ht]. rewrite Ht by apply get_bucket_idx_lt.
  change (default [] (Some ?x)) with x. clear Ht.
  induction l as [|e l IH]; [done|]. rewrite filter_cons. cbn [var_list_find].
  destruct (decide (ve_key e = key)) as [Hk|Hk].
  - rewrite !decide_True by (by rewrite ?Hk). cbn [var_list_find]. by rewrite decide_True.
  - case_decide; cbn [var_list_find]; [by rewrite decide_False|done].
Qed.

Lemma concat_filter_perm l n :
  (∀ e, e ∈ l → (get_bucket_idx (ve_key e) < n)%nat) →
  concat ((λ i, base.filter (λ e, get_bucket_idx (ve_key e) = i) l) <$> seq 0 n) ≡ₚ l.
Proof.
  revert l. induction n as [|n IH]; intros l Hl.
  { cbn. destruct l as [|e l]; [done|]. specialize (Hl e). assert (e ∈ e :: l) as He%Hl by left. lia. }
  rewrite seq_S, fmap_app, concat_app. cbn. rewrite app_nil_r.
  etrans; [|apply (filter_app_complement (λ e, get_bucket_idx (ve_key e) < n)%nat l)]. f_equiv.
  - rewrite <- (IH (base.filter (λ e, get_bucket_idx (ve_key e) < n)%nat l)).
    + apply reflexive_eq. f_equal. apply list_fmap_ext. intros k i Hi.
      apply lookup_seq in Hi as [-> Hi]. rewrite list_filter_filter. apply list_filter_iff.
      intros e. cbn in *. lia.
    + by intros e [? _]%list_elem_of_filter.
  - apply reflexive_eq. clear IH. induction l as [|e l IH]; [done|]. rewrite !filter_cons.
    assert (He : (get_bucket_idx (ve_key e) < S n)%nat) by (apply Hl; left).
    rewrite IH by (intros e' He'; apply Hl; by right). repeat case_decide; try done; lia.
Qed.

(** The pairs bucket by bucket. *)
Definition bucket_order (l : list var_el) : list var_el :=
  concat ((λ i, base.filter (λ e, get_bucket_idx (ve_key e) = i) l) <$> seq 0 64).

Lemma represents_order t l : represents t l → concat t = bucket_order l.
Proof.
  intros [Hlen Ht]. unfold bucket_order. f_equal. apply list_eq. intros i.
  destruct (decide (i < 64)%nat) as [Hi|Hi].
  - rewrite Ht by done. rewrite list_lookup_fmap, lookup_seq_lt by done. done.
  - rewrite !lookup_ge_None_2; [done| |lia]. rewrite length_fmap, length_seq. lia.
Qed.

Lemma bucket_order_perm l : bucket_order l ≡ₚ l.
Proof. apply concat_filter_perm. intros e _. apply get_bucket_idx_lt. Qed.

Lemma represents_keys t l : represents t l → concat t ≡ₚ l.
Proof. intros Ht. rewrite (represents_order t l Ht). apply bucket_order_perm. Qed.

(** ** Reading into another table *)

(** Tables that agree on lookups and stay in agreement are filled alike. *)
Section simulation.
Context {T1 T2 : Type} (find1 : T1 → string → option string) (insert1 : T1 → var_el → T1)
  (find2 : T2 → string → option string) (insert2 : T2 → var_el → T2) (R : T1 → T2 → Prop).
Hypothesis find_sim : ∀ t1 t2, R t1 t2 → ∀ key, find1 t1 key = find2 t2 key.
Hypothesis insert_sim : ∀ t1 t2 e, R t1 t2 → R (insert1 t1 e) (insert2 t2 e).
Variable arithmetic : ascii → string → string → string.

(** The same current section, and both tables or none. *)
Definition sim_result (r1 : option string * option T1) (r2 : option string * option T2) : Prop :=
  r1.1 = r2.1 ∧
  match r1.2, r2.2 with Some t1, Some t2 => R t1 t2 | None, None => True | _, _ => False end.

Lemma eval_expr_ext f g e :
  (∀ key, f key = g key) → eval_expr arithmetic f e = eval_expr arithmetic g e.
Proof. intros Hfg. induction e as [| | |op e1 IH1 e3 IH3|]; cbn; by rewrite ?Hfg, ?IH1, ?IH3. Qed.

Lemma yyparse_sim name items cs t1 t2 :
  R t1 t2 → sim_result (yyparse arithmetic find1 insert1 name items cs t1)
    (yyparse arithmetic find2 insert2 name items cs t2).
Proof.
  revert cs t1 t2. induction items as [|[yytext|e1 e3] items IH]; intros cs t1 t2 Ht; cbn;
    [done|by apply IH|].
  pose proof (eval_expr_ext _ _ e1 (find_sim _ _ Ht)) as ->.
  pose proof (eval_expr_ext _ _ e3 (find_sim _ _ Ht)) as ->.
  destruct (CHECK_SECTION name cs); [|by case_match; [apply IH|]].
  destruct (eval_expr arithmetic (find2 t2) e1), (eval_expr arithmetic (find2 t2) e3); [by apply IH, insert_sim|done..].
Qed.

Lemma keyvalue_parse_params_sim file sections cs t1 t2 :
  R t1 t2 → sim_result (keyvalue_parse_params arithmetic find1 insert1 file sections cs t1)
    (keyvalue_parse_params arithmetic find2 insert2 file sections cs t2).
Proof.
  intros Ht. destruct file as [file|]; [|done]. cbn. case_decide as Hs; [done|]. clear Hs.
  revert cs t1 t2 Ht. induction sections as [|name sections IH]; intros cs t1 t2 Ht; [done|]. cbn.
  pose proof (yyparse_sim name (cf_items file) cs t1 t2 Ht) as Hy.
  destruct (yyparse arithmetic find1 _ _ _ _ _) as [cs1 [t1'|]],
    (yyparse arithmetic find2 _ _ _ _ _) as [cs2 [t2'|]], Hy as [Hcs Hy']; cbn in *; subst; try done.
  destruct (cf_complete file); [by apply IH|done].
Qed.
End simulation.

(** The reference: the pairs in a list. *)
Definition list_find (l : list var_el) (key : string) : option string := first_value key l.
Definition list_insert (l : list var_el) (e : var_el) : list var_el := l ++ [e].

Lemma table_find_spec t l : represents t l → ∀ key, table_find t key = list_find l key.
Proof.
  intros Ht key. unfold table_find, list_find. rewrite (represents_find t l key Ht).
  apply var_list_find_first.
Qed.

Lemma keyvalue_open_represents arithmetic file sections cs :
  let '(cs', h) := keyvalue_open arithmetic file sections cs in
  let '(csr, r) := keyvalue_parse_params arithmetic list_find list_insert file sections cs [] in
  cs' = csr ∧ match h, r with Some t, Some l => represents t l | None, None => True | _, _ => False end.
Proof.
  pose proof (keyvalue_parse_params_sim table_find table_insert list_find list_insert represents
    table_find_spec represents_insert arithmetic file sections cs new_table [] represents_new) as S.
  unfold keyvalue_open. by destruct (keyvalue_parse_params _ table_find _ _ _ _ _),
    (keyvalue_parse_params _ list_find _ _ _ _ _).
Qed.

Lemma represents_getstring t l key :
  represents t l → keyvalue_getstring (Some t) key = default "" (first_value key l).
Proof.
  intros Ht. pose proof (table_find_spec t l Ht key) as E. unfold table_find, list_find in E.
  unfold keyvalue_getstring. cbn. by destruct (var_list_find _ key); rewrite <- E.
Qed.

Lemma represents_getkeys t l : represents t l → keyvalue_getkeys (Some t) ≡ₚ ve_key <$> l.
Proof. intros Ht. cbn. f_equiv. by apply represents_keys. Qed.

(** C33. The hash table of 64 buckets is as good as the list of all pairs in the order in which
    they are read: the file is rejected alike, a lookup gives the first value of the key, and
    the keys are those of the list. *)
Theorem keyvalue_table_spec arithmetic file sections cs :
  let '(cs', h) := keyvalue_open arithmetic file sections cs in
  let '(csr, r) := keyvalue_parse_params arithmetic list_find list_insert file sections cs [] in
  cs' = csr ∧
  match h, r with
  | Some t, Some l =>
      (∀ key, keyvalue_getstring (Some t) key = default "" (first_value key l)) ∧
      keyvalue_getkeys (Some t) ≡ₚ ve_key <$> l
  | None, None => True
  | _, _ => False
  end.
Proof.
  pose proof (keyvalue_open_represents arithmetic file sections cs) as S.
  destruct (keyvalue_open _ _ _ _) as [cs1 [t|]],
    (keyvalue_parse_params _ list_find _ _ _ _ _) as [cs2 [l|]], S as [Hcs Ht]; try done.
  split; [done|split]; [intros key; by apply represents_getstring|by apply represents_getkeys].
Qed.

(** ** Precedence *)

Section precedence.
Variable tolower : ascii → ascii.
Variable arithmetic : ascii → string → string → string.

(** What reading a section adds to a list, in the reference. *)
Definition read_section (file : config_file) (section : string) (cs : option string)
    (l : list var_el) (cs' : option string) (l' : list var_el) : Prop :=
  cf_complete file = true ∧
  yyparse arithmetic list_find list_insert section (cf_items file) cs l = (cs', Some (l ++ l')).

Lemma read_two file s1 s2 cs cs1 cs2 l1 l2 :
  read_section file s1 cs [] cs1 l1 → read_section file s2 cs1 l1 cs2 l2 →
  keyvalue_parse_params arithmetic list_find list_insert (Some file) [s1; s2] cs [] =
    (cs2, Some (l1 ++ l2)).
Proof.
  intros [Hf E1] [_ E2]. cbn in E1. unfold keyvalue_parse_params. rewrite decide_False by done.
  cbn [parse_sections]. by rewrite E1, Hf, E2.
Qed.

Lemma open_two file s1 s2 cs cs1 cs2 l1 l2 :
  read_section file s1 cs [] cs1 l1 → read_section file s2 cs1 l1 cs2 l2 →
  ∃ h, keyvalue_open arithmetic (Some file) [s1; s2] cs = (cs2, h) ∧
    (∀ key, keyvalue_getstring h key = default "" (first_value key (l1 ++ l2))) ∧
    keyvalue_getkeys h ≡ₚ ve_key <$> l1 ++ l2.
Proof.
  intros H1 H2. pose proof (keyvalue_open_represents arithmetic (Some file) [s1; s2] cs) as T.
  rewrite (read_two file s1 s2 cs cs1 cs2 l1 l2 H1 H2) in T.
  destruct (keyvalue_open _ _ _ _) as [cs' [t|]], T as [-> T]; [|done].
  exists (Some t). split; [done|]. split; [intros key; by apply represents_getstring|by apply represents_getkeys].
Qed.

(** Keys in small letters. *)
Definition canonical (l : list var_el) : Prop :=
  ∀ key, key ∈ ve_key <$> l → StringCopyToLowerCase tolower key = key.

Lemma fold_settings (value : string → string) keys (m : gmap string string) key :
  (∀ k, k ∈ keys → StringCopyToLowerCase tolower k = k) →
  foldl (λ m k, <[StringCopyToLowerCase tolower k := value k]> m) m keys !! key =
    if decide (key ∈ keys) then Some (value key) else m !! key.
Proof.
  revert m. induction keys as [|k keys IH]; intros m Hk; [done|]. cbn [foldl].
  rewrite IH by (intros k' Hk'; apply Hk; by right). rewrite (Hk k) by left.
  destruct (decide (key ∈ keys)) as [Hi|Hi].
  - by rewrite decide_True by by right.
  - destruct (decide (key = k)) as [->|Hne].
    + rewrite decide_True by left. by rewrite lookup_insert_eq.
    + rewrite decide_False by (by intros [->|]%elem_of_cons). by rewrite lookup_insert_ne.
Qed.

(** A file sets what it defines and leaves the rest: the component's section has precedence
    over the general one, and the first value in a section over later ones. *)
Theorem config_file_precedence componentID file cs cs1 cs2 lc lg m key :
  read_section file componentID cs [] cs1 lc → read_section file "general" cs1 lc cs2 lg →
  canonical (lc ++ lg) →
  (ParseConfigFile tolower arithmetic componentID (Some file) cs m).2 !! key =
    match first_value key lc, first_value key lg with
    | Some v, _ | None, Some v => Some v
    | None, None => m !! key
    end.
Proof.
  intros Hc Hg Hl. unfold ParseConfigFile.
  destruct (open_two file _ _ _ _ _ _ _ Hc Hg) as (h & -> & Tv & Tk). cbn [snd]. rewrite fold_settings.
  2:{ intros k Hk. apply Hl. by rewrite <- Tk. }
  unfold GetString. rewrite Tv, first_value_app.
  destruct (decide _) as [Hi|Hi]; rewrite Tk in Hi; rewrite <- first_value_Some, first_value_app in Hi.
  - destruct (first_value key lc); [done|]. destruct Hi as [v ->]. done.
  - destruct (first_value key lc); [by destruct Hi|]. destruct (first_value key lg); [by destruct Hi|done].
Qed.

(** The pairs of a file in the order in which they are read, the component's section first; a
    file that is not there, or that has an error, has none. *)
Definition file_entries (componentID : string) (file : option config_file) (cs : option string)
    : option string * list var_el :=
  let '(cs, r) := keyvalue_parse_params arithmetic list_find list_insert file
    [componentID; "general"] cs [] in (cs, default [] r).

Lemma file_entries_sections componentID file cs cs1 cs2 lc lg :
  read_section file componentID cs [] cs1 lc → read_section file "general" cs1 lc cs2 lg →
  file_entries componentID (Some file) cs = (cs2, lc ++ lg).
Proof. intros Hc Hg. unfold file_entries. by rewrite (read_two file _ _ _ _ _ _ _ Hc Hg). Qed.

(** The spelling of a key that counts when a file has several that differ in case: the last
    one of the hash table. *)
Definition spelling (l : list var_el) (key : string) : option string :=
  last (base.filter (λ s, StringCopyToLowerCase tolower s = key) (ve_key <$> bucket_order l)).

(** The setting of a file for a key, in small letters: the first value of that spelling. *)
Definition setting (l : list var_el) (key : string) : option string :=
  s ← spelling l key; first_value s l.

Lemma spelling_in l key s :
  spelling l key = Some s → s ∈ ve_key <$> l ∧ StringCopyToLowerCase tolower s = key.
Proof.
  intros Hs%last_Some_elem_of. apply list_elem_of_filter in Hs as [Hl Hs]. split; [|done].
  by rewrite (bucket_order_perm l) in Hs.
Qed.

(** With one spelling it is the first value there is. *)
Lemma setting_one_spelling l key s :
  StringCopyToLowerCase tolower s = key →
  (∀ s', s' ∈ ve_key <$> l → StringCopyToLowerCase tolower s' = key → s' = s) →
  setting l key = first_value s l.
Proof.
  intros Hs Hone. unfold setting. destruct (spelling l key) as [s'|] eqn:Es; cbn.
  - by destruct (spelling_in _ _ _ Es) as [H1 H2]; rewrite (Hone s' H1 H2).
  - destruct (first_value s l) as [v|] eqn:Ev; [|done]. exfalso.
    assert (Hin : s ∈ ve_key <$> l) by (apply first_value_Some; by eexists).
    rewrite <- (bucket_order_perm l) in Hin. unfold spelling in Es. apply last_None in Es.
    eapply filter_nil_not_elem_of; [exact Es|exact Hs|exact Hin].
Qed.

Lemma fold_spellings (value : string → string) keys (m : gmap string string) key :
  foldl (λ m k, <[StringCopyToLowerCase tolower k := value k]> m) m keys !! key =
    match last (base.filter (λ k, StringCopyToLowerCase tolower k = key) keys) with
    | Some k => Some (value k)
    | None => m !! key
    end.
Proof.
  induction keys as [|k keys IH] using rev_ind; [done|].
  rewrite foldl_app, filter_app, filter_cons. cbn [foldl].
  destruct (decide (StringCopyToLowerCase tolower k = key)) as [<-|Hne].
  - cbn. by rewrite last_snoc, lookup_insert_eq.
  - cbn. by rewrite app_nil_r, lookup_insert_ne, IH.
Qed.

(** What reading a file does to the settings, whatever is in it. *)
Lemma ParseConfigFile_spec componentID file cs m :
  let '(cs', m') := ParseConfigFile tolower arithmetic componentID file cs m in
  cs' = (file_entries componentID file cs).1 ∧
  ∀ key, m' !! key = match setting (file_entries componentID file cs).2 key with
    | Some v => Some v | None => m !! key end.
Proof.
  unfold ParseConfigFile, file_entries.
  pose proof (keyvalue_open_represents arithmetic file [componentID; "general"] cs) as S.
  destruct (keyvalue_open _ _ _ _) as [cs1 [t|]],
    (keyvalue_parse_params _ list_find _ _ _ _ _) as [cs2 [l|]], S as [-> Ht]; try done.
  cbn [fst snd default from_option id]. split; [done|]. intros key. rewrite fold_spellings. cbn [keyvalue_getkeys].
  rewrite (represents_order t l Ht). change (last _) with (spelling l key). unfold setting.
  destruct (spelling l key) as [s|] eqn:Es; [|done]. apply spelling_in in Es as [Hs _].
  apply first_value_Some in Hs as [v Hv]. unfold GetString.
  rewrite (represents_getstring t l s Ht), Hv. cbn. by rewrite Hv.
Qed.

(** ** The server *)

Lemma fold_server (value : string → string) keys (m : gmap string string) key :
  foldl (λ m k, let v := value k in if decide (v ≠ "") then <[k := v]> m else m) m keys !! key =
    if decide (key ∈ keys ∧ value key ≠ "") then Some (value key) else m !! key.
Proof.
  revert m. induction keys as [|k keys IH]; intros m.
  { cbn. rewrite decide_False; [done|]. by intros [?%not_elem_of_nil _]. }
  cbn [foldl]. cbv zeta. rewrite IH.
  destruct (decide (key ∈ keys ∧ value key ≠ "")) as [[Hi Hv]|Hi].
  - rewrite decide_True; [done|]. by split; [right|].
  - destruct (decide (key = k)) as [->|Hne].
    + destruct (decide (value k ≠ "")); [|by rewrite decide_False by tauto].
      rewrite decide_True by (split; [left|done]). by rewrite lookup_insert_eq.
    + rewrite (decide_False (P := key ∈ k :: keys ∧ _)) by (intros [[?|?]%elem_of_cons ?]; tauto).
      case_decide; [|done]. by rewrite lookup_insert_ne.
Qed.

Lemma server_settings_lookup componentID file cs cs1 cs2 lc lg key :
  read_section file "general" cs [] cs1 lg → read_section file componentID cs1 lg cs2 lc →
  (server_settings arithmetic (Some file) cs componentID).2 !! key =
    v ← first_value key (lg ++ lc); if decide (v ≠ "") then Some v else None.
Proof.
  intros Hg Hc. unfold server_settings.
  destruct (open_two file _ _ _ _ _ _ _ Hg Hc) as (h & -> & Tv & Tk). cbn [snd].
  rewrite (fold_server (GetString h)). unfold GetString. rewrite Tv, lookup_empty.
  destruct (decide _) as [[Hi Hv]|Hi].
  - rewrite Tk, <- first_value_Some in Hi. destruct Hi as [v Hv']. rewrite Hv' in Hv |- *. cbn in *.
    by rewrite decide_True.
  - destruct (first_value key (lg ++ lc)) as [v|] eqn:Ev; [|done]. cbn in *.
    rewrite decide_False; [done|]. intros Hv. apply Hi. split; [|done].
    rewrite Tk, <- first_value_Some, Ev. by eexists.
Qed.

Lemma fold_response (l : list (string * string)) (m : gmap string string) key :
  NoDup l.*1 → (∀ k, k ∈ l.*1 → StringCopyToLowerCase tolower k = k) →
  foldl (λ m kv, let key_lower := StringCopyToLowerCase tolower kv.1 in
      if decide (m !! key_lower = None) then <[key_lower := kv.2]> m else m) m l !! key =
    match m !! key with Some v => Some v | None => (list_to_map l : gmap string string) !! key end.
Proof.
  revert m. induction l as [|[k v] l IH]; intros m Hd Hk; [cbn; by destruct (m !! key)|].
  apply NoDup_cons in Hd as [Hnk Hd]. cbn [foldl fst snd]. cbv zeta. rewrite (Hk k) by left.
  rewrite IH; [|done|intros k' Hk'; apply Hk; by right]. cbn [list_to_map foldr uncurry].
  destruct (decide (key = k)) as [->|Hne].
  - rewrite lookup_insert_eq. case_decide as Hm.
    + by rewrite lookup_insert_eq, Hm.
    + by destruct (m !! k).
  - rewrite lookup_insert_ne by done. case_decide; [|done]. by rewrite lookup_insert_ne.
Qed.

Context `{Protobuf ConfigRequestPB, !ProtobufLaw ConfigRequestPB}.
Context `{Protobuf ConfigeResponsePB, !ProtobufLaw ConfigeResponsePB}.

(** The settings of a node after the server has answered. *)
Definition ask_server (file : option config_file) (cs : option string) (componentID : string)
    (m : gmap string string) : gmap string string :=
  match (ConfigServer_request arithmetic file cs (config_request componentID)).2 with
  | None => m
  | Some response => parse_config_response tolower (populateMessage response).1 m
  end.

(** The node and the server together: a key the node has keeps its value; for any other it
    gets the first value of the server's file that is not empty, where (other than in a file
    of its own) the general section comes first. *)
Theorem server_fills_in componentID file cs cs1 cs2 lc lg m key :
  read_section file "general" cs [] cs1 lg → read_section file componentID cs1 lg cs2 lc →
  canonical (lg ++ lc) →
  ask_server (Some file) cs componentID m !! key =
    match m !! key with
    | Some v => Some v
    | None => v ← first_value key (lg ++ lc); if decide (v ≠ "") then Some v else None
    end.
Proof.
  intros Hg Hc Hl. pose proof (λ k, server_settings_lookup componentID file cs _ _ lc lg k Hg Hc) as Hs.
  rewrite <- Hs.
  unfold ask_server, ConfigServer_request, config_request, populateMessage, setData. cbn.
  rewrite parse_serialize. cbn. destruct (server_settings _ _ _ _) as [cs' S]. cbn [snd] in *.
  destruct (decide (size S = 0%nat)) as [HS|HS].
  { apply map_size_empty_inv in HS. rewrite HS, lookup_empty. by destruct (m !! key). }
  cbn. rewrite parse_serialize. cbn. unfold parse_config_response. cbn. rewrite zip_fst_snd.
  rewrite fold_response, list_to_map_kv_items; [done|apply NoDup_kv_items_keys|].
  intros k Hk. apply list_elem_of_fmap in Hk as ([k' v] & -> & Hkv%elem_of_kv_items). apply Hl. cbn.
  rewrite Hs in Hkv. apply first_value_Some. destruct (first_value k' (lg ++ lc)); [by eexists|done].
Qed.
End precedence.

(** ** Runs *)

#[local] Instance demo_request_codec : Protobuf ConfigRequestPB := {|
  serialize m := match cr_componentID m with Some s => String "1" s | None => "" end;
  parse s := (mkConfigRequestPB (match s with String _ s => Some s | EmptyString => None end), true);
  type_name := "ConfigRequestPB";
|}.
#[local] Instance demo_request_law : ProtobufLaw ConfigRequestPB.
Proof. by intros [[s|]]. Qed.

#[local] Instance ConfigeResponsePB_eq_dec : EqDecision ConfigeResponsePB.
Proof. solve_decision. Defined.
#[local] Program Instance ConfigeResponsePB_countable : Countable ConfigeResponsePB :=
  inj_countable' (λ m, (cs_key m, cs_value m)) (λ '(k, v), mkConfigeResponsePB k v) _.
Next Obligation. by intros []. Qed.
#[local] Instance demo_response_codec : Protobuf ConfigeResponsePB :=
  countable_protobuf (mkConfigeResponsePB [] []) "ConfigeResponsePB".
#[local] Instance demo_response_law : ProtobufLaw ConfigeResponsePB := countable_protobuf_law _ _.

(** Sums of numerals do. *)
Definition demo_arithmetic (op : ascii) (v1 v3 : string) : string := v1 +:+ String op v3.

Definition demo_file : config_file := mkConfigFile
  [KVPAIR (TOKEN "mode") (TOKEN "first"); SECTION "[C]"; KVPAIR (TOKEN "domain") (TOKEN "own");
   SECTION "[ general ]"; KVPAIR (TOKEN "domain") (TOKEN_STRING (String dquote ("shared" +:+ String dquote "")));
   KVPAIR (TOKEN "minport") (TOKEN "1000")] true.

Definition demo_own : list var_el := [mkVarEl "domain" "own"].
Definition demo_general : list var_el := [mkVarEl "domain" "shared"; mkVarEl "minport" "1000"].

(** The pair before the first section is in none at the first reading, and belongs to the
    section in which the first reading ended at the second one. *)
Lemma leading_pairs_go_to_last_section :
  read_section demo_arithmetic demo_file "C" None [] (Some "general") demo_own ∧
  read_section demo_arithmetic demo_file "general" None [] (Some "general") demo_general ∧
  read_section demo_arithmetic demo_file "general" (Some "general") demo_own (Some "general")
    (mkVarEl "mode" "first" :: demo_general).
Proof. repeat split; by vm_compute. Qed.

Lemma canonical_id l : canonical id l.
Proof.
  intros key _. unfold StringCopyToLowerCase. induction key as [|c key IH]; [done|].
  cbn [StringToLowerCase]. by rewrite IH.
Qed.

Lemma config_file_precedence_witness :
  (ParseConfigFile id demo_arithmetic "C" (Some demo_file) None ∅).2 !! "domain" = Some "own".
Proof.
  apply (config_file_precedence id demo_arithmetic "C" demo_file None (Some "general") (Some "general")
    demo_own (mkVarEl "mode" "first" :: demo_general) ∅ "domain").
  - split; by vm_compute.
  - split; by vm_compute.
  - apply canonical_id.
Defined.

Lemma server_fills_in_witness :
  ask_server id demo_arithmetic (Some demo_file) None "C" {["minport" := "5"]} !! "minport" = Some "5".
Proof.
  rewrite (server_fills_in id demo_arithmetic "C" demo_file None (Some "general") (Some "general")
    demo_own demo_general).
  - by vm_compute.
  - split; by vm_compute.
  - split; by vm_compute.
  - apply canonical_id.
Defined.

(** The same file gives a component its own domain when it reads the file itself, and the
    shared one when it asks the server. *)
Lemma general_settings_win :
  (ParseConfigFile id demo_arithmetic "C" (Some demo_file) None ∅).2 !! "domain" = Some "own" ∧
  ask_server id demo_arithmetic (Some demo_file) None "C" ∅ !! "domain" = Some "shared".
Proof. split; by vm_compute. Qed.
