(* ===== verification/ServiceDirectory.v ===== *)
(** * ServiceDirectory: the registry of publishers and services
    (src/src/components/cpp/ServiceDirectory/ServiceDirectory.cpp, ServiceDirectory.h)

    The state of the [ServiceDirectory] object and one function per handler.  Every
    [operator[]] of a [std::map] that inserts a default entry is written out, because
    the handlers later test for the presence of such entries.  What the object hands to
    its GravityNode to publish, and to the synchronizer thread, is appended to
    [sd_sent].  Logging is left out; arguments of log calls that change the state are
    not. *)

From S2P Require Import Prelude.
From S2P Require Import Messages.
From S2P Require Import CommUtil.
From S2P Require Import Utility.
From S2P Require Import GravityDataProduct.
#[local] Open Scope gravity_scope.

(** ** State *)

(** What leaves the object: a [RegisteredPublishers] update (published with the product
    ID as the filter), the domain details, a domain update, frames for the
    synchronizer. *)
Inductive SDOutput :=
| RegisteredPublishers (update : ComponentDataLookupResponsePB) (filter : string)
| DomainDetails (providerMap : ServiceDirectoryMapPB)
| DomainUpdate (updatePB : ServiceDirectoryDomainUpdatePB)
| ToSynchronizer (frames : list frame).

Record ServiceDirectory := mkServiceDirectory {
  sd_domain : string;
  (* domain -> data product ID -> publishers *)
  sd_dataProductMap : gmap string (gmap string (list PublisherInfoPB));
  (* domain -> service ID -> url *)
  sd_serviceMap : gmap string (gmap string string);
  sd_urlToComponentMap : gmap string string;
  (* url -> registered timestamp *)
  sd_registrationInstanceMap : gmap string Z;
  sd_domainMap : gmap string string;
  sd_registeredPublishersReady : bool;
  sd_registeredPublishersProcessed : bool;
  sd_registerUpdatesToSend : gset string;
  sd_sent : list SDOutput;
}.
#[export] Instance eta_ServiceDirectory : Eta ServiceDirectory := λ s,
  mkServiceDirectory (sd_domain s) (sd_dataProductMap s) (sd_serviceMap s)
    (sd_urlToComponentMap s) (sd_registrationInstanceMap s) (sd_domainMap s)
    (sd_registeredPublishersReady s) (sd_registeredPublishersProcessed s)
    (sd_registerUpdatesToSend s) (sd_sent s).

Definition initial_ServiceDirectory (domain : string) : ServiceDirectory :=
  mkServiceDirectory domain ∅ ∅ ∅ ∅ ∅ false false ∅ [].

Implicit Types st : ServiceDirectory.

Definition publish (o : SDOutput) st : ServiceDirectory := st <| sd_sent ::= λ l, l ++ [o] |>.

(** The publishers of a product in a domain ([[]] when there is no entry). *)
Definition publishers_of st (dom id : string) : list PublisherInfoPB :=
  idx [] id (idx ∅ dom (sd_dataProductMap st)).

Definition set_dpMap (dom : string) (dpMap : gmap string (list PublisherInfoPB)) st :=
  st <| sd_dataProductMap ::= insert dom dpMap |>.

Definition dpMap_of st (dom : string) : gmap string (list PublisherInfoPB) :=
  idx ∅ dom (sd_dataProductMap st).

Definition sMap_of st (dom : string) : gmap string string := idx ∅ dom (sd_serviceMap st).

(** [static_cast<uint32_t>(timestamp / 1e6)]: exact for the time stamps (in
    microseconds, below 2^32 seconds) for which the cast is defined. *)
Definition regTimeSecs (timestamp : Z) : Z := timestamp / 1000000.

(** ** Provider maps *)

(** [urlToComponentMap[url]] and [registrationInstanceMap[url]] *)
Definition component_of st (url : string) : string := idx "" url (sd_urlToComponentMap st).
Definition instance_of st (url : string) : Z := idx 0%Z url (sd_registrationInstanceMap st).
Definition touch_component (url : string) st :=
  st <| sd_urlToComponentMap ::= idx_touch "" url |>.
Definition touch_instance (url : string) st :=
  st <| sd_registrationInstanceMap ::= idx_touch 0%Z url |>.
Definition touch_url (url : string) st := touch_instance url (touch_component url st).

(** The loop over the services of a domain. *)
Fixpoint service_locations (dom : string) (items : list (string * string)) st
    : list ProductLocations * ServiceDirectory :=
  match items with
  | [] => ([], st)
  | (serviceID, url) :: items =>
      let locs := mkProductLocations serviceID [url] [component_of st url] [dom]
        [instance_of st url] in
      let '(rest, st) := service_locations dom items (touch_url url st) in
      (locs :: rest, st)
  end.

(** The loop over the publishers of one product. *)
Fixpoint location_urls (urls : list PublisherInfoPB) st (locs : ProductLocations)
    : ProductLocations * ServiceDirectory :=
  match urls with
  | [] => (locs, st)
  | info :: urls =>
      let url := str (pi_url info) in
      location_urls urls (touch_url url st)
        (locs <| loc_url ::= λ l, l ++ [url] |>
              <| loc_component_id ::= λ l, l ++ [component_of st url] |>
              <| loc_timestamp ::= λ l, l ++ [instance_of st url] |>)
  end.

(** The loop over the products of a domain. *)
Fixpoint data_locations (dom : string) (items : list (string * list PublisherInfoPB)) st
    : list ProductLocations * ServiceDirectory :=
  match items with
  | [] => ([], st)
  | (dataProductID, urls) :: items =>
      let '(locs, st) := location_urls urls st
        (mkProductLocations dataProductID [] [] [dom] []) in
      let '(rest, st) := data_locations dom items st in
      (locs :: rest, st)
  end.

Definition updateProductLocations (productID url : string) (timestamp : Z)
    (changeType : ChangeType) (registrationType : RegistrationType) st : ServiceDirectory :=
  let dom := sd_domain st in
  let st := st <| sd_serviceMap ::= idx_touch ∅ dom |> in
  let '(services, st) := service_locations dom (kv_items (sMap_of st dom)) st in
  let st := st <| sd_dataProductMap ::= idx_touch ∅ dom |> in
  let '(data, st) := data_locations dom (kv_items (dpMap_of st dom)) st in
  let component := component_of st url in
  let st := touch_component url st in
  let change := mkProductChange productID url registrationType changeType component timestamp in
  publish (DomainDetails (mkServiceDirectoryMapPB services data (Some change) dom)) st.

(** The response lists the publishers of the product in the given domain. *)
Definition addPublishers (dataProductID dom : string) st
    : ComponentDataLookupResponsePB * ServiceDirectory :=
  (mkComponentDataLookupResponsePB dataProductID (publishers_of st dom dataProductID) dom,
   st <| sd_dataProductMap ::= idx_touch ∅ dom |>).

(** The publisher list of a product changed: publish it when the product
    RegisteredPublishers can be published, else remember the product. *)
Definition publishers_changed (dataProductID dom : string) st : ServiceDirectory :=
  if sd_registeredPublishersReady st then
    let '(update, st) := addPublishers dataProductID dom st in
    publish (RegisteredPublishers update dataProductID) st
  else st <| sd_registerUpdatesToSend ::= union {[dataProductID]} |>.

(** ** Registration *)

Definition has_url (url : string) (info : PublisherInfoPB) : Prop := str (pi_url info) = url.
#[export] Instance has_url_dec url info : Decision (has_url url info).
Proof. unfold has_url. apply _. Defined.

(** One iteration of the loop of [purgeObsoletePublishers], for the entry [key]. *)
Definition purge_step (dataProductID url key : string) st : ServiceDirectory :=
  let dom := sd_domain st in
  let st :=
    if decide (key = dataProductID) then st
    else
      match list_find (has_url url) (publishers_of st dom key) with
      | None => st
      | Some (i, _) =>
          let infoPBs := delete i (publishers_of st dom key) in
          let st := set_dpMap dom (<[key := infoPBs]> (dpMap_of st dom)) st in
          let st := publishers_changed key dom st in
          let timestamp := instance_of st url in
          let st := touch_instance url st in
          let st := updateProductLocations key url timestamp REMOVE DATA st in
          st <| sd_registrationInstanceMap ::= delete url |>
      end in
  if decide (publishers_of st dom key = []) then
    set_dpMap dom (delete key (dpMap_of st dom)) st
  else st.

(** The loop erases no entry but the one it visits, so it visits the keys the map has
    at its start. *)
Definition purgeObsoletePublishers (dataProductID url : string) st : ServiceDirectory :=
  let dom := sd_domain st in
  let st := st <| sd_dataProductMap ::= idx_touch ∅ dom |> in
  foldl (λ st key, purge_step dataProductID url key st) st (kv_items (dpMap_of st dom)).*1.

(** The accessors of the registration that fill a publisher entry. *)
Definition refresh_info (registration : ServiceDirectoryRegistrationPB) (secs : Z)
    (info : PublisherInfoPB) : PublisherInfoPB :=
  let info := match rg_is_relay registration with
    | Some b => info <| pi_isRelay := Some b |> | None => info end in
  let info := match rg_component_id registration with
    | Some c => info <| pi_componentID := Some c |> | None => info end in
  let info := match rg_ip_address registration with
    | Some ip => info <| pi_ipAddress := Some ip |> | None => info end in
  info <| pi_registration_time := Some secs |>.

Definition new_info (registration : ServiceDirectoryRegistrationPB) (secs : Z) : PublisherInfoPB :=
  refresh_info registration secs
    (empty_PublisherInfoPB <| pi_url := Some (str (rg_url registration)) |>).

(** The branch for data products; the result says whether it was a duplicate. *)
Definition register_data (dom : string) (registration : ServiceDirectoryRegistrationPB) st
    : ServiceDirectory * bool :=
  let id := str (rg_id registration) in
  let url := str (rg_url registration) in
  let timestamp := num (rg_timestamp registration) in
  let st := if decide (id = REGISTERED_PUBLISHERS_DPID)
    then st <| sd_registeredPublishersReady := true |> else st in
  let urls := publishers_of st dom id in
  let st := set_dpMap dom (<[id := urls]> (dpMap_of st dom)) st in
  let st := st <| sd_registrationInstanceMap ::= insert url timestamp |> in
  let secs := regTimeSecs timestamp in
  let changed urls :=
    let st := set_dpMap dom (<[id := urls]> (dpMap_of st dom)) st in
    let st := st <| sd_urlToComponentMap ::= insert url (str (rg_component_id registration)) |> in
    let st := publishers_changed id dom st in
    let st := purgeObsoletePublishers id url st in
    let st := if decide (dom = sd_domain st ∧ id ≠ REGISTERED_PUBLISHERS_DPID)
      then updateProductLocations id url timestamp ADD DATA st else st in
    (st, false) in
  match list_find (has_url url) urls with
  | None => changed (urls ++ [new_info registration secs])
  | Some (i, info) =>
      if decide (num (pi_registration_time info) = secs) then
        (if decide (dom = sd_domain st)
         then updateProductLocations id url timestamp ADD DATA st else st, true)
      else changed (<[i := refresh_info registration secs info]> urls)
  end.

Definition register_service (dom : string) (registration : ServiceDirectoryRegistrationPB) st
    : ServiceDirectory :=
  let id := str (rg_id registration) in
  let url := str (rg_url registration) in
  let timestamp := num (rg_timestamp registration) in
  let st := st <| sd_serviceMap ::= insert dom (<[id := url]> (sMap_of st dom)) |> in
  let st := st <| sd_urlToComponentMap ::= insert url (str (rg_component_id registration)) |> in
  let st := purgeObsoletePublishers id url st in
  let st := st <| sd_registrationInstanceMap ::= insert url timestamp |> in
  if decide (dom = sd_domain st) then updateProductLocations id url timestamp ADD SERVICE st
  else st.

(** The checks of the time stamp. *)
Definition registration_accepted (registration : ServiceDirectoryRegistrationPB) st : bool :=
  match rg_timestamp registration with
  | None => false
  | Some timestamp =>
      match sd_registrationInstanceMap st !! str (rg_url registration) with
      | Some known => negb (timestamp <? known)%Z
      | None => true
      end
  end.

Definition request_domain (requested : option string) st : string :=
  match requested with Some d => d | None => sd_domain st end.

(** [handleRegister], on the parsed request. *)
Definition handleRegister (registration : ServiceDirectoryRegistrationPB) st
    : ServiceDirectoryResponsePB * ServiceDirectory :=
  let dom := request_domain (rg_domain registration) st in
  let '(st, foundDup) :=
    if registration_accepted registration st then
      match default DATA (rg_type registration) with
      | DATA => register_data dom registration st
      | SERVICE => (register_service dom registration st, false)
      end
    else (st, false) in
  let sdr :=
    if (foundDup : bool) then mkServiceDirectoryResponsePB (str (rg_id registration)) SUCCESS
    else mkServiceDirectoryResponsePB (str (rg_id registration)) SUCCESS in
  (sdr, st).

(** ** Unregistration *)

Definition is_registration (url : string) (secs : Z) (info : PublisherInfoPB) : Prop :=
  str (pi_url info) = url ∧ num (pi_registration_time info) = secs.
#[export] Instance is_registration_dec url secs info : Decision (is_registration url secs info).
Proof. unfold is_registration. apply _. Defined.

(** The branch for data products; the result says whether the url was found. *)
Definition unregister_data (dom : string) (unregistration : ServiceDirectoryUnregistrationPB) st
    : ServiceDirectory * bool :=
  let id := str (ur_id unregistration) in
  let url := str (ur_url unregistration) in
  let infoPBs := publishers_of st dom id in
  let st := set_dpMap dom (<[id := infoPBs]> (dpMap_of st dom)) st in
  match list_find (is_registration url (num (ur_registration_time unregistration))) infoPBs with
  | None => (st, false)
  | Some (i, _) =>
      let infoPBs := delete i infoPBs in
      let st := set_dpMap dom
        (if decide (infoPBs = []) then delete id (dpMap_of st dom)
         else <[id := infoPBs]> (dpMap_of st dom)) st in
      let st := publishers_changed id dom st in
      let st :=
        if decide (dom = sd_domain st) then
          let timestamp := instance_of st url in
          updateProductLocations id url timestamp REMOVE DATA (touch_instance url st)
        else st in
      (st <| sd_registrationInstanceMap ::= delete url |>, true)
  end.

Definition unregister_service (dom : string) (unregistration : ServiceDirectoryUnregistrationPB) st
    : ServiceDirectory * bool :=
  let id := str (ur_id unregistration) in
  let url := str (ur_url unregistration) in
  let sMap := sMap_of st dom in
  let st := st <| sd_serviceMap ::= insert dom sMap |> in
  match sMap !! id, sd_registrationInstanceMap st !! url with
  | Some _, Some known =>
      if decide (regTimeSecs known = num (ur_registration_time unregistration)) then
        let st := st <| sd_serviceMap ::= insert dom (delete id sMap) |> in
        let st :=
          if decide (dom = sd_domain st)
          then updateProductLocations id url known REMOVE SERVICE st else st in
        (st <| sd_registrationInstanceMap ::= delete url |>, true)
      else (st, false)
  | _, _ => (st, false)
  end.

Definition handleUnregister (unregistration : ServiceDirectoryUnregistrationPB) st
    : ServiceDirectoryResponsePB * ServiceDirectory :=
  let dom := request_domain (ur_domain unregistration) st in
  let '(st, foundUrl) :=
    match default DATA (ur_type unregistration) with
    | DATA => unregister_data dom unregistration st
    | SERVICE => unregister_service dom unregistration st
    end in
  (mkServiceDirectoryResponsePB (str (ur_id unregistration))
     (if (foundUrl : bool) then SUCCESS else NOT_REGISTERED), st).

(** ** Lookup *)

Inductive LookupResponse :=
| DataLookup (response : ComponentDataLookupResponsePB)
| ServiceLookup (response : ComponentServiceLookupResponsePB).

Definition lookup_domain (lookupRequest : ComponentLookupRequestPB) st : string :=
  if decide (str (lr_domain_id lookupRequest) = "") then sd_domain st
  else str (lr_domain_id lookupRequest).

Definition handleLookup (lookupRequest : ComponentLookupRequestPB) st
    : LookupResponse * ServiceDirectory :=
  let lookupDomain := lookup_domain lookupRequest st in
  let id := str (lr_lookupID lookupRequest) in
  match default DATA (lr_type lookupRequest) with
  | DATA =>
      let '(response, st) := addPublishers id lookupDomain st in
      (DataLookup response, st)
  | SERVICE =>
      let lookupResponse := mkComponentServiceLookupResponsePB id "" lookupDomain None in
      match sd_serviceMap st !! lookupDomain with
      | None => (ServiceLookup lookupResponse, st)
      | Some sMap =>
          match sMap !! id with
          | None => (ServiceLookup lookupResponse, st)
          | Some url =>
              let regTime := regTimeSecs (instance_of st url) in
              (ServiceLookup (lookupResponse <| sl_url := url |>
                                <| sl_registration_time := Some regTime |>),
               touch_instance url st)
          end
      end
  end.

(** ** The provider map of all domains (the service DirectoryService) *)

Fixpoint all_service_locations (domains : list (string * gmap string string)) st
    : list ProductLocations * ServiceDirectory :=
  match domains with
  | [] => ([], st)
  | (dom, sMap) :: domains =>
      let '(locs, st) := service_locations dom (kv_items sMap) st in
      let '(rest, st) := all_service_locations domains st in
      (locs ++ rest, st)
  end.

Fixpoint all_data_locations
    (domains : list (string * gmap string (list PublisherInfoPB))) st
    : list ProductLocations * ServiceDirectory :=
  match domains with
  | [] => ([], st)
  | (dom, dpMap) :: domains =>
      let '(locs, st) := data_locations dom (kv_items dpMap) st in
      let '(rest, st) := all_data_locations domains st in
      (locs ++ rest, st)
  end.

Definition getProviders st : ServiceDirectoryMapPB * ServiceDirectory :=
  let '(services, st) := all_service_locations (kv_items (sd_serviceMap st)) st in
  let '(data, st) := all_data_locations (kv_items (sd_dataProductMap st)) st in
  (mkServiceDirectoryMapPB services data None (sd_domain st), st).

(** ** Dispatching requests *)

Section dispatch.
Context `{Protobuf ComponentLookupRequestPB, Protobuf ServiceDirectoryRegistrationPB,
  Protobuf ServiceDirectoryUnregistrationPB, Protobuf ServiceDirectoryResponsePB,
  Protobuf ComponentDataLookupResponsePB, Protobuf ComponentServiceLookupResponsePB,
  Protobuf ServiceDirectoryMapPB}.

(** [request(dataProduct)]: the requests of the other components. *)
Definition request (dataProduct : GravityDataProduct) st
    : GravityDataProduct * ServiceDirectory :=
  let gdpResponse := new_GravityDataProduct "DataProductRegistrationResponse" in
  let requestType := getDataProductID dataProduct in
  if decide (requestType = "ComponentLookupRequest") then
    match handleLookup (fst (populateMessage dataProduct)) st with
    | (DataLookup response, st) => (setData response gdpResponse, st)
    | (ServiceLookup response, st) => (setData response gdpResponse, st)
    end
  else if decide (requestType = "RegistrationRequest") then
    let '(sdr, st) := handleRegister (fst (populateMessage dataProduct)) st in
    (setData sdr gdpResponse, st)
  else if decide (requestType = "UnregistrationRequest") then
    let '(sdr, st) := handleUnregister (fst (populateMessage dataProduct)) st in
    (setData sdr gdpResponse, st)
  else if decide (requestType = "GetDomain") then
    (setData_bytes (sd_domain st) gdpResponse, st)
  else (gdpResponse, st).

(** [request(serviceID, request)]: the requests to the service DirectoryService. *)
Definition service_request (serviceID : string) (dataProduct : GravityDataProduct) st
    : GravityDataProduct * ServiceDirectory :=
  let gdpResponse := new_GravityDataProduct "DirectoryServiceResponse" in
  if decide (serviceID = DIRECTORY_SERVICE_DPID) then
    let requestType := getDataProductID dataProduct in
    if decide (requestType = "GetProviders") then
      let '(providerMap, st) := getProviders st in
      (setData providerMap gdpResponse, st)
    else if decide (requestType = "GetDomain") then
      (setData_bytes (sd_domain st) gdpResponse, st)
    else (gdpResponse, st)
  else (gdpResponse, st).

(** ** The main loop *)

(** What the loop of [start] does after each request: once RegisteredPublishers can be
    published, the remembered products are, once. *)
Definition publish_pending st (ids : list string) : ServiceDirectory :=
  foldl (λ st id,
    let '(update, st) := addPublishers id (sd_domain st) st in
    publish (RegisteredPublishers update id) st) st ids.

Definition process_pending st : ServiceDirectory :=
  if negb (sd_registeredPublishersProcessed st) && sd_registeredPublishersReady st then
    (publish_pending st (set_items (sd_registerUpdatesToSend st)))
      <| sd_registerUpdatesToSend := ∅ |>
      <| sd_registeredPublishersProcessed := true |>
  else st.

Definition serve (req : GravityDataProduct) st : GravityDataProduct * ServiceDirectory :=
  let '(response, st) := request req st in (response, process_pending st).
End dispatch.

Definition publishDomainUpdateMessage (updateDomain : string) (type : ChangeType) st :=
  publish (DomainUpdate (mkServiceDirectoryDomainUpdatePB
    (kv_items (sd_domainMap st)).*1 type updateDomain)) st.

(** The commands of the UDP receiver; the frames not read stay on the socket. *)
Definition process_domain_command (fs : list frame) st : option (ServiceDirectory * list frame) :=
  match readStringMessage fs with
  | None => None
  | Some (command, fs) =>
      if decide (command = "Add") then
        (domainToAdd <~ readStringMessage ;; url <~ readStringMessage ;;
         read_ret (let st := st <| sd_domainMap ::= insert domainToAdd url |> in
           let st := publishDomainUpdateMessage domainToAdd ADD st in
           publish (ToSynchronizer [sendStringMessage "Add"; sendStringMessage domainToAdd;
             sendStringMessage url]) st)) fs
      else if decide (command = "Update") then
        (domainToUpdate <~ readStringMessage ;; url <~ readStringMessage ;;
         read_ret (let st := st <| sd_domainMap ::= insert domainToUpdate url |> in
           publish (ToSynchronizer [sendStringMessage "Update";
             sendStringMessage domainToUpdate; sendStringMessage url]) st)) fs
      else if decide (command = "Remove") then
        (domainToRemove <~ readStringMessage ;;
         read_ret (let st := st <| sd_domainMap ::= delete domainToRemove |> in
           let st := publishDomainUpdateMessage domainToRemove REMOVE st in
           publish (ToSynchronizer [sendStringMessage "Remove";
             sendStringMessage domainToRemove]) st)) fs
      else Some (st, fs)
  end.

(** ** Configuration ([start] up to its main loop) *)

(** [isalnum] in the classic locale. *)
Definition is_alnum (c : Ascii.ascii) : bool :=
  let n := Ascii.nat_of_ascii c in
  (48 <=? n) && (n <=? 57) || (65 <=? n) && (n <=? 90) || (97 <=? n) && (n <=? 122).

Definition dot : Ascii.ascii := Ascii.ascii_of_nat 46.

Fixpoint validateDomainName (domain : string) : bool :=
  match domain with
  | EmptyString => true
  | String c domain =>
      if negb (is_alnum c) && negb (bool_decide (c = dot)) then false
      else validateDomainName domain
  end.

(** The [while] loop: [pos] is where the next comma is, [prevPos] where its piece starts.
    Every comma takes one unit of [fuel]. *)
Fixpoint csv_loop (fuel : nat) (csv : string) (prevPos : nat) (pos : option nat)
    (commaCount : Z) : option Z :=
  match pos with
  | None => Some (commaCount + 1)%Z
  | Some pos =>
      match fuel with
      | O => None
      | S fuel =>
          if negb (validateDomainName (String.substring prevPos (pos - prevPos) csv))
          then Some (-1)%Z
          else csv_loop fuel csv (pos + 1) (String.index (pos + 1) "," csv) (commaCount + 1)
      end
  end.

Definition parseDomainCSV (csv : string) : option Z :=
  let pos := String.index 0 "," csv in
  if decide (String.length csv = 0) then Some 0%Z
  else csv_loop (String.length csv) csv 0 pos 0.

Record SDConfig := mkSDConfig {
  cfg_domain : string;
  cfg_broadcastEnabled : bool;
  cfg_knownDomainCSV : string;
  cfg_numDomains : Z;
}.

(** The parameters Domain, BroadcastEnabled ([None]: not given) and DomainSyncList. *)
Definition sd_configure (paramDomain : string) (paramBroadcast : option bool)
    (paramSyncList : string) : SDConfig :=
  let broadcastEnabled := default (bool_decide (paramDomain ≠ "")) paramBroadcast in
  let '(domain, broadcastEnabled) :=
    if validateDomainName paramDomain then (paramDomain, broadcastEnabled) else ("", false) in
  let numDomains := default 0%Z (parseDomainCSV paramSyncList) in
  if (numDomains <? 0)%Z then mkSDConfig domain broadcastEnabled "" 0
  else mkSDConfig domain broadcastEnabled paramSyncList numDomains.

(** The parameters handed to the threads: the frames of the multi-part messages. *)
Definition sendBroadcasterParameters (sdDomain url ip : string) (port rate : Z) : list frame :=
  [sendStringMessage "broadcast"; sendStringMessage sdDomain; sendStringMessage url;
   sendStringMessage ip; sendUint32Message port; sendUint32Message rate].

Definition sendReceiverParameters (sdDomain url : string) (port numValidDomains : Z)
    (validDomains : string) : list frame :=
  [sendStringMessage "receive"; sendStringMessage sdDomain; sendStringMessage url;
   sendUint32Message port; sendUint32Message numValidDomains; sendStringMessage validDomains].

(** ** The object as a state machine

    What can happen to the object, with the request already parsed. *)
Inductive SDEvent :=
| Lookup (lookupRequest : ComponentLookupRequestPB)
| Register (registration : ServiceDirectoryRegistrationPB)
| Unregister (unregistration : ServiceDirectoryUnregistrationPB)
| OtherRequest
| GetProviders
| DomainCommand (frames : list frame).

Definition sd_step (e : SDEvent) st : ServiceDirectory :=
  match e with
  | Lookup lookupRequest => process_pending (handleLookup lookupRequest st).2
  | Register registration => process_pending (handleRegister registration st).2
  | Unregister unregistration => process_pending (handleUnregister unregistration st).2
  | OtherRequest => process_pending st
  | GetProviders => (getProviders st).2
  | DomainCommand frames =>
      match process_domain_command frames st with
      | Some (st, _) => st
      | None => st
      end
  end.

Inductive sd_reachable (domain : string) : ServiceDirectory → Prop :=
| sd_reach_init : sd_reachable domain (initial_ServiceDirectory domain)
| sd_reach_step e st : sd_reachable domain st → sd_reachable domain (sd_step e st).
