(* ===== verification/ServiceDirectoryRegistry.v ===== *)
(** * The registry of the Service Directory: proofs

    Functional behaviour of registration, unregistration and purging on the map of
    publishers, and the invariants every request preserves.  [quiet] relates states that
    differ in nothing the registry's clients can see. *)

From S2P Require Import Prelude.
From S2P Require Import Messages.
From S2P Require Import CommUtil.
From S2P Require Import GravityDataProduct.
From S2P Require Import ServiceDirectory.
#[local] Open Scope gravity_scope.

Implicit Types st : ServiceDirectory.

(** ** Announcements *)

(** The publishers that the last RegisteredPublishers message for a product in a domain
    lists; [[]] before the first. *)
Definition announce (dom id : string) (acc : list PublisherInfoPB) (o : SDOutput)
    : list PublisherInfoPB :=
  match o with
  | RegisteredPublishers update _ =>
      if decide (dl_lookupID update = id ∧ dl_domain_id update = dom)
      then dl_publishers update else acc
  | _ => acc
  end.

Definition announced (dom id : string) (sent : list SDOutput) : list PublisherInfoPB :=
  foldl (announce dom id) [] sent.
Arguments announced : simpl never.

Lemma announced_snoc dom id sent o :
  announced dom id (sent ++ [o]) = announce dom id (announced dom id sent) o.
Proof. unfold announced. by rewrite foldl_app. Qed.

(** Outputs that announce no publishers. *)
Definition silent (o : SDOutput) : Prop :=
  match o with RegisteredPublishers _ _ => False | _ => True end.

Lemma announced_silent dom id sent extra :
  Forall silent extra → announced dom id (sent ++ extra) = announced dom id sent.
Proof.
  unfold announced. rewrite foldl_app. generalize (foldl (announce dom id) [] sent).
  induction extra as [|o extra IH]; intros acc Hs; [done|].
  apply Forall_cons in Hs as [Ho Hs]. cbn. rewrite IH by done. by destruct o.
Qed.

(** ** Quiet steps *)

Record quiet st st' : Prop := {
  quiet_domain : sd_domain st' = sd_domain st;
  quiet_publishers d id : publishers_of st' d id = publishers_of st d id;
  quiet_ready : sd_registeredPublishersReady st' = sd_registeredPublishersReady st;
  quiet_processed : sd_registeredPublishersProcessed st' = sd_registeredPublishersProcessed st;
  quiet_pending : sd_registerUpdatesToSend st' = sd_registerUpdatesToSend st;
  quiet_sent : ∃ extra, sd_sent st' = sd_sent st ++ extra ∧ Forall silent extra;
}.

#[export] Instance quiet_preorder : PreOrder quiet.
Proof.
  split.
  - intros st. split; try done. exists []. by rewrite app_nil_r.
  - intros st1 st2 st3 [] []. split; try congruence.
    destruct quiet_sent0 as (e1 & H1 & F1), quiet_sent1 as (e2 & H2 & F2).
    exists (e1 ++ e2). rewrite H2, H1, app_assoc. split; [done|]. by apply Forall_app.
Qed.

(** An update of fields the registry's clients do not see. *)
Ltac solve_quiet :=
  split; cbn; try done;
    try (intros; unfold publishers_of; cbn; by rewrite idx_touch_idx);
  exists []; by rewrite app_nil_r.

Lemma quiet_touch_component url st : quiet st (touch_component url st).
Proof. unfold touch_component. solve_quiet. Qed.
Lemma quiet_touch_instance url st : quiet st (touch_instance url st).
Proof. unfold touch_instance. solve_quiet. Qed.
Lemma quiet_instances f st : quiet st (st <| sd_registrationInstanceMap ::= f |>).
Proof. solve_quiet. Qed.
Lemma quiet_components f st : quiet st (st <| sd_urlToComponentMap ::= f |>).
Proof. solve_quiet. Qed.
Lemma quiet_services f st : quiet st (st <| sd_serviceMap ::= f |>).
Proof. solve_quiet. Qed.
Lemma quiet_domainMap f st : quiet st (st <| sd_domainMap ::= f |>).
Proof. solve_quiet. Qed.
Lemma quiet_touch_dpMap d st : quiet st (st <| sd_dataProductMap ::= idx_touch ∅ d |>).
Proof. solve_quiet. Qed.
Lemma quiet_publish o st : silent o → quiet st (publish o st).
Proof. intros Ho. split; try done. exists [o]. split; [done|]. by apply Forall_singleton. Qed.

#[export] Hint Resolve quiet_touch_component quiet_touch_instance quiet_instances
  quiet_components quiet_services quiet_domainMap quiet_touch_dpMap : gravity.

Lemma quiet_touch_url url st : quiet st (touch_url url st).
Proof. unfold touch_url. etrans; [apply quiet_touch_component|apply quiet_touch_instance]. Qed.
#[export] Hint Resolve quiet_touch_url : gravity.

Lemma quiet_service_locations dom items st :
  quiet st (service_locations dom items st).2.
Proof.
  revert st. induction items as [|[id url] items IH]; intros st; cbn; [done|].
  specialize (IH (touch_url url st)).
  destruct (service_locations dom items (touch_url url st)). cbn in *.
  etrans; [apply quiet_touch_url|done].
Qed.

Lemma quiet_location_urls urls st locs : quiet st (location_urls urls st locs).2.
Proof.
  revert st locs. induction urls as [|info urls IH]; intros st locs; cbn; [done|].
  etrans; [apply quiet_touch_url|apply IH].
Qed.

Lemma quiet_data_locations dom items st : quiet st (data_locations dom items st).2.
Proof.
  revert st. induction items as [|[id urls] items IH]; intros st; cbn; [done|].
  pose proof (quiet_location_urls urls st (mkProductLocations id [] [] [dom] [])) as Hq.
  destruct (location_urls urls st _) as [locs st']. cbn in *. specialize (IH st').
  destruct (data_locations dom items st'). cbn in *. by etrans.
Qed.

Lemma quiet_updateProductLocations id url ts c t st :
  quiet st (updateProductLocations id url ts c t st).
Proof.
  unfold updateProductLocations.
  set (st1 := st <| sd_serviceMap ::= _ |>).
  pose proof (quiet_service_locations (sd_domain st) (kv_items (sMap_of st1 (sd_domain st))) st1)
    as Hq1.
  destruct (service_locations _ _ st1) as [services st2]. cbn in Hq1.
  set (st3 := st2 <| sd_dataProductMap ::= _ |>).
  pose proof (quiet_data_locations (sd_domain st) (kv_items (dpMap_of st3 (sd_domain st))) st3)
    as Hq2.
  destruct (data_locations _ _ st3) as [data st4]. cbn in Hq2.
  etrans; [apply (quiet_services (idx_touch ∅ (sd_domain st)))|]. etrans; [apply Hq1|].
  etrans; [apply (quiet_touch_dpMap (sd_domain st))|]. etrans; [apply Hq2|].
  etrans; [apply (quiet_touch_component url)|]. by apply quiet_publish.
Qed.
#[export] Hint Resolve quiet_updateProductLocations : gravity.

(** ** Publisher lists *)

Definition urls_of (l : list PublisherInfoPB) : list string := (λ p, str (pi_url p)) <$> l.

(** The list without the first publisher at a url. *)
Definition drop_url (url : string) (l : list PublisherInfoPB) : list PublisherInfoPB :=
  match list_find (has_url url) l with
  | Some (i, _) => delete i l
  | None => l
  end.

Lemma list_find_urls url l :
  list_find (has_url url) l = None ↔ url ∉ urls_of l.
Proof.
  rewrite list_find_None, Forall_forall. unfold urls_of, has_url.
  rewrite list_elem_of_fmap. naive_solver.
Qed.

Lemma drop_url_sublist url l : drop_url url l `sublist_of` l.
Proof.
  unfold drop_url. destruct (list_find (has_url url) l) as [[i p]|]; [|done].
  apply sublist_delete.
Qed.

Lemma drop_url_nil url : drop_url url [] = [].
Proof. done. Qed.

Lemma NoDup_drop_url url l : NoDup (urls_of l) → NoDup (urls_of (drop_url url l)).
Proof.
  intros Hnd. eapply sublist_NoDup; [apply Hnd|]. apply fmap_sublist, drop_url_sublist.
Qed.

Lemma elem_of_drop_url url l u : u ∈ urls_of (drop_url url l) → u ∈ urls_of l.
Proof.
  intros Hu. eapply elem_of_sublist; [apply Hu|]. apply fmap_sublist, drop_url_sublist.
Qed.

Lemma drop_url_gone url l : NoDup (urls_of l) → url ∉ urls_of (drop_url url l).
Proof.
  intros Hnd. unfold drop_url. destruct (list_find (has_url url) l) as [[i p]|] eqn:Hf;
    [|by apply list_find_urls].
  apply list_find_Some in Hf as (Hi & Hp & _).
  unfold urls_of in *. rewrite list_fmap_delete.
  assert (Hi' : ((λ p, str (pi_url p)) <$> l) !! i = Some url).
  { rewrite list_lookup_fmap, Hi. cbn. by rewrite Hp. }
  revert Hnd Hi'. generalize ((λ p, str (pi_url p)) <$> l). clear.
  intros us. revert i. induction us as [|u us IH]; intros [|i] Hnd Hi; cbn in *; try done.
  - apply NoDup_cons in Hnd as [Hu _]. by simplify_eq.
  - apply NoDup_cons in Hnd as [Hu Hnd]. rewrite not_elem_of_cons. split; [|by eapply IH].
    intros ->. apply Hu. by eapply list_elem_of_lookup_2.
Qed.

(** ** Setting a publisher list and announcing it *)

Lemma publishers_absent st d k : dpMap_of st d !! k = None → publishers_of st d k = [].
Proof. intros Hl. unfold publishers_of, dpMap_of in *. unfold idx at 1. by rewrite Hl. Qed.

Lemma publishers_set_dpMap dom dpMap st d id :
  publishers_of (set_dpMap dom dpMap st) d id =
    if decide (dom = d) then idx [] id dpMap else publishers_of st d id.
Proof. unfold publishers_of. cbn. rewrite idx_insert. by case_decide. Qed.

Lemma publishers_set dom key l st d id :
  publishers_of (set_dpMap dom (<[key := l]> (dpMap_of st dom)) st) d id =
    if decide (dom = d ∧ key = id) then l else publishers_of st d id.
Proof.
  rewrite publishers_set_dpMap. repeat case_decide; destruct_and?; subst;
    rewrite ?idx_insert; repeat case_decide; try done; naive_solver.
Qed.

Lemma quiet_set_same dom key st :
  quiet st (set_dpMap dom (<[key := publishers_of st dom key]> (dpMap_of st dom)) st).
Proof.
  split; try done; [|by exists []; rewrite app_nil_r].
  intros d id. rewrite publishers_set. case_decide; naive_solver.
Qed.

Lemma quiet_delete_empty dom key st :
  publishers_of st dom key = [] →
  quiet st (set_dpMap dom (delete key (dpMap_of st dom)) st).
Proof.
  intros He. split; try done; [|by exists []; rewrite app_nil_r].
  intros d id. rewrite publishers_set_dpMap. case_decide; [|done].
  subst. rewrite idx_delete. case_decide; [by subst|done].
Qed.

Lemma publishers_changed_domain id dom st :
  sd_domain (publishers_changed id dom st) = sd_domain st.
Proof. unfold publishers_changed. by case_match. Qed.

Lemma publishers_changed_publishers key dom st d id :
  publishers_of (publishers_changed key dom st) d id = publishers_of st d id.
Proof.
  unfold publishers_changed. case_match; [|done].
  unfold publishers_of. cbn. by rewrite idx_touch_idx.
Qed.

Lemma publishers_changed_ready key dom st :
  sd_registeredPublishersReady (publishers_changed key dom st) = sd_registeredPublishersReady st.
Proof. unfold publishers_changed. by case_match. Qed.

(** ** The invariant *)

(** A product whose own-domain publishers are the announced ones, or will be. *)
Definition up_to_date st (id : string) : Prop :=
  id ∈ sd_registerUpdatesToSend st ∨
  announced (sd_domain st) id (sd_sent st) = publishers_of st (sd_domain st) id.

Definition coherent_but (key : string) st : Prop := ∀ id, id ≠ key → up_to_date st id.
Definition coherent st : Prop := ∀ id, up_to_date st id.

Definition settled st : Prop :=
  sd_registeredPublishersProcessed st = true →
  sd_registeredPublishersReady st = true ∧ sd_registerUpdatesToSend st = ∅.

Lemma up_to_date_quiet st st' id : quiet st st' → up_to_date st id → up_to_date st' id.
Proof.
  intros [Hd Hp Hr Hpr Hpe (extra & Hs & Hf)]. unfold up_to_date.
  rewrite Hd, Hp, Hpe, Hs, announced_silent by done. done.
Qed.

Lemma coherent_quiet st st' : quiet st st' → coherent st → coherent st'.
Proof. intros Hq Hc id. eapply up_to_date_quiet; eauto. Qed.

Lemma settled_quiet st st' : quiet st st' → settled st → settled st'.
Proof. intros [] Hs. unfold settled. by rewrite quiet_processed0, quiet_ready0, quiet_pending0. Qed.

Lemma announce_other dom id dom' id' l filter acc :
  (dom, id) ≠ (dom', id') →
  announce dom id acc
    (RegisteredPublishers (mkComponentDataLookupResponsePB id' l dom') filter) = acc.
Proof. intros Hne. cbn. rewrite decide_False; [done|]. intros [? ?]. naive_solver. Qed.

(** Setting the list of [key] in the own domain and announcing it. *)
Lemma coherent_publishers_changed key st :
  coherent_but key st → coherent (publishers_changed key (sd_domain st) st).
Proof.
  intros Hc id. unfold up_to_date.
  rewrite publishers_changed_domain, publishers_changed_publishers.
  unfold publishers_changed. destruct (sd_registeredPublishersReady st); cbn.
  - rewrite announced_snoc. destruct (decide (id = key)) as [->|Hne].
    + right. cbn. by rewrite decide_True.
    + rewrite announce_other by naive_solver. by apply Hc.
  - destruct (decide (id = key)) as [->|Hne]; [set_solver|].
    destruct (Hc id Hne) as [?|?]; [left; set_solver|by right].
Qed.

Lemma coherent_publishers_changed_foreign key dom st :
  dom ≠ sd_domain st → coherent st → coherent (publishers_changed key dom st).
Proof.
  intros Hd Hc id. unfold up_to_date.
  rewrite publishers_changed_domain, publishers_changed_publishers.
  unfold publishers_changed. destruct (sd_registeredPublishersReady st); cbn.
  - rewrite announced_snoc, announce_other by naive_solver. apply Hc.
  - destruct (Hc id) as [?|?]; [left; set_solver|by right].
Qed.

Lemma coherent_change key dom l st :
  coherent st →
  coherent (publishers_changed key dom
    (set_dpMap dom (<[key := l]> (dpMap_of st dom)) st)).
Proof.
  intros Hc. set (st' := set_dpMap _ _ st).
  assert (Hup : ∀ id, (dom, key) ≠ (sd_domain st, id) → up_to_date st' id).
  { intros id Hne. unfold up_to_date, st'. rewrite publishers_set, decide_False by naive_solver.
    apply Hc. }
  destruct (decide (dom = sd_domain st)) as [->|Hd].
  - change (sd_domain st) with (sd_domain st') at 1. apply coherent_publishers_changed.
    intros id Hne. apply Hup. naive_solver.
  - apply coherent_publishers_changed_foreign; [done|]. intros id. apply Hup. naive_solver.
Qed.

Lemma settled_publishers_changed key dom st :
  settled st → settled (publishers_changed key dom st).
Proof.
  unfold settled, publishers_changed. intros Hs.
  destruct (sd_registeredPublishersReady st) eqn:Hr; cbn; intros Hp.
  - destruct (Hs Hp) as [_ ?]. by rewrite Hr.
  - by destruct (Hs Hp).
Qed.

(** Announcing from states that look the same leads to states that look the same. *)
Lemma publishers_changed_same id dom st st' :
  quiet st st' → sd_sent st' = sd_sent st →
  quiet (publishers_changed id dom st) (publishers_changed id dom st').
Proof.
  intros Hq Hs. pose proof Hq as [Hd Hp Hr Hpr Hpe _].
  split; rewrite ?publishers_changed_domain, ?publishers_changed_ready; try done.
  - intros d k. by rewrite !publishers_changed_publishers.
  - unfold publishers_changed. rewrite Hr. by case_match.
  - unfold publishers_changed. rewrite Hr. case_match; cbn; by rewrite Hpe.
  - exists []. rewrite app_nil_r. split; [|done].
    unfold publishers_changed, addPublishers. rewrite Hr, Hp. case_match; cbn; by rewrite Hs.
Qed.

(** ** Purging *)

Lemma purge_step_spec id url key st :
  let st' := purge_step id url key st in
  sd_domain st' = sd_domain st ∧
  sd_registeredPublishersReady st' = sd_registeredPublishersReady st ∧
  (∀ d k, publishers_of st' d k =
    if decide (d = sd_domain st ∧ k = key ∧ key ≠ id) then drop_url url (publishers_of st d k)
    else publishers_of st d k) ∧
  (coherent st → coherent st') ∧ (settled st → settled st').
Proof.
  unfold purge_step. cbn zeta.
  match goal with |- context [publishers_of ?s (sd_domain st) key = []] => set (st1 := s) end.
  assert (sd_domain st1 = sd_domain st ∧
    sd_registeredPublishersReady st1 = sd_registeredPublishersReady st ∧
    (∀ d k, publishers_of st1 d k =
      if decide (d = sd_domain st ∧ k = key ∧ key ≠ id) then drop_url url (publishers_of st d k)
      else publishers_of st d k) ∧
    (coherent st → coherent st1) ∧ (settled st → settled st1))
    as (Hd & Hr & Hp & Hc & Hs).
  { subst st1. destruct (decide (key = id)) as [->|Hne].
    { split_and!; try done. intros. rewrite decide_False by naive_solver. done. }
    destruct (list_find (has_url url) (publishers_of st (sd_domain st) key)) as [[i p]|] eqn:Hf.
    2:{ split_and!; try done. intros. case_decide; [|done]. destruct_and!; subst.
        unfold drop_url. by rewrite Hf. }
    set (l := delete i _).
    set (st2 := publishers_changed key _ _).
    assert (Hq : ∀ ts, quiet st2 ((updateProductLocations key url ts REMOVE DATA
      (touch_instance url st2)) <| sd_registrationInstanceMap ::= delete url |>)).
    { intros ts. etrans; [apply (quiet_touch_instance url)|].
      etrans; [apply quiet_updateProductLocations|apply quiet_instances]. }
    specialize (Hq (instance_of st2 url)).
    assert (Hdom2 : sd_domain st2 = sd_domain st)
      by (unfold st2; by rewrite publishers_changed_domain).
    split_and!.
    - by rewrite (quiet_domain _ _ Hq).
    - rewrite (quiet_ready _ _ Hq). unfold st2. by rewrite publishers_changed_ready.
    - intros d k. rewrite (quiet_publishers _ _ Hq).
      unfold st2. rewrite publishers_changed_publishers, publishers_set.
      repeat case_decide; destruct_and?; subst; try naive_solver.
      unfold drop_url. by rewrite Hf.
    - intros Hc. eapply coherent_quiet; [apply Hq|]. by apply coherent_change.
    - intros Hs. eapply settled_quiet; [apply Hq|]. by apply settled_publishers_changed. }
  destruct (decide (publishers_of st1 (sd_domain st) key = [])) as [He|]; [|done].
  pose proof (quiet_delete_empty _ _ _ He) as Hq.
  split_and!; [done|done| | |].
  - intros d k. by rewrite (quiet_publishers _ _ Hq).
  - intros H. eapply coherent_quiet; [apply Hq|auto].
  - intros H. eapply settled_quiet; [apply Hq|auto].
Qed.

Lemma purge_loop_spec id url keys st :
  NoDup keys →
  let st' := foldl (λ st key, purge_step id url key st) st keys in
  sd_domain st' = sd_domain st ∧
  sd_registeredPublishersReady st' = sd_registeredPublishersReady st ∧
  (∀ d k, publishers_of st' d k =
    if decide (d = sd_domain st ∧ k ∈ keys ∧ k ≠ id) then drop_url url (publishers_of st d k)
    else publishers_of st d k) ∧
  (coherent st → coherent st') ∧ (settled st → settled st').
Proof.
  revert st. induction keys as [|key keys IH]; intros st Hnd; cbn.
  { split_and!; try done. intros. rewrite decide_False by set_solver. done. }
  apply NoDup_cons in Hnd as [Hk Hnd].
  destruct (purge_step_spec id url key st) as (Hd & Hr & Hp & Hc & Hs).
  destruct (IH (purge_step id url key st) Hnd) as (Hd' & Hr' & Hp' & Hc' & Hs').
  split_and!; [congruence|congruence| |by auto|by auto].
  intros d k. rewrite Hp', Hp, Hd.
  repeat case_decide; destruct_and?; subst; try done; set_solver.
Qed.

Lemma purge_spec id url st :
  let st' := purgeObsoletePublishers id url st in
  sd_domain st' = sd_domain st ∧
  sd_registeredPublishersReady st' = sd_registeredPublishersReady st ∧
  (∀ d k, publishers_of st' d k =
    if decide (d = sd_domain st ∧ k ≠ id) then drop_url url (publishers_of st d k)
    else publishers_of st d k) ∧
  (coherent st → coherent st') ∧ (settled st → settled st').
Proof.
  unfold purgeObsoletePublishers. cbn zeta.
  set (st1 := st <| sd_dataProductMap ::= _ |>).
  pose proof (quiet_touch_dpMap (sd_domain st) st) as Hq. fold st1 in Hq.
  destruct (purge_loop_spec id url (kv_items (dpMap_of st1 (sd_domain st))).*1 st1)
    as (Hd & Hr & Hp & Hc & Hs); [apply NoDup_kv_items_keys|].
  split_and!; [done|done| | |].
  - intros d k. rewrite Hp, (quiet_publishers _ _ Hq).
    destruct (decide (k ∈ (kv_items (dpMap_of st1 (sd_domain st))).*1)) as [Hk|Hk].
    { repeat case_decide; naive_solver. }
    rewrite decide_False by naive_solver. case_decide as Hdk; [|done].
    destruct Hdk as [-> Hne]. change (sd_domain st1) with (sd_domain st) in *.
    assert (He : publishers_of st (sd_domain st) k = []); [|by rewrite He].
    rewrite <-(quiet_publishers _ _ Hq).
    destruct (dpMap_of st1 (sd_domain st) !! k) eqn:Hl; [|by apply publishers_absent].
    exfalso. apply Hk. apply list_elem_of_fmap. eexists (k, _). split; [done|].
    by apply elem_of_kv_items.
  - intros H. apply Hc. by eapply coherent_quiet.
  - intros H. apply Hs. by eapply settled_quiet.
Qed.

(** ** Registration *)

Section registration.
Variables (dom : string) (registration : ServiceDirectoryRegistrationPB).
Let id := str (rg_id registration).
Let url := str (rg_url registration).
Let secs := regTimeSecs (num (rg_timestamp registration)).

(** The new publisher list of the product, [None] when the registration is a duplicate. *)
Definition upsert (urls : list PublisherInfoPB) : option (list PublisherInfoPB) :=
  match list_find (has_url url) urls with
  | None => Some (urls ++ [new_info registration secs])
  | Some (i, info) =>
      if decide (num (pi_registration_time info) = secs) then None
      else Some (<[i := refresh_info registration secs info]> urls)
  end.

(** What registering a data product does to the publisher lists. *)
Definition registered_publishers st (d k : string) : list PublisherInfoPB :=
  match upsert (publishers_of st dom id) with
  | None => publishers_of st d k
  | Some l =>
      if decide (d = dom ∧ k = id) then l
      else if decide (d = sd_domain st ∧ k ≠ id) then drop_url url (publishers_of st d k)
      else publishers_of st d k
  end.

Lemma register_changed_spec l st st1 :
  sd_domain st1 = sd_domain st → (∀ d k, publishers_of st1 d k = publishers_of st d k) →
  let st2 := set_dpMap dom (<[id := l]> (dpMap_of st1 dom)) st1 in
  let st3 := st2 <| sd_urlToComponentMap ::= insert url (str (rg_component_id registration)) |> in
  let st4 := purgeObsoletePublishers id url (publishers_changed id dom st3) in
  let st5 := if decide (dom = sd_domain st4 ∧ id ≠ REGISTERED_PUBLISHERS_DPID)
    then updateProductLocations id url (num (rg_timestamp registration)) ADD DATA st4 else st4 in
  sd_domain st5 = sd_domain st ∧
  sd_registeredPublishersReady st5 = sd_registeredPublishersReady st1 ∧
  (∀ d k, publishers_of st5 d k =
    if decide (d = dom ∧ k = id) then l
    else if decide (d = sd_domain st ∧ k ≠ id) then drop_url url (publishers_of st d k)
    else publishers_of st d k) ∧
  (coherent st1 → coherent st5) ∧ (settled st1 → settled st5).
Proof.
  intros Hd1 Hp1 st2 st3 st4 st5.
  assert (Hq5 : quiet st4 st5).
  { subst st5. case_decide; [apply quiet_updateProductLocations|done]. }
  destruct (purge_spec id url (publishers_changed id dom st3)) as (Hd4 & Hr4 & Hp4 & Hc4 & Hs4).
  fold st4 in Hd4, Hr4, Hp4, Hc4, Hs4.
  rewrite publishers_changed_domain in Hd4. rewrite publishers_changed_ready in Hr4.
  change (sd_domain st3) with (sd_domain st1) in Hd4.
  split_and!.
  - rewrite (quiet_domain _ _ Hq5). congruence.
  - by rewrite (quiet_ready _ _ Hq5).
  - intros d k. rewrite (quiet_publishers _ _ Hq5), Hp4, !publishers_changed_publishers.
    rewrite publishers_changed_domain.
    change (sd_domain st3) with (sd_domain st1). rewrite Hd1.
    change (publishers_of st3 d k) with (publishers_of st2 d k).
    unfold st2. rewrite publishers_set, Hp1.
    repeat case_decide; destruct_and?; subst; try done; naive_solver.
  - intros Hc. eapply coherent_quiet; [apply Hq5|]. apply Hc4.
    assert (Hst3 : st3 = set_dpMap dom (<[id := l]> (dpMap_of
      (st1 <| sd_urlToComponentMap ::= insert url (str (rg_component_id registration)) |>) dom))
      (st1 <| sd_urlToComponentMap ::= insert url (str (rg_component_id registration)) |>))
      by done.
    rewrite Hst3. apply coherent_change. eapply coherent_quiet; [apply quiet_components|done].
  - intros Hs. eapply settled_quiet; [apply Hq5|]. apply Hs4.
    by apply settled_publishers_changed.
Qed.

Lemma register_data_spec st :
  let '(st', foundDup) := register_data dom registration st in
  sd_domain st' = sd_domain st ∧
  sd_registeredPublishersReady st' =
    bool_decide (id = REGISTERED_PUBLISHERS_DPID) || sd_registeredPublishersReady st ∧
  (∀ d k, publishers_of st' d k = registered_publishers st d k) ∧
  foundDup = bool_decide (upsert (publishers_of st dom id) = None) ∧
  (coherent st → coherent st') ∧ (settled st → settled st').
Proof.
  unfold register_data. fold id url secs.
  set (st0 := if decide (id = REGISTERED_PUBLISHERS_DPID) then _ else st).
  assert (Hd0 : sd_domain st0 = sd_domain st) by (subst st0; by case_decide).
  assert (Hp0 : ∀ d k, publishers_of st0 d k = publishers_of st d k)
    by (intros; subst st0; by case_decide).
  assert (Hr0 : sd_registeredPublishersReady st0 =
    bool_decide (id = REGISTERED_PUBLISHERS_DPID) || sd_registeredPublishersReady st).
  { subst st0. case_decide; [by rewrite bool_decide_true|by rewrite bool_decide_false]. }
  assert (Hc0 : coherent st → coherent st0) by (subst st0; by case_decide).
  assert (Hs0 : settled st → settled st0).
  { subst st0. case_decide; [|done]. intros Hs Hp. by destruct (Hs Hp). }
  set (st1 := (set_dpMap dom _ st0) <| sd_registrationInstanceMap ::= _ |>).
  assert (Hq1 : quiet st0 st1).
  { etrans; [apply (quiet_set_same dom id)|apply quiet_instances]. }
  assert (Hp1 : ∀ d k, publishers_of st1 d k = publishers_of st d k)
    by (intros; rewrite (quiet_publishers _ _ Hq1); apply Hp0).
  assert (Hd1 : sd_domain st1 = sd_domain st) by (rewrite (quiet_domain _ _ Hq1); done).
  assert (Hc1 : coherent st → coherent st1) by (intros; eapply coherent_quiet; eauto).
  assert (Hs1 : settled st → settled st1) by (intros; eapply settled_quiet; eauto).
  unfold registered_publishers, upsert. rewrite Hp0.
  pose proof (λ l, register_changed_spec l st st1 Hd1 Hp1) as Hchg. cbn zeta in Hchg.
  pose proof (quiet_ready _ _ Hq1) as Hr1. rewrite Hr0 in Hr1.
  clearbody st1 st0.
  destruct (list_find (has_url url) (publishers_of st dom id)) as [[i info]|].
  2:{ destruct (Hchg (publishers_of st dom id ++ [new_info registration secs]))
        as (? & Hr & Hp & ? & ?).
      split_and!; auto; congruence. }
  destruct (decide (num (pi_registration_time info) = secs)) as [Ht|Ht].
  - set (st2 := if decide (dom = sd_domain st1) then _ else st1).
    assert (Hq2 : quiet st1 st2).
    { subst st2. goal_decide; [apply quiet_updateProductLocations|done]. }
    split_and!; [by rewrite (quiet_domain _ _ Hq2)|by rewrite (quiet_ready _ _ Hq2)| | | |].
    + intros d k. by rewrite (quiet_publishers _ _ Hq2).
    + by rewrite bool_decide_true.
    + intros. eapply coherent_quiet; eauto.
    + intros. eapply settled_quiet; eauto.
  - destruct (Hchg (<[i := refresh_info registration secs info]> (publishers_of st dom id)))
      as (? & Hr & Hp & ? & ?).
    split_and!; auto; congruence.
Qed.

Lemma register_service_spec st :
  let st' := register_service dom registration st in
  sd_domain st' = sd_domain st ∧
  sd_registeredPublishersReady st' = sd_registeredPublishersReady st ∧
  (∀ d k, publishers_of st' d k =
    if decide (d = sd_domain st ∧ k ≠ id) then drop_url url (publishers_of st d k)
    else publishers_of st d k) ∧
  (coherent st → coherent st') ∧ (settled st → settled st').
Proof.
  unfold register_service. fold id url. cbn zeta.
  match goal with |- context [purgeObsoletePublishers id url ?s] =>
    set (st1 := s); assert (Hq1 : quiet st st1) end.
  { etrans; [apply quiet_services|apply quiet_components]. }
  destruct (purge_spec id url st1) as (Hd2 & Hr2 & Hp2 & Hc2 & Hs2).
  set (st2 := purgeObsoletePublishers id url st1) in *.
  match goal with |- sd_domain ?s = _ ∧ _ => set (st3 := s); assert (Hq3 : quiet st2 st3) end.
  { subst st3. etrans; [apply quiet_instances|].
    case_decide; [apply quiet_updateProductLocations|done]. }
  rewrite (quiet_domain _ _ Hq3), (quiet_ready _ _ Hq3).
  split_and!; [done|done| | |].
  - intros d k. rewrite (quiet_publishers _ _ Hq3). apply Hp2.
  - intros. eapply coherent_quiet; [done|]. apply Hc2. eapply coherent_quiet; eauto.
  - intros. eapply settled_quiet; [done|]. apply Hs2. eapply settled_quiet; eauto.
Qed.
End registration.
