(* ===== verification/ServiceDirectoryProofs.v ===== *)
(** * The Service Directory: invariants and the behaviour of its handlers

    The invariants of every reachable state, and theorems about registration,
    unregistration and lookup built on the lemmas of ServiceDirectoryRegistry.v. *)

From S2P Require Import Prelude.
From S2P Require Import Messages.
From S2P Require Import CommUtil.
From S2P Require Import GravityDataProduct.
From S2P Require Import ServiceDirectory.
From S2P Require Import ServiceDirectoryRegistry.
#[local] Open Scope gravity_scope.

Implicit Types st : ServiceDirectory.

(** ** Uniqueness of urls *)

(** No product lists a url twice. *)
Definition urls_distinct st : Prop := ∀ d id, NoDup (urls_of (publishers_of st d id)).

(** In the directory's own domain a url belongs to one product at most. *)
Definition urls_exclusive st : Prop := ∀ id1 id2 url,
  url ∈ urls_of (publishers_of st (sd_domain st) id1) →
  url ∈ urls_of (publishers_of st (sd_domain st) id2) → id1 = id2.

Record registry_ok st : Prop := {
  ok_distinct : urls_distinct st;
  ok_exclusive : urls_exclusive st;
  ok_coherent : coherent st;
  ok_settled : settled st;
  ok_ready : sd_registeredPublishersReady st = true → sd_registeredPublishersProcessed st = true;
}.

(** The invariant without its last clause, which the handlers break until the pending
    updates are processed. *)
Record registry_mid st : Prop := {
  mid_distinct : urls_distinct st;
  mid_exclusive : urls_exclusive st;
  mid_coherent : coherent st;
  mid_settled : settled st;
}.

Lemma registry_mid_ok st : registry_ok st → registry_mid st.
Proof. intros []; by split. Qed.

Lemma registry_mid_quiet st st' : quiet st st' → registry_mid st → registry_mid st'.
Proof.
  intros Hq []. split.
  - intros d id. rewrite (quiet_publishers _ _ Hq). apply mid_distinct0.
  - intros id1 id2 url. rewrite (quiet_domain _ _ Hq), !(quiet_publishers _ _ Hq).
    apply mid_exclusive0.
  - by eapply coherent_quiet.
  - by eapply settled_quiet.
Qed.

Lemma registry_ok_quiet st st' : quiet st st' → registry_ok st → registry_ok st'.
Proof.
  intros Hq Hok. destruct (registry_mid_quiet _ _ Hq (registry_mid_ok _ Hok)).
  split; try done. rewrite (quiet_ready _ _ Hq), (quiet_processed _ _ Hq). apply Hok.
Qed.

(** The urls after an upsert. *)
Lemma urls_refresh registration secs info :
  str (pi_url (refresh_info registration secs info)) = str (pi_url info).
Proof.
  unfold refresh_info.
  by destruct (rg_is_relay registration), (rg_component_id registration),
    (rg_ip_address registration).
Qed.

Lemma urls_upsert registration l l' :
  upsert registration l = Some l' →
  urls_of l' = urls_of l ∨
  (str (rg_url registration) ∉ urls_of l ∧ urls_of l' = urls_of l ++ [str (rg_url registration)]).
Proof.
  unfold upsert. destruct (list_find _ l) as [[i info]|] eqn:Hf.
  - case_decide; [done|]. intros [= <-]. left.
    apply list_find_Some in Hf as (Hi & _). unfold urls_of.
    rewrite list_fmap_insert. cbv beta. rewrite urls_refresh. apply list_insert_id.
    by rewrite list_lookup_fmap, Hi.
  - intros [= <-]. right. apply list_find_urls in Hf. split; [done|].
    unfold urls_of. rewrite fmap_app. f_equal.
    change ([str (pi_url (new_info registration
      (regTimeSecs (num (rg_timestamp registration)))))] = [str (rg_url registration)]).
    unfold new_info. by rewrite urls_refresh.
Qed.

Lemma upsert_distinct registration l l' :
  upsert registration l = Some l' → NoDup (urls_of l) → NoDup (urls_of l').
Proof.
  intros Hu Hnd. apply urls_upsert in Hu as [->|[Hn ->]]; [done|].
  apply NoDup_app. split_and!; [done| |apply NoDup_singleton]. set_solver.
Qed.

Lemma upsert_urls registration l l' u :
  upsert registration l = Some l' → u ∈ urls_of l' →
  u ∈ urls_of l ∨ u = str (rg_url registration).
Proof.
  intros Hu Hin. apply urls_upsert in Hu as [Heq|[Hn Heq]]; rewrite Heq in Hin;
    [by left|]. set_solver.
Qed.

Lemma registered_distinct dom registration st d k :
  urls_distinct st → NoDup (urls_of (registered_publishers dom registration st d k)).
Proof.
  intros Hnd. unfold registered_publishers.
  destruct (upsert _ _) as [l|] eqn:Hu; [|apply Hnd].
  repeat goal_decide; [by eapply upsert_distinct|by apply NoDup_drop_url|apply Hnd].
Qed.

(** Where a url is after a registration. *)
Lemma registered_urls dom registration st k u :
  urls_distinct st →
  u ∈ urls_of (registered_publishers dom registration st (sd_domain st) k) →
  u ∈ urls_of (publishers_of st (sd_domain st) k) ∨
  (u = str (rg_url registration) ∧ k = str (rg_id registration) ∧ dom = sd_domain st).
Proof.
  intros Hnd. unfold registered_publishers.
  destruct (upsert _ _) as [l|] eqn:Hu; [|by left].
  repeat goal_decide; [|by left; eapply elem_of_drop_url|by left].
  destruct_and!. subst. intros Hin. destruct (upsert_urls _ _ _ _ Hu Hin); naive_solver.
Qed.

Lemma registered_exclusive dom registration st :
  urls_distinct st → urls_exclusive st →
  ∀ id1 id2 u,
    u ∈ urls_of (registered_publishers dom registration st (sd_domain st) id1) →
    u ∈ urls_of (registered_publishers dom registration st (sd_domain st) id2) → id1 = id2.
Proof.
  intros Hnd Hex id1 id2 u H1 H2.
  destruct (decide (id1 = id2)) as [|Hne]; [done|exfalso].
  assert (Hgone : ∀ k, u = str (rg_url registration) → dom = sd_domain st →
    k ≠ str (rg_id registration) →
    u ∈ urls_of (registered_publishers dom registration st (sd_domain st) k) →
    u ∈ urls_of (publishers_of st (sd_domain st) k) ∧
    u ∈ urls_of (publishers_of st dom (str (rg_id registration)))).
  { intros k -> -> Hk. unfold registered_publishers.
    destruct (upsert _ _) as [l|] eqn:Hu.
    - rewrite decide_False by naive_solver. rewrite decide_True by done.
      intros Hin. exfalso. revert Hin. by apply drop_url_gone.
    - intros Hin. split; [done|]. unfold upsert in Hu.
      destruct (list_find _ _) eqn:Hf in Hu; [|done].
      apply dec_stable. rewrite <-list_find_urls. by rewrite Hf. }
  destruct (registered_urls _ _ _ _ _ Hnd H1) as [H1'|(-> & -> & ->)];
    destruct (registered_urls _ _ _ _ _ Hnd H2) as [H2'|(Hu2 & Hk2 & Hd2)]; subst.
  - by apply Hne, (Hex _ _ u).
  - destruct (Hgone id1) as [? ?]; try done. by apply Hne, (Hex _ _ (str (rg_url registration))).
  - destruct (Hgone id2) as [? ?]; try done. by apply Hne, (Hex _ _ (str (rg_url registration))).
  - done.
Qed.

(** ** The handlers preserve the invariant *)

Lemma mid_register registration st :
  registry_mid st → registry_mid (handleRegister registration st).2.
Proof.
  intros Hmid. destruct Hmid as [Hnd Hex Hco Hse].
  unfold handleRegister. set (dom := request_domain _ st).
  destruct (registration_accepted registration st); [|by split].
  destruct (default DATA (rg_type registration)).
  - pose proof (register_data_spec dom registration st) as Hspec.
    destruct (register_data dom registration st) as [st' dup].
    destruct Hspec as (Hd & Hr & Hp & _ & Hc & Hs). cbn. split; auto.
    + intros d id. rewrite Hp. by apply registered_distinct.
    + intros id1 id2 url. rewrite Hd, !Hp. by apply registered_exclusive.
  - destruct (register_service_spec dom registration st) as (Hd & Hr & Hp & Hc & Hs).
    cbn. split; auto.
    + intros d id. rewrite Hp. goal_decide; [by apply NoDup_drop_url|apply Hnd].
    + intros id1 id2 url. rewrite Hd, !Hp. intros H1 H2. apply (Hex id1 id2 url).
      * revert H1. goal_decide; [apply elem_of_drop_url|done].
      * revert H2. goal_decide; [apply elem_of_drop_url|done].
Qed.

(** What unregistering a data product does to the publisher lists. *)
Definition unregistered_publishers dom unregistration st (d k : string)
    : list PublisherInfoPB :=
  let l := publishers_of st d k in
  if decide (d = dom ∧ k = str (ur_id unregistration)) then
    match list_find (is_registration (str (ur_url unregistration))
      (num (ur_registration_time unregistration))) l with
    | Some (i, _) => delete i l
    | None => l
    end
  else l.

Lemma unregister_data_spec dom unregistration st :
  let '(st', foundUrl) := unregister_data dom unregistration st in
  sd_domain st' = sd_domain st ∧
  sd_registeredPublishersReady st' = sd_registeredPublishersReady st ∧
  (∀ d k, publishers_of st' d k = unregistered_publishers dom unregistration st d k) ∧
  foundUrl = bool_decide (Exists (is_registration (str (ur_url unregistration))
    (num (ur_registration_time unregistration)))
    (publishers_of st dom (str (ur_id unregistration)))) ∧
  (coherent st → coherent st') ∧ (settled st → settled st').
Proof.
  unfold unregister_data, unregistered_publishers.
  set (id := str (ur_id unregistration)). set (url := str (ur_url unregistration)).
  set (secs := num (ur_registration_time unregistration)). cbn zeta.
  set (st1 := set_dpMap dom _ st).
  assert (Hq1 : quiet st st1) by apply quiet_set_same.
  destruct (list_find (is_registration url secs) (publishers_of st dom id)) as [[i info]|] eqn:Hf.
  2:{ split_and!; [done|done| | | |].
      - intros d k. rewrite (quiet_publishers _ _ Hq1). goal_decide; [|done].
        destruct_and!; subst. by rewrite Hf.
      - apply list_find_None in Hf. rewrite bool_decide_false; [done|].
        by apply Forall_not_Exists.
      - by apply coherent_quiet.
      - by apply settled_quiet. }
  set (l := delete i _).
  set (st2 := set_dpMap dom (if decide (l = []) then _ else _) st1).
  set (st3 := publishers_changed id dom st2).
  set (st4 := if decide (dom = sd_domain st3) then _ else st3).
  assert (Hq4 : quiet st3 (st4 <| sd_registrationInstanceMap ::= delete url |>)).
  { etrans; [|apply quiet_instances]. subst st4. goal_decide; [|done].
    etrans; [apply (quiet_touch_instance url)|apply quiet_updateProductLocations]. }
  set (st2' := set_dpMap dom (<[id := l]> (dpMap_of st1 dom)) st1).
  assert (Hp2 : ∀ d k, publishers_of st2 d k = publishers_of st2' d k).
  { intros d k. subst st2 st2'. rewrite !publishers_set_dpMap.
    destruct (decide (dom = d)); [|done]. destruct (decide (l = [])) as [->|]; [|done].
    by rewrite idx_delete, idx_insert. }
  assert (Hq2 : quiet st2' st2).
  { split; try done. by exists []; rewrite app_nil_r. }
  split_and!.
  - rewrite (quiet_domain _ _ Hq4). unfold st3. by rewrite publishers_changed_domain.
  - rewrite (quiet_ready _ _ Hq4). unfold st3. by rewrite publishers_changed_ready.
  - intros d k. rewrite (quiet_publishers _ _ Hq4). unfold st3.
    rewrite publishers_changed_publishers, Hp2. unfold st2'.
    rewrite publishers_set, (quiet_publishers _ _ Hq1).
    repeat goal_decide; destruct_and?; subst; try naive_solver. by rewrite Hf.
  - apply list_find_Some in Hf as (Hi & Hr & _). rewrite bool_decide_true; [done|].
    apply Exists_exists. exists info. split; [by eapply list_elem_of_lookup_2|done].
  - intros Hc. eapply coherent_quiet; [apply Hq4|].
    eapply coherent_quiet; [apply (publishers_changed_same id dom st2' st2 Hq2 eq_refl)|].
    apply coherent_change. by eapply coherent_quiet.
  - intros Hs. eapply settled_quiet; [apply Hq4|]. apply settled_publishers_changed.
    eapply settled_quiet; [apply Hq2|]. exact Hs.
Qed.

Lemma unregister_service_quiet dom unregistration st :
  quiet st (unregister_service dom unregistration st).1.
Proof.
  unfold unregister_service. cbn zeta.
  set (st1 := st <| sd_serviceMap ::= _ |>).
  assert (Hq1 : quiet st st1) by apply quiet_services.
  destruct (sMap_of st dom !! _) as [u|]; [|done].
  destruct (sd_registrationInstanceMap st1 !! _) as [known|]; [|done].
  goal_decide; [|done]. cbn [fst].
  etrans; [apply Hq1|]. etrans; [apply (quiet_services (insert dom (delete (str (ur_id unregistration)) (sMap_of st dom))))|].
  etrans; [|apply quiet_instances].
  goal_decide; [apply quiet_updateProductLocations|done].
Qed.

Lemma unregistered_sublist dom unregistration st d k :
  unregistered_publishers dom unregistration st d k `sublist_of` publishers_of st d k.
Proof.
  unfold unregistered_publishers. cbn zeta. goal_decide; [|done].
  destruct (list_find _ _) as [[i p]|]; [apply sublist_delete|done].
Qed.

Lemma mid_unregister unregistration st :
  registry_mid st → registry_mid (handleUnregister unregistration st).2.
Proof.
  intros Hmid. unfold handleUnregister. set (dom := request_domain _ st).
  destruct (default DATA (ur_type unregistration)).
  - pose proof (unregister_data_spec dom unregistration st) as Hspec.
    destruct (unregister_data dom unregistration st) as [st' found]. cbn.
    destruct Hspec as (Hd & Hr & Hp & _ & Hc & Hs), Hmid as [Hnd Hex Hco Hse].
    assert (Hsub : ∀ d k, urls_of (publishers_of st' d k) `sublist_of` urls_of (publishers_of st d k)).
    { intros d k. rewrite Hp. apply fmap_sublist, unregistered_sublist. }
    split; auto.
    + intros d id. eapply sublist_NoDup; [apply Hnd|apply Hsub].
    + intros id1 id2 url. rewrite Hd. intros H1 H2.
      apply (Hex id1 id2 url); [by apply (elem_of_sublist _ _ _ H1)|
        by apply (elem_of_sublist _ _ _ H2)].
  - pose proof (unregister_service_quiet dom unregistration st) as Hq.
    destruct (unregister_service dom unregistration st) as [st' found]. cbn in *.
    by eapply registry_mid_quiet.
Qed.

Lemma quiet_lookup lookupRequest st : quiet st (handleLookup lookupRequest st).2.
Proof.
  unfold handleLookup. cbn zeta.
  destruct (default DATA _); cbn; [apply quiet_touch_dpMap|].
  destruct (sd_serviceMap st !! _) as [sMap|]; [|done].
  destruct (sMap !! _); [apply quiet_touch_instance|done].
Qed.

Lemma quiet_all_service_locations domains st : quiet st (all_service_locations domains st).2.
Proof.
  revert st. induction domains as [|[dom sMap] domains IH]; intros st; cbn; [done|].
  pose proof (quiet_service_locations dom (kv_items sMap) st) as Hq.
  destruct (service_locations _ _ st) as [locs st']. cbn in *. specialize (IH st').
  destruct (all_service_locations domains st'). cbn in *. by etrans.
Qed.

Lemma quiet_all_data_locations domains st : quiet st (all_data_locations domains st).2.
Proof.
  revert st. induction domains as [|[dom dpMap] domains IH]; intros st; cbn; [done|].
  pose proof (quiet_data_locations dom (kv_items dpMap) st) as Hq.
  destruct (data_locations _ _ st) as [locs st']. cbn in *. specialize (IH st').
  destruct (all_data_locations domains st'). cbn in *. by etrans.
Qed.

Lemma quiet_getProviders st : quiet st (getProviders st).2.
Proof.
  unfold getProviders.
  pose proof (quiet_all_service_locations (kv_items (sd_serviceMap st)) st) as Hq1.
  destruct (all_service_locations _ st) as [services st1]. cbn in Hq1.
  pose proof (quiet_all_data_locations (kv_items (sd_dataProductMap st1)) st1) as Hq2.
  destruct (all_data_locations _ st1) as [data st2]. cbn in *. by etrans.
Qed.

Lemma quiet_domain_command fs st st' rest :
  process_domain_command fs st = Some (st', rest) → quiet st st'.
Proof.
  unfold process_domain_command, read_bind, readStringMessage, read_ret.
  intros H. repeat (case_match; simplify_eq/=); try done;
    unfold publishDomainUpdateMessage;
    repeat (etrans; [|apply quiet_publish; exact I]); apply quiet_domainMap.
Qed.

(** ** Processing the remembered updates *)

Lemma publish_pending_spec st ids :
  let st' := publish_pending st ids in
  sd_domain st' = sd_domain st ∧
  sd_registeredPublishersReady st' = sd_registeredPublishersReady st ∧
  (∀ d k, publishers_of st' d k = publishers_of st d k) ∧
  (∀ id, announced (sd_domain st) id (sd_sent st') =
    if decide (id ∈ ids) then publishers_of st (sd_domain st) id
    else announced (sd_domain st) id (sd_sent st)).
Proof.
  unfold publish_pending. revert st. induction ids as [|key ids IH]; intros st; cbn [foldl].
  { split_and!; [done|done|done|]. intros id. by rewrite decide_False by set_solver. }
  match goal with |- context [foldl _ ?s ids] => set (st1 := s) end.
  destruct (IH st1) as (Hd & Hr & Hp & Ha).
  change (sd_domain st1) with (sd_domain st) in *.
  change (sd_registeredPublishersReady st1) with (sd_registeredPublishersReady st) in Hr.
  assert (Hp1 : ∀ d k, publishers_of st1 d k = publishers_of st d k).
  { intros d k. unfold publishers_of, st1. cbn. by rewrite idx_touch_idx. }
  split_and!; [done|done|by intros; rewrite Hp|].
  intros id. rewrite Ha, Hp1. cbn. rewrite announced_snoc.
  destruct (decide (id ∈ ids)).
  - by rewrite decide_True by set_solver.
  - destruct (decide (id = key)) as [->|Hne].
    + rewrite decide_True by set_solver. cbn. by rewrite decide_True.
    + rewrite decide_False by set_solver. by rewrite announce_other by naive_solver.
Qed.

Lemma process_pending_ok st : registry_mid st → registry_ok (process_pending st).
Proof.
  intros [Hnd Hex Hco Hse]. unfold process_pending.
  destruct (negb (sd_registeredPublishersProcessed st) && sd_registeredPublishersReady st) eqn:Hb.
  - apply andb_true_iff in Hb as [_ Hr].
    destruct (publish_pending_spec st (set_items (sd_registerUpdatesToSend st)))
      as (Hd & Hr' & Hp & Ha).
    set (st1 := publish_pending st _) in *.
    match goal with |- registry_ok ?s => set (st2 := s) end.
    assert (Hp2 : ∀ d k, publishers_of st2 d k = publishers_of st d k) by (intros; apply Hp).
    split.
    + intros d id. rewrite Hp2. apply Hnd.
    + intros id1 id2 url. change (sd_domain st2) with (sd_domain st1). rewrite Hd, !Hp2. apply Hex.
    + intros id. right. change (sd_domain st2) with (sd_domain st1).
      change (sd_sent st2) with (sd_sent st1). rewrite Hd, Ha, Hp2.
      case_decide as Hin; [done|]. rewrite elem_of_set_items in Hin.
      destruct (Hco id) as [?|?]; [done|done].
    + intros _. change (sd_registeredPublishersReady st2) with (sd_registeredPublishersReady st1).
      split; [congruence|done].
    + done.
  - split; try done. intros Hr. rewrite Hr, andb_true_r in Hb. by apply negb_false_iff.
Qed.

Lemma sd_step_ok e st : registry_ok st → registry_ok (sd_step e st).
Proof.
  intros Hok. pose proof (registry_mid_ok _ Hok) as Hmid. destruct e; cbn [sd_step].
  - apply process_pending_ok. eapply registry_mid_quiet; [apply quiet_lookup|done].
  - by apply process_pending_ok, mid_register.
  - by apply process_pending_ok, mid_unregister.
  - by apply process_pending_ok.
  - eapply registry_ok_quiet; [apply quiet_getProviders|done].
  - destruct (process_domain_command frames st) as [[st' rest]|] eqn:Hc; [|done].
    eapply registry_ok_quiet; [by eapply quiet_domain_command|done].
Qed.

Lemma sd_reachable_ok domain st : sd_reachable domain st → registry_ok st.
Proof.
  induction 1 as [|e st Hr IH]; [|by apply sd_step_ok].
  split; try done.
  - intros d id. apply NoDup_nil_2.
  - intros id1 id2 url Hin. by apply not_elem_of_nil in Hin.
  - intros id. by right.
Qed.

(** * Properties *)

(** C1. What subscribers were told is what the directory knows: in every reachable state in which
    RegisteredPublishers can be published, for every product the last update published for the
    directory's own domain lists exactly the publishers now registered (and no update means no
    publisher).  No registration, unregistration, automatic unregistration or startup order
    leaves subscribers with a stale list. *)
Theorem announced_publishers_current domain st :
  sd_reachable domain st → sd_registeredPublishersReady st = true →
  ∀ id, announced (sd_domain st) id (sd_sent st) = publishers_of st (sd_domain st) id.
Proof.
  intros Hr Hready id. apply sd_reachable_ok in Hr as [_ _ Hco Hse Hp].
  destruct (Hse (Hp Hready)) as [_ Hnone]. destruct (Hco id) as [Hin|?]; [|done].
  rewrite Hnone in Hin. set_solver.
Qed.

(** C8. In every reachable state no product lists a url twice, and in the directory's own domain no
    url is listed under two products: registering a url under a new product unregisters it from
    the product it served before. *)
Theorem registered_urls_unique domain st :
  sd_reachable domain st →
  (∀ d id, NoDup (urls_of (publishers_of st d id))) ∧
  (∀ id1 id2 url, url ∈ urls_of (publishers_of st (sd_domain st) id1) →
    url ∈ urls_of (publishers_of st (sd_domain st) id2) → id1 = id2).
Proof. intros Hr. apply sd_reachable_ok in Hr as []. done. Qed.

(** A run used by the witnesses: a publisher registers before the directory can
    announce anything, the directory registers its own product, and a second product
    takes over the url of the first. *)
Definition demo_registration (id url : string) (timestamp : Z) : ServiceDirectoryRegistrationPB :=
  mkServiceDirectoryRegistrationPB (Some id) (Some url) (Some DATA) (Some "Comp") None
    (Some timestamp) None None.

Definition demo_events : list SDEvent :=
  [Register (demo_registration "A" "tcp://h:1" 5000000);
   Register (demo_registration REGISTERED_PUBLISHERS_DPID "tcp://sd:1" 6000000);
   Register (demo_registration "B" "tcp://h:1" 7000000)].

Definition demo_state : ServiceDirectory :=
  foldl (λ st e, sd_step e st) (initial_ServiceDirectory "Dom") demo_events.

Lemma run_reachable domain st events :
  sd_reachable domain st → sd_reachable domain (foldl (λ st e, sd_step e st) st events).
Proof.
  revert st. induction events as [|e events IH]; intros st Hr; [done|]. cbn [foldl].
  apply IH. by constructor.
Qed.

Lemma demo_reachable : sd_reachable "Dom" demo_state.
Proof. apply run_reachable. constructor. Qed.

Example announced_publishers_current_witness :
  announced "Dom" "A" (sd_sent demo_state) = [] ∧
  urls_of (announced "Dom" "B" (sd_sent demo_state)) = ["tcp://h:1"].
Proof.
  split.
  - exact (eq_trans (announced_publishers_current "Dom" demo_state demo_reachable
      ltac:(vm_compute; reflexivity) "A") ltac:(vm_compute; reflexivity)).
  - vm_compute. reflexivity.
Defined.

Example registered_urls_unique_witness :
  NoDup (urls_of (publishers_of demo_state "Dom" "B")).
Proof. exact (proj1 (registered_urls_unique "Dom" demo_state demo_reachable) "Dom" "B"). Defined.
