(* ===== verification/ServiceDirectoryRequests.v ===== *)
(** * The Service Directory: what its handlers promise to their clients

    Registration, unregistration and lookup of data products and services, the provider
    map, requests as they arrive on the wire, and the list of domains to synchronise
    with.  Built on the lemmas of ServiceDirectoryRegistry.v and on the invariant of
    ServiceDirectoryProofs.v. *)

From S2P Require Import Prelude.
From S2P Require Import Messages.
From S2P Require Import CommUtil.
From S2P Require Import Utility.
From S2P Require Import GravityDataProduct.
From S2P Require Import ServiceDirectory.
From S2P Require Import ServiceDirectoryRegistry.
From S2P Require Import ServiceDirectoryProofs.
#[local] Open Scope gravity_scope.

Implicit Types st : ServiceDirectory.

(** ** Publisher lists with distinct urls *)

Definition other_urls (url : string) (l : list PublisherInfoPB) : list PublisherInfoPB :=
  filter (λ p, ¬ has_url url p) l.

Lemma other_urls_id url l : url ∉ urls_of l → other_urls url l = l.
Proof.
  intros Hn. apply list_filter_all. apply Forall_forall. intros p Hp Hu. apply Hn.
  apply list_elem_of_fmap. by exists p.
Qed.

Lemma filter_url_nil url l : url ∉ urls_of l → filter (has_url url) l = [].
Proof.
  intros Hn. apply list_filter_none. apply Forall_forall. intros p Hp Hu. apply Hn.
  apply list_elem_of_fmap. by exists p.
Qed.

(** A list that holds a publisher with a url, split at it. *)
Lemma split_at_url url l i p :
  NoDup (urls_of l) → l !! i = Some p → has_url url p →
  ∃ l1 l2, l = l1 ++ p :: l2 ∧ i = length l1 ∧ url ∉ urls_of l1 ∧ url ∉ urls_of l2.
Proof.
  intros Hnd Hi Hu. apply list_elem_of_split_length in Hi as (l1 & l2 & -> & ->).
  unfold urls_of in *. rewrite fmap_app, fmap_cons in Hnd.
  apply NoDup_app in Hnd as (_ & Hd & Hnd). apply NoDup_cons in Hnd as [Hnd _].
  unfold has_url in Hu. rewrite Hu in *. exists l1, l2. split_and!; try done.
  intros Hin. apply (Hd _ Hin). apply list_elem_of_here.
Qed.

Lemma filter_replace url l i p q :
  NoDup (urls_of l) → l !! i = Some p → has_url url p → has_url url q →
  filter (has_url url) (<[i := q]> l) = [q] ∧
  other_urls url (<[i := q]> l) = other_urls url l ∧
  filter (has_url url) l = [p].
Proof.
  intros Hnd Hi Hp Hq. destruct (split_at_url _ _ _ _ Hnd Hi Hp) as (l1 & l2 & -> & -> & H1 & H2).
  rewrite insert_app_r_alt, Nat.sub_diag by done. cbn [insert list_insert]. unfold other_urls.
  rewrite !filter_app, !filter_cons, !(filter_url_nil url) by done.
  rewrite !(decide_True (P := has_url url _)) by done.
  by rewrite !(decide_False (P := ¬ has_url url _)) by tauto.
Qed.

Section register.
Variables (dom : string) (registration : ServiceDirectoryRegistrationPB).
Let url := str (rg_url registration).
Let secs := regTimeSecs (num (rg_timestamp registration)).

Lemma refresh_info_url info : pi_url (refresh_info registration secs info) = pi_url info.
Proof. unfold refresh_info. by repeat case_match. Qed.

Lemma refresh_info_time info :
  pi_registration_time (refresh_info registration secs info) = Some secs.
Proof. unfold refresh_info. by repeat case_match. Qed.

(** After an upsert the url is listed once, at the new time; the others stay as they were. *)
Lemma upsert_spec l :
  NoDup (urls_of l) →
  let l' := default l (upsert registration l) in
  (∃ info, filter (has_url url) l' = [info] ∧ num (pi_registration_time info) = secs) ∧
  other_urls url l' = other_urls url l.
Proof.
  intros Hnd l'. subst l'. unfold upsert. fold url secs.
  assert (Hnew : has_url url (new_info registration secs)).
  { unfold has_url, new_info. by rewrite refresh_info_url. }
  destruct (list_find (has_url url) l) as [[i p]|] eqn:Hf.
  - apply list_find_Some in Hf as (Hi & Hu & _).
    assert (Hre : has_url url (refresh_info registration secs p))
      by (unfold has_url; by rewrite refresh_info_url).
    destruct (filter_replace url l i p _ Hnd Hi Hu Hre) as (H1 & H2 & H3).
    case_decide; cbn; [by eauto|].
    split; [|done]. eexists; split; [done|]. by rewrite refresh_info_time.
  - apply list_find_urls in Hf. cbn. unfold other_urls.
    rewrite !filter_app, filter_url_nil, !filter_cons by done.
    rewrite decide_True, decide_False by tauto. cbn. rewrite app_nil_r. split; [|done].
    eexists; split; [done|]. unfold new_info. by rewrite refresh_info_time.
Qed.
End register.

Lemma registered_publishers_same dom registration st :
  registered_publishers dom registration st dom (str (rg_id registration)) =
    default (publishers_of st dom (str (rg_id registration)))
      (upsert registration (publishers_of st dom (str (rg_id registration)))).
Proof.
  unfold registered_publishers. destruct (upsert _ _); [|done].
  by rewrite decide_True.
Qed.

Lemma data_lookup_spec lookup st :
  default DATA (lr_type lookup) = DATA →
  (handleLookup lookup st).1 = DataLookup (mkComponentDataLookupResponsePB
    (str (lr_lookupID lookup))
    (publishers_of st (lookup_domain lookup st) (str (lr_lookupID lookup)))
    (lookup_domain lookup st)).
Proof. intros Ht. unfold handleLookup. by rewrite Ht. Qed.

(** ** Unregistration *)

Section unregister.
Variables (url : string) (secs : Z).

Lemma delete_registration l :
  NoDup (urls_of l) →
  match list_find (is_registration url secs) l with
  | Some (i, _) => delete i l
  | None => l
  end = filter (λ p, ¬ is_registration url secs p) l.
Proof.
  intros Hnd. destruct (list_find (is_registration url secs) l) as [[i p]|] eqn:Hf.
  - apply list_find_Some in Hf as (Hi & [Hu Ht] & _).
    destruct (split_at_url url _ _ _ Hnd Hi Hu) as (l1 & l2 & -> & -> & H1 & H2).
    rewrite delete_middle, filter_app, filter_cons, decide_False
      by (unfold is_registration; naive_solver).
    f_equal; symmetry; apply list_filter_all, Forall_forall; intros q Hq [Hq1 _];
      [apply H1|apply H2]; apply list_elem_of_fmap; by exists q.
  - apply list_find_None in Hf. symmetry. by apply list_filter_all.
Qed.
End unregister.

(** ** Services *)

Lemma service_lookup_spec lookup st :
  default DATA (lr_type lookup) = SERVICE →
  (handleLookup lookup st).1 = ServiceLookup
    (let dom := lookup_domain lookup st in
     match sMap_of st dom !! str (lr_lookupID lookup) with
     | Some url => mkComponentServiceLookupResponsePB (str (lr_lookupID lookup)) url dom
         (Some (regTimeSecs (instance_of st url)))
     | None => mkComponentServiceLookupResponsePB (str (lr_lookupID lookup)) "" dom None
     end).
Proof.
  intros Ht. unfold handleLookup, sMap_of. rewrite Ht. cbn zeta.
  unfold idx at 1. destruct (sd_serviceMap st !! lookup_domain lookup st) as [sMap|]; cbn.
  - by destruct (sMap !! _).
  - by rewrite lookup_empty.
Qed.

(** Steps that change no service and no time stamp. *)
Record services_kept st st' : Prop := {
  sk_domain : sd_domain st' = sd_domain st;
  sk_services d : sMap_of st' d = sMap_of st d;
  sk_instances url : instance_of st' url = instance_of st url;
  sk_known url : is_Some (sd_registrationInstanceMap st !! url) →
    is_Some (sd_registrationInstanceMap st' !! url);
}.

#[export] Instance services_kept_preorder : PreOrder services_kept.
Proof.
  split; [by split|]. intros st1 st2 st3 [] []. split; [congruence| | |auto]; intros; etrans; eauto.
Qed.

Lemma services_kept_touch_instance url st : services_kept st (touch_instance url st).
Proof.
  split; try done; intros u.
  - unfold instance_of. cbn. by rewrite idx_touch_idx.
  - cbn. rewrite idx_touch_lookup. case_decide; eauto.
Qed.

Lemma services_kept_touch_url url st : services_kept st (touch_url url st).
Proof.
  apply (transitivity (y := touch_component url st)); [by split|].
  apply services_kept_touch_instance.
Qed.

Lemma services_kept_service_locations dom items st :
  services_kept st (service_locations dom items st).2.
Proof.
  revert st. induction items as [|[id url] items IH]; intros st; cbn; [done|].
  specialize (IH (touch_url url st)).
  destruct (service_locations dom items (touch_url url st)). cbn in *.
  etrans; [apply services_kept_touch_url|done].
Qed.

Lemma services_kept_location_urls urls st locs :
  services_kept st (location_urls urls st locs).2.
Proof.
  revert st locs. induction urls as [|info urls IH]; intros st locs; cbn; [done|].
  etrans; [apply services_kept_touch_url|apply IH].
Qed.

Lemma services_kept_data_locations dom items st :
  services_kept st (data_locations dom items st).2.
Proof.
  revert st. induction items as [|[id urls] items IH]; intros st; cbn; [done|].
  pose proof (services_kept_location_urls urls st (mkProductLocations id [] [] [dom] [])) as Hq.
  destruct (location_urls urls st _) as [locs st']. cbn in *. specialize (IH st').
  destruct (data_locations dom items st'). cbn in *. by etrans.
Qed.

Lemma services_kept_updateProductLocations id url ts c t st :
  services_kept st (updateProductLocations id url ts c t st).
Proof.
  unfold updateProductLocations.
  set (st1 := st <| sd_serviceMap ::= _ |>).
  assert (Hq1 : services_kept st st1).
  { split; try done. intros d. unfold sMap_of, st1. cbn. by rewrite idx_touch_idx. }
  pose proof (services_kept_service_locations (sd_domain st)
    (kv_items (sMap_of st1 (sd_domain st))) st1) as Hq2.
  destruct (service_locations _ _ st1) as [services st2]. cbn in Hq2.
  set (st3 := st2 <| sd_dataProductMap ::= _ |>).
  pose proof (services_kept_data_locations (sd_domain st)
    (kv_items (dpMap_of st3 (sd_domain st))) st3) as Hq3.
  destruct (data_locations _ _ st3) as [data st4]. cbn in Hq3.
  etrans; [exact Hq1|]. etrans; [exact Hq2|].
  apply (transitivity (y := st3)); [by split|]. etrans; [exact Hq3|]. by split.
Qed.

Lemma services_kept_publishers_changed id dom st :
  services_kept st (publishers_changed id dom st).
Proof. unfold publishers_changed. destruct (sd_registeredPublishersReady st); by split. Qed.

(** Purging a url keeps the services and forgets the time stamp of the url if it was
    listed under another product. *)
Lemma purge_step_services id url key st :
  let st' := purge_step id url key st in
  sd_domain st' = sd_domain st ∧ (∀ d, sMap_of st' d = sMap_of st d) ∧
  (∀ u, u ≠ url → instance_of st' u = instance_of st u) ∧
  instance_of st' url =
    if decide (key ≠ id ∧ url ∈ urls_of (publishers_of st (sd_domain st) key)) then 0%Z
    else instance_of st url.
Proof.
  unfold purge_step. cbn zeta.
  match goal with |- context [publishers_of ?s (sd_domain st) key = []] => set (st1 := s) end.
  assert (sd_domain st1 = sd_domain st ∧ (∀ d, sMap_of st1 d = sMap_of st d) ∧
    (∀ u, u ≠ url → instance_of st1 u = instance_of st u) ∧
    instance_of st1 url =
      if decide (key ≠ id ∧ url ∈ urls_of (publishers_of st (sd_domain st) key)) then 0%Z
      else instance_of st url) as H.
  { subst st1. destruct (decide (key = id)) as [->|Hne].
    { split_and!; try done. by rewrite decide_False by naive_solver. }
    destruct (list_find (has_url url) (publishers_of st (sd_domain st) key)) as [[i p]|] eqn:Hf.
    2:{ split_and!; try done. apply list_find_urls in Hf.
        by rewrite decide_False by naive_solver. }
    assert (Hin : url ∈ urls_of (publishers_of st (sd_domain st) key)).
    { apply dec_stable. intros Hn. apply list_find_urls in Hn. congruence. }
    rewrite decide_True by done.
    set (st2 := publishers_changed key _ _).
    assert (Hk : services_kept st st2).
    { eapply (transitivity (y := set_dpMap _ _ st)); [|apply services_kept_publishers_changed].
      by split. }
    set (st3 := updateProductLocations _ _ _ _ _ _).
    assert (Hk3 : services_kept st st3).
    { etrans; [exact Hk|]. etrans; [apply (services_kept_touch_instance url)|].
      apply services_kept_updateProductLocations. }
    destruct Hk3 as [Hd3 Hs3 Hi3]. split_and!; [done|done| |].
    - intros u Hu. unfold instance_of. cbn. rewrite idx_delete, decide_False by done.
      apply Hi3.
    - unfold instance_of. cbn. by rewrite idx_delete, decide_True. }
  destruct (decide (publishers_of st1 (sd_domain st) key = [])); [|done]. exact H.
Qed.

Lemma purge_services id url st :
  let st' := purgeObsoletePublishers id url st in
  sd_domain st' = sd_domain st ∧ (∀ d, sMap_of st' d = sMap_of st d) ∧
  (∀ u, u ≠ url → instance_of st' u = instance_of st u) ∧
  ((∃ key, key ≠ id ∧ url ∈ urls_of (publishers_of st (sd_domain st) key)) →
    instance_of st' url = 0%Z).
Proof.
  unfold purgeObsoletePublishers. cbn zeta.
  set (st1 := st <| sd_dataProductMap ::= _ |>).
  pose proof (quiet_touch_dpMap (sd_domain st) st) as Hq. fold st1 in Hq.
  assert (Hloop : ∀ keys s, NoDup keys →
    let s' := foldl (λ s key, purge_step id url key s) s keys in
    sd_domain s' = sd_domain s ∧ (∀ d, sMap_of s' d = sMap_of s d) ∧
    (∀ u, u ≠ url → instance_of s' u = instance_of s u) ∧
    (instance_of s url = 0%Z ∨
      Exists (λ key, key ≠ id ∧ url ∈ urls_of (publishers_of s (sd_domain s) key)) keys →
      instance_of s' url = 0%Z)).
  { induction keys as [|key keys IH]; intros s Hnd; cbn.
    { split_and!; try done. intros [?|He]; [done|]. by apply Exists_nil in He. }
    apply NoDup_cons in Hnd as [Hk Hnd].
    destruct (purge_step_services id url key s) as (Hd & Hs & Hi & Hu).
    destruct (purge_step_spec id url key s) as (_ & _ & Hp & _ & _).
    destruct (IH (purge_step id url key s) Hnd) as (Hd' & Hs' & Hi' & Hu').
    split_and!; [congruence|intros; by rewrite Hs'|intros; rewrite Hi'; auto|].
    intros Hc. apply Hu'. rewrite Hu.
    destruct (decide (key ≠ id ∧ url ∈ urls_of (publishers_of s (sd_domain s) key)))
      as [?|Hn]; [by left|].
    destruct Hc as [?|Hc]; [by left|right].
    apply Exists_cons in Hc as [?|Hc]; [done|]. apply Exists_exists in Hc as (k & Hin & Hne & Hurl).
    apply Exists_exists. exists k. split_and!; [done|done|].
    rewrite Hd, Hp, decide_False by naive_solver. done. }
  destruct (Hloop (kv_items (dpMap_of st1 (sd_domain st))).*1 st1) as (Hd & Hs & Hi & Hu);
    [apply NoDup_kv_items_keys|].
  split_and!; [done|done|done|]. intros (key & Hne & Hurl). apply Hu. right.
  apply Exists_exists. exists key. rewrite (quiet_publishers _ _ Hq). split_and!; [|done|done].
  destruct (dpMap_of st1 (sd_domain st) !! key) eqn:Hl.
  - apply list_elem_of_fmap. eexists (key, _). split; [done|]. by apply elem_of_kv_items.
  - apply publishers_absent in Hl. rewrite (quiet_publishers _ _ Hq) in Hl.
    rewrite Hl in Hurl. set_solver.
Qed.

Lemma register_service_services dom registration st :
  let url := str (rg_url registration) in
  let st' := register_service dom registration st in
  sMap_of st' dom !! str (rg_id registration) = Some url ∧
  sd_registrationInstanceMap st' !! url = Some (num (rg_timestamp registration)).
Proof.
  unfold register_service. set (id := str (rg_id registration)).
  set (url := str (rg_url registration)). cbn zeta.
  match goal with |- context [purgeObsoletePublishers id url ?s] => set (st0 := s) end.
  destruct (purge_services id url st0) as (Hd1 & Hs1 & _ & _).
  set (st1 := purgeObsoletePublishers id url st0) in *.
  set (st2 := st1 <| sd_registrationInstanceMap ::= insert url (num (rg_timestamp registration)) |>).
  set (st3 := if decide (dom = sd_domain st2) then _ else st2).
  assert (Hk : services_kept st2 st3).
  { subst st3. goal_decide; [apply services_kept_updateProductLocations|done]. }
  split.
  - rewrite (sk_services _ _ Hk). change (sMap_of st2 dom) with (sMap_of st1 dom).
    rewrite Hs1. unfold sMap_of, st0. cbn. rewrite idx_insert, decide_True by done.
    by rewrite lookup_insert_eq.
  - destruct (sk_known _ _ Hk url) as [known Hknown]; [cbn; rewrite lookup_insert_eq; eauto|].
    pose proof (sk_instances _ _ Hk url) as Hi. unfold instance_of, idx in Hi.
    rewrite Hknown in Hi. cbn in Hi. rewrite lookup_insert_eq in Hi. cbn in Hi. congruence.
Qed.

Lemma unregister_service_known dom unregistration st url known :
  sMap_of st dom !! str (ur_id unregistration) = Some url →
  sd_registrationInstanceMap st !! str (ur_url unregistration) = Some known →
  regTimeSecs known = num (ur_registration_time unregistration) →
  let '(st', found) := unregister_service dom unregistration st in
  found = true ∧ sMap_of st' dom !! str (ur_id unregistration) = None ∧
  sd_domain st' = sd_domain st.
Proof.
  intros Hs Hi Ht. unfold unregister_service. cbn zeta. rewrite Hs.
  set (st0 := st <| sd_serviceMap ::= insert dom (sMap_of st dom) |>).
  change (sd_registrationInstanceMap st0) with (sd_registrationInstanceMap st).
  rewrite Hi, decide_True by done.
  set (st1 := st0 <| sd_serviceMap ::= _ |>).
  set (st2 := if decide (dom = sd_domain st1) then _ else st1).
  assert (Hk : services_kept st1 st2).
  { subst st2. goal_decide; [apply services_kept_updateProductLocations|done]. }
  split_and!; [done| |exact (sk_domain _ _ Hk)].
  change (sMap_of st2 dom !! str (ur_id unregistration) = None).
  rewrite (sk_services _ _ Hk). unfold sMap_of at 1, st1. cbn.
  by rewrite idx_insert, decide_True, lookup_delete_eq.
Qed.

(** ** The provider map as a function of the registry *)

Definition reference_service st (dom : string) (entry : string * string) : ProductLocations :=
  mkProductLocations entry.1 [entry.2] [component_of st entry.2] [dom] [instance_of st entry.2].

Definition reference_product st (dom : string) (entry : string * list PublisherInfoPB)
    : ProductLocations :=
  mkProductLocations entry.1 (urls_of entry.2) (component_of st <$> urls_of entry.2) [dom]
    (instance_of st <$> urls_of entry.2).

(** Every service and every product of every domain, in the order of the maps. *)
Definition reference_map st : ServiceDirectoryMapPB :=
  mkServiceDirectoryMapPB
    ('(dom, sMap) ← kv_items (sd_serviceMap st); reference_service st dom <$> kv_items sMap)
    ('(dom, dpMap) ← kv_items (sd_dataProductMap st); reference_product st dom <$> kv_items dpMap)
    None (sd_domain st).

(** States that give the same component and time stamp for every url. *)
Record same_urls st st' : Prop := {
  su_domain : sd_domain st' = sd_domain st;
  su_products : sd_dataProductMap st' = sd_dataProductMap st;
  su_component url : component_of st' url = component_of st url;
  su_instance url : instance_of st' url = instance_of st url;
}.

#[export] Instance same_urls_preorder : PreOrder same_urls.
Proof.
  split; [by split|]. intros st1 st2 st3 [] []. split; [congruence..| |]; intros; etrans; eauto.
Qed.

Lemma same_urls_touch url st : same_urls st (touch_url url st).
Proof.
  split; try done; intros u; unfold component_of, instance_of; cbn; by rewrite idx_touch_idx.
Qed.

Lemma service_locations_reference dom items st :
  let '(locs, st') := service_locations dom items st in
  locs = reference_service st dom <$> items ∧ same_urls st st'.
Proof.
  revert st. induction items as [|[id url] items IH]; intros st; cbn; [done|].
  specialize (IH (touch_url url st)). pose proof (same_urls_touch url st) as Hs.
  destruct (service_locations dom items (touch_url url st)) as [locs st'].
  destruct IH as [-> Hs']. split; [|by etrans].
  f_equal. apply list_fmap_ext. intros _ [k u] _. unfold reference_service. cbn.
  by rewrite (su_component _ _ Hs), (su_instance _ _ Hs).
Qed.

Lemma location_urls_reference urls st locs :
  let '(locs', st') := location_urls urls st locs in
  locs' = mkProductLocations (loc_product_id locs) (loc_url locs ++ urls_of urls)
    (loc_component_id locs ++ (component_of st <$> urls_of urls)) (loc_domain_id locs)
    (loc_timestamp locs ++ (instance_of st <$> urls_of urls)) ∧ same_urls st st'.
Proof.
  revert st locs. induction urls as [|info urls IH]; intros st locs.
  { cbn. rewrite !app_nil_r. by destruct locs. }
  cbn [location_urls]. set (locs1 := update _ _ _).
  specialize (IH (touch_url (str (pi_url info)) st) locs1).
  pose proof (same_urls_touch (str (pi_url info)) st) as Hs.
  destruct (location_urls urls _ locs1) as [locs' st']. destruct IH as [-> Hs'].
  split; [|by etrans]. subst locs1. cbn. rewrite <-!app_assoc. f_equal.
  - do 2 f_equal. apply list_fmap_ext. intros. apply Hs.
  - do 2 f_equal. apply list_fmap_ext. intros. apply Hs.
Qed.

Lemma data_locations_reference dom items st :
  let '(locs, st') := data_locations dom items st in
  locs = reference_product st dom <$> items ∧ same_urls st st'.
Proof.
  revert st. induction items as [|[id urls] items IH]; intros st; cbn; [done|].
  pose proof (location_urls_reference urls st (mkProductLocations id [] [] [dom] [])) as Hl.
  destruct (location_urls urls st _) as [locs st1]. destruct Hl as [-> Hs].
  specialize (IH st1). destruct (data_locations dom items st1) as [rest st2].
  destruct IH as [-> Hs2]. split; [|by etrans]. f_equal. apply list_fmap_ext.
  intros _ [k l] _. unfold reference_product. cbn.
  f_equal; apply list_fmap_ext; intros; apply Hs.
Qed.

Lemma all_service_locations_reference domains st :
  let '(locs, st') := all_service_locations domains st in
  locs = ('(dom, sMap) ← domains; reference_service st dom <$> kv_items sMap) ∧ same_urls st st'.
Proof.
  revert st. induction domains as [|[dom sMap] domains IH]; intros st; cbn; [done|].
  pose proof (service_locations_reference dom (kv_items sMap) st) as Hl.
  destruct (service_locations _ _ st) as [locs st1]. destruct Hl as [-> Hs].
  specialize (IH st1). destruct (all_service_locations domains st1) as [rest st2].
  destruct IH as [-> Hs2]. split; [|by etrans]. f_equal. apply list_bind_ext; [|done].
  intros [d m]. apply list_fmap_ext. intros _ [k u] _. unfold reference_service. cbn.
  by rewrite (su_component _ _ Hs), (su_instance _ _ Hs).
Qed.

Lemma all_data_locations_reference domains st :
  let '(locs, st') := all_data_locations domains st in
  locs = ('(dom, dpMap) ← domains; reference_product st dom <$> kv_items dpMap) ∧ same_urls st st'.
Proof.
  revert st. induction domains as [|[dom dpMap] domains IH]; intros st; cbn; [done|].
  pose proof (data_locations_reference dom (kv_items dpMap) st) as Hl.
  destruct (data_locations _ _ st) as [locs st1]. destruct Hl as [-> Hs].
  specialize (IH st1). destruct (all_data_locations domains st1) as [rest st2].
  destruct IH as [-> Hs2]. split; [|by etrans]. f_equal. apply list_bind_ext; [|done].
  intros [d m]. apply list_fmap_ext. intros _ [k l] _. unfold reference_product. cbn.
  f_equal; apply list_fmap_ext; intros; apply Hs.
Qed.

(** ** The list of domains *)

(** The pieces of a string between commas. *)
Definition comma : Ascii.ascii := Ascii.ascii_of_nat 44.

Fixpoint split_commas (s : string) : list string :=
  match s with
  | EmptyString => [EmptyString]
  | String c s =>
      if decide (c = comma) then EmptyString :: split_commas s
      else match split_commas s with
           | p :: ps => String c p :: ps
           | [] => [String c EmptyString]
           end
  end.

Lemma index_shift n pat s :
  (n <= String.length s)%nat →
  String.index n pat s = (λ i, n + i)%nat <$> String.index 0 pat (str_drop n s).
Proof.
  revert s. induction n as [|n IH]; intros s Hn.
  - cbn [str_drop]. by destruct (String.index 0 pat s).
  - destruct s as [|c s]; [cbn in Hn; lia|]. cbn in Hn. cbn [String.index str_drop].
    rewrite IH by lia. by destruct (String.index 0 pat (str_drop n s)).
Qed.

Lemma split_commas_index s :
  match String.index 0 "," s with
  | None => split_commas s = [s]
  | Some i => split_commas s = str_take i s :: split_commas (str_drop (i + 1) s) ∧
      (i < String.length s)%nat
  end.
Proof.
  induction s as [|c s IH]; [done|]. cbn [split_commas].
  destruct (decide (c = comma)) as [->|Hne].
  - cbn. by destruct s; cbn; split; try done; lia.
  - assert (Hi : String.index 0 "," (String c s) = S <$> String.index 0 "," s).
    { change (String.index 0 "," (String c s)) with
        (if String.prefix "," (String c s) then Some 0 else
          match String.index 0 "," s with Some n => Some (S n) | None => None end).
      assert (Hp : String.prefix "," (String c s) = false).
      { unfold String.prefix. destruct (Ascii.ascii_dec _ c) as [Heq|]; [|done].
        by destruct Hne. }
      rewrite Hp. by destruct (String.index 0 "," s). }
    rewrite Hi. destruct (String.index 0 "," s) as [i|]; cbn.
    + destruct IH as [-> Hlt]. split; [done|lia].
    + by rewrite IH.
Qed.

Lemma length_str_drop n s : String.length (str_drop n s) = (String.length s - n)%nat.
Proof.
  revert s. induction n as [|n IH]; intros s; cbn; [lia|]. destruct s; cbn; [done|apply IH].
Qed.

(** The pieces that are checked are all but the last. *)
Lemma csv_loop_spec fuel csv prevPos n :
  (prevPos <= String.length csv)%nat → (String.length csv - prevPos <= fuel)%nat →
  csv_loop fuel csv prevPos (String.index prevPos "," csv) n =
    Some (let pieces := split_commas (str_drop prevPos csv) in
      if decide (Forall (λ p, validateDomainName p = true) (removelast pieces))
      then n + Z.of_nat (length pieces) else -1)%Z.
Proof.
  revert prevPos n. induction fuel as [|fuel IH]; intros prevPos n Hp Hf;
    rewrite index_shift by done; pose proof (split_commas_index (str_drop prevPos csv)) as Hs;
    destruct (String.index 0 "," (str_drop prevPos csv)) as [i|].
  - destruct Hs as [_ Hlt]. rewrite length_str_drop in Hlt. lia.
  - rewrite Hs. cbn. f_equal; lia.
  - destruct Hs as [Hs Hlt]. rewrite length_str_drop in Hlt. cbn [csv_loop fmap option_fmap option_map].
    replace (prevPos + i - prevPos)%nat with i by lia. rewrite substring_drop, Hs.
    set (rest := str_drop (i + 1) (str_drop prevPos csv)).
    assert (Hrest : ∃ q qs, split_commas rest = q :: qs).
    { destruct rest as [|c r]; [by eexists _, _|]. cbn. case_decide; [by eexists _, _|].
      destruct (split_commas r); by eexists _, _. }
    assert (Hl : ∀ p, removelast (p :: split_commas rest) = p :: removelast (split_commas rest)).
    { intros p. destruct Hrest as (q & qs & ->). done. }
    cbn zeta. rewrite Hl. destruct (validateDomainName (str_take i (str_drop prevPos csv))) eqn:Hv.
    + cbn [negb]. rewrite IH by lia. rewrite <-Nat.add_assoc, str_drop_add. fold rest. f_equal.
      cbn zeta. repeat case_decide; cbn [length]; try lia.
      * by exfalso; apply H0; constructor.
      * by exfalso; apply H; inv H0.
    + cbn [negb]. rewrite decide_False; [done|]. intros Hall. inv Hall. congruence.
  - rewrite Hs. cbn. f_equal; lia.
Qed.

(** * Properties *)

(** C2. Registration followed by lookup. In a reachable directory, an accepted registration of a
    data product is answered SUCCESS, and a lookup of that product then lists the registered
    url exactly once, with the registration's time stamp in seconds, next to every publisher
    that was listed before at another url, in the order they had. *)
Theorem register_data_lookup domain st registration lookup :
  let dom := request_domain (rg_domain registration) st in
  let url := str (rg_url registration) in
  sd_reachable domain st →
  default DATA (rg_type registration) = DATA →
  registration_accepted registration st = true →
  default DATA (lr_type lookup) = DATA →
  str (lr_lookupID lookup) = str (rg_id registration) →
  (∀ st', sd_domain st' = sd_domain st → lookup_domain lookup st' = dom) →
  let '(response, st') := handleRegister registration st in
  response = mkServiceDirectoryResponsePB (str (rg_id registration)) SUCCESS ∧
  ∃ publishers,
    (handleLookup lookup st').1 =
      DataLookup (mkComponentDataLookupResponsePB (str (rg_id registration)) publishers dom) ∧
    (∃ info, filter (has_url url) publishers = [info] ∧
      num (pi_registration_time info) = regTimeSecs (num (rg_timestamp registration))) ∧
    other_urls url publishers =
      other_urls url (publishers_of st dom (str (rg_id registration))).
Proof.
  intros dom url Hreach Hty Hacc Hlt Hid Hdom. unfold handleRegister.
  rewrite Hacc, Hty. fold dom. pose proof (register_data_spec dom registration st) as Hspec.
  destruct (register_data dom registration st) as [st' dup].
  destruct Hspec as (Hd & _ & Hp & _). split; [by destruct dup|].
  exists (publishers_of st' dom (str (rg_id registration))).
  rewrite data_lookup_spec, Hid, (Hdom st' Hd) by done. split; [done|].
  rewrite Hp, registered_publishers_same. apply upsert_spec.
  apply (ok_distinct _ (sd_reachable_ok _ _ Hreach)).
Qed.

Definition demo_lookup (id : string) : ComponentLookupRequestPB :=
  mkComponentLookupRequestPB (Some id) (Some DATA) None.

Example register_data_lookup_witness :
  let r := demo_registration "B" "tcp://h:2" 9000000 in
  registration_accepted r demo_state = true ∧
  ∃ publishers, (handleLookup (demo_lookup "B") (handleRegister r demo_state).2).1 =
    DataLookup (mkComponentDataLookupResponsePB "B" publishers "Dom") ∧
    length (other_urls "tcp://h:2" publishers) = 1.
Proof.
  intros r.
  assert (Ha : registration_accepted r demo_state = true) by (vm_compute; reflexivity).
  split; [exact Ha|].
  pose proof (register_data_lookup "Dom" demo_state r (demo_lookup "B") demo_reachable
    eq_refl Ha eq_refl eq_refl
    (λ st' Hd, eq_trans (Hd : lookup_domain (demo_lookup "B") st' = _)
      ltac:(vm_compute; reflexivity))) as H.
  change (request_domain (rg_domain r) demo_state) with "Dom" in H.
  destruct (handleRegister r demo_state) as [response st'].
  destruct H as (_ & publishers & Hl & _ & Ho). exists publishers.
  split; [exact Hl|].
  change (length (other_urls (str (rg_url r)) publishers) = 1). rewrite Ho.
  vm_compute. reflexivity.
Defined.

(** C3. Unregistration. In a reachable directory, unregistering a data product answers SUCCESS
    exactly when a publisher with that url and registration time is listed; it removes that
    publisher and no other, and otherwise answers NOT_REGISTERED and changes no list. *)
Theorem unregister_data_exact domain st unregistration :
  let dom := request_domain (ur_domain unregistration) st in
  let id := str (ur_id unregistration) in
  let registered := is_registration (str (ur_url unregistration))
    (num (ur_registration_time unregistration)) in
  sd_reachable domain st →
  default DATA (ur_type unregistration) = DATA →
  let '(response, st') := handleUnregister unregistration st in
  response = mkServiceDirectoryResponsePB id
    (if decide (Exists registered (publishers_of st dom id)) then SUCCESS else NOT_REGISTERED) ∧
  publishers_of st' dom id = filter (λ p, ¬ registered p) (publishers_of st dom id) ∧
  (∀ d k, (d, k) ≠ (dom, id) → publishers_of st' d k = publishers_of st d k).
Proof.
  intros dom id registered Hreach Hty. unfold handleUnregister. rewrite Hty. fold dom.
  pose proof (unregister_data_spec dom unregistration st) as Hspec.
  destruct (unregister_data dom unregistration st) as [st' found].
  destruct Hspec as (_ & _ & Hp & Hf & _). fold id registered in Hf. split_and!.
  - rewrite Hf. f_equal. case_decide; [by rewrite bool_decide_true|by rewrite bool_decide_false].
  - rewrite Hp. unfold unregistered_publishers. cbn zeta. rewrite decide_True by done.
    apply delete_registration. apply (ok_distinct _ (sd_reachable_ok _ _ Hreach)).
  - intros d k Hne. rewrite Hp. unfold unregistered_publishers. cbn zeta.
    rewrite decide_False; [done|]. naive_solver.
Qed.

Example unregister_data_exact_witness :
  let u := mkServiceDirectoryUnregistrationPB (Some "B") (Some "tcp://h:1") None None (Some 7%Z) in
  sr_returnCode (handleUnregister u demo_state).1 = SUCCESS ∧
  publishers_of (handleUnregister u demo_state).2 "Dom" "B" = [].
Proof.
  intros u. pose proof (unregister_data_exact "Dom" demo_state u demo_reachable eq_refl) as H.
  destruct (handleUnregister u demo_state) as [response st'].
  destruct H as (Hr & Hp & _). split.
  - rewrite Hr. vm_compute. reflexivity.
  - refine (eq_trans Hp _). vm_compute. reflexivity.
Defined.

(** C11. A registration without time stamp, or with one older than the registration known for its
    url, changes nothing, and is answered SUCCESS all the same. *)
Theorem stale_registration_ignored registration st :
  rg_timestamp registration = None ∨
  (∃ timestamp known, rg_timestamp registration = Some timestamp ∧
    sd_registrationInstanceMap st !! str (rg_url registration) = Some known ∧
    (timestamp < known)%Z) →
  handleRegister registration st =
    (mkServiceDirectoryResponsePB (str (rg_id registration)) SUCCESS, st).
Proof.
  intros Hstale. unfold handleRegister.
  assert (Ha : registration_accepted registration st = false).
  { unfold registration_accepted. destruct Hstale as [Hn|(t & k & Ht & Hk & Hlt)]; [by rewrite Hn|rewrite Ht, Hk].
    by apply negb_false_iff, Z.ltb_lt. }
  by rewrite Ha.
Qed.

Example stale_registration_ignored_witness :
  (handleRegister (demo_registration "C" "tcp://sd:1" 1) demo_state).2 = demo_state.
Proof.
  rewrite (stale_registration_ignored (demo_registration "C" "tcp://sd:1" 1) demo_state);
    [reflexivity|].
  right. exists 1%Z, 6000000%Z. vm_compute. auto.
Defined.

(** The life of a service: an accepted registration is answered SUCCESS and a lookup gives its
    url with the registration's time stamp in seconds; unregistering it with that time is
    answered SUCCESS and a lookup then gives no url. *)
Theorem service_life registration unregistration lookup st :
  let dom := request_domain (rg_domain registration) st in
  let id := str (rg_id registration) in
  let url := str (rg_url registration) in
  let secs := regTimeSecs (num (rg_timestamp registration)) in
  default DATA (rg_type registration) = SERVICE →
  registration_accepted registration st = true →
  unregistration = mkServiceDirectoryUnregistrationPB (Some id) (Some url) (Some SERVICE)
    (Some dom) (Some secs) →
  lookup = mkComponentLookupRequestPB (Some id) (Some SERVICE) (Some dom) →
  dom ≠ "" →
  let '(response, st1) := handleRegister registration st in
  let '(response', st2) := handleUnregister unregistration st1 in
  response = mkServiceDirectoryResponsePB id SUCCESS ∧
  (handleLookup lookup st1).1 =
    ServiceLookup (mkComponentServiceLookupResponsePB id url dom (Some secs)) ∧
  response' = mkServiceDirectoryResponsePB id SUCCESS ∧
  (handleLookup lookup st2).1 =
    ServiceLookup (mkComponentServiceLookupResponsePB id "" dom None).
Proof.
  intros dom id url secs Hty Hacc -> -> Hdom. unfold handleRegister. rewrite Hacc, Hty. fold dom.
  destruct (register_service_services dom registration st) as [Hs Hi].
  set (st1 := register_service dom registration st) in *.
  unfold handleUnregister. set (u := mkServiceDirectoryUnregistrationPB _ _ _ _ _).
  pose proof (unregister_service_known dom u st1 _ _ Hs Hi eq_refl) as Hu.
  change (request_domain (ur_domain u) st1) with dom. cbn [ur_type u].
  change (default DATA (Some SERVICE)) with SERVICE. cbn iota.
  destruct (unregister_service dom u st1) as [st2 found]. destruct Hu as (-> & Hs2 & _).
  assert (Hl : ∀ st, lookup_domain (mkComponentLookupRequestPB (Some id) (Some SERVICE) (Some dom)) st
    = dom) by (intros; unfold lookup_domain; cbn; by rewrite decide_False).
  rewrite !service_lookup_spec, !Hl by done. cbn zeta. cbn [lr_lookupID].
  change (str (Some id)) with id. fold id in Hs. rewrite Hs. change (str (ur_id u)) with id in Hs2. rewrite Hs2.
  split_and!; [done| |done|done]. unfold instance_of, idx. by rewrite Hi.
Qed.

Definition demo_service : ServiceDirectoryRegistrationPB :=
  mkServiceDirectoryRegistrationPB (Some "S") (Some "tcp://h:3") (Some SERVICE) (Some "Comp") None
    (Some 8000000%Z) None None.

Example service_life_witness :
  registration_accepted demo_service demo_state = true ∧
  sr_returnCode (handleRegister demo_service demo_state).1 = SUCCESS.
Proof.
  assert (Ha : registration_accepted demo_service demo_state = true) by (vm_compute; reflexivity).
  split; [exact Ha|].
  pose proof (service_life demo_service _ _ demo_state eq_refl Ha eq_refl eq_refl
    ltac:(vm_compute; discriminate)) as H.
  destruct (handleRegister demo_service demo_state) as [response st1].
  destruct (handleUnregister _ st1) as [response' st2].
  destruct H as (-> & _). reflexivity.
Defined.

(** When a publisher registers a data product at a url that another product of the directory's
    domain was using, the time stamp just recorded for the url is erased with the old
    registration: afterwards the directory knows the time stamp 0 for it. *)
Theorem moved_registration_loses_timestamp domain st registration :
  let id := str (rg_id registration) in
  let url := str (rg_url registration) in
  sd_reachable domain st →
  default DATA (rg_type registration) = DATA →
  registration_accepted registration st = true →
  request_domain (rg_domain registration) st = sd_domain st →
  url ∉ urls_of (publishers_of st (sd_domain st) id) →
  (∃ id', id' ≠ id ∧ url ∈ urls_of (publishers_of st (sd_domain st) id')) →
  instance_of (handleRegister registration st).2 url = 0%Z.
Proof.
  intros id url Hreach Hty Hacc Hdom Hnew (id' & Hne & Hold). unfold handleRegister.
  rewrite Hacc, Hty, Hdom. unfold register_data. fold id url.
  set (st0 := if decide (id = REGISTERED_PUBLISHERS_DPID) then _ else st).
  assert (Hp0 : ∀ d k, publishers_of st0 d k = publishers_of st d k)
    by (intros; subst st0; by case_decide).
  assert (Hd0 : sd_domain st0 = sd_domain st) by (subst st0; by case_decide).
  cbn zeta. rewrite Hp0. apply list_find_urls in Hnew. rewrite Hnew. cbn iota.
  set (l := publishers_of st (sd_domain st) id ++ _).
  match goal with |- context [publishers_changed id (sd_domain st) ?s] => set (st1 := s) end.
  assert (Hd1 : sd_domain st1 = sd_domain st) by exact Hd0.
  assert (Hp1 : publishers_of st1 (sd_domain st) id' = publishers_of st (sd_domain st) id').
  { unfold st1, publishers_of, set_dpMap, dpMap_of. cbn.
    rewrite !idx_insert, !decide_True, !idx_insert, !decide_False by done. apply Hp0. }
  clearbody st1.
  set (st2 := purgeObsoletePublishers id url _).
  assert (Hz : instance_of st2 url = 0%Z).
  { apply purge_services. exists id'. split; [done|].
    rewrite publishers_changed_domain, publishers_changed_publishers, Hd1. by rewrite Hp1. }
  cbn. goal_decide; [|exact Hz]. rewrite <-Hz.
  apply (sk_instances _ _ (services_kept_updateProductLocations _ _ _ _ _ _)).
Qed.

Example moved_registration_loses_timestamp_witness :
  instance_of (handleRegister (demo_registration "C" "tcp://h:1" 9000000) demo_state).2
    "tcp://h:1" = 0%Z.
Proof.
  apply (moved_registration_loses_timestamp "Dom" demo_state
    (demo_registration "C" "tcp://h:1" 9000000) demo_reachable).
  - reflexivity.
  - vm_compute. reflexivity.
  - reflexivity.
  - apply list_find_urls. vm_compute. reflexivity.
  - exists "B". split; [vm_compute; discriminate|]. apply list_elem_of_In.
    vm_compute. left. reflexivity.
Defined.

(** C10. The answer to GetProviders is the whole registry: every service and every product of every
    domain, each with its urls and, for each url, the component and time stamp recorded for
    it; building it changes none of them. *)
Theorem getProviders_complete st :
  (getProviders st).1 = reference_map st ∧
  (∀ url, component_of (getProviders st).2 url = component_of st url ∧
    instance_of (getProviders st).2 url = instance_of st url).
Proof.
  unfold getProviders, reference_map.
  pose proof (all_service_locations_reference (kv_items (sd_serviceMap st)) st) as Hs.
  destruct (all_service_locations _ st) as [services st1]. destruct Hs as [-> Hs].
  pose proof (all_data_locations_reference (kv_items (sd_dataProductMap st1)) st1) as Hd.
  destruct (all_data_locations _ st1) as [data st2]. destruct Hd as [-> Hd]. cbn. split.
  - rewrite (su_domain _ _ Hd), (su_domain _ _ Hs), (su_products _ _ Hs). f_equal.
    apply list_bind_ext; [|done]. intros [d m]. apply list_fmap_ext. intros _ [k l] _.
    unfold reference_product. cbn. f_equal; apply list_fmap_ext; intros; apply Hs.
  - intros url. by rewrite (su_component _ _ Hd), (su_instance _ _ Hd), (su_component _ _ Hs),
      (su_instance _ _ Hs).
Qed.

(** The list of domains to synchronise with has one more entry than it has commas; it is
    refused when one of the names before a comma has a character that is neither
    alphanumeric nor a dot.  The name after the last comma is not checked. *)
Theorem parseDomainCSV_spec csv :
  parseDomainCSV csv = Some (
    let pieces := split_commas csv in
    if decide (csv = "") then 0
    else if decide (Forall (λ p, validateDomainName p = true) (removelast pieces))
      then Z.of_nat (length pieces) else -1)%Z.
Proof.
  unfold parseDomainCSV. destruct csv as [|c s]; [done|]. set (csv := String c s).
  rewrite !decide_False by done. rewrite csv_loop_spec by (cbn; lia). done.
Qed.
