(* ===== verification/ServiceDirectoryUDP.v ===== *)
(** * The UDP broadcaster and the UDP receiver of the Service Directory
    (src/src/components/cpp/ServiceDirectory/ServiceDirectoryUDPBroadcaster.cpp,
    ServiceDirectoryUDPReceiver.cpp)

    Each runs in a thread of its own and talks to the directory over an inproc socket:
    parameters come in as the frames of a multi-part message, the receiver answers with
    commands (Add, Update, Remove).  A call of [recvfrom] and the clock are inputs of a
    step.  [std::map::at] throws when the key is missing, so a step of the receiver
    returns an option. *)

From S2P Require Import Prelude.
From S2P Require Import Messages.
From S2P Require Import CommUtil.
From S2P Require Import Utility.
From S2P Require Import ServiceDirectory.
#[local] Open Scope gravity_scope.

Definition MAXRECVSTRING : nat := 255.
Definition MAX_RECEIVE_COUNT : Z := 3.

(** ** The broadcaster *)

Record UDPBroadcaster := mkUDPBroadcaster {
  ub_domainName : string;
  ub_url : string;
  ub_broadcastIP : string;
  ub_port : Z;
  ub_broadcastRate : Z;
  ub_starttime : Z;
  ub_broadcast : bool;
  ub_broadcastString : string;
  (* the datagrams sent, with their addresses *)
  ub_sent : list (string * string);
}.
#[export] Instance eta_UDPBroadcaster : Eta UDPBroadcaster := λ b,
  mkUDPBroadcaster (ub_domainName b) (ub_url b) (ub_broadcastIP b) (ub_port b)
    (ub_broadcastRate b) (ub_starttime b) (ub_broadcast b) (ub_broadcastString b) (ub_sent b).

(** The parameters; [None] when a frame is missing or an integer has the wrong size. *)
Definition receiveBroadcastParameters (b : UDPBroadcaster) : reader UDPBroadcaster :=
  (domainName <~ readStringMessage ;; url <~ readStringMessage ;;
   broadcastIP <~ readStringMessage ;; port <~ readUint32Message ;;
   broadcastRate <~ readUint32Message ;;
   read_ret (b <| ub_domainName := domainName |> <| ub_url := url |>
               <| ub_broadcastIP := broadcastIP |> <| ub_port := port |>
               <| ub_broadcastRate := broadcastRate |>)).

Definition broadcast_message (b : UDPBroadcaster) : ServiceDirectoryBroadcastPB :=
  mkServiceDirectoryBroadcastPB (Some "") (ub_domainName b) (ub_url b) (ub_broadcastRate b)
    (ub_starttime b).

(** The address [initBroadcastSocket] broadcasts to. *)
Definition broadcast_address (b : UDPBroadcaster) : string :=
  if decide (String.length (ub_broadcastIP b) = 0) then
    match String.index 0 "127.0.0.1" (ub_url b) with
    | Some _ => "127.255.255.255"
    | None => "255.255.255.255"
    end
  else ub_broadcastIP b.

(** One iteration of the loop: the frames waiting on the socket, and whether [sendto]
    succeeds.  The result says whether the loop goes on. *)
Definition broadcaster_step `{Protobuf ServiceDirectoryBroadcastPB} (frames : list frame)
    (sent_ok : bool) (b : UDPBroadcaster) : option (UDPBroadcaster * bool) :=
  let send b :=
    if ub_broadcast b then
      if sent_ok then
        (b <| ub_sent ::= λ l, l ++ [(broadcast_address b, ub_broadcastString b)] |>, true)
      else (b, false)
    else (b, true) in
  match readStringMessage frames with
  | None => Some (send b)
  | Some (command, frames) =>
      if decide (command = "broadcast") then
        match receiveBroadcastParameters b frames with
        | None => None
        | Some (b, _) =>
            let b := b <| ub_broadcastString := serialize (broadcast_message b) |>
                       <| ub_broadcast := true |> in
            Some (send b)
        end
      else if decide (command = "stop") then Some (send (b <| ub_broadcast := false |>))
      else if decide (command = "kill") then Some (b, false)
      else Some (send b)
  end.

(** [usleep(broadcastRate * 1000000)]: the product is computed in 32 bits. *)
Definition broadcast_usleep (b : UDPBroadcaster) : Z := u32 (ub_broadcastRate b * 1000000).

(** ** The receiver *)

(** The commands for the directory, and their frames. *)
Inductive DomainCommand :=
| CmdAdd (domain url : string)
| CmdUpdate (domain url : string)
| CmdRemove (domain : string).

Definition command_frames (c : DomainCommand) : list frame :=
  match c with
  | CmdAdd domain url =>
      [sendStringMessage "Add"; sendStringMessage domain; sendStringMessage url]
  | CmdUpdate domain url =>
      [sendStringMessage "Update"; sendStringMessage domain; sendStringMessage url]
  | CmdRemove domain => [sendStringMessage "Remove"; sendStringMessage domain]
  end.

Record UDPReceiver := mkUDPReceiver {
  ur_ourDomain : string;
  ur_ourUrl : string;
  ur_port : Z;
  ur_validDomains : list string;
  receivedCountMap : gmap string Z;
  broadcastRateMap : gmap string Z;
  expectedMsgTimeMap : gmap string timeval;
  connectedDomainMap : gmap string Z;
  ur_timeout : timeval;
  ur_sent : list DomainCommand;
}.
#[export] Instance eta_UDPReceiver : Eta UDPReceiver := λ r,
  mkUDPReceiver (ur_ourDomain r) (ur_ourUrl r) (ur_port r) (ur_validDomains r)
    (receivedCountMap r) (broadcastRateMap r) (expectedMsgTimeMap r) (connectedDomainMap r)
    (ur_timeout r) (ur_sent r).

Definition zeroTime : timeval := mkTimeval 0 0.

(** [find(",", start)], stored in an [unsigned int]: [npos] becomes 2^32 - 1. *)
Definition find_comma (s : string) (start : Z) : Z :=
  if (start <? 0)%Z then u32_max - 1
  else match String.index (Z.to_nat start) "," s with
       | Some i => u32 (Z.of_nat i)
       | None => u32_max - 1
       end.

(** The comparison of [end], 32 bits wide, with [string::npos] is never true.  [substr]
    throws when it starts behind the end of the string. *)
Fixpoint valid_domains_loop (domainString : string) (n : nat) (start endpos : Z)
    : option (list string) :=
  match n with
  | O => Some []
  | S n =>
      if ((start <? 0) || (Z.of_nat (String.length domainString) <? start))%Z then None
      else
        let sub := String.substring (Z.to_nat start)
          (Z.to_nat (Z.min (u32 (endpos - start)) (Z.of_nat (String.length domainString))))
          domainString in
        let start := s32 (u32 (endpos + 1)) in
        rest ← valid_domains_loop domainString n start (find_comma domainString start);
        Some (sub :: rest)
  end.

Definition parseValidDomains (domainString : string) (numDomains : Z) : option (list string) :=
  valid_domains_loop domainString (Z.to_nat numDomains) 0 (find_comma domainString 0).

Definition isValidDomain (domain : string) (r : UDPReceiver) : bool :=
  existsb (λ valid, bool_decide (domain = valid) || bool_decide (valid = "*")) (ur_validDomains r).

(** A C string ends at its first NUL. *)
Fixpoint c_string (s : string) : string :=
  match s with
  | EmptyString => EmptyString
  | String c s => if decide (c = Ascii.zero) then EmptyString else String c (c_string s)
  end.

Definition receiveReceiverParameters (r : UDPReceiver) : reader (option UDPReceiver) :=
  (ourDomain <~ readStringMessage ;; ourUrl <~ readStringMessage ;;
   port <~ readUint32Message ;; numDomains <~ readUint32Message ;;
   domains <~ readStringMessage ;;
   read_ret (
     validDomains ← parseValidDomains (c_string domains) numDomains;
     Some (r <| ur_ourDomain := ourDomain |> <| ur_ourUrl := ourUrl |> <| ur_port := port |>
             <| ur_validDomains ::= λ l, l ++ validDomains |>))).

(** The [int] argument of [addTime]. *)
Definition addSeconds (t : timeval) (rate : Z) : timeval := addTime t (s32 rate).

Definition send_command (c : DomainCommand) (r : UDPReceiver) : UDPReceiver :=
  r <| ur_sent ::= λ l, l ++ [c] |>.

(** A broadcast from a domain that was seen before raises its count, and at the maximum
    connects it. *)
Definition connect_domain (pb : ServiceDirectoryBroadcastPB) (r : UDPReceiver) : UDPReceiver :=
  match connectedDomainMap r !! bc_domain pb with
  | None =>
      send_command (CmdAdd (bc_domain pb) (bc_url pb))
        (r <| connectedDomainMap ::= insert (bc_domain pb) (bc_starttime pb) |>)
  | Some starttime =>
      if decide (starttime ≠ bc_starttime pb) then
        send_command (CmdUpdate (bc_domain pb) (bc_url pb))
          (r <| connectedDomainMap ::= insert (bc_domain pb) (bc_starttime pb) |>)
      else r
  end.

Definition receive_broadcast (pb : ServiceDirectoryBroadcastPB) (currTime : timeval)
    (r : UDPReceiver) : UDPReceiver :=
  if bool_decide (ur_ourDomain r ≠ bc_domain pb) && isValidDomain (bc_domain pb) r then
    let r :=
      match receivedCountMap r !! bc_domain pb with
      | None =>
          r <| receivedCountMap ::= insert (bc_domain pb) 1%Z |>
            <| broadcastRateMap ::= insert (bc_domain pb) (bc_rate pb) |>
      | Some count =>
          let count := u32 (count + 1) in
          let '(count, r) :=
            if (MAX_RECEIVE_COUNT <=? count)%Z then (MAX_RECEIVE_COUNT, connect_domain pb r)
            else (count, r) in
          r <| receivedCountMap ::= insert (bc_domain pb) count |>
      end in
    r <| expectedMsgTimeMap ::= insert (bc_domain pb) (addSeconds currTime (bc_rate pb)) |>
  else r.

(** The timeout is lowered to the time until [nextTime]; a zero timeout counts as none. *)
Definition lower_timeout (nextTime currTime : timeval) (r : UDPReceiver) : UDPReceiver :=
  let timeToWait := subtractTime nextTime currTime in
  if bool_decide (timevalcmp zeroTime (ur_timeout r) = 0%Z) ||
     (timevalcmp timeToWait (ur_timeout r) <? 0)%Z
  then r <| ur_timeout := timeToWait |>
  else r.

(** One iteration of the loop over the expected times, with the set of the domains to
    remove. *)
Definition check_domain (currTime : timeval) (entry : string * timeval)
    (acc : UDPReceiver * gset string) : option (UDPReceiver * gset string) :=
  let '(domain, expected) := entry in
  let '(r, removeSet) := acc in
  if (timevalcmp expected currTime <=? 0)%Z then
    count ← receivedCountMap r !! domain;
    let count := s32 (s32 count - 1) in
    if (count <=? 0)%Z then
      let r :=
        match connectedDomainMap r !! domain with
        | Some _ =>
            (send_command (CmdRemove domain) r) <| connectedDomainMap ::= delete domain |>
        | None => r
        end in
      Some (r <| receivedCountMap ::= delete domain |> <| broadcastRateMap ::= delete domain |>,
            {[domain]} ∪ removeSet)
    else
      rate ← broadcastRateMap r !! domain;
      let nextTime := addSeconds expected rate in
      Some (lower_timeout nextTime currTime
              (r <| expectedMsgTimeMap ::= insert domain nextTime |>
                 <| receivedCountMap ::= insert domain (u32 count) |>), removeSet)
  else Some (lower_timeout expected currTime r, removeSet).

Fixpoint check_domains (currTime : timeval) (entries : list (string * timeval))
    (acc : UDPReceiver * gset string) : option (UDPReceiver * gset string) :=
  match entries with
  | [] => Some acc
  | entry :: entries =>
      acc ← check_domain currTime entry acc;
      check_domains currTime entries acc
  end.

(** The loop replaces values of the map it iterates over, and erases nothing. *)
Definition check_missed (currTime : timeval) (r : UDPReceiver) : option UDPReceiver :=
  let r := r <| ur_timeout := zeroTime |> in
  '(r, removeSet) ← check_domains currTime (kv_items (expectedMsgTimeMap r)) (r, ∅);
  Some (r <| expectedMsgTimeMap ::= λ m, foldl (λ m d, delete d m) m (set_items removeSet) |>).

(** The result of [recvfrom]. *)
Inductive RecvResult :=
| Datagram (bytes : string)
| EmptyDatagram
| TimedOut
| SocketError.

(** One iteration of the main loop; the result says whether the loop goes on.  The
    buffer cuts a datagram off after 255 bytes. *)
Definition receiver_step `{Protobuf ServiceDirectoryBroadcastPB} (e : RecvResult)
    (currTime : timeval) (r : UDPReceiver) : option (UDPReceiver * bool) :=
  match e with
  | EmptyDatagram => Some (r, true)
  | SocketError => Some (r, false)
  | TimedOut => r ← check_missed currTime r; Some (r, true)
  | Datagram bytes =>
      let broadcastPB := fst (parse (str_take MAXRECVSTRING bytes)) in
      r ← check_missed currTime (receive_broadcast broadcastPB currTime r);
      Some (r, true)
  end.

Definition initial_UDPReceiver : UDPReceiver :=
  mkUDPReceiver "" "" 0 [] ∅ ∅ ∅ ∅ zeroTime [].
