(* ===== verification/ServiceDirectoryUDPProofs.v ===== *)
(** * The UDP receiver: domains are watched independently, and the directory's list of
    domains is the receiver's

    [watch] is what the receiver knows of one domain.  [watch_message] and [watch_check]
    are the state machine of a single domain; the step of the receiver is that state
    machine run for each domain on its own. *)

From S2P Require Import Prelude.
From S2P Require Import Messages.
From S2P Require Import CommUtil.
From S2P Require Import Utility.
From S2P Require Import GravityDataProduct.
From S2P Require Import ServiceDirectory.
From S2P Require Import ServiceDirectoryRequests.
From S2P Require Import ServiceDirectoryUDP.
#[local] Open Scope gravity_scope.

Implicit Types (r : UDPReceiver) (d : string).

(** ** One domain *)

Record DomainWatch := mkDomainWatch {
  dw_count : Z;
  dw_rate : Z;
  dw_expected : timeval;
  dw_connected : option Z;
}.

Definition watch r d : option DomainWatch :=
  count ← receivedCountMap r !! d; rate ← broadcastRateMap r !! d;
  expected ← expectedMsgTimeMap r !! d;
  Some (mkDomainWatch count rate expected (connectedDomainMap r !! d)).

(** A broadcast: the new state, and the commands sent. *)
Definition watch_message (pb : ServiceDirectoryBroadcastPB) (now : timeval)
    (w : option DomainWatch) : DomainWatch * list DomainCommand :=
  let expected := addSeconds now (bc_rate pb) in
  match w with
  | None => (mkDomainWatch 1 (bc_rate pb) expected None, [])
  | Some (mkDomainWatch count rate _ connected) =>
      if (count <? 2)%Z then (mkDomainWatch (count + 1) rate expected connected, [])
      else
        (mkDomainWatch 3 rate expected (Some (bc_starttime pb)),
         match connected with
         | None => [CmdAdd (bc_domain pb) (bc_url pb)]
         | Some starttime =>
             if decide (starttime = bc_starttime pb) then []
             else [CmdUpdate (bc_domain pb) (bc_url pb)]
         end)
  end.

(** The check for a missed broadcast. *)
Definition watch_check d (now : timeval) (w : DomainWatch)
    : option DomainWatch * list DomainCommand :=
  let '(mkDomainWatch count rate expected connected) := w in
  if (timevalcmp expected now <=? 0)%Z then
    if (count <=? 1)%Z then (None, if connected then [CmdRemove d] else [])
    else (Some (mkDomainWatch (count - 1) rate (addSeconds expected rate) connected), [])
  else (Some w, []).

Definition command_domain (c : DomainCommand) : string :=
  match c with CmdAdd d _ | CmdUpdate d _ | CmdRemove d => d end.

Definition commands_for d (l : list DomainCommand) : list DomainCommand :=
  filter (λ c, command_domain c = d) l.

(** ** The invariant *)

(** The three maps have the same keys and the connected domains are among them, but for
    the domains of [gone], which have an expected time only. *)
Record receiver_mid (gone : gset string) r : Prop := {
  rm_rate d : is_Some (broadcastRateMap r !! d) ↔ is_Some (receivedCountMap r !! d);
  rm_expected d : is_Some (expectedMsgTimeMap r !! d) ↔
    is_Some (receivedCountMap r !! d) ∨ d ∈ gone;
  rm_connected d : is_Some (connectedDomainMap r !! d) → is_Some (receivedCountMap r !! d);
  rm_gone d : d ∈ gone → receivedCountMap r !! d = None;
  rm_count d c : receivedCountMap r !! d = Some c → (1 <= c <= 3)%Z;
}.

Definition receiver_ok r : Prop := receiver_mid ∅ r.

(** What the receiver knows of a domain, presence by presence. *)
Definition entries_of r d :=
  (receivedCountMap r !! d, broadcastRateMap r !! d, expectedMsgTimeMap r !! d,
   connectedDomainMap r !! d).

Lemma watch_entries r r' d : entries_of r' d = entries_of r d → watch r' d = watch r d.
Proof. unfold entries_of, watch. intros [= -> -> -> ->]. done. Qed.

Lemma watch_known gone r d c :
  receiver_mid gone r → receivedCountMap r !! d = Some c →
  ∃ rate expected, entries_of r d = (Some c, Some rate, Some expected, connectedDomainMap r !! d) ∧
    watch r d = Some (mkDomainWatch c rate expected (connectedDomainMap r !! d)).
Proof.
  intros Hm Hc.
  destruct (proj2 (rm_rate _ _ Hm d)) as [rate Hr]; [eauto|].
  destruct (proj2 (rm_expected _ _ Hm d)) as [t He]; [eauto|].
  exists rate, t. unfold entries_of, watch. rewrite Hc, Hr, He. done.
Qed.

Lemma watch_unknown gone r d :
  receiver_mid gone r → receivedCountMap r !! d = None → d ∉ gone →
  entries_of r d = (None, None, None, None) ∧ watch r d = None.
Proof.
  intros Hm Hc Hg. unfold entries_of, watch. rewrite Hc.
  assert (broadcastRateMap r !! d = None) as ->.
  { apply eq_None_not_Some. rewrite (rm_rate _ _ Hm), Hc. by intros []. }
  assert (expectedMsgTimeMap r !! d = None) as ->.
  { apply eq_None_not_Some. rewrite (rm_expected _ _ Hm), Hc. intros [[]|]; done. }
  assert (connectedDomainMap r !! d = None) as ->; [|done].
  apply eq_None_not_Some. intros H%(rm_connected _ _ Hm). rewrite Hc in H. by destruct H.
Qed.

(** A step that touches one domain: the other domains keep their entries. *)
Lemma receiver_mid_step gone gone' r r' d0 :
  receiver_mid gone r →
  (∀ d, d ≠ d0 → entries_of r' d = entries_of r d ∧ (d ∈ gone' ↔ d ∈ gone)) →
  (match entries_of r' d0 with
   | (Some c, Some _, Some _, _) => (1 <= c <= 3)%Z ∧ d0 ∉ gone'
   | (None, None, Some _, None) => d0 ∈ gone'
   | (None, None, None, None) => d0 ∉ gone'
   | _ => False
   end) →
  receiver_mid gone' r'.
Proof.
  unfold entries_of. intros Hm Hother H0.
  split; intros d; (destruct (decide (d = d0)) as [->|Hd];
    [|destruct (Hother d Hd) as [[= E1 E2 E3 E4] Hg]; rewrite ?E1, ?E2, ?E3, ?E4, ?Hg; by apply Hm]);
    destruct (receivedCountMap r' !! d0), (broadcastRateMap r' !! d0),
      (expectedMsgTimeMap r' !! d0), (connectedDomainMap r' !! d0); try done;
    try (intros ?? ; naive_solver); try (destruct_and?; naive_solver).
Qed.

(** ** Receiving a broadcast *)

Definition broadcast_accepted (pb : ServiceDirectoryBroadcastPB) r : bool :=
  bool_decide (ur_ourDomain r ≠ bc_domain pb) && isValidDomain (bc_domain pb) r.

Lemma commands_for_other d c l : command_domain c ≠ d → commands_for d (c :: l) = commands_for d l.
Proof. intros. unfold commands_for. by rewrite filter_cons_False. Qed.

(** What a step did: the domains' states, the commands sent, the parameters kept. *)
Record step_effect r r' (after : string → option DomainWatch) (cmds : string → list DomainCommand)
    : Prop := {
  se_watch d : watch r' d = after d;
  se_sent : ∃ extra, ur_sent r' = ur_sent r ++ extra ∧ ∀ d, commands_for d extra = cmds d;
  se_params : ur_ourDomain r' = ur_ourDomain r ∧ ur_validDomains r' = ur_validDomains r;
}.

(** The entries of the domain of a broadcast after it, and the commands. *)
Lemma receive_broadcast_entries pb now r :
  receiver_ok r → broadcast_accepted pb r = true →
  let '(w, cmds) := watch_message pb now (watch r (bc_domain pb)) in
  let r' := receive_broadcast pb now r in
  entries_of r' (bc_domain pb) =
    (Some (dw_count w), Some (dw_rate w), Some (dw_expected w), dw_connected w) ∧
  (1 <= dw_count w <= 3)%Z ∧
  ur_sent r' = ur_sent r ++ cmds ∧
  (ur_ourDomain r' = ur_ourDomain r ∧ ur_validDomains r' = ur_validDomains r) ∧
  (∀ d, d ≠ bc_domain pb → entries_of r' d = entries_of r d).
Proof.
  intros Hok Hacc. unfold receive_broadcast. unfold broadcast_accepted in Hacc. rewrite Hacc.
  set (dom := bc_domain pb) in *.
  destruct (receivedCountMap r !! dom) as [c|] eqn:Hc.
  - destruct (watch_known _ _ _ _ Hok Hc) as (rate & t & He & ->).
    pose proof (rm_count _ _ Hok _ _ Hc) as Hrange. unfold watch_message.
    unfold entries_of in He. injection He as _ Hrate Ht.
    assert (Hu : u32 (c + 1) = (c + 1)%Z) by (apply u32_id; unfold is_u32, u32_max; lia).
    rewrite Hu. unfold MAX_RECEIVE_COUNT, connect_domain. fold dom.
    destruct (c <? 2)%Z eqn:Hlt; to_props.
    + rewrite (proj2 (Z.leb_gt _ _)) by lia. unfold entries_of. cbn.
      rewrite !lookup_insert_eq, app_nil_r. split_and!; [by rewrite Hrate|lia|lia|done|done|done|].
      intros d Hd. by rewrite !lookup_insert_ne.
    + rewrite (proj2 (Z.leb_le _ _)) by lia.
      destruct (connectedDomainMap r !! dom) as [s|] eqn:Hconn;
        [destruct (decide (s = bc_starttime pb)) as [->|Hs];
         [rewrite decide_False by tauto|rewrite decide_True by done]|];
        unfold entries_of; cbn; rewrite ?lookup_insert_eq, ?app_nil_r, ?Hrate, ?Hconn;
        (split_and!; [done|lia|lia|done|done|done|]);
        intros d Hd; by rewrite ?lookup_insert_ne.
  - destruct (watch_unknown _ _ _ Hok Hc) as [He ->]; [set_solver|]. unfold watch_message.
    unfold entries_of in *. injection He as _ Hr Ht Hcn. cbn.
    rewrite !lookup_insert_eq, app_nil_r, Hcn. split_and!; [done|lia|lia|done|done|done|].
    intros d Hd. by rewrite !lookup_insert_ne.
Qed.

Lemma watch_message_commands pb now w c :
  c ∈ (watch_message pb now w).2 → command_domain c = bc_domain pb.
Proof.
  unfold watch_message. destruct w as [[count rate t conn]|]; cbn; [|set_solver].
  destruct (count <? 2)%Z; cbn; [set_solver|].
  destruct conn; [case_decide|]; set_solver.
Qed.

(** The commands of one domain among commands that are all of one domain. *)
Lemma commands_for_one d d0 l :
  (∀ c, c ∈ l → command_domain c = d0) →
  commands_for d l = if decide (d = d0) then l else [].
Proof.
  intros Hl. unfold commands_for. case_decide.
  - apply list_filter_all, Forall_forall. intros c Hc. rewrite Hl by done. done.
  - apply list_filter_none, Forall_forall. intros c Hc. rewrite Hl by done. congruence.
Qed.

Lemma receive_broadcast_effect pb now r :
  receiver_ok r →
  receiver_ok (receive_broadcast pb now r) ∧
  step_effect r (receive_broadcast pb now r)
    (λ d, if decide (d = bc_domain pb ∧ broadcast_accepted pb r = true)
          then Some (watch_message pb now (watch r d)).1 else watch r d)
    (λ d, if decide (d = bc_domain pb ∧ broadcast_accepted pb r = true)
          then (watch_message pb now (watch r d)).2 else []).
Proof.
  intros Hok. destruct (broadcast_accepted pb r) eqn:Hacc.
  - pose proof (receive_broadcast_entries pb now r Hok Hacc) as H.
    pose proof (watch_message_commands pb now (watch r (bc_domain pb))) as Hcmd.
    destruct (watch_message pb now (watch r (bc_domain pb))) as [w cmds] eqn:Hw.
    destruct H as (He & Hrange & Hsent & Hpar & Hother). cbn in Hcmd. split.
    + eapply (receiver_mid_step ∅ ∅ r _ (bc_domain pb)); [done|auto|].
      rewrite He. by destruct (dw_connected w).
    + split; [|exists cmds; split; [done|]|done].
      * intros d. case_decide as Hd; [destruct Hd as [-> _]|by apply watch_entries, Hother; naive_solver].
        rewrite Hw. unfold watch. unfold entries_of in He. injection He as -> -> -> ->.
        by destruct w.
      * intros d. rewrite (commands_for_one d _ _ Hcmd). repeat case_decide; try naive_solver.
        subst. by rewrite Hw.
  - assert (receive_broadcast pb now r = r) as ->.
    { unfold receive_broadcast. unfold broadcast_accepted in Hacc. by rewrite Hacc. }
    split; [done|]. split; [|exists []; rewrite app_nil_r; split; [done|]|done].
    + intros d. rewrite decide_False; naive_solver.
    + intros d. rewrite decide_False; naive_solver.
Qed.

(** ** Checking for missed broadcasts *)

Lemma entries_lower_timeout t now r d : entries_of (lower_timeout t now r) d = entries_of r d.
Proof. unfold lower_timeout. by case_match. Qed.

Lemma lower_timeout_sent t now r :
  ur_sent (lower_timeout t now r) = ur_sent r ∧
  ur_ourDomain (lower_timeout t now r) = ur_ourDomain r ∧
  ur_validDomains (lower_timeout t now r) = ur_validDomains r.
Proof. unfold lower_timeout. by case_match. Qed.

Lemma check_domain_spec now d0 w r gone :
  receiver_mid gone r → watch r d0 = Some w →
  ∃ r' gone', check_domain now (d0, dw_expected w) (r, gone) = Some (r', gone') ∧
    receiver_mid gone' r' ∧
    ur_sent r' = ur_sent r ++ (watch_check d0 now w).2 ∧
    (ur_ourDomain r' = ur_ourDomain r ∧ ur_validDomains r' = ur_validDomains r) ∧
    (∀ d, d ≠ d0 → entries_of r' d = entries_of r d ∧ (d ∈ gone' ↔ d ∈ gone)) ∧
    match (watch_check d0 now w).1 with
    | Some w' => d0 ∉ gone' ∧ watch r' d0 = Some w'
    | None => d0 ∈ gone'
    end.
Proof.
  intros Hm Hw. destruct (receivedCountMap r !! d0) as [c|] eqn:Hc;
    [|unfold watch in Hw; by rewrite Hc in Hw].
  destruct (watch_known _ _ _ _ Hm Hc) as (rate & t & He & Hw'). rewrite Hw in Hw'.
  assert (Hg : d0 ∉ gone) by (intros Hg; apply (rm_gone _ _ Hm) in Hg; congruence).
  pose proof (rm_count _ _ Hm _ _ Hc) as Hrange. clear Hw.
  injection Hw' as ->. cbn [dw_expected]. unfold check_domain, watch_check.
  pose proof He as He'. unfold entries_of in He. injection He as _ Hrate Ht.
  destruct (timevalcmp t now <=? 0)%Z eqn:Hdue.
  2:{ exists (lower_timeout t now r), gone. destruct (lower_timeout_sent t now r) as (-> & -> & ->).
      rewrite app_nil_r. split_and!; try done; cbn.
      - eapply (receiver_mid_step gone gone r _ d0); [done| |].
        + intros. by rewrite entries_lower_timeout.
        + rewrite entries_lower_timeout, He'. done.
      - intros. by rewrite entries_lower_timeout.
      - rewrite (watch_entries r) by apply entries_lower_timeout.
        unfold watch. by rewrite Hc, Hrate, Ht. }
  rewrite Hc. cbn [mbind option_bind].
  assert (s32 c = c) as -> by (apply s32_id; unfold is_s32; lia).
  assert (s32 (c - 1) = c - 1)%Z as -> by (apply s32_id; unfold is_s32; lia).
  destruct (c <=? 1)%Z eqn:Hle; to_props.
  - rewrite (proj2 (Z.leb_le _ _)) by lia.
    set (r1 := match connectedDomainMap r !! d0 with Some _ => _ | None => r end).
    assert (Hr1 : ∀ d, entries_of r1 d = if decide (d = d0)
      then (receivedCountMap r !! d, broadcastRateMap r !! d, expectedMsgTimeMap r !! d, None)
      else entries_of r d).
    { intros d. subst r1. destruct (connectedDomainMap r !! d0) eqn:Hconn; unfold entries_of; cbn;
        case_decide; subst; rewrite ?lookup_delete_eq, ?lookup_delete_ne, ?Hconn by done; done. }
    eexists _, _. split; [reflexivity|].
    match goal with |- context [receiver_mid _ ?x] => set (r2 := x) end.
    assert (Hr2 : ∀ d, entries_of r2 d = if decide (d = d0)
      then (None, None, expectedMsgTimeMap r !! d, None) else entries_of r d).
    { intros d. specialize (Hr1 d). unfold entries_of, r2 in *. cbn.
      destruct (decide (d = d0)) as [->|]; injection Hr1 as E1 E2 E3 E4;
        rewrite ?lookup_delete_eq, ?lookup_delete_ne by done; congruence. }
    split_and!.
    + eapply (receiver_mid_step gone _ r _ d0); [done| |].
      * intros d Hd. rewrite Hr2, decide_False by done. set_solver.
      * rewrite Hr2, decide_True, Ht by done. set_solver.
    + subst r2 r1. cbn. destruct (connectedDomainMap r !! d0); cbn; by rewrite ?app_nil_r.
    + subst r2 r1. cbn. by destruct (connectedDomainMap r !! d0).
    + subst r2 r1. cbn. by destruct (connectedDomainMap r !! d0).
    + intros d Hd. rewrite Hr2, decide_False by done. set_solver.
    + cbn. set_solver.
  - rewrite (proj2 (Z.leb_gt _ _)), Hrate by lia. cbn [mbind option_bind].
    eexists _, gone. split; [reflexivity|].
    set (nt := addSeconds t rate). set (r1 := (r <| expectedMsgTimeMap ::= _ |>) <| receivedCountMap ::= _ |>).
    assert (Hu : u32 (c - 1) = (c - 1)%Z) by (apply u32_id; unfold is_u32, u32_max; lia).
    assert (Hr1 : ∀ d, entries_of (lower_timeout nt now r1) d = if decide (d = d0)
      then (Some (c - 1), Some rate, Some nt, connectedDomainMap r !! d0)%Z else entries_of r d).
    { intros d. rewrite entries_lower_timeout. unfold entries_of, r1. cbn.
      case_decide; subst; rewrite ?lookup_insert_eq, ?lookup_insert_ne, ?Hu, ?Hrate by done; done. }
    destruct (lower_timeout_sent nt now r1) as (-> & -> & ->). split_and!; try done.
    + eapply (receiver_mid_step gone _ r _ d0); [done| |].
      * intros d Hd. by rewrite Hr1, decide_False by done.
      * rewrite Hr1, decide_True by done. split; [lia|done].
    + by rewrite app_nil_r.
    + intros d Hd. by rewrite Hr1, decide_False by done.
    + cbn. split; [done|]. specialize (Hr1 d0). rewrite decide_True in Hr1 by done.
      unfold entries_of in Hr1. injection Hr1 as E1 E2 E3 E4. unfold watch.
      by rewrite E1, E2, E3, E4.
Qed.

Lemma watch_check_commands d now w c : c ∈ (watch_check d now w).2 → command_domain c = d.
Proof.
  unfold watch_check. destruct w as [count rate t conn].
  destruct (timevalcmp t now <=? 0)%Z, (count <=? 1)%Z; cbn; try set_solver.
  destruct conn; set_solver.
Qed.

Definition checked d now (w : option DomainWatch) : option DomainWatch :=
  w ← w; (watch_check d now w).1.
Definition checked_commands d now (w : option DomainWatch) : list DomainCommand :=
  match w with Some w => (watch_check d now w).2 | None => [] end.

Lemma check_domains_spec now entries r gone :
  receiver_mid gone r → NoDup entries.*1 →
  (∀ d t, (d, t) ∈ entries → d ∉ gone ∧ ∃ w, watch r d = Some w ∧ dw_expected w = t) →
  ∃ r' gone', check_domains now entries (r, gone) = Some (r', gone') ∧
    receiver_mid gone' r' ∧
    (ur_ourDomain r' = ur_ourDomain r ∧ ur_validDomains r' = ur_validDomains r) ∧
    (∀ d, d ∉ entries.*1 → entries_of r' d = entries_of r d ∧ (d ∈ gone' ↔ d ∈ gone)) ∧
    (∀ d, d ∈ entries.*1 → match checked d now (watch r d) with
       | Some w' => d ∉ gone' ∧ watch r' d = Some w' | None => d ∈ gone' end) ∧
    ∃ extra, ur_sent r' = ur_sent r ++ extra ∧
      ∀ d, commands_for d extra =
        if decide (d ∈ entries.*1) then checked_commands d now (watch r d) else [].
Proof.
  revert r gone. induction entries as [|[d0 t0] entries IH]; intros r gone Hm Hnd Hent.
  { exists r, gone. split_and!; try done; [set_solver|]. exists []. by rewrite app_nil_r. }
  apply NoDup_cons in Hnd as [Hn0 Hnd]. change ((d0, t0).1) with d0 in Hn0.
  destruct (Hent d0 t0) as (Hg0 & w0 & Hw0 & <-); [left|].
  destruct (check_domain_spec now d0 w0 r gone Hm Hw0)
    as (r1 & gone1 & Hc1 & Hm1 & Hs1 & Hp1 & Ho1 & Hr1).
  destruct (IH r1 gone1 Hm1 Hnd) as (r2 & gone2 & Hc2 & Hm2 & Hp2 & Ho2 & Hr2 & extra & Hs2 & He2).
  { intros d t Hin. destruct (Hent d t) as (Hg & w & Hw & Ht); [by right|].
    assert (d ≠ d0).
    { intros ->. apply Hn0. apply list_elem_of_fmap. by exists (d0, t). }
    destruct (Ho1 d) as [He Hg1]; [done|]. rewrite Hg1. split; [done|].
    exists w. by rewrite (watch_entries r). }
  exists r2, gone2. cbn [check_domains]. rewrite Hc1. cbn [mbind option_bind].
  split_and!; [done|done|by rewrite (proj1 Hp2), (proj1 Hp1)|by rewrite (proj2 Hp2), (proj2 Hp1)| | |].
  - intros d Hd. rewrite fmap_cons, not_elem_of_cons in Hd. destruct Hd as [Hd0 Hd].
    destruct (Ho2 d Hd) as [-> ->]. by apply Ho1.
  - intros d Hd. rewrite fmap_cons, elem_of_cons in Hd. destruct (decide (d = d0)) as [->|Hne].
    + destruct (Ho2 d0 Hn0) as [He Hg]. rewrite Hw0. cbn [checked mbind option_bind].
      rewrite (watch_entries r1) by done.
      by destruct (watch_check d0 now w0).1; rewrite Hg.
    + destruct Hd as [?|Hd]; [done|]. specialize (Hr2 d Hd).
      destruct (Ho1 d Hne) as [He _]. by rewrite (watch_entries r) in Hr2.
  - exists ((watch_check d0 now w0).2 ++ extra). rewrite Hs2, Hs1, <-app_assoc. split; [done|].
    intros d. unfold commands_for. rewrite filter_app. fold (commands_for d extra). rewrite He2.
    fold (commands_for d (watch_check d0 now w0).2).
    rewrite (commands_for_one d d0) by apply watch_check_commands.
    rewrite fmap_cons. cbn [fst]. destruct (decide (d = d0)) as [->|Hne].
    + rewrite decide_False by done. rewrite decide_True by left. by rewrite Hw0, app_nil_r.
    + destruct (Ho1 d Hne) as [He _]. rewrite (watch_entries r r1) by done. cbn [app].
      destruct (decide (d ∈ entries.*1)).
      * by rewrite decide_True by (by right).
      * by rewrite decide_False by (rewrite elem_of_cons; naive_solver).
Qed.

Lemma foldl_delete_lookup (m : gmap string timeval) ds d :
  foldl (λ m d, delete d m) m ds !! d = if decide (d ∈ ds) then None else m !! d.
Proof.
  revert m. induction ds as [|d0 ds IH]; intros m; cbn [foldl].
  { by rewrite decide_False by set_solver. }
  rewrite IH. destruct (decide (d ∈ ds)); [by rewrite decide_True by (by right)|].
  destruct (decide (d = d0)) as [->|].
  - rewrite decide_True by left. by rewrite lookup_delete_eq.
  - rewrite decide_False by set_solver. by rewrite lookup_delete_ne.
Qed.

Lemma watch_unexpected r d : d ∉ (kv_items (expectedMsgTimeMap r)).*1 → watch r d = None.
Proof.
  intros Hin. unfold watch. destruct (expectedMsgTimeMap r !! d) as [t|] eqn:Ht.
  - exfalso. apply Hin, list_elem_of_fmap. exists (d, t). split; [done|]. by apply elem_of_kv_items.
  - by destruct (receivedCountMap r !! d), (broadcastRateMap r !! d).
Qed.

Lemma check_missed_effect now r :
  receiver_ok r →
  ∃ r', check_missed now r = Some r' ∧ receiver_ok r' ∧
    step_effect r r' (λ d, checked d now (watch r d)) (λ d, checked_commands d now (watch r d)).
Proof.
  intros Hok. unfold check_missed. set (r0 := r <| ur_timeout := zeroTime |>).
  assert (Hok0 : receiver_mid ∅ r0) by (destruct Hok; by split).
  assert (Hw0 : ∀ d, watch r0 d = watch r d) by done.
  destruct (check_domains_spec now (kv_items (expectedMsgTimeMap r0)) r0 ∅)
    as (r1 & gone & Hc & Hm & Hp & Ho & Hr & extra & Hs & He); [done|apply NoDup_kv_items_keys| |].
  { intros d t Hin. apply elem_of_kv_items in Hin. split; [set_solver|].
    destruct (proj1 (rm_expected _ _ Hok0 d)) as [[c Hcount]|]; [eauto| |set_solver].
    destruct (watch_known _ _ _ _ Hok0 Hcount) as (rate & t' & Hen & Hw). rewrite Hw.
    eexists. split; [done|]. unfold entries_of in Hen. injection Hen as _ _ Ht. cbn [dw_expected].
    apply (inj Some). rewrite <-Ht. exact Hin. }
  cbn zeta. rewrite Hc. cbn [mbind option_bind]. eexists. split; [done|].
  set (r2 := r1 <| expectedMsgTimeMap ::= _ |>).
  assert (He2 : ∀ d, expectedMsgTimeMap r2 !! d =
    if decide (d ∈ gone) then None else expectedMsgTimeMap r1 !! d).
  { intros d. unfold r2. cbn. rewrite foldl_delete_lookup.
    repeat case_decide; rewrite ?elem_of_set_items in *; done. }
  assert (Hw2 : ∀ d, watch r2 d = checked d now (watch r d)).
  { intros d. rewrite <-Hw0.
    destruct (decide (d ∈ (kv_items (expectedMsgTimeMap r0)).*1)) as [Hin|Hin].
    - specialize (Hr d Hin). destruct (checked d now (watch r0 d)) as [w|].
      + destruct Hr as [Hg <-]. apply watch_entries. unfold entries_of. rewrite He2.
        by rewrite decide_False by done.
      + unfold watch. change (receivedCountMap r2) with (receivedCountMap r1).
        by rewrite (rm_gone _ _ Hm d Hr).
    - destruct (Ho d Hin) as [Hen Hg]. rewrite (watch_entries r0), (watch_unexpected r0); [done..|].
      rewrite <-Hen. unfold entries_of. rewrite He2, decide_False; [done|].
      rewrite Hg. set_solver. }
  split.
  - split; intros d; change (receivedCountMap r2) with (receivedCountMap r1).
    + apply Hm.
    + rewrite He2. pose proof (rm_expected _ _ Hm d) as Hx. pose proof (rm_gone _ _ Hm d) as Hy.
      destruct (decide (d ∈ gone)) as [Hg|Hg].
      * rewrite Hy by done. split; [by intros [? ?]|]. intros [[? ?]|?]; [done|set_solver].
      * rewrite Hx. set_solver.
    + apply Hm.
    + set_solver.
    + apply Hm.
  - split; [done| |done]. exists extra. split; [done|]. intros d. rewrite He, <-Hw0.
    case_decide as Hin; [done|]. by rewrite watch_unexpected.
Qed.

(** ** The whole step *)

Section receiver.
Context `{Protobuf ServiceDirectoryBroadcastPB}.

Definition received (bytes : string) : ServiceDirectoryBroadcastPB :=
  fst (parse (str_take MAXRECVSTRING bytes)).

(** What a step does to one domain. *)
Definition domain_step r (e : RecvResult) (now : timeval) d : option DomainWatch * list DomainCommand :=
  let check w := (checked d now w, checked_commands d now w) in
  match e with
  | EmptyDatagram | SocketError => (watch r d, [])
  | TimedOut => check (watch r d)
  | Datagram bytes =>
      let pb := received bytes in
      if decide (d = bc_domain pb ∧ broadcast_accepted pb r = true) then
        let '(w, cmds) := watch_message pb now (watch r d) in
        ((check (Some w)).1, cmds ++ (check (Some w)).2)
      else check (watch r d)
  end.

Lemma receiver_step_effect e now r :
  receiver_ok r →
  ∃ r' go, receiver_step e now r = Some (r', go) ∧ receiver_ok r' ∧
    step_effect r r' (λ d, (domain_step r e now d).1) (λ d, (domain_step r e now d).2).
Proof.
  intros Hok. destruct e as [bytes| | |]; cbn [receiver_step].
  - fold (received bytes). set (pb := received bytes).
    destruct (receive_broadcast_effect pb now r Hok) as [Hok1 [Hw1 (x1 & Hs1 & He1) Hp1]].
    destruct (check_missed_effect now _ Hok1) as (r2 & Hc & Hok2 & [Hw2 (x2 & Hs2 & He2) Hp2]).
    exists r2, true. rewrite Hc. split_and!; [done|done|]. split.
    + intros d. rewrite Hw2, Hw1. cbn [domain_step]. fold pb. goal_decide; [|done].
      by destruct (watch_message pb now (watch r d)).
    + exists (x1 ++ x2). rewrite Hs2, Hs1, app_assoc. split; [done|]. intros d.
      unfold commands_for. rewrite filter_app. fold (commands_for d x1) (commands_for d x2).
      rewrite He1, He2, Hw1. cbn [domain_step]. fold pb. goal_decide; [|done].
      by destruct (watch_message pb now (watch r d)).
    + by rewrite (proj1 Hp2), (proj2 Hp2).
  - exists r, true. split_and!; [done|done|]. split; [done| |done]. exists []. by rewrite app_nil_r.
  - destruct (check_missed_effect now r Hok) as (r2 & Hc & Hok2 & Heff). exists r2, true.
    by rewrite Hc.
  - exists r, false. split_and!; [done|done|]. split; [done| |done]. exists []. by rewrite app_nil_r.
Qed.

(** The receivers that can arise: configured, then any results of [recvfrom]. *)
Inductive receiver_reachable : UDPReceiver → Prop :=
| receiver_start domain url port valid :
    receiver_reachable (mkUDPReceiver domain url port valid ∅ ∅ ∅ ∅ zeroTime [])
| receiver_next r e now r' go :
    receiver_reachable r → receiver_step e now r = Some (r', go) → receiver_reachable r'.

Lemma receiver_reachable_ok r : receiver_reachable r → receiver_ok r.
Proof.
  induction 1 as [|r e now r' go Hr IH Hstep].
  - split; intros d; cbn; rewrite ?lookup_empty; try done.
    split; [by intros []|]. intros [[? ?]|?]; [done|set_solver].
  - destruct (receiver_step_effect e now r IH) as (r1 & go1 & Hs & Hok & _). congruence.
Qed.

(** ** The directory's list of domains *)

Definition live (l : list DomainCommand) : Prop :=
  match last l with Some (CmdAdd _ _) | Some (CmdUpdate _ _) => True | _ => False end.

Lemma watch_connected r d :
  receiver_ok r → connectedDomainMap r !! d = (w ← watch r d; dw_connected w).
Proof.
  intros Hok. destruct (receivedCountMap r !! d) as [c|] eqn:Hc.
  - by destruct (watch_known _ _ _ _ Hok Hc) as (? & ? & _ & ->).
  - destruct (watch_unknown _ _ _ Hok Hc) as [He ->]; [set_solver|].
    unfold entries_of in He. by injection He.
Qed.

Lemma live_app l1 l2 : live (l1 ++ l2) ↔ if decide (l2 = []) then live l1 else live l2.
Proof.
  unfold live. rewrite last_app. case_decide as Hl; [by subst|].
  destruct (last l2) eqn:E; [done|]. by apply last_None in E.
Qed.

Lemma watch_message_live pb now w :
  let '(w', cmds) := watch_message pb now w in
  if decide (cmds = []) then is_Some (dw_connected w') ↔ is_Some (w ← w; dw_connected w)
  else live cmds ∧ is_Some (dw_connected w').
Proof.
  unfold watch_message. destruct w as [[c rate t conn]|]; cbn; [|done].
  destruct (c <? 2)%Z; cbn; [done|].
  destruct conn as [s|]; [destruct (decide (s = bc_starttime pb))|]; cbn;
    (split; intros; first [done|by eexists|by unfold live]).
Qed.

Lemma checked_live d now w :
  if decide (checked_commands d now w = [])
  then is_Some (w' ← checked d now w; dw_connected w') ↔ is_Some (w ← w; dw_connected w)
  else ¬ live (checked_commands d now w) ∧ (w' ← checked d now w; dw_connected w') = None.
Proof.
  destruct w as [[c rate t conn]|]; cbn; [|done]. unfold watch_check.
  destruct (timevalcmp t now <=? 0)%Z, (c <=? 1)%Z; cbn; try done. destruct conn; cbn; [|done].
  split; [by intros []|done].
Qed.

Lemma connected_live r d :
  receiver_reachable r → is_Some (connectedDomainMap r !! d) ↔ live (commands_for d (ur_sent r)).
Proof.
  induction 1 as [|r e now r' go Hr IH Hstep].
  { cbn. rewrite lookup_empty. split; [by intros []|done]. }
  pose proof (receiver_reachable_ok _ Hr) as Hok.
  destruct (receiver_step_effect e now r Hok) as (r1 & go1 & Hs & Hok1 & [Hw (x & Hx & Hc) _]).
  assert (r1 = r') as <- by congruence.
  rewrite watch_connected, Hw, Hx by done. unfold commands_for. rewrite filter_app.
  fold (commands_for d (ur_sent r)) (commands_for d x). rewrite live_app, Hc.
  rewrite (watch_connected r) in IH by done.
  generalize dependent (live (commands_for d (ur_sent r))). intros before Hbefore.
  clear Hx Hc Hw Hs Hstep Hok1.
  assert (Hcheck : ∀ w, is_Some (w' ← checked d now w; dw_connected w') ↔
    if decide (checked_commands d now w = []) then is_Some (w ← w; dw_connected w)
    else live (checked_commands d now w)).
  { intros w. pose proof (checked_live d now w) as Hcl. case_decide; [done|].
    destruct Hcl as [? ->]. split; [by intros []|done]. }
  destruct e as [bytes| | |]; cbn [domain_step].
  2: { by rewrite decide_True by done. }
  3: { by rewrite decide_True by done. }
  2: { cbn [fst snd]. rewrite Hcheck. by goal_decide. }
  destruct (decide (d = bc_domain (received bytes) ∧ broadcast_accepted (received bytes) r = true)).
  2: { cbn [fst snd]. rewrite Hcheck. by goal_decide. }
  pose proof (watch_message_live (received bytes) now (watch r d)) as Hm.
  destruct (watch_message (received bytes) now (watch r d)) as [w cmds]. cbn [fst snd].
  rewrite Hcheck. destruct (decide (cmds = [])) as [->|Hne]; [cbn [app]|].
  - goal_decide; [|done]. by rewrite <-Hbefore.
  - rewrite (decide_False (P := cmds ++ _ = [])) by (by destruct cmds).
    rewrite live_app. goal_decide; [|done]. destruct Hm. split; done.
Qed.
End receiver.

(** The directory after the commands of the receiver, in the order they were sent. *)
Definition run_commands (cmds : list DomainCommand) (st : ServiceDirectory) : ServiceDirectory :=
  foldl (λ st c, match process_domain_command (command_frames c) st with
                 | Some (st, _) => st | None => st end) st cmds.

Lemma process_command c st : ∃ st',
  process_domain_command (command_frames c) st = Some (st', []) ∧
  sd_domainMap st' = match c with
    | CmdAdd d url | CmdUpdate d url => <[d := url]> (sd_domainMap st)
    | CmdRemove d => delete d (sd_domainMap st)
    end.
Proof. destruct c; eexists; split; reflexivity. Qed.

Lemma run_commands_domains cmds st d :
  sd_domainMap st = ∅ →
  is_Some (sd_domainMap (run_commands cmds st) !! d) ↔ live (commands_for d cmds).
Proof.
  intros He. induction cmds as [|c cmds IH] using rev_ind.
  { cbn. rewrite He, lookup_empty. split; [by intros []|done]. }
  unfold run_commands. rewrite foldl_snoc. fold (run_commands cmds st).
  set (st1 := run_commands cmds st) in *. unfold commands_for. rewrite filter_app, filter_cons.
  change (filter _ []) with (@nil DomainCommand).
  fold (commands_for d cmds). rewrite live_app.
  destruct (process_command c st1) as (st2 & -> & ->).
  destruct (decide (command_domain c = d)) as [<-|Hne].
  - rewrite decide_False by done. destruct c as [d url|d url|d]; cbn [command_domain];
      rewrite ?lookup_insert_eq, ?lookup_delete_eq; split; intros Hl;
      first [exact I|by destruct Hl|exact (mk_is_Some _ _ eq_refl)].
  - rewrite decide_True, <-IH by done. destruct c as [d0 url|d0 url|d0]; cbn in Hne;
      by rewrite ?lookup_insert_ne, ?lookup_delete_ne.
Qed.

(** ** The parameters of the threads *)

Lemma str_take_ge n s : (String.length s <= n)%nat → str_take n s = s.
Proof. apply substring_full. Qed.

Lemma valid_domains_loop_spec s n start :
  (Z.of_nat (String.length s) < 2147483647)%Z → (start <= String.length s)%nat →
  (n <= length (split_commas (str_drop start s)))%nat →
  valid_domains_loop s n (Z.of_nat start) (find_comma s (Z.of_nat start)) =
    Some (take n (split_commas (str_drop start s))).
Proof.
  intros Hlen. revert start. induction n as [|n IH]; intros start Hs Hn; [done|].
  cbn [valid_domains_loop].
  rewrite (proj2 (Z.ltb_ge _ _)), (proj2 (Z.ltb_ge _ _)) by lia. cbn [orb].
  assert (Hc : find_comma s (Z.of_nat start) = match String.index 0 "," (str_drop start s) with
    | Some i => u32 (Z.of_nat (start + i)) | None => (u32_max - 1)%Z end).
  { unfold find_comma. rewrite (proj2 (Z.ltb_ge _ _)), Nat2Z.id, index_shift by lia.
    by destruct (String.index 0 "," (str_drop start s)). }
  rewrite Hc. clear Hc. pose proof (split_commas_index (str_drop start s)) as Hsplit.
  destruct (String.index 0 "," (str_drop start s)) as [i|].
  - destruct Hsplit as [Hsplit Hlt]. rewrite length_str_drop in Hlt. rewrite Hsplit in Hn |- *.
    rewrite (u32_id (Z.of_nat (start + i))) by (unfold is_u32, u32_max; lia).
    replace (Z.of_nat (start + i) - Z.of_nat start)%Z with (Z.of_nat i) by lia.
    rewrite (u32_id (Z.of_nat i)) by (unfold is_u32, u32_max; lia).
    rewrite Z.min_l, !Nat2Z.id, substring_drop by lia.
    replace (s32 (u32 (Z.of_nat (start + i) + 1))) with (Z.of_nat (start + i + 1)).
    2:{ rewrite u32_id by (unfold is_u32, u32_max; lia).
        rewrite s32_id by (unfold is_s32; lia). lia. }
    rewrite IH; [| lia |].
    + cbn [mbind option_bind take]. by rewrite <-Nat.add_assoc, str_drop_add.
    + rewrite <-Nat.add_assoc, str_drop_add. cbn [length] in Hn. lia.
  - rewrite Hsplit in Hn |- *. cbn [length] in Hn. assert (n = 0)%nat as -> by lia.
    cbn [valid_domains_loop mbind option_bind take].
    rewrite substring_drop, (Nat2Z.id start), str_take_ge; [done|].
    rewrite length_str_drop. unfold u32_max, u32. rewrite Z.mod_small by (unfold u32_max; lia).
    unfold u32_max. lia.
Qed.

Lemma parseValidDomains_spec s :
  (Z.of_nat (String.length s) < 2147483647)%Z →
  parseValidDomains s (Z.of_nat (length (split_commas s))) = Some (split_commas s).
Proof.
  intros Hlen. unfold parseValidDomains. rewrite Nat2Z.id.
  pose proof (valid_domains_loop_spec s (length (split_commas s)) 0 Hlen) as H.
  cbn [str_drop] in H. change (Z.of_nat 0) with 0%Z in H. rewrite H by lia.
  by rewrite firstn_all.
Qed.

Lemma length_split_commas s : (length (split_commas s) <= S (String.length s))%nat.
Proof.
  induction s as [|c s IH]; cbn; [lia|]. case_decide; cbn; [lia|].
  destruct (split_commas s); cbn in *; lia.
Qed.

(** The number of domains sent to the receiver. *)
Lemma csv_count csv n :
  parseDomainCSV csv = Some n → (0 < n)%Z → n = Z.of_nat (length (split_commas csv)).
Proof.
  unfold parseDomainCSV. goal_decide; [intros [= <-]; lia|].
  rewrite csv_loop_spec by lia. cbn zeta. cbn [str_drop].
  destruct (decide (Forall _ (removelast (split_commas csv)))); intros [= <-]; lia.
Qed.

Lemma c_string_id s : char_in Ascii.zero s = false → c_string s = s.
Proof.
  induction s as [|c s IH]; cbn; [done|]. intros H. apply orb_false_iff in H as [Hc Hs].
  rewrite decide_False, IH; [done|done|]. intros ->. by rewrite bool_decide_true in Hc.
Qed.

(** * Properties *)

Section properties.
Context `{Protobuf ServiceDirectoryBroadcastPB}.

(** Whatever [recvfrom] returns, an iteration of the receiver's loop never looks up a missing
    map entry, and does to each domain exactly what the state machine of a single domain
    does, commands included: domains do not influence one another. *)
Theorem receiver_step_independent r e now :
  receiver_reachable r →
  ∃ r' go extra, receiver_step e now r = Some (r', go) ∧
    ur_sent r' = ur_sent r ++ extra ∧
    ∀ d, watch r' d = (domain_step r e now d).1 ∧
      commands_for d extra = (domain_step r e now d).2.
Proof.
  intros Hr. destruct (receiver_step_effect e now r (receiver_reachable_ok r Hr))
    as (r' & go & Hs & _ & [Hw (extra & Hx & Hc) _]).
  exists r', go, extra. by split_and!.
Qed.

(** C12. After it has processed the receiver's commands in the order they were sent, the directory
    lists exactly the domains the receiver is connected to. *)
Theorem directory_lists_connected_domains r domain d :
  receiver_reachable r →
  is_Some (sd_domainMap (run_commands (ur_sent r) (initial_ServiceDirectory domain)) !! d) ↔
  is_Some (connectedDomainMap r !! d).
Proof.
  intros Hr. rewrite run_commands_domains by done. symmetry. by apply connected_live.
Qed.

Lemma timevalcmp_addTime t k : (0 < k)%Z → (timevalcmp (addTime t k) t <=? 0)%Z = false.
Proof.
  intros Hk. unfold timevalcmp, addTime. cbn.
  rewrite (proj2 (Z.eqb_neq _ _)), (proj2 (Z.ltb_ge _ _)) by lia. done.
Qed.

Lemma watch_check_fresh d now c rate k conn :
  (0 < s32 k)%Z →
  watch_check d now (mkDomainWatch c rate (addSeconds now k) conn) =
    (Some (mkDomainWatch c rate (addSeconds now k) conn), []).
Proof. intros Hk. unfold watch_check, addSeconds. by rewrite timevalcmp_addTime. Qed.

(** A broadcast that announces a positive rate is not missed at once. *)
Lemma datagram_watch r bytes now r' go :
  receiver_ok r → (0 < s32 (bc_rate (received bytes)))%Z →
  broadcast_accepted (received bytes) r = true →
  receiver_step (Datagram bytes) now r = Some (r', go) →
  receiver_ok r' ∧ (∀ d, isValidDomain d r' = isValidDomain d r) ∧ ur_ourDomain r' = ur_ourDomain r ∧
  watch r' (bc_domain (received bytes)) =
    Some (watch_message (received bytes) now (watch r (bc_domain (received bytes)))).1 ∧
  ∃ extra, ur_sent r' = ur_sent r ++ extra ∧
    commands_for (bc_domain (received bytes)) extra =
      (watch_message (received bytes) now (watch r (bc_domain (received bytes)))).2.
Proof.
  intros Hok Hrate Hacc Hstep.
  destruct (receiver_step_effect (Datagram bytes) now r Hok)
    as (r1 & go1 & Hs & Hok1 & [Hw (extra & Hx & Hc) [Hp1 Hp2]]).
  assert (r1 = r') as <- by congruence.
  split_and!; [done|by intros d; unfold isValidDomain; rewrite Hp2|done| |].
  - rewrite Hw. cbn [domain_step]. rewrite decide_True by done.
    destruct (watch_message _ _ _) as [w cmds] eqn:Hm. cbn [fst checked mbind option_bind].
    unfold watch_message in Hm.
    destruct (watch r _) as [[c rate t conn]|]; [destruct (c <? 2)%Z|]; injection Hm as <- <-;
      by rewrite watch_check_fresh.
  - exists extra. split; [done|]. rewrite Hc. cbn [domain_step]. rewrite decide_True by done.
    destruct (watch_message _ _ _) as [w cmds] eqn:Hm. cbn [snd checked_commands].
    assert (Hw2 : (watch_check (bc_domain (received bytes)) now w).2 = []); [|by rewrite Hw2, app_nil_r].
    unfold watch_message in Hm.
    destruct (watch r _) as [[c rate t conn]|]; [destruct (c <? 2)%Z|]; injection Hm as <- <-;
      by rewrite watch_check_fresh.
Qed.

(** A domain that is to be synchronised is connected on its third broadcast: if it was not
    known, then after three datagrams that announce it with a positive rate it is in the map
    of connected domains and the directory was told to add it, with the url announced last. *)
Theorem third_broadcast_connects r d b1 b2 b3 t1 t2 t3 r1 r2 r3 g1 g2 g3 :
  receiver_reachable r →
  watch r d = None → ur_ourDomain r ≠ d → isValidDomain d r = true →
  Forall (λ b, bc_domain (received b) = d ∧ 0 < s32 (bc_rate (received b)))%Z [b1; b2; b3] →
  receiver_step (Datagram b1) t1 r = Some (r1, g1) →
  receiver_step (Datagram b2) t2 r1 = Some (r2, g2) →
  receiver_step (Datagram b3) t3 r2 = Some (r3, g3) →
  connectedDomainMap r3 !! d = Some (bc_starttime (received b3)) ∧
  CmdAdd d (bc_url (received b3)) ∈ ur_sent r3.
Proof.
  intros Hr Hw Hour Hvalid Hb S1 S2 S3.
  apply Forall_cons in Hb as [[D1 R1] Hb]. apply Forall_cons in Hb as [[D2 R2] Hb].
  apply Forall_cons in Hb as [[D3 R3] _].
  assert (Hacc : ∀ b r', bc_domain (received b) = d → isValidDomain d r' = true →
    ur_ourDomain r' ≠ d → broadcast_accepted (received b) r' = true).
  { intros b r' Hd Hv Ho. unfold broadcast_accepted. rewrite Hd, Hv. by rewrite bool_decide_true. }
  pose proof (receiver_reachable_ok r Hr) as Hok.
  destruct (datagram_watch r b1 t1 r1 g1 Hok R1 (Hacc _ _ D1 Hvalid Hour) S1)
    as (Hok1 & Hv1 & Ho1 & Hw1 & _).
  rewrite D1, Hw in Hw1. cbn [watch_message fst] in Hw1.
  destruct (datagram_watch r1 b2 t2 r2 g2 Hok1 R2) as (Hok2 & Hv2 & Ho2 & Hw2 & _); [|done|].
  { apply Hacc; [done|by rewrite Hv1|by rewrite Ho1]. }
  rewrite D2, Hw1 in Hw2. cbn in Hw2.
  destruct (datagram_watch r2 b3 t3 r3 g3 Hok2 R3) as (Hok3 & _ & _ & Hw3 & extra & Hx & Hc); [|done|].
  { apply Hacc; [done|by rewrite Hv2, Hv1|by rewrite Ho2, Ho1]. }
  rewrite D3, Hw2 in Hw3, Hc. cbn in Hw3, Hc. split.
  - by rewrite watch_connected, Hw3.
  - rewrite Hx. apply elem_of_app. right.
    assert (Hin : CmdAdd (bc_domain (received b3)) (bc_url (received b3)) ∈ commands_for d extra)
      by (rewrite Hc; left).
    apply list_elem_of_filter in Hin as [_ Hin]. by rewrite D3 in Hin.
Qed.

Lemma timed_out_watch r now r' go d :
  receiver_ok r → receiver_step TimedOut now r = Some (r', go) →
  receiver_ok r' ∧ watch r' d = checked d now (watch r d).
Proof.
  intros Hok Hs. destruct (receiver_step_effect TimedOut now r Hok)
    as (r1 & go1 & Hs1 & Hok1 & [Hw _ _]).
  assert (r1 = r') as <- by congruence. split; [done|]. by rewrite Hw.
Qed.

(** A domain that falls silent is dropped after at most three missed broadcasts: three
    timeouts, each no earlier than the time the next broadcast was due, leave no trace of
    it, and no connection. *)
Theorem silence_disconnects r d w t1 t2 t3 r1 r2 r3 g1 g2 g3 :
  receiver_reachable r → watch r d = Some w →
  (timevalcmp (dw_expected w) t1 <= 0)%Z →
  (timevalcmp (addSeconds (dw_expected w) (dw_rate w)) t2 <= 0)%Z →
  (timevalcmp (addSeconds (addSeconds (dw_expected w) (dw_rate w)) (dw_rate w)) t3 <= 0)%Z →
  receiver_step TimedOut t1 r = Some (r1, g1) →
  receiver_step TimedOut t2 r1 = Some (r2, g2) →
  receiver_step TimedOut t3 r2 = Some (r3, g3) →
  watch r3 d = None ∧ connectedDomainMap r3 !! d = None.
Proof.
  intros Hr Hw H1 H2 H3 S1 S2 S3. pose proof (receiver_reachable_ok r Hr) as Hok.
  destruct (timed_out_watch r t1 r1 g1 d Hok S1) as [Hok1 Hw1].
  destruct (timed_out_watch r1 t2 r2 g2 d Hok1 S2) as [Hok2 Hw2].
  destruct (timed_out_watch r2 t3 r3 g3 d Hok2 S3) as [Hok3 Hw3].
  assert (Hgone : watch r3 d = None); [|by rewrite watch_connected, Hgone].
  destruct w as [c rate t conn]. cbn [dw_expected dw_rate] in *.
  assert (Hrange : (1 <= c <= 3)%Z).
  { unfold watch in Hw. destruct (receivedCountMap r !! d) as [c'|] eqn:Hc; [|done].
    apply (rm_count _ _ Hok) in Hc. cbn in Hw. destruct (broadcastRateMap r !! d); [|done]. cbn in Hw.
    destruct (expectedMsgTimeMap r !! d); [|done]. cbn in Hw. by injection Hw as <- _ _ _. }
  rewrite Hw3, Hw2, Hw1, Hw. cbn [checked mbind option_bind watch_check].
  rewrite (proj2 (Z.leb_le _ _) H1). destruct (c <=? 1)%Z eqn:C1; [done|]. to_props.
  cbn [fst checked mbind option_bind watch_check]. rewrite (proj2 (Z.leb_le _ _) H2).
  destruct (c - 1 <=? 1)%Z eqn:C2; [done|]. to_props.
  cbn [fst checked mbind option_bind watch_check]. rewrite (proj2 (Z.leb_le _ _) H3).
  by rewrite (proj2 (Z.leb_le _ _)) by lia.
Qed.
End properties.

(** ** A run for the witnesses: the datagram is the domain's name, with rate 2 *)

Definition demo_broadcast_codec : Protobuf ServiceDirectoryBroadcastPB := {|
  serialize pb := bc_domain pb;
  parse s := (mkServiceDirectoryBroadcastPB (Some "") s ("tcp://" +:+ s) 2 77, true);
  type_name := "ServiceDirectoryBroadcastPB";
|}.

Definition demo_receiver : UDPReceiver :=
  mkUDPReceiver "Dom" "tcp://sd" 8276 ["Other"] ∅ ∅ ∅ ∅ zeroTime [].

Definition demo_receive (e : RecvResult) (sec : Z) (r : UDPReceiver) : UDPReceiver :=
  match @receiver_step demo_broadcast_codec e (mkTimeval sec 0) r with
  | Some (r, _) => r | None => r
  end.

Definition demo_connected : UDPReceiver :=
  demo_receive (Datagram "Other") 14 (demo_receive (Datagram "Other") 12
    (demo_receive (Datagram "Other") 10 demo_receiver)).

Lemma demo_receiver_reachable : @receiver_reachable demo_broadcast_codec demo_receiver.
Proof. constructor. Qed.

Lemma demo_receive_reachable e sec r :
  @receiver_reachable demo_broadcast_codec r →
  @receiver_reachable demo_broadcast_codec (demo_receive e sec r).
Proof.
  intros Hr. unfold demo_receive.
  destruct (@receiver_step demo_broadcast_codec e (mkTimeval sec 0) r) as [[r' go]|] eqn:Hs;
    [|done].
  by apply (@receiver_next demo_broadcast_codec r e (mkTimeval sec 0) r' go).
Qed.

Lemma demo_connected_reachable : @receiver_reachable demo_broadcast_codec demo_connected.
Proof. repeat apply demo_receive_reachable. apply demo_receiver_reachable. Qed.

Example receiver_step_independent_witness :
  ∃ r' go extra, @receiver_step demo_broadcast_codec (Datagram "Other") (mkTimeval 10 0)
    demo_receiver = Some (r', go) ∧ commands_for "Other" extra = [].
Proof.
  destruct (@receiver_step_independent demo_broadcast_codec demo_receiver (Datagram "Other")
    (mkTimeval 10 0) demo_receiver_reachable) as (r' & go & extra & Hs & _ & Hd).
  exists r', go, extra. split; [exact Hs|].
  destruct (Hd "Other") as [_ Hc]. rewrite Hc. vm_compute. reflexivity.
Defined.

Example directory_lists_connected_domains_witness :
  is_Some (sd_domainMap (run_commands (ur_sent demo_connected)
    (initial_ServiceDirectory "Dom")) !! "Other").
Proof.
  apply (@directory_lists_connected_domains demo_broadcast_codec demo_connected "Dom" "Other"
    demo_connected_reachable).
  exists 77%Z. vm_compute. reflexivity.
Defined.

Example third_broadcast_connects_witness :
  CmdAdd "Other" "tcp://Other" ∈ ur_sent demo_connected.
Proof.
  refine (proj2 (@third_broadcast_connects demo_broadcast_codec demo_receiver "Other"
    "Other" "Other" "Other" (mkTimeval 10 0) (mkTimeval 12 0) (mkTimeval 14 0)
    (demo_receive (Datagram "Other") 10 demo_receiver)
    (demo_receive (Datagram "Other") 12 (demo_receive (Datagram "Other") 10 demo_receiver))
    demo_connected true true true demo_receiver_reachable _ _ _ _ _ _ _)).
  - reflexivity.
  - discriminate.
  - reflexivity.
  - repeat (constructor; [split; vm_compute; reflexivity|]). constructor.
  - vm_compute. reflexivity.
  - vm_compute. reflexivity.
  - vm_compute. reflexivity.
Defined.

Example silence_disconnects_witness :
  connectedDomainMap (demo_receive TimedOut 20 (demo_receive TimedOut 18
    (demo_receive TimedOut 16 demo_connected))) !! "Other" = None.
Proof.
  refine (proj2 (@silence_disconnects demo_broadcast_codec demo_connected "Other"
    (mkDomainWatch 3 2 (mkTimeval 16 0) (Some 77%Z))
    (mkTimeval 16 0) (mkTimeval 18 0) (mkTimeval 20 0)
    (demo_receive TimedOut 16 demo_connected)
    (demo_receive TimedOut 18 (demo_receive TimedOut 16 demo_connected)) _
    true true true demo_connected_reachable _ _ _ _ _ _ _)).
  - vm_compute. reflexivity.
  - vm_compute. discriminate.
  - vm_compute. discriminate.
  - vm_compute. discriminate.
  - vm_compute. reflexivity.
  - vm_compute. reflexivity.
  - vm_compute. reflexivity.
Defined.

(** ** Configuration and timeouts *)

(** The receiver gets the parameters the directory sends it: after the directory has counted
    the domains of the list and sent its parameters, the receiver's own domain, url and port
    are the directory's, and its valid domains are the pieces of the list between commas. *)
Theorem receiver_parameters_roundtrip sdDomain url port csv n r :
  (Z.of_nat (String.length csv) < 2147483647)%Z → char_in Ascii.zero csv = false →
  is_u32 port → parseDomainCSV csv = Some n → (0 < n)%Z →
  match sendReceiverParameters sdDomain url port n csv with
  | command :: frames =>
      command = "receive" ∧
      receiveReceiverParameters r frames = Some (Some (r <| ur_ourDomain := sdDomain |>
        <| ur_ourUrl := url |> <| ur_port := port |>
        <| ur_validDomains ::= λ l, l ++ split_commas csv |>), [])
  | [] => False
  end.
Proof.
  intros Hlen Hnul Hport Hn Hpos. apply csv_count in Hn as ->; [|done].
  cbn [sendReceiverParameters]. split; [done|].
  unfold receiveReceiverParameters, read_bind, sendStringMessage. cbn [readStringMessage].
  rewrite !read_uint32_sent, (u32_id port) by done. cbn [readStringMessage].
  rewrite u32_id, c_string_id by (done || (unfold is_u32, u32_max;
    pose proof (length_split_commas csv); lia)).
  by rewrite parseValidDomains_spec by done.
Qed.

Example receiver_parameters_roundtrip_witness :
  ∃ r, receiveReceiverParameters initial_UDPReceiver
    (tail (sendReceiverParameters "Dom" "tcp://sd" 8276 2 "A,B")) = Some (Some r, []) ∧
    ur_validDomains r = ["A"; "B"].
Proof.
  eexists. split.
  - refine (proj2 (receiver_parameters_roundtrip "Dom" "tcp://sd" 8276 "A,B" 2
      initial_UDPReceiver _ _ _ _ _)); vm_compute; try reflexivity. split; [discriminate|reflexivity].
  - reflexivity.
Defined.

(** A check that comes late can leave the receiver waiting forever: when the only domain is
    overdue by at least another period, the domain is kept, but the receive timeout is set
    to zero, which [SO_RCVTIMEO] takes for no timeout. *)
Theorem late_check_blocks r d w now :
  receiver_ok r → kv_items (expectedMsgTimeMap r) = [(d, dw_expected w)] → watch r d = Some w →
  (2 <= dw_count w)%Z →
  (timevalcmp (dw_expected w) now <= 0)%Z →
  (timevalcmp (addSeconds (dw_expected w) (dw_rate w)) now <= 0)%Z →
  ∃ r', check_missed now r = Some r' ∧ is_Some (watch r' d) ∧ ur_timeout r' = zeroTime.
Proof.
  intros Hok Hmap Hw Hcount Hdue Hlate.
  destruct (check_missed_effect now r Hok) as (r' & Hc & _ & [Hw' _ _]).
  exists r'. split; [done|]. split.
  { rewrite Hw', Hw. destruct w as [c rate t conn]. cbn in *.
    rewrite (proj2 (Z.leb_le _ _) Hdue), (proj2 (Z.leb_gt _ _)) by lia. by eexists. }
  clear Hw'. unfold check_missed in Hc. cbn zeta in Hc.
  set (r0 := r <| ur_timeout := zeroTime |>) in *.
  assert (Hitems : kv_items (expectedMsgTimeMap r0) = [(d, dw_expected w)]) by exact Hmap.
  rewrite Hitems in Hc. cbn [check_domains check_domain] in Hc.
  rewrite (proj2 (Z.leb_le _ _) Hdue) in Hc.
  assert (Hr0 : receiver_mid ∅ r0) by (destruct Hok; by split).
  destruct (receivedCountMap r0 !! d) as [c|] eqn:Hcnt;
    [|unfold watch in Hw; change (receivedCountMap r0) with (receivedCountMap r) in Hcnt;
      by rewrite Hcnt in Hw].
  destruct (watch_known _ _ _ _ Hr0 Hcnt) as (rate & t & He & Hw0).
  pose proof (rm_count _ _ Hr0 _ _ Hcnt) as Hrange.
  change (watch r0 d) with (watch r d) in Hw0. rewrite Hw in Hw0. injection Hw0 as ->.
  cbn [dw_count dw_rate dw_expected] in *. unfold entries_of in He. injection He as _ Hrate _.
  assert (Hrate0 : broadcastRateMap r0 !! d = Some rate) by exact Hrate.
  cbn [mbind option_bind] in Hc.
  assert (s32 c = c) as Hs1 by (apply s32_id; unfold is_s32; lia).
  assert (s32 (c - 1) = c - 1)%Z as Hs2 by (apply s32_id; unfold is_s32; lia).
  rewrite Hs1, Hs2, (proj2 (Z.leb_gt _ _)), Hrate0 in Hc by lia.
  cbn [mbind option_bind] in Hc. injection Hc as <-.
  unfold lower_timeout. cbn [ur_timeout update].
  assert (Hz : subtractTime (addSeconds t rate) now = zeroTime).
  { unfold subtractTime. by rewrite (proj2 (Z.leb_le _ _) Hlate). }
  rewrite Hz. by case_match.
Qed.

Example late_check_blocks_witness :
  ∃ r', check_missed (mkTimeval 19 0) demo_connected = Some r' ∧ ur_timeout r' = zeroTime.
Proof.
  destruct (late_check_blocks demo_connected "Other"
    (mkDomainWatch 3 2 (mkTimeval 16 0) (Some 77%Z)) (mkTimeval 19 0)) as (r' & Hc & _ & Ht).
  - exact (@receiver_reachable_ok demo_broadcast_codec _ demo_connected_reachable).
  - vm_compute. reflexivity.
  - vm_compute. reflexivity.
  - vm_compute. discriminate.
  - vm_compute. discriminate.
  - vm_compute. discriminate.
  - exists r'. split; [exact Hc|exact Ht].
Defined.

(** From configuration to reception: a broadcaster that gets the directory's parameters sends, at
    once, a datagram that a receiver decodes to the directory's domain, url, broadcast rate
    and start time, provided it fits the receiver's buffer of 255 bytes. *)
Theorem broadcast_roundtrip `{ProtobufLaw ServiceDirectoryBroadcastPB} b sdDomain url ip port rate :
  is_u32 port → is_u32 rate →
  let pb := mkServiceDirectoryBroadcastPB (Some "") sdDomain url rate (ub_starttime b) in
  String.length (serialize pb) <= MAXRECVSTRING →
  ∃ b' address bytes,
    broadcaster_step (sendBroadcasterParameters sdDomain url ip port rate) true b = Some (b', true) ∧
    ub_sent b' = ub_sent b ++ [(address, bytes)] ∧
    (ip ≠ "" → address = ip) ∧
    received bytes = pb.
Proof.
  intros Hport Hrate pb Hlen.
  set (b1 := b <| ub_domainName := sdDomain |> <| ub_url := url |> <| ub_broadcastIP := ip |>
    <| ub_port := port |> <| ub_broadcastRate := rate |>).
  set (b2 := b1 <| ub_broadcastString := serialize pb |> <| ub_broadcast := true |>).
  exists (b2 <| ub_sent ::= λ l, l ++ [(broadcast_address b2, ub_broadcastString b2)] |>),
    (broadcast_address b2), (serialize pb).
  split_and!.
  - unfold broadcaster_step, sendBroadcasterParameters. cbn [readStringMessage].
    rewrite decide_True by done. unfold receiveBroadcastParameters, read_bind, sendStringMessage.
    cbn [readStringMessage]. rewrite read_uint32_sent, read_uint32_sent, !u32_id by done. done.
  - done.
  - intros Hip. unfold broadcast_address. rewrite decide_False; [done|].
    intros Hz. apply Hip. change (String.length ip = 0) in Hz. by destruct ip.
  - unfold received. rewrite str_take_ge by done. by rewrite parse_serialize.
Qed.

#[export] Instance ServiceDirectoryBroadcastPB_eq_dec : EqDecision ServiceDirectoryBroadcastPB.
Proof. solve_decision. Defined.

#[export] Program Instance ServiceDirectoryBroadcastPB_countable :
    Countable ServiceDirectoryBroadcastPB :=
  inj_countable' (λ p, (bc_id p, bc_domain p, bc_url p, bc_rate p, bc_starttime p))
    (λ '(i, d, u, r, s), mkServiceDirectoryBroadcastPB i d u r s) _.
Next Obligation. by intros []. Qed.

Definition demo_codec : Protobuf ServiceDirectoryBroadcastPB :=
  countable_protobuf (mkServiceDirectoryBroadcastPB None "" "" 0 0) "ServiceDirectoryBroadcastPB".

Example broadcast_roundtrip_witness :
  let b := mkUDPBroadcaster "" "" "" 0 0 5 false "" [] in
  ∃ b' bytes,
    @broadcaster_step demo_codec (sendBroadcasterParameters "D" "u" "1" 1 10) true b
      = Some (b', true) ∧
    bc_domain (@received demo_codec bytes) = "D".
Proof.
  intros b.
  assert (Hp : is_u32 1) by (vm_compute; split; [discriminate|reflexivity]).
  assert (Hr : is_u32 10) by (vm_compute; split; [discriminate|reflexivity]).
  destruct (@broadcast_roundtrip demo_codec (countable_protobuf_law _ _) b "D" "u" "1" 1 10 Hp Hr
    ltac:(vm_compute; repeat constructor)) as (b' & address & bytes & Hs & _ & _ & Hb).
  exists b', bytes. split; [exact Hs|]. rewrite Hb. reflexivity.
Defined.
