(* ===== verification/ServiceDirectorySynchronizer.v ===== *)
(** * The synchronizer: mirroring the registry of other domains
    (src/src/components/cpp/ServiceDirectory/ServiceDirectorySynchronizer.cpp)

    The thread keeps one [SyncDomainDetails] object per domain, reached through
    [syncMap] and, once subscribed, through [socketToDomainDetailsMap]: both hold
    pointers, so the objects live in a store.  Sockets are addresses; [zmq_socket] gives
    one that was not used before.  [None] stands for the dereference of a null pointer
    and for reading a repeated field out of range.  [sy_pollItems] are the poll items
    behind the two fixed ones (the command socket, and the socket to the own
    directory). *)

From S2P Require Import Prelude.
From S2P Require Import Messages.
From S2P Require Import CommUtil.
From S2P Require Import GravityDataProduct.
From S2P Require Import ServiceDirectory.
#[local] Open Scope gravity_scope.

Record SyncDomainDetails := mkSyncDomainDetails {
  sdd_domain : string;
  sdd_ipAddress : string;
  sdd_socket : Z;
  sdd_initialized : bool;
  sdd_providerMap : ServiceDirectoryMapPB;
  sdd_registrationTime : Z;
}.
#[export] Instance eta_SyncDomainDetails : Eta SyncDomainDetails := λ s,
  mkSyncDomainDetails (sdd_domain s) (sdd_ipAddress s) (sdd_socket s) (sdd_initialized s)
    (sdd_providerMap s) (sdd_registrationTime s).

(** What the thread does to its sockets. *)
Inductive SyncOutput :=
| SentLookup (socket : Z) (request : GravityDataProduct)
| SentUpdate (request : GravityDataProduct)
| Subscribed (socket : Z) (url : string)
| Closed (socket : Z).

Record Synchronizer := mkSynchronizer {
  sy_store : gmap nat SyncDomainDetails;
  sy_nextDetails : nat;
  sy_nextSocket : Z;
  syncMap : gmap string nat;
  socketToDomainDetailsMap : gmap Z nat;
  sy_pollItems : list Z;
  registrationUpdates : list GravityDataProduct;
  pendingResponse : bool;
  sy_sent : list SyncOutput;
}.
#[export] Instance eta_Synchronizer : Eta Synchronizer := λ s,
  mkSynchronizer (sy_store s) (sy_nextDetails s) (sy_nextSocket s) (syncMap s)
    (socketToDomainDetailsMap s) (sy_pollItems s) (registrationUpdates s) (pendingResponse s)
    (sy_sent s).

Definition initial_Synchronizer : Synchronizer := mkSynchronizer ∅ 0 2 ∅ ∅ [] [] false [].

Implicit Types s : Synchronizer.

Definition sy_output (o : SyncOutput) s : Synchronizer := s <| sy_sent ::= λ l, l ++ [o] |>.

(** [zmq_socket] *)
Definition new_socket s : Z * Synchronizer :=
  (sy_nextSocket s, s <| sy_nextSocket ::= Z.succ |>).

Definition set_details (p : nat) (d : SyncDomainDetails) s : Synchronizer :=
  s <| sy_store ::= insert p d |>.

(** [syncMap[domain]], dereferenced: a null pointer when the domain is not mapped. *)
Definition details_of (domain : string) s : option (nat * SyncDomainDetails) :=
  p ← syncMap s !! domain; d ← sy_store s !! p; Some (p, d).

Section synchronizer.
Context `{Protobuf GravityDataProductPB, Protobuf ComponentLookupRequestPB,
  Protobuf ServiceDirectoryRegistrationPB, Protobuf ServiceDirectoryUnregistrationPB,
  Protobuf ComponentDataLookupResponsePB, Protobuf ServiceDirectoryMapPB}.

(** The lookup of the other directory's product of domain details. *)
Definition lookup_request (domain : string) : GravityDataProduct :=
  setData (mkComponentLookupRequestPB (Some DOMAIN_DETAILS_DPID) (Some DATA) (Some domain))
    (new_GravityDataProduct "ComponentLookupRequest").

Definition createRegistrationRequest (productID url componentID domain : string)
    (type : RegistrationType) (timestamp : Z) s : Synchronizer :=
  let rtype := if decide (type = DATA) then DATA else SERVICE in
  let registerRequest := mkServiceDirectoryRegistrationPB (Some productID) (Some url)
    (Some rtype) (Some componentID) (Some domain) (Some timestamp) None None in
  s <| registrationUpdates ::= λ q,
    q ++ [setData registerRequest (new_GravityDataProduct "RegistrationRequest")] |>.

Definition createUnregistrationRequest (productID url domain : string)
    (type : RegistrationType) (regTime : Z) s : Synchronizer :=
  let rtype := if decide (type = DATA) then DATA else SERVICE in
  let unregisterRequest := mkServiceDirectoryUnregistrationPB (Some productID) (Some url)
    (Some rtype) (Some domain) (Some regTime) in
  s <| registrationUpdates ::= λ q,
    q ++ [setData unregisterRequest (new_GravityDataProduct "UnregistrationRequest")] |>.

(** ** Commands *)

Definition add_domain (domain domainIP : string) s : Synchronizer :=
  match syncMap s !! domain with
  | Some _ => s
  | None =>
      let '(socket, s) := new_socket s in
      let p := sy_nextDetails s in
      let details :=
        mkSyncDomainDetails domain domainIP socket false empty_ServiceDirectoryMapPB 0 in
      let s := s <| sy_nextDetails ::= S |> in
      let s := set_details p details s in
      let s := s <| sy_pollItems ::= λ l, l ++ [socket] |> in
      let s := sy_output (SentLookup socket (lookup_request domain)) s in
      s <| syncMap ::= insert domain p |>
  end.

(** Both loops that erase the poll items of a socket. *)
Definition erase_pollItems (socket : Z) (l : list Z) : list Z := filter (λ x, x ≠ socket) l.

Definition update_domain (domain domainIP : string) s : option Synchronizer :=
  '(p, details) ← details_of domain s;
  let s := s <| sy_pollItems ::= erase_pollItems (sdd_socket details) |> in
  let s := s <| socketToDomainDetailsMap ::= delete (sdd_socket details) |> in
  let s := sy_output (Closed (sdd_socket details)) s in
  let '(socket, s) := new_socket s in
  let s := set_details p (details <| sdd_domain := domain |> <| sdd_ipAddress := domainIP |>
    <| sdd_initialized := false |> <| sdd_socket := socket |>) s in
  let s := s <| sy_pollItems ::= λ l, l ++ [socket] |> in
  let s := sy_output (SentLookup socket (lookup_request domain)) s in
  Some (s <| syncMap ::= insert domain p |>).

(** The two nested loops over the services or the products. *)
Definition unregister_all (domain : string) (type : RegistrationType) (regTime : Z)
    (providers : list ProductLocations) s : Synchronizer :=
  foldl (λ s locs, foldl (λ s url,
    createUnregistrationRequest (loc_product_id locs) url domain type regTime s) s (loc_url locs))
    s providers.

Definition change_of (m : ServiceDirectoryMapPB) : ProductChange :=
  default default_ProductChange (map_change m).

Definition remove_domain (domain : string) s : option Synchronizer :=
  match syncMap s !! domain with
  | None => Some s
  | Some _ =>
      '(p, details) ← details_of domain s;
      let s := s <| sy_pollItems ::= erase_pollItems (sdd_socket details) |> in
      let s := sy_output (Closed (sdd_socket details)) s in
      let m := sdd_providerMap details in
      let type := ch_registration_type (change_of m) in
      let s := unregister_all domain type (sdd_registrationTime details) (map_service_provider m) s in
      let s := unregister_all domain type (sdd_registrationTime details) (map_data_provider m) s in
      let s := s <| syncMap ::= delete domain |> in
      Some (s <| socketToDomainDetailsMap ::= delete (sdd_socket details) |>)
  end.

(** A command of the directory, read from the frames on the command socket. *)
Definition process_command (frames : list frame) s : option Synchronizer :=
  '(command, frames) ← readStringMessage frames;
  if decide (command = "Add") then
    '(domain, frames) ← readStringMessage frames;
    '(domainIP, _) ← readStringMessage frames;
    Some (add_domain domain domainIP s)
  else if decide (command = "Update") then
    '(domain, frames) ← readStringMessage frames;
    '(domainIP, _) ← readStringMessage frames;
    update_domain domain domainIP s
  else if decide (command = "Remove") then
    '(domain, _) ← readStringMessage frames;
    remove_domain domain s
  else Some s.

(** ** Responses and updates of the other directories *)

(** The loop over the urls of one product, with the index of the url: the component and
    the time stamp are read at the same index. *)
Fixpoint register_urls (domain : string) (type : RegistrationType) (locs : ProductLocations)
    (j : nat) (urls : list string) s : option Synchronizer :=
  match urls with
  | [] => Some s
  | url :: urls =>
      componentID ← loc_component_id locs !! j;
      timestamp ← loc_timestamp locs !! j;
      register_urls domain type locs (S j) urls
        (createRegistrationRequest (loc_product_id locs) url componentID domain type timestamp s)
  end.

Fixpoint register_all (domain : string) (type : RegistrationType)
    (providers : list ProductLocations) s : option Synchronizer :=
  match providers with
  | [] => Some s
  | locs :: providers =>
      s ← register_urls domain type locs 0 (loc_url locs) s;
      register_all domain type providers s
  end.

(** An update of the other directory's registry. *)
Definition process_details (providerMap : ServiceDirectoryMapPB) s : option Synchronizer :=
  let domain := map_domain providerMap in
  '(p, details) ← details_of domain s;
  let details := details <| sdd_providerMap := providerMap |> in
  if negb (sdd_initialized details) then
    let s := set_details p (details <| sdd_initialized := true |>) s in
    s ← register_all domain SERVICE (map_service_provider providerMap) s;
    register_all domain DATA (map_data_provider providerMap) s
  else
    let s := set_details p details s in
    let change := change_of providerMap in
    if decide (ch_change_type change = ADD) then
      Some (createRegistrationRequest (ch_product_id change) (ch_url change)
        (ch_component_id change) domain (ch_registration_type change) (ch_timestamp change) s)
    else
      Some (createUnregistrationRequest (ch_product_id change) (ch_url change) domain
        (ch_registration_type change) (regTimeSecs (ch_timestamp change)) s).

(** The answer to the lookup: the [i]-th poll item gets a subscription socket. *)
Definition process_lookup_response (i : nat) (responseDomain : string)
    (resp : ComponentDataLookupResponsePB) s : option Synchronizer :=
  let retry s := socket ← sy_pollItems s !! i;
    Some (sy_output (SentLookup socket (lookup_request responseDomain)) s) in
  match dl_publishers resp with
  | [] => retry s
  | publisher :: _ =>
      match pi_url publisher with
      | None => retry s
      | Some url =>
          '(p, details) ← details_of (dl_domain_id resp) s;
          let s := s <| socketToDomainDetailsMap ::= delete (sdd_socket details) |> in
          let s := sy_output (Closed (sdd_socket details)) s in
          let '(socket, s) := new_socket s in
          let s := set_details p (details <| sdd_socket := socket |>
            <| sdd_initialized := false |>
            <| sdd_registrationTime := num (pi_registration_time publisher) |>) s in
          let s := s <| socketToDomainDetailsMap ::= insert socket p |> in
          let s := s <| sy_pollItems ::= insert i socket |> in
          Some (sy_output (Subscribed socket url) s)
      end
  end.

(** One message on the [i]-th poll item; an empty one when receiving failed. *)
Definition process_message (i : nat) (message : string) s : option Synchronizer :=
  let response := GravityDataProduct_from_bytes message in
  socket ← sy_pollItems s !! i;
  let stale :=
    match p ← socketToDomainDetailsMap s !! socket; sy_store s !! p with
    | Some details => bool_decide (0 < String.length message) &&
        negb (sdd_registrationTime details =? getRegistrationTime response)%Z
    | None => false
    end in
  if (stale : bool) then Some s
  else if decide (getDataProductID response = "DataProductRegistrationResponse") then
    process_lookup_response i (getDomain response) (fst (populateMessage response)) s
  else if decide (getDataProductID response = DOMAIN_DETAILS_DPID) then
    process_details (fst (populateMessage response)) s
  else Some s.

(** The loop over the poll items: [ready] gives the message waiting on a socket.  A
    subscription socket put in the place of a socket is not looked at again. *)
Fixpoint process_messages (ready : Z → option string) (i : nat) (items : list Z) s
    : option Synchronizer :=
  match items with
  | [] => Some s
  | socket :: items =>
      s ← match ready socket with
          | Some message => process_message i message s
          | None => Some s
          end;
      process_messages ready (S i) items s
  end.

(** ** The queue of updates for the own directory *)

Definition send_next_update s : Synchronizer :=
  if negb (pendingResponse s) then
    match registrationUpdates s with
    | [] => s
    | gdp :: updates =>
        (sy_output (SentUpdate gdp) (s <| registrationUpdates := updates |>))
          <| pendingResponse := true |>
    end
  else s.

(** What [zmq_poll] found. *)
Record SyncPoll := mkSyncPoll {
  poll_command : option (list frame);
  poll_response : bool;
  poll_ready : Z → option string;
}.

(** One iteration of the loop of [start]. *)
Definition sync_step (poll : SyncPoll) s : option Synchronizer :=
  s ← match poll_command poll with
      | Some frames => process_command frames s
      | None => Some (if poll_response poll then s <| pendingResponse := false |> else s)
      end;
  s ← process_messages (poll_ready poll) 0 (sy_pollItems s) s;
  Some (send_next_update s).
End synchronizer.
