(* ===== verification/ServiceDirectorySynchronizerProofs.v ===== *)
(** * The synchronizer: the queue of updates and the mirrored registry *)

From S2P Require Import Prelude.
From S2P Require Import Messages.
From S2P Require Import CommUtil.
From S2P Require Import GravityDataProduct.
From S2P Require Import ServiceDirectory.
From S2P Require Import ServiceDirectoryRegistry.
From S2P Require Import ServiceDirectoryProofs.
From S2P Require Import ServiceDirectoryRequests.
From S2P Require Import ServiceDirectorySynchronizer.
#[local] Open Scope gravity_scope.

Implicit Types s : Synchronizer.

(** The updates sent to the own directory. *)
Definition sent_update (o : SyncOutput) : option GravityDataProduct :=
  match o with SentUpdate gdp => Some gdp | _ => None end.
Definition sent_updates s : list GravityDataProduct := omap sent_update (sy_sent s).

(** ** Steps that only append to the queue *)

Record appends s s' : Prop := {
  ap_pending : pendingResponse s' = pendingResponse s;
  ap_sent : sent_updates s' = sent_updates s;
  ap_queue : ∃ new, registrationUpdates s' = registrationUpdates s ++ new;
}.

#[export] Instance appends_preorder : PreOrder appends.
Proof.
  split; [intros s; split; [done|done|exists []; by rewrite app_nil_r]|].
  intros s1 s2 s3 [P1 S1 (n1 & N1)] [P2 S2 (n2 & N2)]. split; [congruence|congruence|].
  exists (n1 ++ n2). by rewrite N2, N1, app_assoc.
Qed.

(** A step that leaves queue, flag and sent updates alone. *)
Lemma appends_same s s' :
  pendingResponse s' = pendingResponse s → sent_updates s' = sent_updates s →
  registrationUpdates s' = registrationUpdates s → appends s s'.
Proof. intros P S Q. split; [done|done|]. exists []. by rewrite app_nil_r. Qed.

Lemma sent_updates_app s l :
  omap sent_update (sy_sent s ++ l) = sent_updates s ++ omap sent_update l.
Proof. apply omap_app. Qed.

(** Updates that record an output that is not an update of the own directory. *)
Ltac solve_appends :=
  apply appends_same; cbn; try done; unfold sent_updates; cbn;
  rewrite ?omap_app; cbn; by rewrite ?app_nil_r.

Section proofs.
Context `{Protobuf GravityDataProductPB, Protobuf ComponentLookupRequestPB,
  Protobuf ServiceDirectoryRegistrationPB, Protobuf ServiceDirectoryUnregistrationPB,
  Protobuf ComponentDataLookupResponsePB, Protobuf ServiceDirectoryMapPB}.

Lemma appends_register a b c d t ts s : appends s (createRegistrationRequest a b c d t ts s).
Proof. split; [done|done|]. eexists. done. Qed.

Lemma appends_unregister a b d t ts s : appends s (createUnregistrationRequest a b d t ts s).
Proof. split; [done|done|]. eexists. done. Qed.

Lemma appends_unregister_all d t ts l s : appends s (unregister_all d t ts l s).
Proof.
  unfold unregister_all. revert s. induction l as [|locs l IH]; intros s; cbn; [done|].
  etrans; [|apply IH]. generalize (loc_url locs). intros urls. clear IH. revert s.
  induction urls as [|u urls IH]; intros s; cbn; [done|].
  etrans; [apply appends_unregister|apply IH].
Qed.

Lemma appends_register_urls d t locs j urls s s' :
  register_urls d t locs j urls s = Some s' → appends s s'.
Proof.
  revert j s. induction urls as [|u urls IH]; intros j s; cbn; [by intros [= ->]|].
  intros Hr. apply bind_Some in Hr as (c & _ & Hr). apply bind_Some in Hr as (ts & _ & Hr).
  etrans; [|by eapply IH]. apply appends_register.
Qed.

Lemma appends_register_all d t l s s' : register_all d t l s = Some s' → appends s s'.
Proof.
  revert s. induction l as [|locs l IH]; intros s; cbn; [by intros [= ->]|].
  intros (s1 & E1 & E2)%bind_Some. etrans; [by eapply appends_register_urls|by eapply IH].
Qed.

Lemma appends_command frames s s' : process_command frames s = Some s' → appends s s'.
Proof.
  unfold process_command. intros ([command fs] & _ & Hc)%bind_Some.
  destruct (decide (command = "Add")).
  { apply bind_Some in Hc as ([d f1] & _ & Hc). apply bind_Some in Hc as ([ip f2] & _ & [= <-]).
    unfold add_domain. destruct (syncMap s !! d); [done|]. cbn. solve_appends. }
  destruct (decide (command = "Update")).
  { apply bind_Some in Hc as ([d f1] & _ & Hc). apply bind_Some in Hc as ([ip f2] & _ & Hc).
    unfold update_domain in Hc. apply bind_Some in Hc as ([p det] & _ & [= <-]). solve_appends. }
  destruct (decide (command = "Remove")); [|by injection Hc as <-].
  apply bind_Some in Hc as ([d f1] & _ & Hc). unfold remove_domain in Hc.
  destruct (syncMap s !! d); [|by injection Hc as <-].
  apply bind_Some in Hc as ([p det] & _ & [= <-]).
  match goal with |- context [unregister_all d ?t ?ts ?l2 (unregister_all d ?t ?ts ?l1 ?s0)] =>
    apply (transitivity (y := s0)); [solve_appends|];
    apply (transitivity (y := unregister_all d t ts l2 (unregister_all d t ts l1 s0)));
      [|by apply appends_same] end.
  etrans; apply appends_unregister_all.
Qed.

Lemma appends_message i msg s s' : process_message i msg s = Some s' → appends s s'.
Proof.
  unfold process_message. intros (socket & _ & Hc)%bind_Some.
  destruct (match (p ← socketToDomainDetailsMap s !! socket; sy_store s !! p) with
    Some _ => _ | None => false end); [by injection Hc as <-|].
  destruct (decide (getDataProductID _ = "DataProductRegistrationResponse")).
  { unfold process_lookup_response in Hc. destruct (dl_publishers _) as [|pub pubs].
    { apply bind_Some in Hc as (x & _ & [= <-]). solve_appends. }
    destruct (pi_url pub).
    - apply bind_Some in Hc as ([p det] & _ & [= <-]). solve_appends.
    - apply bind_Some in Hc as (x & _ & [= <-]). solve_appends. }
  destruct (decide (getDataProductID _ = DOMAIN_DETAILS_DPID)); [|by injection Hc as <-].
  unfold process_details in Hc. apply bind_Some in Hc as ([p det] & _ & Hc).
  destruct (negb (sdd_initialized _)).
  - apply bind_Some in Hc as (s1 & E1 & E2).
    etrans; [|by eapply appends_register_all]. etrans; [|by eapply appends_register_all].
    by apply appends_same.
  - destruct (decide (ch_change_type _ = ADD)); injection Hc as <-;
      (etrans; [|apply appends_register || apply appends_unregister]); by apply appends_same.
Qed.

Lemma appends_messages ready i items s s' :
  process_messages ready i items s = Some s' → appends s s'.
Proof.
  revert i s. induction items as [|x items IH]; intros i s; cbn; [by intros [= ->]|].
  intros (s1 & E1 & E2)%bind_Some. etrans; [|by eapply IH].
  destruct (ready x); [by eapply appends_message|by injection E1 as <-].
Qed.

(** ** What the two kinds of requests carry *)

Definition registration_request (domain : string) (type : RegistrationType)
    (entry : string * (string * (string * Z))) : GravityDataProduct :=
  let '(id, (url, (componentID, timestamp))) := entry in
  setData (mkServiceDirectoryRegistrationPB (Some id) (Some url) (Some type) (Some componentID)
    (Some domain) (Some timestamp) None None) (new_GravityDataProduct "RegistrationRequest").

Definition unregistration_request (domain : string) (type : RegistrationType) (regTime : Z)
    (entry : string * string) : GravityDataProduct :=
  setData (mkServiceDirectoryUnregistrationPB (Some entry.1) (Some entry.2) (Some type)
    (Some domain) (Some regTime)) (new_GravityDataProduct "UnregistrationRequest").

(** The urls of a product with their components and time stamps. *)
Definition location_entries (locs : ProductLocations) : list (string * (string * (string * Z))) :=
  (λ x, (loc_product_id locs, x)) <$>
    zip (loc_url locs) (zip (loc_component_id locs) (loc_timestamp locs)).

Lemma rtype_same (t : RegistrationType) : (if decide (t = DATA) then DATA else SERVICE) = t.
Proof. by destruct t. Qed.

(** Every url has a component and a time stamp. *)
Definition well_formed (locs : ProductLocations) : Prop :=
  length (loc_component_id locs) = length (loc_url locs) ∧
  length (loc_timestamp locs) = length (loc_url locs).

Definition enqueue (l : list GravityDataProduct) s : Synchronizer :=
  s <| registrationUpdates ::= λ q, q ++ l |>.

Lemma enqueue_nil s : enqueue [] s = s.
Proof. destruct s. unfold enqueue, update. cbn. by rewrite app_nil_r. Qed.

Lemma enqueue_app l1 l2 s : enqueue l2 (enqueue l1 s) = enqueue (l1 ++ l2) s.
Proof. destruct s. unfold enqueue, update. cbn. by rewrite app_assoc. Qed.

Lemma createRegistration_enqueue id url c d t ts s :
  createRegistrationRequest id url c d t ts s =
    enqueue [registration_request d t (id, (url, (c, ts)))] s.
Proof. unfold createRegistrationRequest. by rewrite rtype_same. Qed.

Lemma createUnregistration_enqueue id url d t ts s :
  createUnregistrationRequest id url d t ts s =
    enqueue [unregistration_request d t ts (id, url)] s.
Proof. unfold createUnregistrationRequest. by rewrite rtype_same. Qed.

Lemma register_urls_spec d t locs j urls s :
  length (loc_component_id locs) = j + length urls →
  length (loc_timestamp locs) = j + length urls →
  register_urls d t locs j urls s = Some (enqueue
    (registration_request d t <$> ((λ x, (loc_product_id locs, x)) <$>
      zip urls (zip (drop j (loc_component_id locs)) (drop j (loc_timestamp locs))))) s).
Proof.
  revert j s. induction urls as [|u urls IH]; intros j s Hc Ht; cbn [register_urls].
  { cbn. by rewrite enqueue_nil. }
  cbn [length] in *.
  destruct (lookup_lt_is_Some_2 (loc_component_id locs) j) as [c Hcj]; [lia|].
  destruct (lookup_lt_is_Some_2 (loc_timestamp locs) j) as [ts Htj]; [lia|].
  rewrite Hcj, Htj. cbn [mbind option_bind]. rewrite IH by lia.
  by rewrite (drop_S _ _ _ Hcj), (drop_S _ _ _ Htj), createRegistration_enqueue, enqueue_app.
Qed.

Lemma register_all_spec d t l s :
  Forall well_formed l →
  register_all d t l s = Some (enqueue (registration_request d t <$> (l ≫= location_entries)) s).
Proof.
  revert s. induction l as [|locs l IH]; intros s Hl; cbn [register_all].
  { cbn. by rewrite enqueue_nil. }
  apply Forall_cons in Hl as [[Hc Ht] Hl]. rewrite register_urls_spec by done.
  cbn [mbind option_bind]. rewrite IH, enqueue_app, !drop_0 by done. cbn [mbind list_bind].
  by rewrite fmap_app.
Qed.

(** The pairs of product and url of a list of providers. *)
Definition provider_urls (l : list ProductLocations) : list (string * string) :=
  locs ← l; (λ url, (loc_product_id locs, url)) <$> loc_url locs.

Lemma unregister_urls_spec id d t ts urls s :
  foldl (λ s url, createUnregistrationRequest id url d t ts s) s urls =
    enqueue (unregistration_request d t ts <$> ((λ url, (id, url)) <$> urls)) s.
Proof.
  revert s. induction urls as [|u urls IH]; intros s; cbn [foldl].
  { cbn. by rewrite enqueue_nil. }
  by rewrite IH, createUnregistration_enqueue, enqueue_app.
Qed.

Lemma unregister_all_spec d t ts l s :
  unregister_all d t ts l s = enqueue (unregistration_request d t ts <$> provider_urls l) s.
Proof.
  unfold unregister_all. revert s. induction l as [|locs l IH]; intros s; cbn [foldl].
  { cbn. by rewrite enqueue_nil. }
  rewrite unregister_urls_spec, IH, enqueue_app. unfold provider_urls. cbn [mbind list_bind].
  by rewrite fmap_app.
Qed.
End proofs.

(** ** The maps a directory publishes *)

(** Steps that publish nothing. *)
Lemma sent_service_locations dom items st :
  sd_sent (service_locations dom items st).2 = sd_sent st.
Proof.
  revert st. induction items as [|[id url] items IH]; intros st; cbn; [done|].
  specialize (IH (touch_url url st)).
  by destruct (service_locations dom items (touch_url url st)).
Qed.

Lemma sent_location_urls urls st locs : sd_sent (location_urls urls st locs).2 = sd_sent st.
Proof.
  revert st locs. induction urls as [|info urls IH]; intros st locs; cbn; [done|]. by rewrite IH.
Qed.

Lemma sent_data_locations dom items st : sd_sent (data_locations dom items st).2 = sd_sent st.
Proof.
  revert st. induction items as [|[id urls] items IH]; intros st; cbn; [done|].
  pose proof (sent_location_urls urls st (mkProductLocations id [] [] [dom] [])) as Hq.
  destruct (location_urls urls st _) as [locs st']. cbn in *. specialize (IH st').
  destruct (data_locations dom items st'). cbn in *. congruence.
Qed.

(** The message [updateProductLocations] publishes. *)
Definition published_map id url ts c t st : ServiceDirectoryMapPB :=
  mkServiceDirectoryMapPB
    (reference_service st (sd_domain st) <$> kv_items (sMap_of st (sd_domain st)))
    (reference_product st (sd_domain st) <$> kv_items (dpMap_of st (sd_domain st)))
    (Some (mkProductChange id url t c (component_of st url) ts)) (sd_domain st).

Lemma updateProductLocations_sent id url ts c t st :
  sd_sent (updateProductLocations id url ts c t st) =
    sd_sent st ++ [DomainDetails (published_map id url ts c t st)].
Proof.
  unfold updateProductLocations, published_map. cbn zeta. set (dom := sd_domain st).
  set (st1 := st <| sd_serviceMap ::= _ |>).
  assert (Hs1 : sMap_of st1 dom = sMap_of st dom).
  { unfold sMap_of, st1. cbn. by rewrite idx_touch_idx. }
  rewrite Hs1. pose proof (service_locations_reference dom (kv_items (sMap_of st dom)) st1) as Hl1.
  pose proof (sent_service_locations dom (kv_items (sMap_of st dom)) st1) as Hn1.
  destruct (service_locations _ _ st1) as [services st2]. destruct Hl1 as [-> Hu1].
  set (st3 := st2 <| sd_dataProductMap ::= _ |>).
  assert (Hd3 : dpMap_of st3 dom = dpMap_of st dom).
  { unfold dpMap_of, st3. cbn. rewrite idx_touch_idx. by rewrite (su_products _ _ Hu1). }
  rewrite Hd3. pose proof (data_locations_reference dom (kv_items (dpMap_of st dom)) st3) as Hl2.
  pose proof (sent_data_locations dom (kv_items (dpMap_of st dom)) st3) as Hn2.
  destruct (data_locations _ _ st3) as [data st4]. destruct Hl2 as [-> Hu2].
  assert (Hc : ∀ u, component_of st4 u = component_of st u).
  { intros u. rewrite (su_component _ _ Hu2). exact (su_component _ _ Hu1 u). }
  assert (Hr : reference_product st3 dom <$> kv_items (dpMap_of st dom) =
    reference_product st dom <$> kv_items (dpMap_of st dom)).
  { apply list_fmap_ext. intros _ [k l] _. unfold reference_product. cbn.
    f_equal; apply list_fmap_ext; intros;
      [exact (su_component _ _ Hu1 _)|exact (su_instance _ _ Hu1 _)]. }
  rewrite Hr in *. cbn in Hn1, Hn2 |- *. by rewrite Hn2, Hn1, Hc.
Qed.

Lemma published_map_well_formed id url ts c t st :
  Forall well_formed (map_service_provider (published_map id url ts c t st)) ∧
  Forall well_formed (map_data_provider (published_map id url ts c t st)).
Proof.
  split; apply Forall_fmap, Forall_forall; intros [k x] _; split; cbn; try done;
    by rewrite length_fmap.
Qed.

Lemma location_entries_product st dom k infos :
  location_entries (reference_product st dom (k, infos)) =
    (λ u, (k, (u, (component_of st u, instance_of st u)))) <$> urls_of infos.
Proof.
  unfold location_entries, reference_product.
  cbn [loc_product_id loc_url loc_component_id loc_timestamp fst snd].
  generalize (urls_of infos). intros us. induction us as [|u us IH]; [done|].
  cbn [fmap list_fmap zip zip_with]. by rewrite IH.
Qed.

Lemma service_entries st dom l :
  (reference_service st dom <$> l) ≫= location_entries =
    (λ entry, (entry.1, (entry.2, (component_of st entry.2, instance_of st entry.2)))) <$> l.
Proof.
  induction l as [|[k u] l IH]; [done|].
  change (((reference_service st dom (k, u) :: (reference_service st dom <$> l))
    ≫= location_entries) = (k, (u, (component_of st u, instance_of st u))) ::
    ((λ entry, (entry.1, (entry.2, (component_of st entry.2, instance_of st entry.2)))) <$> l)).
  by rewrite <-IH.
Qed.

Lemma product_entries st dom l :
  (reference_product st dom <$> l) ≫= location_entries =
    ('(product, infos) ← l;
     (λ u, (product, (u, (component_of st u, instance_of st u)))) <$> urls_of infos).
Proof.
  induction l as [|[k infos] l IH]; [done|].
  rewrite fmap_cons, bind_cons, bind_cons, IH, location_entries_product. done.
Qed.

(** ** Unregistration with the wrong time *)

Lemma unregister_other_time u st dom k info :
  num (pi_registration_time info) ≠ num (ur_registration_time u) →
  info ∈ publishers_of st dom k → info ∈ publishers_of (handleUnregister u st).2 dom k.
Proof.
  intros Hne Hin. unfold handleUnregister. set (d := request_domain _ st).
  destruct (default DATA (ur_type u)).
  - pose proof (unregister_data_spec d u st) as Hspec.
    destruct (unregister_data d u st) as [st' found]. destruct Hspec as (_ & _ & Hp & _). cbn.
    rewrite Hp. unfold unregistered_publishers. cbn zeta. goal_decide; [|done].
    destruct (list_find _ _) as [[i q]|] eqn:Hf; [|done].
    apply list_find_Some in Hf as (Hi & [_ Ht] & _).
    apply list_elem_of_split_length in Hi as (l1 & l2 & Hl & ->).
    rewrite Hl in Hin |- *. rewrite delete_middle.
    apply elem_of_app in Hin as [Hin|Hin]; [apply elem_of_app; by left|].
    apply elem_of_cons in Hin as [->|Hin]; [done|]. apply elem_of_app. by right.
  - pose proof (unregister_service_quiet d u st) as Hq.
    destruct (unregister_service d u st) as [st' found]. cbn in *.
    by rewrite (quiet_publishers _ _ Hq).
Qed.

(** * Properties *)

Section properties.
Context `{Protobuf GravityDataProductPB, Protobuf ComponentLookupRequestPB,
  Protobuf ServiceDirectoryRegistrationPB, Protobuf ServiceDirectoryUnregistrationPB,
  Protobuf ComponentDataLookupResponsePB, Protobuf ServiceDirectoryMapPB}.

(** C21. The updates for the own directory are sent one at a time, in the order they were created,
    none lost and none twice: an iteration of the loop appends new updates to the queue,
    then sends the oldest one exactly when no answer is outstanding. *)
Theorem updates_sent_in_order poll s s' :
  sync_step poll s = Some s' →
  let answered := bool_decide (poll_command poll = None) && poll_response poll in
  let waiting := pendingResponse s && negb answered in
  ∃ new, let queue := registrationUpdates s ++ new in
    sent_updates s' ++ registrationUpdates s' = sent_updates s ++ queue ∧
    sent_updates s' = sent_updates s ++ (if waiting then [] else take 1 queue) ∧
    pendingResponse s' = waiting || bool_decide (queue ≠ []).
Proof.
  unfold sync_step. intros (s1 & E1 & E)%bind_Some. apply bind_Some in E as (s2 & E2 & [= <-]).
  apply appends_messages in E2 as [P2 S2 (n2 & N2)].
  set (answered := bool_decide _ && _). set (waiting := pendingResponse s && negb answered).
  assert (∃ n1, registrationUpdates s1 = registrationUpdates s ++ n1 ∧
    sent_updates s1 = sent_updates s ∧ pendingResponse s1 = waiting) as (n1 & N1 & S1 & P1).
  { subst waiting answered. destruct (poll_command poll) as [frames|].
    - apply appends_command in E1 as [P1 S1 (n1 & N1)]. exists n1.
      by rewrite P1, bool_decide_false, andb_true_r.
    - injection E1 as <-. exists []. rewrite app_nil_r.
      destruct (poll_response poll); cbn; by rewrite ?andb_false_r, ?andb_true_r. }
  exists (n1 ++ n2). cbn zeta.
  assert (Hall : registrationUpdates s ++ n1 ++ n2 = registrationUpdates s2)
    by (by rewrite N2, N1, app_assoc).
  rewrite Hall.
  unfold send_next_update. rewrite P2, P1. destruct waiting; cbn [negb orb].
  - rewrite S2, S1, P2, P1, app_nil_r. done.
  - destruct (registrationUpdates s2) as [|gdp q] eqn:Hq.
    + rewrite S2, S1, P2, P1, Hq. cbn [take]. rewrite !app_nil_r. split_and!; [done|done|].
      by rewrite bool_decide_false by tauto.
    + cbn. unfold sent_updates. cbn. rewrite omap_app. fold (sent_updates s2). rewrite S2, S1.
      cbn. rewrite <-app_assoc. by split_and!.
Qed.

(** When the first update of another directory arrives, the mirror creates a registration, in
    the other domain, for every service and then every product that the directory has in its
    own domain, with url, component and time stamp as they are recorded there. *)
Theorem first_update_mirrors_registry id url ts c t st s p details :
  details_of (sd_domain st) s = Some (p, details) → sdd_initialized details = false →
  let m := published_map id url ts c t st in
  ∃ s', process_details m s = Some s' ∧
    registrationUpdates s' = registrationUpdates s ++
      (registration_request (sd_domain st) SERVICE <$>
        ((λ entry, (entry.1, (entry.2, (component_of st entry.2, instance_of st entry.2)))) <$>
          kv_items (sMap_of st (sd_domain st)))) ++
      (registration_request (sd_domain st) DATA <$>
        ('(product, infos) ← kv_items (dpMap_of st (sd_domain st));
         (λ u, (product, (u, (component_of st u, instance_of st u)))) <$> urls_of infos)) ∧
    sy_store s' !! p = Some (details <| sdd_providerMap := m |> <| sdd_initialized := true |>).
Proof.
  intros Hd Hi m. destruct (published_map_well_formed id url ts c t st) as [W1 W2].
  unfold process_details. change (map_domain m) with (sd_domain st). rewrite Hd.
  cbn [mbind option_bind].
  change (sdd_initialized (details <| sdd_providerMap := m |>)) with (sdd_initialized details).
  rewrite Hi. cbn [negb].
  rewrite register_all_spec by done. cbn [mbind option_bind]. rewrite register_all_spec by done.
  eexists. split; [reflexivity|]. split; [|cbn; by rewrite lookup_insert_eq].
  change (map_service_provider m) with
    (reference_service st (sd_domain st) <$> kv_items (sMap_of st (sd_domain st))).
  change (map_data_provider m) with
    (reference_product st (sd_domain st) <$> kv_items (dpMap_of st (sd_domain st))).
  rewrite service_entries, product_entries. symmetry. apply app_assoc.
Qed.

(** C22. A later change in the other directory is mirrored by exactly one request: a registration with
    the changed product, url, component and time stamp when it was added; an unregistration
    with the time stamp in seconds when it was removed. *)
Theorem later_update_mirrors_change id url ts c t st s p details :
  details_of (sd_domain st) s = Some (p, details) → sdd_initialized details = true →
  ∃ s', process_details (published_map id url ts c t st) s = Some s' ∧
    registrationUpdates s' = registrationUpdates s ++
      [match c with
       | ADD => registration_request (sd_domain st) t (id, (url, (component_of st url, ts)))
       | REMOVE => unregistration_request (sd_domain st) t (regTimeSecs ts) (id, url)
       end].
Proof.
  intros Hd Hi. unfold process_details.
  change (map_domain (published_map id url ts c t st)) with (sd_domain st). rewrite Hd.
  cbn [mbind option_bind].
  match goal with |- context [sdd_initialized (update _ _ ?d)] =>
    change (sdd_initialized (update _ _ d)) with (sdd_initialized d) end.
  rewrite Hi. cbn [negb].
  change (change_of (published_map id url ts c t st)) with
    (mkProductChange id url t c (component_of st url) ts).
  cbn [ch_change_type ch_product_id ch_url ch_component_id ch_registration_type ch_timestamp].
  destruct c; cbn [decide_rel]; (eexists; split; [reflexivity|]);
    rewrite ?createRegistration_enqueue, ?createUnregistration_enqueue; done.
Qed.

(** When a domain disappears, the mirror asks the own directory to unregister everything the
    domain had, but every request carries the registration time of the other directory's
    product of domain details: a publisher that was registered at another time stays listed
    after all of them have been served. *)
Theorem removed_domain_keeps_publishers `{!ProtobufLaw ServiceDirectoryUnregistrationPB}
    domain s s' p details :
  details_of domain s = Some (p, details) → remove_domain domain s = Some s' →
  ∃ requests, registrationUpdates s' = registrationUpdates s ++ requests ∧
    length requests = length (provider_urls (map_service_provider (sdd_providerMap details))) +
      length (provider_urls (map_data_provider (sdd_providerMap details))) ∧
    ∀ st k info, info ∈ publishers_of st domain k →
      num (pi_registration_time info) ≠ sdd_registrationTime details →
      info ∈ publishers_of (foldl (λ st gdp, (handleUnregister (fst (populateMessage gdp)) st).2)
        st requests) domain k.
Proof.
  intros Hd Hr. unfold remove_domain in Hr.
  assert (Hm : ∃ p', syncMap s !! domain = Some p').
  { unfold details_of in Hd. apply bind_Some in Hd as (p' & Hm & _). eauto. }
  destruct Hm as [p' Hm]. rewrite Hm, Hd in Hr. cbn [mbind option_bind] in Hr. injection Hr as <-.
  rewrite !unregister_all_spec, enqueue_app.
  set (time := sdd_registrationTime details). set (type := ch_registration_type _).
  eexists. split; [reflexivity|]. split; [by rewrite length_app, !length_fmap|].
  intros st k info Hin Hne. rewrite <-fmap_app.
  generalize (provider_urls (map_service_provider (sdd_providerMap details)) ++
    provider_urls (map_data_provider (sdd_providerMap details))). intros l.
  revert st Hin. induction l as [|[id url] l IH]; intros st Hin; [done|].
  cbn [fmap list_fmap foldl]. apply IH. apply unregister_other_time; [|done].
  unfold unregistration_request, populateMessage, setData. cbn. by rewrite parse_serialize.
Qed.
End properties.

(** ** Concrete runs *)

Definition demo_unregistration_codec : Protobuf ServiceDirectoryUnregistrationPB :=
  countable_protobuf (mkServiceDirectoryUnregistrationPB None None None None None) "".

Section witnesses.
#[local] Existing Instance demo_unregistration_codec.
#[local] Instance demo_gdp_codec : Protobuf GravityDataProductPB :=
  constant_protobuf empty_GravityDataProductPB.
#[local] Instance demo_lookup_codec : Protobuf ComponentLookupRequestPB :=
  constant_protobuf (mkComponentLookupRequestPB None None None).
#[local] Instance demo_registration_codec : Protobuf ServiceDirectoryRegistrationPB :=
  constant_protobuf (mkServiceDirectoryRegistrationPB None None None None None None None None).
#[local] Instance demo_data_response_codec : Protobuf ComponentDataLookupResponsePB :=
  constant_protobuf (mkComponentDataLookupResponsePB "" [] "").
#[local] Instance demo_map_codec : Protobuf ServiceDirectoryMapPB :=
  constant_protobuf empty_ServiceDirectoryMapPB.

#[local] Instance demo_unregistration_law : ProtobufLaw ServiceDirectoryUnregistrationPB :=
  countable_protobuf_law _ _.

(** A mirror that was told to add the domain of the demo directory. *)
Definition demo_mirror : Synchronizer := add_domain "Dom" "tcp://sd:1" initial_Synchronizer.

Definition demo_details : SyncDomainDetails :=
  mkSyncDomainDetails "Dom" "tcp://sd:1" 2 false empty_ServiceDirectoryMapPB 0.

Definition demo_mirrored_details : SyncDomainDetails :=
  demo_details <| sdd_providerMap := published_map "B" "tcp://h:1" 7000000 ADD DATA demo_state |>
    <| sdd_initialized := true |> <| sdd_registrationTime := 6%Z |>.

Definition demo_mirrored : Synchronizer := set_details 0 demo_mirrored_details demo_mirror.

Example updates_sent_in_order_witness :
  ∃ s', sync_step (mkSyncPoll (Some ["Remove"; "Dom"]) false (λ _, None)) demo_mirrored
    = Some s' ∧ length (sent_updates s') = 1 ∧ pendingResponse s' = true.
Proof.
  set (poll := mkSyncPoll _ _ _).
  destruct (sync_step poll demo_mirrored) as [s'|] eqn:Hs; [|vm_compute in Hs; discriminate].
  exists s'. split; [reflexivity|].
  assert (Hlen : length (sent_updates s') = 1).
  { pose proof (f_equal (option_map (λ s, length (sent_updates s))) Hs) as Hl.
    vm_compute in Hl. injection Hl as Hl. symmetry. exact Hl. }
  split; [exact Hlen|].
  destruct (updates_sent_in_order poll demo_mirrored s' Hs) as (new & _ & H2 & H3).
  rewrite H3. rewrite H2 in Hlen. rewrite length_app in Hlen.
  destruct (registrationUpdates demo_mirrored ++ new); [discriminate Hlen|reflexivity].
Defined.

Example first_update_mirrors_registry_witness :
  ∃ s', process_details (published_map "B" "tcp://h:1" 7000000 ADD DATA demo_state) demo_mirror
    = Some s' ∧ length (registrationUpdates s') = 2.
Proof.
  destruct (first_update_mirrors_registry "B" "tcp://h:1" 7000000 ADD DATA demo_state demo_mirror
    0 demo_details) as (s' & Hs & Hq & _); [vm_compute; reflexivity|reflexivity|].
  exists s'. split; [exact Hs|]. rewrite Hq. vm_compute. reflexivity.
Defined.

Example later_update_mirrors_change_witness :
  ∃ s', process_details (published_map "B" "tcp://h:1" 7000000 REMOVE DATA demo_state) demo_mirrored
    = Some s' ∧ registrationUpdates s' =
      [unregistration_request "Dom" DATA 7 ("B", "tcp://h:1")].
Proof.
  destruct (later_update_mirrors_change "B" "tcp://h:1" 7000000 REMOVE DATA demo_state
    demo_mirrored 0 demo_mirrored_details) as (s' & Hs & Hq); [vm_compute; reflexivity|reflexivity|].
  exists s'. split; [exact Hs|]. rewrite Hq. vm_compute. reflexivity.
Defined.

Example removed_domain_keeps_publishers_witness :
  ∃ s', remove_domain "Dom" demo_mirrored = Some s' ∧
    Exists (λ info, pi_url info = Some "tcp://h:1")
      (publishers_of (foldl (λ st gdp, (handleUnregister (fst (populateMessage gdp)) st).2)
        demo_state (registrationUpdates s')) "Dom" "B").
Proof.
  destruct (remove_domain "Dom" demo_mirrored) as [s'|] eqn:Hr; [|vm_compute in Hr; discriminate].
  exists s'. split; [reflexivity|].
  destruct (removed_domain_keeps_publishers "Dom" demo_mirrored s' 0 demo_mirrored_details) as (requests & Hq & _ & Hk);
    [vm_compute; reflexivity|exact Hr|].
  change (registrationUpdates demo_mirrored) with (@nil GravityDataProduct) in Hq.
  rewrite Hq. cbn [app]. apply Exists_exists.
  destruct (publishers_of demo_state "Dom" "B") as [|info l] eqn:Hp;
    [vm_compute in Hp; discriminate|].
  exists info. split.
  - apply Hk; rewrite ?Hp; [left|]. vm_compute in Hp. injection Hp as <- _. vm_compute. discriminate.
  - vm_compute in Hp. injection Hp as <- _. reflexivity.
Defined.
End witnesses.
