(* ===== verification/GravityMetrics.v ===== *)
(** * Metrics: counting messages and publishing samples
    (src/src/api/cpp/GravityMetrics.cpp, GravityMetricsManager.cpp)

    [GravityMetrics] counts messages and bytes per data product; the publish and the
    subscription manager each own one and send it, on request, to the metrics manager,
    which gathers samples and publishes them.  The counts are [int]s; a signed overflow
    is modelled as two's complement wrap-around. *)

From S2P Require Import Prelude.
From S2P Require Import Messages.
From S2P Require Import CommUtil.
From S2P Require Import GravityDataProduct.
#[local] Open Scope gravity_scope.
#[local] Open Scope Z_scope.

(** ** [GravityMetrics] *)

Record MetricsSample := mkMetricsSample { messageCount : Z; byteCount : Z }.
#[export] Instance eta_MetricsSample : Eta MetricsSample := λ s,
  mkMetricsSample (messageCount s) (byteCount s).

Definition empty_sample : MetricsSample := mkMetricsSample 0 0.

Record GravityMetrics := mkGravityMetrics {
  metrics : gmap string MetricsSample;
  startTime : Z;
  endTime : Z;
}.
#[export] Instance eta_GravityMetrics : Eta GravityMetrics := λ m,
  mkGravityMetrics (metrics m) (startTime m) (endTime m).

Definition new_GravityMetrics : GravityMetrics := mkGravityMetrics ∅ 0 0.

Implicit Types m : GravityMetrics.

Definition sample_of m (id : string) : MetricsSample := idx empty_sample id (metrics m).

Definition incrementMessageCount (id : string) (count : Z) m : GravityMetrics :=
  m <| metrics ::= insert id
    ((sample_of m id) <| messageCount := s32 (messageCount (sample_of m id) + count) |>) |>.

Definition incrementByteCount (id : string) (count : Z) m : GravityMetrics :=
  m <| metrics ::= insert id
    ((sample_of m id) <| byteCount := s32 (byteCount (sample_of m id) + count) |>) |>.

(** [now] is what [getCurrentTime] returns. *)
Definition metrics_reset (now : Z) m : GravityMetrics :=
  mkGravityMetrics ((λ _, empty_sample) <$> metrics m) now 0.

Definition metrics_clear m : GravityMetrics := mkGravityMetrics ∅ 0 0.

Definition metrics_remove (id : string) m : GravityMetrics := m <| metrics ::= delete id |>.

Definition getMessageCount (id : string) m : Z :=
  match metrics m !! id with Some s => messageCount s | None => -1 end.

Definition getByteCount (id : string) m : Z :=
  match metrics m !! id with Some s => byteCount s | None => -1 end.

Definition metrics_done (now : Z) m : GravityMetrics := m <| endTime := now |>.

Definition sample_frames (entry : string * MetricsSample) : list frame :=
  [sendStringMessage entry.1; sendIntMessage (messageCount entry.2);
   sendIntMessage (byteCount entry.2)].

Definition sendAsMessage m : list frame :=
  if decide (metrics m = ∅) then [sendIntMessage 0]
  else sendIntMessage (Z.of_nat (size (metrics m))) :: (kv_items (metrics m) ≫= sample_frames) ++
    [sendUint64Message (startTime m); sendUint64Message (endTime m)].

(** The loop of [populateFromMessage]. *)
Fixpoint read_samples (n : nat) (samples : gmap string MetricsSample)
    : reader (gmap string MetricsSample) :=
  match n with
  | O => read_ret samples
  | S n =>
      id <~ readStringMessage ;; messageCount <~ readIntMessage ;; byteCount <~ readIntMessage ;;
      read_samples n (<[id := mkMetricsSample messageCount byteCount]> samples)
  end.

Definition populateFromMessage : reader GravityMetrics :=
  n <~ readIntMessage ;;
  if (0 <? n) then
    samples <~ read_samples (Z.to_nat n) ∅ ;;
    startTime <~ readUint64Message ;; endTime <~ readUint64Message ;;
    read_ret (mkGravityMetrics samples startTime endTime)
  else read_ret new_GravityMetrics.

Definition getDataProductIDs m : list string := (kv_items (metrics m)).*1.

(** ** [GravityMetricsManager] *)

#[export] Instance MetricsMessageType_countable : Countable MetricsMessageType.
Proof.
  apply (inj_countable' (λ t, match t with
      PUBLICATION => 0 | SUBSCRIPTION => 1 | REQUEST => 2 | RESPONSE => 3 end)
    (λ z, match z with 0 => PUBLICATION | 1 => SUBSCRIPTION | 2 => REQUEST | _ => RESPONSE end)).
  by intros [].
Defined.

Definition message_type_value (t : MetricsMessageType) : Z :=
  match t with PUBLICATION => 0 | SUBSCRIPTION => 1 | REQUEST => 2 | RESPONSE => 3 end.

Definition message_type_le : relation MetricsMessageType := λ t u,
  message_type_value t <= message_type_value u.

#[export] Instance message_type_le_dec : RelDecision message_type_le.
Proof. intros t u. unfold message_type_le. apply _. Defined.
#[export] Instance message_type_le_po : PartialOrder message_type_le.
Proof.
  unfold message_type_le. split; [split|].
  - intros t. lia.
  - intros t u v. lia.
  - intros t u Htu Hut. destruct t, u; cbn in *; (done || lia).
Qed.
#[export] Instance message_type_le_total : Total message_type_le.
Proof. intros t u. unfold message_type_le. lia. Qed.
#[export] Instance message_type_order : KeyOrder MetricsMessageType := {| key_le := message_type_le |}.

Record MetricsManager := mkMetricsManager {
  mm_metricsEnabled : bool;
  mm_samplePeriod : Z;
  mm_samplesPerPublish : Z;
  mm_componentID : string;
  mm_ipAddr : string;
  mm_regTimestamp : Z;
  mm_sampleCount : Z;
  mm_metricsData : gmap (string * MetricsMessageType) GravityMetricsPB;
  (* the frames of the publish commands sent *)
  mm_sent : list (list frame);
}.
#[export] Instance eta_MetricsManager : Eta MetricsManager := λ g,
  mkMetricsManager (mm_metricsEnabled g) (mm_samplePeriod g) (mm_samplesPerPublish g)
    (mm_componentID g) (mm_ipAddr g) (mm_regTimestamp g) (mm_sampleCount g) (mm_metricsData g)
    (mm_sent g).

Definition initial_MetricsManager : MetricsManager :=
  mkMetricsManager false 0 0 "" "" 0 0 ∅ [].

(** One sample of a product joins the message of its product and kind. *)
Definition add_sample m (type : MetricsMessageType) (g : MetricsManager) (id : string)
    : MetricsManager :=
  let key := (id, type) in
  let gmPB := idx empty_GravityMetricsPB key (mm_metricsData g) in
  let gmPB := match gm_dataProductID gmPB with
    | None => gmPB <| gm_dataProductID := Some id |> <| gm_messageType := Some type |>
    | Some _ => gmPB end in
  let gmPB := gmPB <| gm_numBytes ::= λ l, l ++ [u32 (getByteCount id m)] |>
    <| gm_numMessages ::= λ l, l ++ [u32 (getMessageCount id m)] |>
    <| gm_startTime ::= λ l, l ++ [startTime m] |>
    <| gm_endTime ::= λ l, l ++ [endTime m] |> in
  g <| mm_metricsData ::= insert key gmPB |>.

(** The frames are the collector's answer to GetMetrics. *)
Definition collectMetrics (answer : list frame) (type : MetricsMessageType) (g : MetricsManager)
    : option MetricsManager :=
  match populateFromMessage answer with
  | None => None
  | Some (m, _) => Some (foldl (add_sample m type) g (getDataProductIDs m))
  end.

Section manager.
Context `{Protobuf GravityMetricsDataPB, Protobuf GravityDataProductPB}.

Definition publishMetrics (now : Z) (g : MetricsManager) : MetricsManager :=
  let pb := mkGravityMetricsDataPB (mm_componentID g) (mm_ipAddr g)
    (kv_items (mm_metricsData g)).*2 in
  let gdp := setData pb (setRegistrationTime (u32 (mm_regTimestamp g))
    (setTimestamp now (new_GravityDataProduct METRICS_DATA_DPID))) in
  g <| mm_sent ::= λ l, l ++
      [[sendStringMessage "publish"; sendStringMessage (getDataProductID gdp);
        sendUint64Message (getGravityTimestamp gdp); sendStringMessage (mm_componentID g);
        serializeToArray gdp]] |>
    <| mm_metricsData := ∅ |>.

(** A command on the control socket; the result says whether the thread goes on. *)
Definition metrics_command (frames : list frame) (g : MetricsManager)
    : option (MetricsManager * bool) :=
  match readStringMessage frames with
  | None => None
  | Some (command, frames) =>
      if decide (command = "MetricsEnable") then
        match (samplePeriod <~ readIntMessage ;; samplesPerPublish <~ readIntMessage ;;
          componentID <~ readStringMessage ;; ipAddr <~ readStringMessage ;;
          regTimestamp <~ readIntMessage ;;
          read_ret (g <| mm_metricsEnabled := true |> <| mm_samplePeriod := samplePeriod |>
            <| mm_samplesPerPublish := samplesPerPublish |> <| mm_sampleCount := 0 |>
            <| mm_componentID := componentID |> <| mm_ipAddr := ipAddr |>
            <| mm_regTimestamp := regTimestamp |>)) frames with
        | Some (g, _) => Some (g, true)
        | None => None
        end
      else if decide (command = "MetricsDisable") then
        Some (g <| mm_metricsEnabled := false |>, true)
      else if decide (command = "kill") then Some (g, false)
      else Some (g, true)
  end.

(** The sampling of an iteration: the answers of the two collectors, and the clock. *)
Definition metrics_sample (pubAnswer subAnswer : list frame) (now : Z) (g : MetricsManager)
    : option MetricsManager :=
  if mm_metricsEnabled g then
    match collectMetrics pubAnswer PUBLICATION g with
    | None => None
    | Some g =>
        match collectMetrics subAnswer SUBSCRIPTION g with
        | None => None
        | Some g =>
            let g := g <| mm_sampleCount ::= λ n, s32 (n + 1) |> in
            if (mm_sampleCount g =? mm_samplesPerPublish g) then
              Some ((publishMetrics now g) <| mm_sampleCount := 0 |>)
            else Some g
        end
    end
  else Some g.
End manager.

(** ** Properties *)

Definition metrics_ok m : Prop :=
  map_Forall (λ _ s, is_s32 (messageCount s) ∧ is_s32 (byteCount s)) (metrics m) ∧
  is_u64 (startTime m) ∧ is_u64 (endTime m) ∧ Z.of_nat (size (metrics m)) < 2147483648.

#[export] Instance metrics_ok_dec m : Decision (metrics_ok m).
Proof. unfold metrics_ok. apply _. Defined.

Lemma read_samples_sent (l : list (string * MetricsSample)) acc rest :
  Forall (λ e, is_s32 (messageCount e.2) ∧ is_s32 (byteCount e.2)) l →
  read_samples (length l) acc ((l ≫= sample_frames) ++ rest) =
    Some (foldl (λ a e, <[e.1 := e.2]> a) acc l, rest).
Proof.
  revert acc. induction l as [|[id [mc bc]] l IH]; intros acc Hl; [done|].
  apply Forall_cons in Hl as [[Hm Hb] Hl]. cbn in Hm, Hb.
  cbn [length]. rewrite bind_cons. unfold sample_frames at 1. cbn [fst snd messageCount byteCount].
  rewrite <-app_assoc. cbn [app read_samples]. unfold read_bind.
  rewrite read_string_sent, read_int_sent, read_int_sent, !s32_id by done.
  by rewrite IH.
Qed.

Lemma foldl_insert_kv {V} (l : list (string * V)) (acc : gmap string V) :
  NoDup l.*1 → foldl (λ a e, <[e.1 := e.2]> a) acc l = list_to_map l ∪ acc.
Proof.
  revert acc. induction l as [|[k v] l IH]; intros acc Hnd; cbn.
  - by rewrite map_empty_union.
  - apply NoDup_cons in Hnd as [Hk Hnd]. rewrite IH by done.
    by rewrite <-insert_union_l, insert_union_r by (by apply not_elem_of_list_to_map).
Qed.

(** Sending metrics and reading them back gives the same counts and times; nothing is
    transferred when there are no counts. *)
Theorem metrics_roundtrip m :
  metrics_ok m →
  populateFromMessage (sendAsMessage m) =
    Some (if decide (metrics m = ∅) then new_GravityMetrics else m, []).
Proof.
  intros (Hs & Hst & Het & Hsize). unfold sendAsMessage, populateFromMessage.
  case_decide as He; [done|]. unfold read_bind.
  assert (0 < size (metrics m))%nat.
  { pose proof (map_size_non_empty_iff (metrics m)) as [_ Hz]. specialize (Hz He). lia. }
  rewrite read_int_sent, s32_id by (unfold is_s32; lia). rewrite (proj2 (Z.ltb_lt _ _)) by lia.
  rewrite Nat2Z.id, <-(length_kv_items (metrics m)), read_samples_sent.
  2:{ apply Forall_forall. intros [k s] Hin. apply elem_of_kv_items in Hin. exact (Hs k s Hin). }
  rewrite read_uint64_sent, read_uint64_sent, !u64_id by done. unfold read_ret. do 2 f_equal.
  rewrite foldl_insert_kv by apply NoDup_kv_items_keys.
  rewrite map_union_empty, list_to_map_kv_items. by destruct m.
Qed.

Example metrics_roundtrip_witness :
  let m := incrementByteCount "B" 20 (incrementMessageCount "A" 1 (metrics_reset 5 new_GravityMetrics)) in
  populateFromMessage (sendAsMessage m) = Some (m, []).
Proof.
  intros m. refine (metrics_roundtrip m (bool_decide_unpack _ _)). vm_compute. exact I.
Defined.

Section sampling.
Context `{Protobuf GravityMetricsDataPB, Protobuf GravityDataProductPB}.

(** The managers that can arise. *)
Inductive metrics_reachable : MetricsManager → Prop :=
| metrics_start : metrics_reachable initial_MetricsManager
| metrics_next_command g frames g' go :
    metrics_reachable g → metrics_command frames g = Some (g', go) → metrics_reachable g'
| metrics_next_sample g pub sub now g' :
    metrics_reachable g → metrics_sample pub sub now g = Some g' → metrics_reachable g'.

(** A message that belongs to its key and has one value of each kind per sample. *)
Definition entry_ok (key : string * MetricsMessageType) (pb : GravityMetricsPB) : Prop :=
  gm_dataProductID pb = Some key.1 ∧ gm_messageType pb = Some key.2 ∧
  (0 < length (gm_numBytes pb))%nat ∧
  length (gm_numMessages pb) = length (gm_numBytes pb) ∧
  length (gm_startTime pb) = length (gm_numBytes pb) ∧
  length (gm_endTime pb) = length (gm_numBytes pb).

Definition data_ok (g : MetricsManager) : Prop := map_Forall entry_ok (mm_metricsData g).

Lemma add_sample_ok m type g id : data_ok g → data_ok (add_sample m type g id).
Proof.
  intros Hok. unfold data_ok, add_sample. cbn. apply map_Forall_insert_2; [|done].
  unfold idx. destruct (mm_metricsData g !! (id, type)) as [pb|] eqn:Hl; cbn.
  - destruct (Hok _ _ Hl) as (H1 & H2 & H3 & H4 & H5 & H6). rewrite H1.
    unfold entry_ok. cbn. rewrite !length_app. cbn. split_and!; try done; lia.
  - unfold entry_ok. cbn. split_and!; (done || lia).
Qed.

Lemma collectMetrics_ok answer type g g' :
  collectMetrics answer type g = Some g' → data_ok g → data_ok g'.
Proof.
  unfold collectMetrics. destruct (populateFromMessage answer) as [[m rest]|]; [|done].
  intros [= <-]. generalize (getDataProductIDs m). intros ids. revert g.
  induction ids as [|id ids IH]; intros g Hok; [done|]. cbn. apply IH. by apply add_sample_ok.
Qed.

(** Every message gathered for publication carries the product and the kind it is filed under,
    and its four series (start times, end times, message and byte counts) have one value per
    sample. *)
Theorem metrics_series_aligned g key pb :
  metrics_reachable g → mm_metricsData g !! key = Some pb → entry_ok key pb.
Proof.
  intros Hr. assert (data_ok g) as Hok; [|by apply Hok].
  induction Hr as [|g frames g' go Hr IH Hc|g pub sub now g' Hr IH Hs].
  - exact (map_Forall_empty entry_ok).
  - unfold metrics_command in Hc. destruct (readStringMessage frames) as [[command fs]|]; [|done].
    unfold data_ok in *.
    repeat (case_match; simplify_eq/=); try done.
    match goal with H : _ = Some (_, _) |- _ => revert H end.
    unfold read_bind, read_ret. intros Hx. repeat (case_match; simplify_eq/=); done.
  - unfold metrics_sample in Hs. destruct (mm_metricsEnabled g); [|by simplify_eq].
    destruct (collectMetrics pub PUBLICATION g) as [g1|] eqn:H1; [|done].
    destruct (collectMetrics sub SUBSCRIPTION g1) as [g2|] eqn:H2; [|done].
    assert (data_ok g2) as Hok2 by eauto using collectMetrics_ok.
    cbn zeta in Hs. case_match; simplify_eq.
    + exact (map_Forall_empty entry_ok).
    + exact Hok2.
Qed.
End sampling.

Example metrics_series_aligned_witness :
  ∃ pb, mm_metricsData (add_sample (incrementMessageCount "A" 1 new_GravityMetrics) PUBLICATION
    initial_MetricsManager "A") !! ("A", PUBLICATION) = Some pb ∧ entry_ok ("A", PUBLICATION) pb.
Proof.
  set (codec := constant_protobuf (mkGravityMetricsDataPB "" "" []) : Protobuf GravityMetricsDataPB).
  set (gdp_codec := constant_protobuf empty_GravityDataProductPB : Protobuf GravityDataProductPB).
  set (m := incrementMessageCount "A" 1 new_GravityMetrics).
  set (enable := [sendStringMessage "MetricsEnable"; sendIntMessage 1; sendIntMessage 9;
    sendStringMessage "C"; sendStringMessage "1"; sendIntMessage 7]).
  set (g1 := match metrics_command enable initial_MetricsManager with
    Some (g, _) => g | None => initial_MetricsManager end).
  set (g2 := match @metrics_sample codec gdp_codec (sendAsMessage m)
    (sendAsMessage new_GravityMetrics) 3 g1 with Some g => g | None => g1 end).
  destruct (mm_metricsData g2 !! ("A", PUBLICATION)) as [pb|] eqn:Hl;
    [|vm_compute in Hl; discriminate].
  exists pb. split.
  - rewrite <-Hl. vm_compute. reflexivity.
  - apply (@metrics_series_aligned codec gdp_codec g2 ("A", PUBLICATION) pb); [|exact Hl].
    apply (@metrics_next_sample codec gdp_codec g1 (sendAsMessage m)
      (sendAsMessage new_GravityMetrics) 3); [|vm_compute; reflexivity].
    apply (@metrics_next_command codec gdp_codec initial_MetricsManager enable g1 true);
      [constructor|vm_compute; reflexivity].
Defined.
