(* ===== verification/GravitySubscriptionManager.v ===== *)
(** * GravitySubscriptionManager: subscriptions, delivery and timeouts
    (src/src/api/cpp/GravitySubscriptionManager.cpp, DomainDataKey.cpp)

    The thread shares its [SubscriptionDetails] objects between [subscriptionMap],
    [subscriptionSocketMap] and the list of sockets to delete, and its [TimeoutMonitor]
    objects between the details and the member [currTimeoutMonitor]: both kinds live in a
    store, and the maps hold their addresses.  A [zmq_pollitem_t] is represented by its socket, a
    number; the null pointer is 0 and every call of [zmq_socket] gives a new number.  The
    first two poll items are fixed; [su_pollItems] are the others.  Calls of subscribers and
    monitors, and what the thread does to its sockets, are outputs.  [su_clock] is what the
    coming calls of [getCurrentTime] return. *)

From S2P Require Import Prelude.
From S2P Require Import Messages.
From S2P Require Import CommUtil.
From S2P Require Import GravityDataProduct.
From S2P Require Import GravityMetrics.
#[local] Open Scope gravity_scope.
#[local] Open Scope Z_scope.

(** ** State *)

Record TimeoutMonitor := mkTimeoutMonitor {
  tm_monitor : Z;
  tm_timeout : Z;
  tm_endTime : Z;
  tm_lastReceived : Z;
}.
#[export] Instance eta_TimeoutMonitor : Eta TimeoutMonitor := λ t,
  mkTimeoutMonitor (tm_monitor t) (tm_timeout t) (tm_endTime t) (tm_lastReceived t).

Definition empty_TimeoutMonitor : TimeoutMonitor := mkTimeoutMonitor 0 0 0 0.

Record SubscriptionDetails := mkSubscriptionDetails {
  sb_domain : string;
  sb_dataProductID : string;
  sb_filter : string;
  sb_receiveCachedDataProducts : bool;
  sb_pollItemMap : gmap string Z;
  sb_socketToUrlMap : gmap Z string;
  sb_subscribers : gset Z;
  sb_monitors : gset Z;
  sb_publisherUpdatePollItem : Z;
}.
#[export] Instance eta_SubscriptionDetails : Eta SubscriptionDetails := λ d,
  mkSubscriptionDetails (sb_domain d) (sb_dataProductID d) (sb_filter d)
    (sb_receiveCachedDataProducts d) (sb_pollItemMap d) (sb_socketToUrlMap d) (sb_subscribers d)
    (sb_monitors d) (sb_publisherUpdatePollItem d).

(** [new SubscriptionDetails()], a value-initialized object. *)
Definition empty_SubscriptionDetails : SubscriptionDetails :=
  mkSubscriptionDetails "" "" "" false ∅ ∅ ∅ ∅ 0.

Inductive SubscriptionOutput :=
(* calls of the application *)
| SubscriptionFilled (subscriber : Z) (dataProducts : list GravityDataProduct)
| SubscriptionTimeout (monitor : Z) (dataProductID : string) (timeSinceLast : Z)
    (filter domain : string)
(* a new socket with its high water mark, its filter and its connection *)
| Connect (socket hwm : Z) (filter url : string)
| Unsubscribe (socket : Z) (filter : string)
| Close (socket : Z)
| DirectoryNotice (serviceDirectoryUrl bytes : string)
| MetricsAnswer (frames : list frame).

(** Domain and data product, compared lexicographically. *)
Abbreviation DomainDataKey := (string * string)%type (only parsing).

Record SubscriptionManager := mkSubscriptionManager {
  su_details : gmap nat SubscriptionDetails;
  su_monitorObjects : gmap Z TimeoutMonitor;
  su_subscriptionMap : gmap DomainDataKey (gmap string nat);
  su_subscriptionSocketMap : gmap Z nat;
  su_socketVerificationMap : gmap Z Z;
  su_lastCachedValueMap : gmap Z (option GravityDataProduct);
  su_pollItems : list Z;
  su_domain : string;
  su_componentID : string;
  su_ipAddress : string;
  su_serviceDirectoryUrl : string;
  su_pollTimeout : Z;
  su_currTimeoutMonitor : option Z;
  su_currMonitorDetails : option nat;
  su_subscribeHWM : Z;
  su_metricsEnabled : bool;
  su_metricsData : GravityMetrics;
  (* the local [deleteList] of [start] *)
  su_deleteList : list (nat * Z);
  su_nextDetails : nat;
  su_nextSocket : Z;
  su_clock : nat → Z;
  su_outputs : list SubscriptionOutput;
}.
#[export] Instance eta_SubscriptionManager : Eta SubscriptionManager := λ s,
  mkSubscriptionManager (su_details s) (su_monitorObjects s) (su_subscriptionMap s)
    (su_subscriptionSocketMap s) (su_socketVerificationMap s) (su_lastCachedValueMap s)
    (su_pollItems s) (su_domain s) (su_componentID s) (su_ipAddress s) (su_serviceDirectoryUrl s)
    (su_pollTimeout s) (su_currTimeoutMonitor s) (su_currMonitorDetails s) (su_subscribeHWM s)
    (su_metricsEnabled s) (su_metricsData s) (su_deleteList s) (su_nextDetails s)
    (su_nextSocket s) (su_clock s) (su_outputs s).

(** The constructor; sockets 1 and 2 belong to the fixed poll items. *)
Definition initial_SubscriptionManager (clock : nat → Z) : SubscriptionManager :=
  mkSubscriptionManager ∅ ∅ ∅ ∅ ∅ ∅ [] "" "" "" "" (-1) None None 1000 false new_GravityMetrics
    [] 0 3 clock [].

Implicit Types s : SubscriptionManager.

Definition su_output (o : SubscriptionOutput) s : SubscriptionManager :=
  s <| su_outputs ::= λ l, l ++ [o] |>.

(** [getCurrentTime()] is [su_now s], and the clock moves on. *)
Definition su_now s : Z := su_clock s 0%nat.
Definition su_tick s : SubscriptionManager := s <| su_clock ::= λ c n, c (S n) |>.

(** Access to the objects in the stores. *)
Definition details (id : nat) s : SubscriptionDetails :=
  default empty_SubscriptionDetails (su_details s !! id).
Definition update_details (id : nat) (f : SubscriptionDetails → SubscriptionDetails) s
    : SubscriptionManager := s <| su_details ::= insert id (f (details id s)) |>.

Definition monitor_object (a : Z) s : TimeoutMonitor :=
  default empty_TimeoutMonitor (su_monitorObjects s !! a).
Definition update_monitor (a : Z) (f : TimeoutMonitor → TimeoutMonitor) s : SubscriptionManager :=
  s <| su_monitorObjects ::= insert a (f (monitor_object a s)) |>.

(** [subscriptionMap[key][filter]] when both counts are above zero. *)
Definition find_details (key : DomainDataKey) (filter : string) s : option nat :=
  filterMap ← su_subscriptionMap s !! key; filterMap !! filter.

Definition new_details (d : SubscriptionDetails) s : nat * SubscriptionManager :=
  (su_nextDetails s, s <| su_details ::= insert (su_nextDetails s) d |> <| su_nextDetails ::= S |>).

(** ** Sockets *)

(** The new socket, which is also the socket of the poll item. *)
Definition setupSubscription (url filter : string) s : Z * SubscriptionManager :=
  let subSocket := su_nextSocket s in
  let s := s <| su_nextSocket := subSocket + 1 |> in
  let s := su_output (Connect subSocket (su_subscribeHWM s) filter url) s in
  (subSocket, s <| su_pollItems ::= λ l, l ++ [subSocket] |>).

Definition removePollItem (socket : Z) s : SubscriptionManager :=
  s <| su_pollItems ::= base.filter (λ i, i ≠ socket) |>.

Definition unsubscribeFromPollItem (socket : Z) (filterText : string) s : SubscriptionManager :=
  let s := s <| su_subscriptionSocketMap ::= delete socket |>
             <| su_socketVerificationMap ::= delete socket |> in
  su_output (Close socket) (su_output (Unsubscribe socket filterText) s).

(** A socket that reads from the publisher at [url], known to the details and to the maps
    by socket. *)
Definition subscribe_url (id : nat) (url filter : string) (registration_time : Z) s
    : SubscriptionManager :=
  let '(subSocket, s) := setupSubscription url filter s in
  let s := update_details id (λ d,
    d <| sb_pollItemMap ::= insert url subSocket |>
      <| sb_socketToUrlMap ::= insert subSocket url |>) s in
  s <| su_subscriptionSocketMap ::= insert subSocket id |>
    <| su_socketVerificationMap ::= insert subSocket registration_time |>.

(** ** The publishers worth a subscription *)

Section trim.
Variables componentID ipAddress : string.

Definition has_url (p : PublisherInfoPB) : Prop := pi_url p ≠ None.
#[global] Instance has_url_dec p : Decision (has_url p).
Proof. unfold has_url. apply _. Defined.

Definition isRelay (p : PublisherInfoPB) : bool := flag (pi_isRelay p).

(** The relay among [p] is this component. *)
Definition relay_is_me (p : PublisherInfoPB) : bool :=
  bool_decide (has_url p) && isRelay p && bool_decide (str (pi_componentID p) = componentID).

Fixpoint trim_loop (iAmRelay foundGlobalRelay : bool) (fullList trimmedList : list PublisherInfoPB)
    : list PublisherInfoPB :=
  match fullList with
  | [] => trimmedList
  | p :: fullList =>
      if decide (pi_url p = None) then trim_loop iAmRelay foundGlobalRelay fullList trimmedList
      else if iAmRelay then
        trim_loop iAmRelay foundGlobalRelay fullList
          (if isRelay p then trimmedList else trimmedList ++ [p])
      else if isRelay p then
        match pi_ipAddress p with
        | None => trim_loop iAmRelay true fullList [p]
        | Some ip =>
            if decide (ip = ipAddress) then [p]
            else trim_loop iAmRelay foundGlobalRelay fullList trimmedList
        end
      else
        trim_loop iAmRelay foundGlobalRelay fullList
          (if foundGlobalRelay then trimmedList else trimmedList ++ [p])
  end.

Definition trimPublishers (fullList : list PublisherInfoPB) : list PublisherInfoPB :=
  trim_loop (existsb relay_is_me fullList) false fullList [].
End trim.

Definition su_trim (fullList : list PublisherInfoPB) s : list PublisherInfoPB :=
  trimPublishers (su_componentID s) (su_ipAddress s) fullList.

(** ** Commands of the GravityNode *)

(** An address written to a frame of eight bytes; [memcpy] of another size leaves the
    pointer undefined. *)
Definition read_pointer : reader Z := readUint64Message.

Fixpoint read_publishers `{Protobuf PublisherInfoPB} (n : nat) : reader (list PublisherInfoPB) :=
  match n with
  | O => read_ret []
  | S n => bytes <~ readStringMessage ;; pbs <~ read_publishers n ;;
           read_ret ((parse bytes).1 :: pbs)
  end.

Record SubscribeRequest := mkSubscribeRequest {
  sq_dataProductID : string;
  sq_receiveLastCachedValue : bool;
  sq_pubInfoPBs : list PublisherInfoPB;
  sq_filter : string;
  sq_domain : string;
  sq_publisherUpdateUrl : string;
  sq_subscriber : Z;
}.

Definition read_subscribe `{Protobuf PublisherInfoPB} : reader SubscribeRequest :=
  (dataProductID <~ readStringMessage ;; receiveLastCachedValue <~ readIntMessage ;;
   numPubInfoPBs <~ readUint32Message ;; pubInfoPBs <~ read_publishers (Z.to_nat numPubInfoPBs) ;;
   filter <~ readStringMessage ;; domain <~ readStringMessage ;;
   publisherUpdateUrl <~ readStringMessage ;; subscriber <~ read_pointer ;;
   read_ret (mkSubscribeRequest dataProductID (negb (receiveLastCachedValue =? 0)) pubInfoPBs
     filter domain publisherUpdateUrl subscriber)).

(** The details of a subscription, made when there are none. *)
Definition subscription_details (q : SubscribeRequest) s : nat * SubscriptionManager :=
  let key := (sq_domain q, sq_dataProductID q) in
  match find_details key (sq_filter q) s with
  | Some id => (id, s)
  | None =>
      let '(updateSocket, s) := setupSubscription (sq_publisherUpdateUrl q) (sq_dataProductID q) s in
      let '(id, s) := new_details (mkSubscriptionDetails (sq_domain q) (sq_dataProductID q)
        (sq_filter q) (sq_receiveLastCachedValue q) ∅ ∅ ∅ ∅ updateSocket) s in
      let filterMap := default ∅ (su_subscriptionMap s !! key) in
      (id, s <| su_subscriptionMap ::= insert key (<[sq_filter q := id]> filterMap) |>)
  end.

(** The loop over the publishers: a url that was not seen before is subscribed to. *)
Definition subscribe_new (id : nat) (filter : string) s (p : PublisherInfoPB)
    : SubscriptionManager :=
  match pi_url p with
  | Some url =>
      match sb_pollItemMap (details id s) !! url with
      | None => subscribe_url id url filter (num (pi_registration_time p)) s
      | Some _ => s
      end
  | None => s
  end.

Definition restart_monitor (currTime : Z) s (a : Z) : SubscriptionManager :=
  update_monitor a (λ t, t <| tm_endTime := u64 (currTime + tm_timeout t) |>) s.

(** [lastCachedValueMap[socket]] for every socket of the details. *)
Definition touch_cached s (socket : Z) : SubscriptionManager :=
  s <| su_lastCachedValueMap ::= idx_touch None socket |>.

(** [sort(dataProducts.begin(), dataProducts.end(), sortCacheValues)] by insertion, as the
    standard library sorts few elements.  (It need not keep the order of equal time stamps.) *)
Fixpoint insert_product (g : GravityDataProduct) (l : list GravityDataProduct)
    : list GravityDataProduct :=
  match l with
  | [] => [g]
  | h :: l =>
      if getGravityTimestamp g <? getGravityTimestamp h then g :: h :: l
      else h :: insert_product g l
  end.

Definition sort_products (l : list GravityDataProduct) : list GravityDataProduct :=
  foldl (flip insert_product) [] l.

(** A new subscriber gets the last values that came in on the details' sockets. *)
Definition send_cached_values (id : nat) (subscriber : Z) s : SubscriptionManager :=
  let sockets := (kv_items (sb_pollItemMap (details id s))).*2 in
  let s := foldl touch_cached s sockets in
  let dataProducts := omap (λ socket, idx None socket (su_lastCachedValueMap s)) sockets in
  if decide (dataProducts = []) then s
  else su_output (SubscriptionFilled subscriber (sort_products dataProducts)) s.

Definition addSubscription (q : SubscribeRequest) s : SubscriptionManager :=
  let '(id, s) := subscription_details q s in
  let s := foldl (subscribe_new id (sq_filter q)) s (su_trim (sq_pubInfoPBs q) s) in
  let d := details id s in
  (* if a monitor was registered before the subscription, reset the timeouts *)
  let s :=
    if decide (sb_subscribers d = ∅ ∧ sb_monitors d ≠ ∅) then
      let currTime := su_now s / 1000 in
      foldl (restart_monitor currTime) (su_tick s) (set_items (sb_monitors d))
    else s in
  if decide (sq_subscriber q ∈ sb_subscribers d) then s
  else
    let s := update_details id (λ d, d <| sb_subscribers ::= union {[sq_subscriber q]} |>) s in
    if sq_receiveLastCachedValue q then send_cached_values id (sq_subscriber q) s else s.

Record UnsubscribeRequest := mkUnsubscribeRequest {
  uq_dataProductID : string;
  uq_filter : string;
  uq_domain : string;
  uq_subscriber : Z;
}.

Definition read_unsubscribe : reader UnsubscribeRequest :=
  (dataProductID <~ readStringMessage ;; filter <~ readStringMessage ;;
   domain <~ readStringMessage ;; subscriber <~ read_pointer ;;
   read_ret (mkUnsubscribeRequest dataProductID filter domain subscriber)).

(** The entry of the filter goes, and that of the key with its last filter. *)
Definition erase_filter (key : DomainDataKey) (filter : string) s : SubscriptionManager :=
  let filterMap := delete filter (default ∅ (su_subscriptionMap s !! key)) in
  s <| su_subscriptionMap ::=
    if decide (filterMap = ∅) then delete key else insert key filterMap |>.

Definition close_publisher_updates (id : nat) (dataProductID : string) s : SubscriptionManager :=
  let socket := sb_publisherUpdatePollItem (details id s) in
  su_output (Close socket) (su_output (Unsubscribe socket dataProductID) (removePollItem socket s)).

Definition close_poll_item (filter : string) s (socket : Z) : SubscriptionManager :=
  let s := removePollItem socket (unsubscribeFromPollItem socket filter s) in
  s <| su_lastCachedValueMap ::= delete socket |>.

Definition removeSubscription (q : UnsubscribeRequest) s : SubscriptionManager :=
  let key := (uq_domain q, uq_dataProductID q) in
  let s := s <| su_metricsData ::= metrics_remove (uq_dataProductID q) |> in
  match find_details key (uq_filter q) s with
  | None => s
  | Some id =>
      let s := update_details id
        (λ d, d <| sb_subscribers ::= λ X, X ∖ {[uq_subscriber q]} |>) s in
      let d := details id s in
      if decide (sb_subscribers d = ∅) then
        let s :=
          if decide (sb_monitors d = ∅) then
            close_publisher_updates id (uq_dataProductID q) (erase_filter key (uq_filter q) s)
          else s in
        foldl (close_poll_item (uq_filter q)) s (kv_items (sb_pollItemMap d)).*2
      else s
  end.

Record MonitorRequest := mkMonitorRequest {
  mq_dataProductID : string;
  mq_monitor : Z;
  mq_timeout : Z;
  mq_filter : string;
  mq_domain : string;
}.

Definition read_set_monitor : reader MonitorRequest :=
  (dataProductID <~ readStringMessage ;; monitor <~ read_pointer ;; timeout <~ readIntMessage ;;
   filter <~ readStringMessage ;; domain <~ readStringMessage ;;
   read_ret (mkMonitorRequest dataProductID monitor timeout filter domain)).

(** No timeout in this one. *)
Definition read_clear_monitor : reader MonitorRequest :=
  (dataProductID <~ readStringMessage ;; monitor <~ read_pointer ;;
   filter <~ readStringMessage ;; domain <~ readStringMessage ;;
   read_ret (mkMonitorRequest dataProductID monitor 0 filter domain)).

(** The object among [monitors] that refers to the monitor of the application, in the order
    of the set. *)
Definition find_monitor (monitor : Z) (monitors : gset Z) s : option Z :=
  head (base.filter (λ a, tm_monitor (monitor_object a s) = monitor) (set_items monitors)).

(** Details made here have no sockets, not even that of the publisher updates, and their
    filter map replaces the one at the key. *)
Definition monitor_details (q : MonitorRequest) s : nat * SubscriptionManager :=
  let key := (mq_domain q, mq_dataProductID q) in
  let s := s <| su_subscriptionMap ::= idx_touch ∅ key |> in
  match find_details key (mq_filter q) s with
  | Some id => (id, s)
  | None =>
      let '(id, s) := new_details (empty_SubscriptionDetails <| sb_domain := mq_domain q |>
        <| sb_dataProductID := mq_dataProductID q |> <| sb_filter := mq_filter q |>) s in
      (id, s <| su_subscriptionMap ::= insert key {[mq_filter q := id]} |>)
  end.

(** [address] is that of the new object, if one is made. *)
Definition setTimeoutMonitor (q : MonitorRequest) (address : Z) s : SubscriptionManager :=
  let '(id, s) := monitor_details q s in
  let currTime := su_now s / 1000 in
  let s := su_tick s in
  let endTime := u64 (currTime + mq_timeout q) in
  match find_monitor (mq_monitor q) (sb_monitors (details id s)) s with
  | Some a =>
      update_monitor a (λ t, t <| tm_timeout := mq_timeout q |> <| tm_endTime := endTime |>) s
  | None =>
      let s := s <| su_monitorObjects ::= insert address
        (mkTimeoutMonitor (mq_monitor q) (mq_timeout q) endTime (-1)) |> in
      update_details id (λ d, d <| sb_monitors ::= union {[address]} |>) s
  end.

Definition clearTimeoutMonitor (q : MonitorRequest) s : SubscriptionManager :=
  let key := (mq_domain q, mq_dataProductID q) in
  match find_details key (mq_filter q) s with
  | None => s
  | Some id =>
      let s :=
        match find_monitor (mq_monitor q) (sb_monitors (details id s)) s with
        | None => s
        | Some a =>
            let s :=
              if decide (su_currTimeoutMonitor s = Some a) then
                s <| su_currTimeoutMonitor := None |> <| su_pollTimeout := -1 |>
              else s in
            update_details id (λ d, d <| sb_monitors ::= λ X, X ∖ {[a]} |>) s
        end in
      let d := details id s in
      if decide (sb_monitors d = ∅ ∧ sb_subscribers d = ∅) then
        close_publisher_updates id (mq_dataProductID q) (erase_filter key (mq_filter q) s)
      else s
  end.

(** ** Timeouts *)

(** A call of the monitor, whose next timeout starts where this one ended. *)
Definition call_monitor (id : nat) (a : Z) (timeSinceLast : Z) s : SubscriptionManager :=
  let d := details id s in
  let t := monitor_object a s in
  let s := su_output (SubscriptionTimeout (tm_monitor t) (sb_dataProductID d) timeSinceLast
    (sb_filter d) (sb_domain d)) s in
  update_monitor a (λ t, t <| tm_endTime := u64 (tm_endTime t + tm_timeout t) |>) s.

(** One monitor in the loops of [calculateTimeout]; [minTime] is carried along. *)
Definition check_monitor (id : nat) (acc : Z * SubscriptionManager) (a : Z)
    : Z * SubscriptionManager :=
  let '(minTime, s) := acc in
  let t := monitor_object a s in
  if decide (sb_subscribers (details id s) ≠ ∅ ∧ 0 <= tm_timeout t) then
    let currTime := su_now s / 1000 in
    let s := su_tick s in
    let timeRemaining := s64 (tm_endTime t - currTime) in
    if timeRemaining <=? 0 then
      let timeSinceLast :=
        if 0 <? tm_lastReceived t then s32 (currTime - tm_lastReceived t) else -1 in
      let s := call_monitor id a timeSinceLast s in
      (if decide (tm_timeout t < minTime ∨ minTime = -1) then tm_timeout t else minTime, s)
    else if decide (timeRemaining < minTime ∨ minTime = -1) then
      (s32 timeRemaining,
       s <| su_currTimeoutMonitor := Some a |> <| su_currMonitorDetails := Some id |>)
    else (minTime, s)
  else acc.

Definition check_details (acc : Z * SubscriptionManager) (id : nat) : Z * SubscriptionManager :=
  foldl (check_monitor id) acc (set_items (sb_monitors (details id acc.2))).

(** The details in the order of [subscriptionMap] and of its filter maps. *)
Definition all_details s : list nat :=
  kv_items (su_subscriptionMap s) ≫= λ entry, (kv_items entry.2).*2.

Definition calculateTimeout s : SubscriptionManager :=
  let s := s <| su_currTimeoutMonitor := None |> <| su_currMonitorDetails := None |> in
  let '(minTime, s) := foldl check_details (-1, s) (all_details s) in
  s <| su_pollTimeout := minTime |>.

(** The poll timed out. *)
Definition poll_timeout s : SubscriptionManager :=
  match su_currTimeoutMonitor s with
  | None => s
  | Some a =>
      let currTime := su_now s / 1000 in
      let s := su_tick s in
      let t := monitor_object a s in
      let timeSinceLast :=
        if decide (tm_lastReceived t = -1) then -1 else s32 (currTime - tm_lastReceived t) in
      call_monitor (default 0%nat (su_currMonitorDetails s)) a timeSinceLast s
  end.

(** ** Data from publishers *)

Section loop.
Context `{Protobuf GravityDataProductPB} `{Protobuf ServiceDirectoryUnregistrationPB}
  `{Protobuf ComponentDataLookupResponsePB}.

Definition notifyServiceDirectoryOfStaleEntry (dataProductId domain url : string) (regTime : Z) s
    : SubscriptionManager :=
  let unregistration := mkServiceDirectoryUnregistrationPB (Some dataProductId) (Some url)
    (Some DATA) (Some domain) (Some regTime) in
  let request := setData unregistration (new_GravityDataProduct "UnregistrationRequest") in
  su_output (DirectoryNotice (su_serviceDirectoryUrl s) (serializeToArray request)) s.

Definition delete_later (id : nat) (socket : Z) s : SubscriptionManager :=
  s <| su_deleteList ::= λ l, l ++ [(id, socket)] |>.

(** Has some socket received the relayed product already? *)
Definition cached_elsewhere (g : GravityDataProduct) s : bool :=
  existsb (λ v, match v with
    | Some h => (getGravityTimestamp h =? getGravityTimestamp g) &&
        bool_decide (getComponentId h = getComponentId g) && gdp_eqb h g
    | None => false
    end) (kv_items (su_lastCachedValueMap s)).*2.

(** Not a resend of the previous value. *)
Definition is_new (lastCachedValue : option GravityDataProduct) (g : GravityDataProduct) : bool :=
  match lastCachedValue with
  | None => true
  | Some h => (getGravityTimestamp h <? getGravityTimestamp g) ||
      ((getGravityTimestamp h =? getGravityTimestamp g) && negb (gdp_eqb h g))
  end.

(** The messages waiting on a socket, up to one of another publisher than the registered
    one; the result are the products to deliver. *)
Fixpoint read_messages (id : nat) (socket : Z) (url : string) (msgs : list (frame * frame)) s
    : list GravityDataProduct * SubscriptionManager :=
  match msgs with
  | [] => ([], s)
  | (_, bytes) :: msgs =>
      let g := GravityDataProduct_from_bytes bytes in
      let s := s <| su_socketVerificationMap ::= idx_touch 0 socket |> in
      let regTime := idx 0 socket (su_socketVerificationMap s) in
      if decide (regTime ≠ getRegistrationTime g) then
        let d := details id s in
        ([], delete_later id socket
          (notifyServiceDirectoryOfStaleEntry (sb_dataProductID d) (sb_domain d) url regTime s))
      else
        let s := touch_cached s socket in
        let lastCachedValue := idx None socket (su_lastCachedValueMap s) in
        let cachedRelay := bool_decide (lastCachedValue = None) && isRelayedDataproduct g &&
          cached_elsewhere g s in
        if negb cachedRelay && is_new lastCachedValue g then
          let g := setReceivedTimestamp (su_now s) g in
          let ignored := isCachedDataproduct g &&
            negb (sb_receiveCachedDataProducts (details id s)) in
          let s := su_tick s <| su_lastCachedValueMap ::= insert socket (Some g) |> in
          let '(dataProducts, s) := read_messages id socket url msgs s in
          (if ignored then dataProducts else g :: dataProducts, s)
        else read_messages id socket url msgs s
  end.

Definition count_product (m : GravityMetrics) (g : GravityDataProduct) : GravityMetrics :=
  incrementByteCount (getDataProductID g) (getSize g)
    (incrementMessageCount (getDataProductID g) 1 m).

Definition collectMetrics (dataProducts : list GravityDataProduct) s : SubscriptionManager :=
  s <| su_metricsData ::= λ m, foldl count_product m dataProducts |>.

Definition refresh_monitor (currTime : Z) s (a : Z) : SubscriptionManager :=
  update_monitor a (λ t, t <| tm_lastReceived := s64 currTime |>
    <| tm_endTime := u64 (currTime + tm_timeout t) |>) s.

Definition deliver (id : nat) (dataProducts : list GravityDataProduct) s : SubscriptionManager :=
  if decide (dataProducts = []) then s
  else
    let d := details id s in
    let s := foldl (λ s subscriber, su_output (SubscriptionFilled subscriber dataProducts) s) s
      (set_items (sb_subscribers d)) in
    let currTime := su_now s / 1000 in
    let s := foldl (refresh_monitor currTime) (su_tick s) (set_items (sb_monitors d)) in
    if su_metricsEnabled s then collectMetrics dataProducts s else s.

Definition data_message (id : nat) (socket : Z) (url : string) (msgs : list (frame * frame)) s
    : SubscriptionManager :=
  let '(dataProducts, s) := read_messages id socket url msgs s in
  deliver id dataProducts s.

(** ** Updates of the list of publishers *)

(** [pollItemMap[url].socket], and [socketVerificationMap] at it. *)
Definition socket_of (id : nat) (url : string) s : Z := idx 0 url (sb_pollItemMap (details id s)).
Definition verification_of (id : nat) (url : string) s : Z :=
  idx 0 (socket_of id url s) (su_socketVerificationMap s).

(** Reading both with [operator[]]. *)
Definition touch_url (id : nat) (url : string) s : SubscriptionManager :=
  let s := update_details id (λ d, d <| sb_pollItemMap ::= idx_touch 0 url |>) s in
  s <| su_socketVerificationMap ::= idx_touch 0 (socket_of id url s) |>.

(** One publisher of the trimmed list, for the details of one filter.  For a url that is
    not known, the second test compares with the entry of the null socket. *)
Definition update_publisher (id : nat) (filter : string) s (p : PublisherInfoPB)
    : SubscriptionManager :=
  let url := str (pi_url p) in
  let registration_time := num (pi_registration_time p) in
  let known := bool_decide (is_Some (sb_pollItemMap (details id s) !! url)) in
  let s := touch_url id url s in
  let updated := bool_decide (verification_of id url s ≠ registration_time) in
  let s :=
    if negb known || updated then
      let s := if updated then delete_later id (socket_of id url s) s else s in
      subscribe_url id url filter registration_time s
    else s in
  s <| su_socketVerificationMap ::= insert (socket_of id url s) registration_time |>.

(** Urls that are not in the list any more. *)
Definition delete_gone (trimmedPublishers : list PublisherInfoPB) (id : nat) s
    (entry : string * Z) : SubscriptionManager :=
  if existsb (λ p, bool_decide (entry.1 = str (pi_url p))) trimmedPublishers then s
  else delete_later id entry.2 s.

Definition update_filter (trimmedPublishers : list PublisherInfoPB) s (entry : string * nat)
    : SubscriptionManager :=
  let '(filter, id) := entry in
  let s := foldl (update_publisher id filter) s trimmedPublishers in
  foldl (delete_gone trimmedPublishers id) s (kv_items (sb_pollItemMap (details id s))).

(** A list from the directory; one message is read. *)
Definition publisher_update (msgs : list (frame * frame)) s : SubscriptionManager :=
  match msgs with
  | [] => s
  | (dataProductID, bytes) :: _ =>
      if decide (dataProductID = "") then s
      else
        let update : ComponentDataLookupResponsePB :=
          fst (populateMessage (GravityDataProduct_from_bytes bytes)) in
        match su_subscriptionMap s !! (dl_domain_id update, dataProductID) with
        | None => s
        | Some filterMap =>
            foldl (update_filter (su_trim (dl_publishers update) s)) s (kv_items filterMap)
        end
  end.

(** ** The turn of the thread *)

(** One poll item behind the fixed ones; [received] are the messages waiting on the sockets
    that poll reports. *)
Definition poll_item (received : gmap Z (list (frame * frame))) s (socket : Z)
    : SubscriptionManager :=
  match su_subscriptionSocketMap s !! socket with
  | Some id =>
      let url := idx "" socket (sb_socketToUrlMap (details id s)) in
      let s := update_details id (λ d, d <| sb_socketToUrlMap ::= idx_touch "" socket |>) s in
      match received !! socket with
      | Some msgs => data_message id socket url msgs s
      | None => s
      end
  | None =>
      match received !! socket with
      | Some msgs => publisher_update msgs s
      | None => s
      end
  end.

(** The items that the loop itself appends have no events yet. *)
Definition poll_items (received : gmap Z (list (frame * frame))) s : SubscriptionManager :=
  let s' := foldl (poll_item received) s (su_pollItems s) in
  foldl (poll_item ∅) s' (drop (length (su_pollItems s)) (su_pollItems s')).

Fixpoint erase_first (socket : Z) (items : list Z) : list Z :=
  match items with
  | [] => []
  | i :: items => if decide (socket = i) then items else i :: erase_first socket items
  end.

Definition delete_entry s (entry : nat * Z) : SubscriptionManager :=
  let '(id, socket) := entry in
  let d := details id s in
  let url := idx "" socket (sb_socketToUrlMap d) in
  let s := s <| su_subscriptionSocketMap ::= delete socket |>
             <| su_socketVerificationMap ::= delete socket |>
             <| su_lastCachedValueMap ::= delete socket |> in
  let s := su_output (Close socket) (su_output (Unsubscribe socket (sb_filter d)) s) in
  let s := update_details id (λ d,
    d <| sb_pollItemMap ::= λ m,
           if decide (idx 0 url m = socket) then delete url m else idx_touch 0 url m |>
      <| sb_socketToUrlMap ::= delete socket |>) s in
  s <| su_pollItems ::= erase_first socket |>.

Definition process_deletes s : SubscriptionManager :=
  (foldl delete_entry s (su_deleteList s)) <| su_deleteList := [] |>.

Definition metrics_command (command : string) s : SubscriptionManager :=
  let now := su_now s in
  if decide (command = "MetricsEnable") then
    su_output (MetricsAnswer [sendStringMessage "ACK"])
      (su_tick s <| su_metricsData ::= metrics_reset now |> <| su_metricsEnabled := true |>)
  else if decide (command = "MetricsDisable") then
    su_output (MetricsAnswer [sendStringMessage "ACK"]) (s <| su_metricsEnabled := false |>)
  else if decide (command = "GetMetrics") then
    let s := su_tick s <| su_metricsData ::= metrics_done now |> in
    let s := su_output (MetricsAnswer (sendAsMessage (su_metricsData s))) s in
    su_tick s <| su_metricsData ::= metrics_reset (su_now s) |>
  else s.
End loop.

(** A request of the node; [false] for the end of the thread. *)
Definition node_request `{Protobuf PublisherInfoPB} (frames : list frame) (address : Z) s
    : option (SubscriptionManager * bool) :=
  '(command, frames) ← readStringMessage frames;
  if decide (command = "subscribe") then
    '(q, _) ← read_subscribe frames; Some (addSubscription q s, true)
  else if decide (command = "unsubscribe") then
    '(q, _) ← read_unsubscribe frames; Some (removeSubscription q s, true)
  else if decide (command = "kill") then Some (s, false)
  else if decide (command = "set_hwm") then
    '(hwm, _) ← readIntMessage frames; Some (s <| su_subscribeHWM := hwm |>, true)
  else if decide (command = "set_monitor") then
    '(q, _) ← read_set_monitor frames; Some (setTimeoutMonitor q address s, true)
  else if decide (command = "clear_monitor") then
    '(q, _) ← read_clear_monitor frames; Some (clearTimeoutMonitor q s, true)
  else if decide (command = "set_service_dir_url") then
    '(url, _) ← readStringMessage frames; Some (s <| su_serviceDirectoryUrl := url |>, true)
  else Some (s, true).

(** What [zmq_poll] gives: an interruption, an error, a timeout, or messages: of the node
    (with the address of a new monitor object), of the metrics manager, and on sockets. *)
Inductive PollResult :=
| PollInterrupted
| PollError
| PollTimeout
| PollReady (request : option (list frame)) (address : Z) (metrics : option string)
    (received : gmap Z (list (frame * frame))).

Section turn.
Context `{Protobuf GravityDataProductPB} `{Protobuf ServiceDirectoryUnregistrationPB}
  `{Protobuf ComponentDataLookupResponsePB} `{Protobuf PublisherInfoPB}.

(** What follows the requests of a turn. *)
Definition after_request (metrics : option string) (received : gmap Z (list (frame * frame))) s
    : SubscriptionManager :=
  let s := match metrics with Some command => metrics_command command s | None => s end in
  process_deletes (poll_items received s).

(** One turn of the loop in [start]; [false] says that the loop ends. *)
Definition subscription_turn (poll : PollResult) s : option (SubscriptionManager * bool) :=
  let s := calculateTimeout s in
  match poll with
  | PollInterrupted => Some (s, true)
  | PollError => Some (s, false)
  | PollTimeout => Some (poll_timeout s, true)
  | PollReady request address metrics received =>
      let received := base.filter (λ kv, kv.1 ∈ su_pollItems s) received in
      '(s, continue) ← match request with
        | Some frames => node_request frames address s
        | None => Some (s, true)
        end;
      if continue : bool then Some (after_request metrics received s, true) else Some (s, false)
  end.

(** The messages up to [configure], which gives the particulars of the node. *)
Definition configure (frames : list frame) s : option SubscriptionManager :=
  '(command, frames) ← readStringMessage frames;
  if decide (command = "configure") then
    '(domain, frames) ← readStringMessage frames;
    '(componentID, frames) ← readStringMessage frames;
    '(ipAddress, _) ← readStringMessage frames;
    Some (s <| su_domain := domain |> <| su_componentID := componentID |>
            <| su_ipAddress := ipAddress |>)
  else Some s.

(** The sockets closed when the loop ends. *)
Definition close_details (s : SubscriptionManager) (id : nat) : SubscriptionManager :=
  let d := details id s in
  su_output (Close (sb_publisherUpdatePollItem d))
    (foldl (λ s socket, su_output (Close socket) s) s (kv_items (sb_pollItemMap d)).*2).

Definition clean_up s : SubscriptionManager :=
  let s := foldl close_details s (all_details s) in
  s <| su_subscriptionMap := ∅ |> <| su_subscriptionSocketMap := ∅ |>
    <| su_socketVerificationMap := ∅ |>.
End turn.
