(* ===== verification/GravitySubscriptionManagerProofs.v ===== *)
(** * What the subscription manager guarantees

    Which publishers are subscribed to; the consistency of the maps by socket, by url and by
    key in every reachable state; how a list of publishers is mirrored; what subscribers get
    and when monitors are called. *)

From S2P Require Import Prelude.
From S2P Require Import Messages.
From S2P Require Import CommUtil.
From S2P Require Import GravityDataProduct.
From S2P Require Import GravityMetrics.
From S2P Require Import GravitySubscriptionManager.
#[local] Open Scope gravity_scope.
#[local] Open Scope Z_scope.

Implicit Types s : SubscriptionManager.

(** ** Trimming the list of publishers *)

Section trim_spec.
Variables componentID ipAddress : string.

Definition local_relay (p : PublisherInfoPB) : Prop :=
  has_url p ∧ isRelay p = true ∧ pi_ipAddress p = Some ipAddress.
Definition global_relay (p : PublisherInfoPB) : Prop :=
  has_url p ∧ isRelay p = true ∧ pi_ipAddress p = None.
Definition plain (p : PublisherInfoPB) : Prop := has_url p ∧ isRelay p = false.

#[export] Instance local_relay_dec p : Decision (local_relay p).
Proof. unfold local_relay. apply _. Defined.
#[export] Instance global_relay_dec p : Decision (global_relay p).
Proof. unfold global_relay. apply _. Defined.
#[export] Instance plain_dec p : Decision (plain p).
Proof. unfold plain. apply _. Defined.

(** Which publishers count, without the loop. *)
Definition trimmed (l : list PublisherInfoPB) : list PublisherInfoPB :=
  if existsb (relay_is_me componentID) l then base.filter plain l
  else match head (base.filter local_relay l), last (base.filter global_relay l) with
  | Some p, _ => [p]
  | None, Some p => [p]
  | None, None => base.filter plain l
  end.

Lemma trim_loop_relay found l acc :
  trim_loop ipAddress true found l acc = acc ++ base.filter plain l.
Proof.
  revert acc. induction l as [|p l IH]; intros acc; cbn [trim_loop]; [by rewrite app_nil_r|].
  rewrite filter_cons. destruct (decide (pi_url p = None)) as [Eu|Eu].
  - rewrite (decide_False (P := plain p)) by (by intros [? _]). apply IH.
  - rewrite IH. destruct (isRelay p) eqn:Er.
    + rewrite decide_False; [done|]. intros [_ ?]. congruence.
    + rewrite decide_True by done. by rewrite <- app_assoc.
Qed.

Lemma trim_loop_other found l acc :
  trim_loop ipAddress false found l acc =
  match head (base.filter local_relay l), last (base.filter global_relay l) with
  | Some p, _ => [p]
  | None, Some p => [p]
  | None, None => if found then acc else acc ++ base.filter plain l
  end.
Proof.
  revert found acc. induction l as [|p l IH]; intros found acc; cbn [trim_loop].
  { cbn. rewrite app_nil_r. by destruct found. }
  rewrite !filter_cons. destruct (decide (pi_url p = None)) as [Eu|Eu].
  { rewrite (decide_False (P := plain p)), (decide_False (P := local_relay p)),
      (decide_False (P := global_relay p)) by (by intros [? ?]). apply IH. }
  destruct (isRelay p) eqn:Er.
  - rewrite (decide_False (P := plain p)) by (intros [_ ?]; congruence).
    destruct (pi_ipAddress p) as [ip|] eqn:Ei.
    + rewrite (decide_False (P := global_relay p)) by (intros (_ & _ & ?); congruence).
      destruct (decide (ip = ipAddress)) as [->|Hne].
      * by rewrite (decide_True (P := local_relay p)).
      * rewrite (decide_False (P := local_relay p)) by (intros (_ & _ & ?); congruence).
        apply IH.
    + rewrite (decide_False (P := local_relay p)) by (intros (_ & _ & ?); congruence).
      rewrite (decide_True (P := global_relay p)), IH, last_cons by done.
      destruct (head _); [done|]. by destruct (last _).
  - rewrite (decide_False (P := local_relay p)), (decide_False (P := global_relay p))
      by (intros (_ & ? & _); congruence).
    rewrite (decide_True (P := plain p)), IH by done.
    destruct (head _); [done|]. destruct (last _); [done|].
    destruct found; [done|]. by rewrite <- app_assoc.
Qed.

(** C17. A relay is subscribed to instead of its publishers: the first one on this machine, else
    the last one for any machine; the publishers themselves are for a relay of the product,
    or when there is no relay to use. *)
Theorem trimPublishers_spec l : trimPublishers componentID ipAddress l = trimmed l.
Proof.
  unfold trimPublishers, trimmed. destruct (existsb _ l).
  - by rewrite trim_loop_relay.
  - by rewrite trim_loop_other.
Qed.

Lemma trimmed_has_url l p : p ∈ trimmed l → has_url p ∧ p ∈ l.
Proof.
  assert (Hp : ∀ q, q ∈ base.filter plain l → has_url q ∧ q ∈ l)
    by (intros q [[? _] ?]%list_elem_of_filter; done).
  unfold trimmed. destruct (existsb _ l); [apply Hp|].
  destruct (base.filter local_relay l) as [|q l'] eqn:El; cbn.
  - destruct (last _) as [q|] eqn:Eq; [|apply Hp].
    intros ->%list_elem_of_singleton. apply last_Some_elem_of, list_elem_of_filter in Eq as [[? _] ?].
    done.
  - intros ->%list_elem_of_singleton.
    assert (q ∈ base.filter local_relay l) as [[? _] ?]%list_elem_of_filter by (rewrite El; left).
    done.
Qed.
End trim_spec.

(** ** Consistency of the maps

    [pending] are the sockets that are to be deleted at the end of the turn. *)

Abbreviation store := (gmap nat SubscriptionDetails) (only parsing).

(** Every entry of [subscriptionMap] leads to details of that key and filter. *)
Definition map_ok (D : store) (M : gmap DomainDataKey (gmap string nat)) : Prop :=
  ∀ key m, M !! key = Some m → m ≠ ∅ ∧ ∀ filter id, m !! filter = Some id →
    ∃ d, D !! id = Some d ∧ (sb_domain d, sb_dataProductID d) = key ∧ sb_filter d = filter.

(** A socket that is listened to is polled and verified, and is the one of its url (or is
    about to be deleted). *)
Definition sockets_ok (pending : list (nat * Z)) (D : store) (S : gmap Z nat) (V : gmap Z Z)
    (P : list Z) : Prop :=
  ∀ socket id, S !! socket = Some id → is_Some (V !! socket) ∧ socket ∈ P ∧
    ∃ d url, D !! id = Some d ∧ sb_socketToUrlMap d !! socket = Some url ∧
      (sb_pollItemMap d !! url = Some socket ∨ (id, socket) ∈ pending).

(** The sockets of the urls are known by their urls, and belong to no other details. *)
Definition urls_ok (n : Z) (D : store) (S : gmap Z nat) : Prop :=
  ∀ id d, D !! id = Some d → ∀ url socket, sb_pollItemMap d !! url = Some socket →
    0 <= socket < n ∧ (socket = 0 ∨ sb_socketToUrlMap d !! socket = Some url) ∧
    ∀ id', S !! socket = Some id' → id' = id.

Definition updates_ok (n : Z) (D : store) (S : gmap Z nat) : Prop :=
  ∀ id d, D !! id = Some d →
    0 <= sb_publisherUpdatePollItem d < n ∧ S !! sb_publisherUpdatePollItem d = None.

Definition verification_ok (S : gmap Z nat) (V : gmap Z Z) : Prop :=
  ∀ socket t, V !! socket = Some t → t ≠ 0 → is_Some (S !! socket).

Definition items_ok (n : Z) (P : list Z) : Prop :=
  3 <= n ∧ NoDup P ∧ ∀ i, i ∈ P → 0 < i < n.

Definition ids_ok (k : nat) (D : store) : Prop := ∀ id, is_Some (D !! id) → (id < k)%nat.

Definition pending_ok (pending : list (nat * Z)) (D : store) : Prop :=
  ∀ id socket, (id, socket) ∈ pending → is_Some (D !! id).

Definition monitors_ok (D : store) (O : gmap Z TimeoutMonitor) : Prop :=
  ∀ id d a, D !! id = Some d → a ∈ sb_monitors d → is_Some (O !! a).

Record consistent (pending : list (nat * Z)) s : Prop := {
  c_map : map_ok (su_details s) (su_subscriptionMap s);
  c_sockets : sockets_ok pending (su_details s) (su_subscriptionSocketMap s)
    (su_socketVerificationMap s) (su_pollItems s);
  c_urls : urls_ok (su_nextSocket s) (su_details s) (su_subscriptionSocketMap s);
  c_updates : updates_ok (su_nextSocket s) (su_details s) (su_subscriptionSocketMap s);
  c_verification : verification_ok (su_subscriptionSocketMap s) (su_socketVerificationMap s);
  c_items : items_ok (su_nextSocket s) (su_pollItems s);
  c_ids : ids_ok (su_nextDetails s) (su_details s);
  c_pending : pending_ok pending (su_details s);
  c_monitors : monitors_ok (su_details s) (su_monitorObjects s);
}.

(** Outputs, clocks, caches and metrics do not matter for it. *)
Definition core s :=
  (su_details s, su_monitorObjects s, su_subscriptionMap s, su_subscriptionSocketMap s,
   su_socketVerificationMap s, su_pollItems s, su_nextDetails s, su_nextSocket s).

Lemma consistent_core pending s s' : core s = core s' → consistent pending s → consistent pending s'.
Proof.
  unfold core. intros E []. injection E as E1 E2 E3 E4 E5 E6 E7 E8.
  split; rewrite <- ?E1, <- ?E2, <- ?E3, <- ?E4, <- ?E5, <- ?E6, <- ?E7, <- ?E8; done.
Qed.

Lemma foldl_inv {A B} (P : B → Prop) (f : B → A → B) l b :
  P b → (∀ b x, x ∈ l → P b → P (f b x)) → P (foldl f b l).
Proof.
  revert b. induction l as [|x l IH]; intros b Hb Hf; cbn; [done|].
  apply IH; [apply Hf; [left|done]|]. intros b' y Hy. apply Hf. by right.
Qed.

(** *** Primitive steps *)

Lemma details_Some id d s : su_details s !! id = Some d → details id s = d.
Proof. unfold details. by intros ->. Qed.

Lemma lookup_update_details id id' f s :
  su_details (update_details id f s) !! id' =
  if decide (id = id') then Some (f (details id s)) else su_details s !! id'.
Proof. cbn. apply lookup_insert. Qed.

Lemma details_update id id' f s :
  details id' (update_details id f s) = if decide (id = id') then f (details id s) else details id' s.
Proof. unfold details at 1. rewrite lookup_update_details. by case_decide. Qed.

(** The details keep their names, their sockets and their urls. *)
Definition same_sockets (d d' : SubscriptionDetails) : Prop :=
  sb_domain d' = sb_domain d ∧ sb_dataProductID d' = sb_dataProductID d ∧
  sb_filter d' = sb_filter d ∧ sb_pollItemMap d' = sb_pollItemMap d ∧
  sb_socketToUrlMap d' = sb_socketToUrlMap d ∧
  sb_publisherUpdatePollItem d' = sb_publisherUpdatePollItem d.

Lemma map_ok_update D M id d d' :
  map_ok D M → D !! id = Some d → sb_domain d' = sb_domain d →
  sb_dataProductID d' = sb_dataProductID d → sb_filter d' = sb_filter d →
  map_ok (<[id := d']> D) M.
Proof.
  intros HM Hd E1 E2 E3 key m [Hne HF]%HM. split; [done|].
  intros filter id' (d0 & Hd0 & Ek & Ef)%HF. rewrite lookup_insert.
  destruct (decide (id = id')) as [->|]; [|eauto]. rewrite Hd in Hd0. injection Hd0 as <-.
  exists d'. rewrite E1, E2, E3. done.
Qed.

(** The conditions on the details with a socket or a url changed; the rest is as before. *)
Lemma consistent_update_details pending id f s :
  is_Some (su_details s !! id) → consistent pending s →
  let d := details id s in
  let S := su_subscriptionSocketMap s in
  sb_domain (f d) = sb_domain d → sb_dataProductID (f d) = sb_dataProductID d →
  sb_filter (f d) = sb_filter d → 
  sb_publisherUpdatePollItem (f d) = sb_publisherUpdatePollItem d →
  (∀ a, a ∈ sb_monitors (f d) → is_Some (su_monitorObjects s !! a)) →
  (∀ socket, S !! socket = Some id → ∃ url, sb_socketToUrlMap (f d) !! socket = Some url ∧
    (sb_pollItemMap (f d) !! url = Some socket ∨ (id, socket) ∈ pending)) →
  (∀ url socket, sb_pollItemMap (f d) !! url = Some socket →
    0 <= socket < su_nextSocket s ∧ (socket = 0 ∨ sb_socketToUrlMap (f d) !! socket = Some url) ∧
    ∀ id', S !! socket = Some id' → id' = id) →
  consistent pending (update_details id f s).
Proof.
  intros [d Hd] [] d0 S E1 E2 E3 E4 HM HS HU. subst S.
  assert (d0 = d) as Ed by (by apply details_Some). unfold update_details.
  split; cbn; fold d0; rewrite ?Ed in *; try done.
  - by apply map_ok_update with d.
  - intros socket id' Hid. destruct (c_sockets0 _ _ Hid) as (? & ? & d1 & url & ? & ? & ?).
    split_and!; [done..|]. destruct (decide (id = id')) as [->|Hne].
    + destruct (HS _ Hid) as (url' & ? & ?). exists (f d), url'. by rewrite lookup_insert_eq.
    + exists d1, url. by rewrite lookup_insert_ne.
  - intros id' d1. rewrite lookup_insert. destruct (decide (id = id')) as [->|]; [|apply c_urls0].
    intros [= <-]. apply HU.
  - intros id' d1. rewrite lookup_insert. destruct (decide (id = id')) as [->|]; [|apply c_updates0].
    intros [= <-]. rewrite E4. exact (c_updates0 _ _ Hd).
  - intros id'. rewrite lookup_insert. destruct (decide (id = id')) as [->|]; [|apply c_ids0].
    intros _. by apply c_ids0; eexists.
  - intros id' socket Hin. rewrite lookup_insert. case_decide; [done|]. by eapply c_pending0.
  - intros id' d1 a. rewrite lookup_insert. destruct (decide (id = id')) as [->|]; [|apply c_monitors0].
    intros [= <-]. apply HM.
Qed.

Lemma consistent_same_sockets pending id f s :
  is_Some (su_details s !! id) → consistent pending s → same_sockets (details id s) (f (details id s)) →
  (∀ a, a ∈ sb_monitors (f (details id s)) → is_Some (su_monitorObjects s !! a)) →
  consistent pending (update_details id f s).
Proof.
  intros Hid W (E1 & E2 & E3 & E4 & E5 & E6) HM. destruct Hid as [d Hd].
  apply consistent_update_details; try done.
  - intros socket Hs. destruct (c_sockets _ _ W _ _ Hs) as (_ & _ & d' & url & Hd' & ? & ?).
    rewrite Hd in Hd'. injection Hd' as <-. exists url. rewrite E4, E5.
    by rewrite (details_Some _ _ _ Hd).
  - intros url socket. rewrite E4, E5. rewrite (details_Some _ _ _ Hd). apply (c_urls _ _ W _ _ Hd).
Qed.

Definition valid (id : nat) s : Prop := is_Some (su_details s !! id).

Lemma valid_update id id' f s : valid id s → valid id (update_details id' f s).
Proof. unfold valid. rewrite lookup_update_details. by case_decide. Qed.

Lemma valid_details id s : valid id s → su_details s !! id = Some (details id s).
Proof. intros [d Hd]. by rewrite Hd, (details_Some _ _ _ Hd). Qed.

Lemma pending_subset l l' s :
  consistent l s → l ⊆ l' → (∀ id socket, (id, socket) ∈ l' → valid id s) → consistent l' s.
Proof.
  intros [] Hl HD. split; try done.
  intros socket id Hid. destruct (c_sockets0 _ _ Hid) as (? & ? & d & url & ? & ? & [?|?]);
    split_and!; try done; exists d, url; auto.
Qed.

Lemma pending_drop l id socket s :
  consistent ((id, socket) :: l) s → su_subscriptionSocketMap s !! socket = None → consistent l s.
Proof.
  intros [] Hn. split; try done.
  - intros socket' id' Hid. destruct (c_sockets0 _ _ Hid) as (? & ? & d & url & ? & ? & Hc).
    split_and!; try done. exists d, url. split_and!; try done.
    destruct Hc as [?|[[= -> ->]|?]%elem_of_cons]; auto. congruence.
  - intros id' socket' Hin. apply (c_pending0 id' socket'). by right.
Qed.

(** A new socket for a url; one that the url had before must be about to go. *)
Lemma consistent_subscribe_url pending id url filter t s :
  consistent pending s → valid id s →
  (∀ old, sb_pollItemMap (details id s) !! url = Some old →
    su_subscriptionSocketMap s !! old = Some id → (id, old) ∈ pending) →
  consistent pending (subscribe_url id url filter t s).
Proof.
  intros [] Hv Hold. pose proof (valid_details _ _ Hv) as Hd.
  destruct c_items0 as (Hn & Hnd & HP).
  assert (HS : su_subscriptionSocketMap s !! su_nextSocket s = None).
  { destruct (_ !! su_nextSocket s) eqn:E; [|done].
    destruct (c_sockets0 _ _ E) as (_ & Hin & _). apply HP in Hin. lia. }
  unfold subscribe_url, setupSubscription. split; cbn.
  - by eapply map_ok_update.
  - intros socket id'. rewrite !lookup_insert. destruct (decide (su_nextSocket s = socket)) as [<-|Hne].
    + intros [= <-]. split_and!; [done|set_solver|]. eexists _, url.
      rewrite decide_True by done. split; [done|]. cbn. rewrite !lookup_insert_eq. auto.
    + intros Hid. destruct (c_sockets0 _ _ Hid) as (? & ? & d & url' & Hd' & ? & Hc).
      split_and!; [done|set_solver|]. destruct (decide (id = id')) as [<-|].
      * rewrite Hd in Hd'. injection Hd' as <-. eexists _, url'. split; [done|].
        cbn. split; [by rewrite lookup_insert_ne|].
        rewrite lookup_insert. destruct (decide (url = url')) as [<-|]; [|done].
        right. destruct Hc as [Hc|]; [|done]. by apply Hold.
      * eauto.
  - intros id' d'. rewrite lookup_insert. intros Hd' url' socket Hu.
    destruct (decide (id = id')) as [<-|Hne].
    + injection Hd' as <-. cbn in Hu |- *. rewrite lookup_insert in Hu.
      destruct (decide (url = url')) as [<-|].
      * injection Hu as <-. rewrite !lookup_insert_eq. split_and!; [lia|lia|by right|by intros ? [= <-]].
      * destruct (c_urls0 _ _ Hd _ _ Hu) as (? & ? & ?). rewrite !lookup_insert_ne by lia.
        split_and!; [lia|lia|done|done].
    + destruct (c_urls0 _ _ Hd' _ _ Hu) as (? & ? & ?). rewrite lookup_insert_ne by lia.
      split_and!; [lia|lia|done|done].
  - intros id' d' Hd'.
    assert (∃ d0, su_details s !! id' = Some d0 ∧
      sb_publisherUpdatePollItem d' = sb_publisherUpdatePollItem d0) as (d0 & Hd0 & ->).
    { revert Hd'. rewrite lookup_insert. case_decide; subst; [|eauto]. intros [= <-]. eauto. }
    destruct (c_updates0 _ _ Hd0). rewrite lookup_insert_ne by lia. split; [lia|done].
  - intros socket t'. rewrite !lookup_insert. case_decide; [done|]. apply c_verification0.
  - split_and!; [lia| |].
    + apply NoDup_app. split_and!; [done| |apply NoDup_singleton].
      intros i Hi ->%list_elem_of_singleton. apply HP in Hi. lia.
    + intros i [Hi| ->%list_elem_of_singleton]%elem_of_app; [apply HP in Hi|]; lia.
  - intros id'. rewrite lookup_insert. destruct (decide (id = id')) as [<-|]; [|apply c_ids0].
    intros _. by apply c_ids0.
  - intros id' socket Hin. rewrite lookup_insert. case_decide; [done|]. by eapply c_pending0.
  - intros id' d' a. rewrite lookup_insert. case_decide; [|apply c_monitors0].
    intros [= <-]. subst. apply (c_monitors0 _ _ _ Hd).
Qed.

(** Forgetting a socket. *)
Lemma consistent_forget pending socket s s' :
  core s' = core (s <| su_subscriptionSocketMap ::= delete socket |>
    <| su_socketVerificationMap ::= delete socket |>) →
  consistent pending s → consistent pending s'.
Proof.
  intros E W. eapply consistent_core; [symmetry; exact E|]. destruct W. split; cbn; try done.
  - intros k id Hk. apply lookup_delete_Some in Hk as [Hne Hid]. rewrite lookup_delete_ne by done. by apply c_sockets0.
  - intros id d Hd url k Hu. destruct (c_urls0 _ _ Hd _ _ Hu) as (? & ? & Hid).
    do 2 (split; [done|]). intros id' Hk. apply lookup_delete_Some in Hk as [_ Hk]. auto.
  - intros id d Hd. destruct (c_updates0 _ _ Hd). split; [done|]. by apply lookup_delete_None; right.
  - intros k t Hk Ht. apply lookup_delete_Some in Hk as [Hne Hk]. rewrite lookup_delete_ne by done.
    by apply (c_verification0 _ _ Hk).
Qed.

(** A socket that is not listened to leaves the poll items. *)
Lemma consistent_remove_items pending socket P s :
  consistent pending s → su_subscriptionSocketMap s !! socket = None → NoDup P →
  (∀ i, i ∈ P → i ∈ su_pollItems s) → (∀ i, i ∈ su_pollItems s → i ≠ socket → i ∈ P) →
  consistent pending (s <| su_pollItems := P |>).
Proof.
  intros [] Hn Hnd H1 H2. split; cbn; try done.
  - intros k id Hk. destruct (c_sockets0 _ _ Hk) as (? & ? & ?).
    split_and!; [done| |done]. apply H2; congruence.
  - destruct c_items0 as (? & _ & HP). split_and!; [done|done|auto].
Qed.

Lemma consistent_removePollItem pending socket s :
  consistent pending s → su_subscriptionSocketMap s !! socket = None →
  consistent pending (removePollItem socket s).
Proof.
  intros W Hn. apply (consistent_remove_items pending socket); try done.
  - apply NoDup_filter, (c_items _ _ W).
  - by intros i [_ ?]%list_elem_of_filter.
  - intros i ??. by apply list_elem_of_filter.
Qed.

Lemma consistent_update_monitor pending a f s :
  consistent pending s → consistent pending (update_monitor a f s).
Proof.
  intros []. split; cbn; try done. intros id d b Hd Hb. rewrite lookup_insert.
  case_decide; [done|]. by eapply c_monitors0.
Qed.

(** [socketVerificationMap] at a null or closed socket. *)
Lemma consistent_touch_verification pending socket s :
  consistent pending s →
  consistent pending (s <| su_socketVerificationMap ::= idx_touch 0 socket |>).
Proof.
  intros []. split; cbn; try done.
  - intros k id Hk. destruct (c_sockets0 _ _ Hk) as (? & ? & ?). rewrite idx_touch_lookup.
    split_and!; [by case_decide|done|done].
  - intros k t. rewrite idx_touch_lookup. case_decide; [|apply c_verification0].
    subst. intros [= <-]. unfold idx. destruct (_ !! k) eqn:E; [|done]. by apply c_verification0.
Qed.

Lemma consistent_verify pending socket t s :
  consistent pending s → is_Some (su_subscriptionSocketMap s !! socket) →
  consistent pending (s <| su_socketVerificationMap ::= insert socket t |>).
Proof.
  intros [] HS. split; cbn; try done.
  - intros k id Hk. destruct (c_sockets0 _ _ Hk) as (? & ? & ?). rewrite lookup_insert.
    split_and!; [by case_decide|done|done].
  - intros k t'. rewrite lookup_insert. case_decide; [by subst|apply c_verification0].
Qed.

(** *** The operations *)

Definition ok s : Prop := consistent (su_deleteList s) s.

Lemma ok_core s s' : core s = core s' → su_deleteList s = su_deleteList s' → ok s → ok s'.
Proof. unfold ok. intros E <-. by apply consistent_core. Qed.

(** Steps that leave the maps alone. *)
Ltac same_core := by (eapply ok_core; [| |eassumption]).

Lemma closed_next s : ok s → su_subscriptionSocketMap s !! su_nextSocket s = None.
Proof.
  intros W. destruct (_ !! _) eqn:E; [|done]. destruct (c_sockets _ _ W _ _ E) as (_ & Hin & _).
  apply (c_items _ _ W) in Hin. lia.
Qed.

Lemma ok_setup url filter s : ok s → ok (setupSubscription url filter s).2.
Proof.
  intros W. pose proof (closed_next _ W) as HS. destruct W, c_items0 as (Hn & Hnd & HP).
  split; cbn; try done.
  - intros k id Hk. destruct (c_sockets0 _ _ Hk) as (? & ? & ?). split_and!; [done|set_solver|done].
  - intros id d Hd u k Hu. destruct (c_urls0 _ _ Hd _ _ Hu) as (? & ? & ?). split; [lia|done].
  - intros id d Hd. destruct (c_updates0 _ _ Hd). split; [lia|done].
  - split_and!; [lia| |].
    + apply NoDup_app. split_and!; [done| |apply NoDup_singleton].
      intros i Hi ->%list_elem_of_singleton. apply HP in Hi. lia.
    + intros i [Hi| ->%list_elem_of_singleton]%elem_of_app; [apply HP in Hi|]; lia.
Qed.

(** New details, entered in the filter map [m]. *)
Lemma ok_new_details d key filter m s :
  ok s → (sb_domain d, sb_dataProductID d) = key → sb_filter d = filter →
  sb_pollItemMap d = ∅ → sb_monitors d = ∅ →
  0 <= sb_publisherUpdatePollItem d < su_nextSocket s →
  su_subscriptionSocketMap s !! sb_publisherUpdatePollItem d = None →
  (m = ∅ ∨ su_subscriptionMap s !! key = Some m) →
  let '(id, s') := new_details d s in
  let s' := s' <| su_subscriptionMap ::= insert key (<[filter := id]> m) |> in
  ok s' ∧ valid id s'.
Proof.
  intros W Ek Ef EP EM Hu HS Hm. cbn. unfold valid. cbn. rewrite lookup_insert_eq. split; [|done].
  assert (Hfresh : su_details s !! su_nextDetails s = None).
  { apply eq_None_not_Some. intros Hs%(c_ids _ _ W). lia. }
  assert (Hother : ∀ id d', su_details s !! id = Some d' →
    (<[su_nextDetails s := d]> (su_details s)) !! id = Some d')
    by (intros id d' Hd'; rewrite lookup_insert_ne by congruence; done).
  destruct W. split; cbn; try done.
  - assert (Hold : ∀ m', (m' = ∅ ∨ su_subscriptionMap s !! key = Some m') → ∀ filter id, m' !! filter = Some id →
      ∃ d', <[su_nextDetails s := d]> (su_details s) !! id = Some d' ∧
        (sb_domain d', sb_dataProductID d') = key ∧ sb_filter d' = filter).
    { intros m' Hm' f id Hid. destruct Hm' as [->|Hm']; [done|].
      destruct (c_map0 _ _ Hm') as [_ HF]. destruct (HF _ _ Hid) as (d' & ? & ?). eauto. }
    intros key' m'. rewrite lookup_insert. destruct (decide (key = key')) as [->|].
    + intros [= <-]. split; [apply insert_non_empty|]. intros f id. rewrite lookup_insert.
      case_decide; [|by apply Hold]. intros [= <-]. exists d. rewrite lookup_insert_eq. by subst.
    + intros [Hne HF]%c_map0. split; [done|]. intros f id (d' & ? & ?)%HF. eauto.
  - intros k id Hk. destruct (c_sockets0 _ _ Hk) as (? & ? & d' & u & ? & ?). eauto 10.
  - intros id d'. rewrite lookup_insert. case_decide; [|apply c_urls0]. intros [= <-] url k.
    by rewrite EP.
  - intros id d'. rewrite lookup_insert. case_decide; [|apply c_updates0]. by intros [= <-].
  - intros id. rewrite lookup_insert. case_decide; [lia|]. intros ?%c_ids0. lia.
  - intros id k Hin. rewrite lookup_insert. case_decide; [done|]. by eapply c_pending0.
  - intros id d' a. rewrite lookup_insert. case_decide; [|apply c_monitors0]. intros [= <-].
    rewrite EM. set_solver.
Qed.

Lemma find_details_valid key filter id s : ok s → find_details key filter s = Some id → valid id s.
Proof.
  unfold find_details. intros W (m & Hm & Hid)%bind_Some.
  destruct (c_map _ _ W _ _ Hm) as [_ HF]. destruct (HF _ _ Hid) as (d & ? & _). by exists d.
Qed.

Lemma ok_subscription_details q s :
  ok s → let '(id, s') := subscription_details q s in ok s' ∧ valid id s'.
Proof.
  intros W. unfold subscription_details. destruct (find_details _ _ s) as [id|] eqn:E.
  { split; [done|]. by eapply find_details_valid. }
  pose proof (ok_setup (sq_publisherUpdateUrl q) (sq_dataProductID q) _ W) as W'.
  destruct (setupSubscription _ _ s) as [u s1] eqn:E1. cbn in W'.
  injection E1 as <- <-.
  apply (ok_new_details _ _ _ (default ∅ _) _ W'); try done; cbn.
  - pose proof (c_items _ _ W) as (? & _). lia.
  - by apply closed_next.
  - destruct (_ !! _) eqn:Ek; cbn; auto.
Qed.

Lemma ok_subscribe_new id filter s p :
  ok s ∧ valid id s → ok (subscribe_new id filter s p) ∧ valid id (subscribe_new id filter s p).
Proof.
  intros [W V]. unfold subscribe_new. destruct (pi_url p) as [url|]; [|done].
  destruct (_ !! url) eqn:E; [done|]. split.
  - unfold ok. apply consistent_subscribe_url; try done. congruence.
  - unfold valid. cbn. rewrite lookup_insert. by case_decide.
Qed.

Lemma ok_update_monitors {A} (f : A → SubscriptionManager → Z → SubscriptionManager) (x : A) l s id :
  (∀ s a, ∃ g, f x s a = update_monitor a g s) →
  ok s ∧ valid id s → ok (foldl (f x) s l) ∧ valid id (foldl (f x) s l).
Proof.
  intros Hf HP. apply (foldl_inv (λ s, ok s ∧ valid id s)); [done|]. intros s' a _ [W V].
  destruct (Hf s' a) as [g ->]. split; [by apply consistent_update_monitor|done].
Qed.

Lemma ok_valid_fold {A} (f : SubscriptionManager → A → SubscriptionManager) l s id :
  (∀ s x, x ∈ l → core s = core (f s x) ∧ su_deleteList s = su_deleteList (f s x)) →
  ok s ∧ valid id s → ok (foldl f s l) ∧ valid id (foldl f s l).
Proof.
  intros Hf HP. apply (foldl_inv (λ s, ok s ∧ valid id s)); [done|]. intros s' x Hx [W V].
  destruct (Hf s' x Hx) as [Hc Hd]. split; [by eapply ok_core|].
  unfold valid, core in *. congruence.
Qed.

Lemma ok_send_cached id subscriber s :
  ok s → valid id s → ok (send_cached_values id subscriber s).
Proof.
  intros W V. unfold send_cached_values.
  destruct (ok_valid_fold touch_cached (kv_items (sb_pollItemMap (details id s))).*2 s id) as [W' _];
    [done..|].
  case_decide; [done|]. same_core.
Qed.

Lemma ok_update_same id f s :
  ok s → valid id s → (∀ d, same_sockets d (f d)) →
  (∀ d a, a ∈ sb_monitors (f d) → a ∈ sb_monitors d ∨ is_Some (su_monitorObjects s !! a)) →
  ok (update_details id f s).
Proof.
  intros W V Hs Hm. apply consistent_same_sockets; try done. intros a [Ha|?]%Hm; [|done].
  apply (c_monitors _ _ W id (details id s)); [by apply valid_details|done].
Qed.

Lemma ok_addSubscription q s : ok s → ok (addSubscription q s).
Proof.
  intros W. unfold addSubscription. pose proof (ok_subscription_details q s W) as W1.
  destruct (subscription_details q s) as [id s1].
  assert (W2 : ok (foldl (subscribe_new id (sq_filter q)) s1 (su_trim (sq_pubInfoPBs q) s1)) ∧
    valid id (foldl (subscribe_new id (sq_filter q)) s1 (su_trim (sq_pubInfoPBs q) s1))).
  { apply (foldl_inv (λ s, ok s ∧ valid id s)); [done|]. intros s' p _. apply ok_subscribe_new. }
  set (s2 := foldl _ _ _) in *. clearbody s2. clear W1.
  set (s3 := if decide (_ ∧ _) then _ else s2).
  assert (W3 : ok s3 ∧ valid id s3).
  { subst s3. case_decide; [|done]. apply (ok_update_monitors restart_monitor); [by eexists|].
    destruct W2 as [W2 V]. split; [same_core|done]. }
  clearbody s3. destruct W3 as [W3 V3]. case_decide; [done|].
  set (s4 := update_details _ _ s3).
  assert (W4 : ok s4) by (apply ok_update_same; [done..|by left]).
  destruct (sq_receiveLastCachedValue q); [|done]. apply ok_send_cached; [done|].
  by apply valid_update.
Qed.

Lemma ok_erase_filter key filter s : ok s → ok (erase_filter key filter s).
Proof.
  intros []. split; cbn; try done. intros key' m. unfold erase_filter.
  assert (HF : ∀ f id, delete filter (default ∅ (su_subscriptionMap s !! key)) !! f = Some id →
    ∃ d, su_details s !! id = Some d ∧ (sb_domain d, sb_dataProductID d) = key ∧ sb_filter d = f).
  { intros f id [_ Hid]%lookup_delete_Some. destruct (_ !! key) as [m'|] eqn:Em; [|done].
    cbn in Hid. by apply (c_map0 _ _ Em). }
  cbn. case_decide as Hm.
  - intros [_ Hk]%lookup_delete_Some. by apply c_map0.
  - rewrite lookup_insert. case_decide; [|apply c_map0]. intros [= <-]. subst key'. by split.
Qed.

Lemma ok_close_publisher_updates id dataProductID s :
  ok s → valid id s → ok (close_publisher_updates id dataProductID s).
Proof.
  intros W V. unfold close_publisher_updates.
  assert (W' : ok (removePollItem (sb_publisherUpdatePollItem (details id s)) s)).
  { apply consistent_removePollItem; [done|]. by apply (c_updates _ _ W id), valid_details. }
  same_core.
Qed.

Lemma ok_close_poll_item filter s socket : ok s → ok (close_poll_item filter s socket).
Proof.
  intros W. unfold close_poll_item.
  assert (W1 : ok (unsubscribeFromPollItem socket filter s)) by (by eapply consistent_forget).
  assert (W2 : ok (removePollItem socket (unsubscribeFromPollItem socket filter s))).
  { apply consistent_removePollItem; [done|]. cbn. apply lookup_delete_eq. }
  same_core.
Qed.

Lemma ok_removeSubscription q s : ok s → ok (removeSubscription q s).
Proof.
  intros W. unfold removeSubscription.
  set (s1 := s <| su_metricsData ::= _ |>). assert (W1 : ok s1) by same_core. clearbody s1.
  destruct (find_details _ _ s1) as [id|] eqn:E; [|done].
  assert (V1 : valid id s1) by (by eapply find_details_valid).
  set (s2 := update_details _ _ s1).
  assert (W2 : ok s2) by (apply ok_update_same; [done..|by left]).
  assert (V2 : valid id s2) by (by apply valid_update). clearbody s2.
  case_decide; [|done]. apply foldl_inv; [|intros; by apply ok_close_poll_item].
  case_decide; [|done]. apply ok_close_publisher_updates; [by apply ok_erase_filter|done].
Qed.

Lemma find_monitor_Some monitor X s a : find_monitor monitor X s = Some a → a ∈ X.
Proof.
  unfold find_monitor. intros Ha. apply head_Some_elem_of, list_elem_of_filter in Ha as [_ Ha].
  by apply elem_of_set_items.
Qed.

Lemma ok_monitor_details q s :
  ok s → let '(id, s') := monitor_details q s in ok s' ∧ valid id s'.
Proof.
  intros W. unfold monitor_details. set (s1 := s <| su_subscriptionMap ::= _ |>).
  assert (E1 : ∀ f, find_details (mq_domain q, mq_dataProductID q) f s1 =
    find_details (mq_domain q, mq_dataProductID q) f s).
  { intros f. unfold find_details. cbn. rewrite idx_touch_lookup, decide_True by done. unfold idx.
    by destruct (_ !! _). }
  rewrite E1. destruct (find_details _ _ s) as [id|] eqn:E.
  - assert (Es : core s1 = core s).
    { unfold find_details in E. apply bind_Some in E as (m & Hm & _).
      assert (Em : su_subscriptionMap s1 = su_subscriptionMap s)
        by (cbn; unfold idx_touch, idx; rewrite Hm; by apply insert_id).
      unfold core. by rewrite Em. }
    assert (W1 : ok s1) by (by apply (ok_core s)). split; [done|].
    exact (find_details_valid _ _ _ _ W E).
  - pose proof (ok_new_details (empty_SubscriptionDetails <| sb_domain := mq_domain q |>
        <| sb_dataProductID := mq_dataProductID q |> <| sb_filter := mq_filter q |>)
        (mq_domain q, mq_dataProductID q) (mq_filter q) ∅ s W) as H.
    cbn in H |- *. rewrite insert_insert_eq in H || idtac.
    destruct H as [H1 H2]; try done.
    + pose proof (c_items _ _ W) as (? & _). lia.
    + destruct (_ !! 0) eqn:E0; [|done]. destruct (c_sockets _ _ W _ _ E0) as (_ & Hin & _).
      apply (c_items _ _ W) in Hin. lia.
    + by left.
    + split; [|done]. refine (ok_core _ _ _ _ H1); [|done]. unfold core. cbn.
      unfold idx_touch. by rewrite insert_insert_eq, insert_empty.
Qed.

Lemma ok_setTimeoutMonitor q address s : ok s → ok (setTimeoutMonitor q address s).
Proof.
  intros W. unfold setTimeoutMonitor. pose proof (ok_monitor_details q s W) as W1.
  destruct (monitor_details q s) as [id s1]. destruct W1 as [W1 V1].
  set (s2 := su_tick s1). assert (W2 : ok s2) by same_core.
  destruct (find_monitor _ _ s2) as [a|]; [by apply consistent_update_monitor|].
  set (s3 := s2 <| su_monitorObjects ::= _ |>).
  assert (W3 : ok s3).
  { destruct W2. split; try done. intros k d a Hd Ha. cbn. rewrite lookup_insert.
    case_decide; [done|]. by eapply c_monitors0. }
  apply ok_update_same; [done..|]. cbn. intros d a [->%elem_of_singleton|?]%elem_of_union; [right|by left].
  by rewrite lookup_insert_eq.
Qed.

Lemma ok_clearTimeoutMonitor q s : ok s → ok (clearTimeoutMonitor q s).
Proof.
  intros W. unfold clearTimeoutMonitor. destruct (find_details _ _ s) as [id|] eqn:E; [|done].
  assert (V : valid id s) by (by eapply find_details_valid).
  set (s1 := match find_monitor _ _ s with Some _ => _ | None => _ end).
  assert (W1 : ok s1 ∧ valid id s1).
  { subst s1. destruct (find_monitor _ _ s) as [a|]; [|done]. split; [|by apply valid_update; case_decide].
    apply ok_update_same; [case_decide; same_core|by case_decide|done|].
    cbn. intros d b [? _]%elem_of_difference. by left. }
  destruct W1 as [W1 V1]. clearbody s1. case_decide; [|done].
  apply ok_close_publisher_updates; [by apply ok_erase_filter|done].
Qed.

(** *** The turn *)

Lemma ok_update_monitor a f s : ok s → ok (update_monitor a f s).
Proof. apply consistent_update_monitor. Qed.

Lemma ok_call_monitor id a t s : ok s → ok (call_monitor id a t s).
Proof.
  intros W. unfold call_monitor. cbv zeta. apply ok_update_monitor. same_core.
Qed.

Lemma ok_calculateTimeout s : ok s → ok (calculateTimeout s).
Proof.
  intros W. unfold calculateTimeout.
  set (s1 := s <| su_currTimeoutMonitor := None |> <| su_currMonitorDetails := None |>).
  assert (W1 : ok s1) by same_core. clearbody s1.
  assert (W2 : ok (foldl check_details (-1, s1) (all_details s1)).2).
  { apply (foldl_inv (λ acc : Z * SubscriptionManager, ok acc.2)); [done|].
    intros acc id _ W2. unfold check_details.
    apply (foldl_inv (λ acc : Z * SubscriptionManager, ok acc.2)); [done|].
    intros [m s2] a _ W3. unfold check_monitor. cbn in W3 |- *. case_decide; [|done].
    assert (W4 : ok (su_tick s2)) by same_core.
    case_match; [by apply ok_call_monitor|]. case_decide; [|done]. cbn. same_core. }
  destruct (foldl _ _ _) as [m s2]. same_core.
Qed.

Lemma ok_poll_timeout s : ok s → ok (poll_timeout s).
Proof.
  intros W. unfold poll_timeout. destruct (su_currTimeoutMonitor s); [|done].
  apply ok_call_monitor. same_core.
Qed.

Lemma ok_delete_later id socket s : ok s → valid id s → ok (delete_later id socket s).
Proof.
  intros W V.
  assert (W' : consistent (su_deleteList s ++ [(id, socket)]) s).
  { apply (pending_subset _ _ _ W); [set_solver|].
    intros id' k [Hin|[= -> ->]%list_elem_of_singleton]%elem_of_app; [|done].
    by eapply (c_pending _ _ W). }
  unfold ok. by eapply consistent_core; [|exact W'].
Qed.

Section turn.
Context `{Protobuf GravityDataProductPB} `{Protobuf ServiceDirectoryUnregistrationPB}
  `{Protobuf ComponentDataLookupResponsePB} `{Protobuf PublisherInfoPB}.

Lemma ok_read_messages id socket url msgs s :
  ok s → valid id s →
  ok (read_messages id socket url msgs s).2 ∧ valid id (read_messages id socket url msgs s).2.
Proof.
  revert s. induction msgs as [|[f bytes] msgs IH]; intros s W V; [done|]. cbn [read_messages].
  set (s1 := s <| su_socketVerificationMap ::= _ |>).
  assert (W1 : ok s1) by (by apply consistent_touch_verification).
  assert (V1 : valid id s1) by done. clearbody s1.
  cbv zeta. case_decide.
  - cbn [snd]. split; [|done]. apply ok_delete_later; [same_core|done].
  - set (s2 := touch_cached s1 socket). assert (W2 : ok s2) by same_core.
    destruct (_ && _); [|by apply IH].
    set (s3 := su_tick s2 <| su_lastCachedValueMap ::= _ |>).
    assert (W3 : ok s3) by same_core.
    specialize (IH s3 W3 V1). destruct (read_messages id socket url msgs s3). exact IH.
Qed.

Lemma ok_deliver id dataProducts s : ok s → valid id s → ok (deliver id dataProducts s).
Proof.
  intros W V. unfold deliver. case_decide; [done|]. cbv zeta.
  destruct (ok_valid_fold (λ s subscriber, su_output (SubscriptionFilled subscriber dataProducts) s)
    (set_items (sb_subscribers (details id s))) s id) as [W1 V1]; [done..|].
  set (s1 := foldl _ s _) in *. clearbody s1.
  assert (W2 : ok (su_tick s1)) by same_core.
  destruct (ok_update_monitors refresh_monitor (su_now s1 / 1000)
    (set_items (sb_monitors (details id s))) (su_tick s1) id) as [W3 V3]; [by eexists|done|].
  set (s3 := foldl _ (su_tick s1) _) in *. clearbody s3. case_match; [same_core|done].
Qed.

Lemma null_closed s : ok s → su_subscriptionSocketMap s !! 0 = None.
Proof.
  intros W. destruct (_ !! 0) eqn:E; [|done]. destruct (c_sockets _ _ W _ _ E) as (_ & Hin & _).
  apply (c_items _ _ W) in Hin. lia.
Qed.

Lemma ok_touch_url id url s :
  ok s → valid id s → ok (touch_url id url s) ∧ valid id (touch_url id url s).
Proof.
  intros W V. unfold touch_url. split; [|by apply valid_update].
  apply consistent_touch_verification. pose proof (valid_details _ _ V) as Hd.
  apply consistent_update_details; try done.
  - intros a. apply (c_monitors _ _ W _ _ a Hd).
  - intros k Hk. destruct (c_sockets _ _ W _ _ Hk) as (_ & _ & d & u & Hd' & Hu & Hc).
    rewrite Hd in Hd'. injection Hd' as <-. exists u. split; [done|]. destruct Hc as [Hc|?]; [left|by right].
    cbn. rewrite idx_touch_lookup. case_decide; [subst|done]. unfold idx. by rewrite Hc.
  - intros u k. cbn. rewrite idx_touch_lookup. destruct (decide (url = u)) as [->|].
    + unfold idx. destruct (_ !! u) eqn:Eu; cbn; intros [= <-]; [by apply (c_urls _ _ W _ _ Hd)|].
      split_and!; [lia| |by left|]. { pose proof (c_items _ _ W) as (? & _). cbn. lia. }
      intros id'. cbn. by rewrite (null_closed _ W).
    + by apply (c_urls _ _ W _ _ Hd).
Qed.

Lemma details_touch_url id url s :
  sb_pollItemMap (details id (touch_url id url s)) = idx_touch 0 url (sb_pollItemMap (details id s)).
Proof. unfold touch_url, details at 1. cbn. by rewrite lookup_insert_eq. Qed.

Lemma details_subscribe_url id url filter t s :
  details id (subscribe_url id url filter t s) =
  (details id s) <| sb_pollItemMap ::= insert url (su_nextSocket s) |>
    <| sb_socketToUrlMap ::= insert (su_nextSocket s) url |>.
Proof. unfold details at 1. cbn. by rewrite lookup_insert_eq. Qed.

Lemma ok_update_publisher id filter s p :
  ok s ∧ valid id s → ok (update_publisher id filter s p) ∧ valid id (update_publisher id filter s p).
Proof.
  intros [W V]. unfold update_publisher.
  destruct (ok_touch_url id (str (pi_url p)) s W V) as [W1 V1].
  pose proof (details_touch_url id (str (pi_url p)) s) as Et.
  set (url := str (pi_url p)) in *. set (t := num _).
  assert (Ev : idx_touch 0 (socket_of id url (touch_url id url s)) (su_socketVerificationMap s) =
    su_socketVerificationMap (touch_url id url s)).
  { reflexivity. }
  set (s1 := touch_url id url s) in *. cbv zeta.
  assert (Hopen : ∀ s', ok s' → valid id s' → (∀ old, sb_pollItemMap (details id s') !! url = Some old →
    su_subscriptionSocketMap s' !! old = Some id → (id, old) ∈ su_deleteList s') →
    let s2 := subscribe_url id url filter t s' in
    let s3 := s2 <| su_socketVerificationMap ::= insert (socket_of id url s2) t |> in
    ok s3 ∧ valid id s3).
  { intros s' W' V' Hold s2 s3.
    assert (W2 : ok s2) by (by apply consistent_subscribe_url).
    assert (V2 : valid id s2) by (unfold s2, valid; cbn; rewrite lookup_insert; by case_decide).
    split; [|done]. apply consistent_verify; [done|]. unfold socket_of, s2.
    rewrite details_subscribe_url. cbn. unfold idx. rewrite lookup_insert_eq. cbn.
    by rewrite lookup_insert_eq. }
  destruct (decide (verification_of id url s1 ≠ t)) as [Eu|Eu].
  - rewrite (bool_decide_eq_true_2 (verification_of _ _ _ ≠ t)), orb_true_r by done.
    apply Hopen; [by apply ok_delete_later|done|].
    intros old Ho _. change (sb_pollItemMap (details id s1) !! url = Some old) in Ho.
    apply elem_of_app; right. apply list_elem_of_singleton.
    unfold socket_of, idx. by rewrite Ho.
  - rewrite (bool_decide_eq_false_2 (verification_of _ _ _ ≠ t)), orb_false_r by done.
    case_bool_decide as Ek; cbn [negb].
    + assert (Es : core (s1 <| su_socketVerificationMap ::= insert (socket_of id url s1) t |>) = core s1).
      { assert (EV : insert (socket_of id url s1) t (su_socketVerificationMap s1) =
          su_socketVerificationMap s1).
        { apply insert_id. rewrite <- Ev, idx_touch_lookup, decide_True by done.
          f_equal. apply dec_stable in Eu. rewrite <- Eu. unfold verification_of. rewrite <- Ev.
          by rewrite idx_touch_idx. }
        unfold core. cbn. cbn in EV. by rewrite EV. }
      split; [by eapply ok_core; [symmetry; exact Es|..]|done].
    + apply Hopen; [done..|]. intros old. rewrite Et. unfold idx_touch, idx.
      rewrite lookup_insert_eq. apply eq_None_not_Some in Ek. rewrite Ek. intros [= <-].
      by rewrite (null_closed _ W1).
Qed.

Lemma valid_subscribe_url id id' url filter t s :
  valid id' s → valid id' (subscribe_url id url filter t s).
Proof. intros V. unfold valid. cbn. rewrite lookup_insert. by case_decide. Qed.

Lemma valid_verify id f s :
  valid id s → valid id (s <| su_socketVerificationMap ::= f |>).
Proof. done. Qed.

Lemma valid_update_publisher id id' filter s p :
  valid id' s → valid id' (update_publisher id filter s p).
Proof.
  intros V. unfold update_publisher. cbv zeta.
  assert (V1 : valid id' (touch_url id (str (pi_url p)) s)) by by apply valid_update.
  set (s1 := touch_url _ _ s) in *. clearbody s1.
  apply valid_verify. destruct (negb _ || _); [|exact V1]. apply valid_subscribe_url.
  destruct (bool_decide _); exact V1.
Qed.

Lemma ok_delete_gone l id s entry : ok s → valid id s → ok (delete_gone l id s entry).
Proof.
  intros W V. unfold delete_gone. destruct (existsb _ l); [done|]. by apply ok_delete_later.
Qed.

Lemma valid_delete_gone l id id' s entry : valid id' s → valid id' (delete_gone l id s entry).
Proof. unfold delete_gone. by destruct (existsb _ l). Qed.

Lemma ok_update_filter l s entry :
  ok s → valid entry.2 s →
  ok (update_filter l s entry) ∧ ∀ id', valid id' s → valid id' (update_filter l s entry).
Proof.
  destruct entry as [filter id]. cbn. intros W V.
  assert (W1 : ok (foldl (update_publisher id filter) s l) ∧
    ∀ id', valid id' s → valid id' (foldl (update_publisher id filter) s l)).
  { apply (foldl_inv (λ s', ok s' ∧ ∀ id', valid id' s → valid id' s')); [done|].
    intros s' p _ [W' V']. split.
    - apply ok_update_publisher. split; [done|]. apply (V' _ V).
    - intros id' Hid. apply valid_update_publisher, (V' _ Hid). }
  set (s1 := foldl _ s l) in *. clearbody s1. destruct W1 as [W1 V1].
  apply (foldl_inv (λ s', ok s' ∧ ∀ id', valid id' s → valid id' s')); [done|].
  intros s' p _ [W' V']. split.
  - apply ok_delete_gone; [done|]. apply (V' _ V).
  - intros id' Hid. apply valid_delete_gone, (V' _ Hid).
Qed.

Lemma filter_map_valid key m s entry :
  ok s → su_subscriptionMap s !! key = Some m → entry ∈ kv_items m → valid entry.2 s.
Proof.
  destruct entry as [filter id]. intros W Hm Hin%elem_of_kv_items.
  destruct (c_map _ _ W _ _ Hm) as [_ HF]. destruct (HF _ _ Hin) as (d & ? & _). by exists d.
Qed.

Lemma ok_publisher_update msgs s : ok s → ok (publisher_update msgs s).
Proof.
  intros W. unfold publisher_update. destruct msgs as [|[dataProductID bytes] _]; [done|].
  case_decide; [done|]. cbv zeta. destruct (_ !! _) as [m|] eqn:Em; [|done].
  set (l := su_trim _ s).
  assert (HV : ∀ entry, entry ∈ kv_items m → valid entry.2 s)
    by (intros entry; by eapply filter_map_valid).
  eapply (foldl_inv (λ s', ok s' ∧ ∀ id', valid id' s → valid id' s')); [done|].
  intros s' entry Hin [W' V']. destruct (ok_update_filter l s' entry W') as [W2 V2].
  { apply (V' _ (HV _ Hin)). }
  split; [done|]. intros id' Hid. apply (V2 _ (V' _ Hid)).
Qed.

Lemma ok_poll_item received s socket : ok s → ok (poll_item received s socket).
Proof.
  intros W. unfold poll_item. destruct (su_subscriptionSocketMap s !! socket) as [id|] eqn:Es.
  - destruct (c_sockets _ _ W _ _ Es) as (_ & _ & d & url & Hd & Hu & _).
    assert (V : valid id s) by by exists d.
    set (s1 := update_details _ _ s).
    assert (E1 : su_details s1 = su_details s).
    { apply insert_id. rewrite Hd, (details_Some _ _ _ Hd). cbn.
      assert (Et : idx_touch "" socket (sb_socketToUrlMap d) = sb_socketToUrlMap d).
      { unfold idx_touch, idx. rewrite Hu. by apply insert_id. }
      unfold update. rewrite Et. by destruct d. }
    assert (W1 : ok s1) by (apply (ok_core s); [unfold core; by rewrite E1|done..]).
    assert (V1 : valid id s1) by by apply valid_update.
    destruct (received !! socket) as [msgs|]; [|done]. unfold data_message.
    destruct (ok_read_messages id socket (idx "" socket (sb_socketToUrlMap (details id s))) msgs s1 W1 V1)
      as [W2 V2]. destruct (read_messages _ _ _ _ s1) as [ps s2]. by apply ok_deliver.
  - destruct (received !! socket) as [msgs|]; [|done]. by apply ok_publisher_update.
Qed.

Lemma ok_poll_items received s : ok s → ok (poll_items received s).
Proof.
  intros W. unfold poll_items. cbv zeta.
  assert (W1 : ok (foldl (poll_item received) s (su_pollItems s)))
    by (apply foldl_inv; [done|]; intros; by apply ok_poll_item).
  apply foldl_inv; [done|]. intros. by apply ok_poll_item.
Qed.

Lemma elem_of_erase_first socket i l : i ∈ erase_first socket l → i ∈ l.
Proof.
  induction l as [|j l IH]; cbn; [done|]. case_decide; [by right|].
  intros [->|?]%elem_of_cons; [left|right; auto].
Qed.

Lemma elem_of_erase_first_ne socket i l : i ∈ l → i ≠ socket → i ∈ erase_first socket l.
Proof.
  induction l as [|j l IH]; cbn; [done|]. intros [->|?]%elem_of_cons Hne; case_decide; subst.
  - done.
  - left.
  - done.
  - right. auto.
Qed.

Lemma NoDup_erase_first socket l : NoDup l → NoDup (erase_first socket l).
Proof.
  induction 1 as [|j l Hj Hl IH]; cbn; [constructor|]. case_decide; [done|].
  constructor; [|done]. by intros ?%elem_of_erase_first.
Qed.

(** The details after a socket of theirs was deleted. *)
Definition forget_socket (socket : Z) (d : SubscriptionDetails) : SubscriptionDetails :=
  let url := idx "" socket (sb_socketToUrlMap d) in
  d <| sb_pollItemMap ::= λ m,
         if decide (idx 0 url m = socket) then delete url m else idx_touch 0 url m |>
    <| sb_socketToUrlMap ::= delete socket |>.

Lemma forget_socket_lookup socket d url k :
  (∀ url, sb_pollItemMap d !! url = Some socket → socket = 0 ∨ sb_socketToUrlMap d !! socket = Some url) →
  sb_pollItemMap (forget_socket socket d) !! url = Some k →
  (k = 0 ∨ k ≠ socket) ∧ (k = 0 ∨ sb_pollItemMap d !! url = Some k).
Proof.
  intros HU. cbn. case_decide as Hi.
  - intros [Hne Hk]%lookup_delete_Some. split; [|by right]. destruct (decide (k = socket)) as [->|]; [|by right].
    left. destruct (HU _ Hk) as [?|Hu]; [done|]. destruct Hne. unfold idx. by rewrite Hu.
  - rewrite idx_touch_lookup. destruct (decide (_ = url)) as [<-|Hne].
    + intros [= <-]. split; [by right|]. set (u := idx "" socket _). clearbody u.
      unfold idx. destruct (sb_pollItemMap d !! u); [by right|by left].
    + intros Hk. split; [|by right]. destruct (decide (k = socket)) as [->|]; [|by right].
      left. destruct (HU _ Hk) as [?|Hu]; [done|]. destruct Hne. unfold idx. by rewrite Hu.
Qed.

Lemma forget_socket_kept socket d url k :
  sb_pollItemMap d !! url = Some k → k ≠ socket →
  sb_pollItemMap (forget_socket socket d) !! url = Some k.
Proof.
  intros Hk Hne. cbn. case_decide as Hi.
  - rewrite lookup_delete_ne; [done|]. intros <-. unfold idx at 1 in Hi. rewrite Hk in Hi. done.
  - rewrite idx_touch_lookup. case_decide; [|done]. subst. unfold idx at 1. by rewrite Hk.
Qed.

Lemma details_delete_entry id socket s :
  details id (delete_entry s (id, socket)) = forget_socket socket (details id s).
Proof. unfold delete_entry, details at 1. cbn. by rewrite lookup_insert_eq. Qed.

Lemma consistent_delete_entry l id socket s :
  consistent ((id, socket) :: l) s → consistent l (delete_entry s (id, socket)).
Proof.
  intros W. assert (V : valid id s) by (apply (c_pending _ _ W _ socket); left).
  pose proof (valid_details _ _ V) as Hd.
  set (s1 := s <| su_subscriptionSocketMap ::= delete socket |>
    <| su_socketVerificationMap ::= delete socket |>).
  assert (W1 : consistent ((id, socket) :: l) s1) by by eapply consistent_forget.
  set (s2 := update_details id (forget_socket socket) s1).
  assert (W2 : consistent ((id, socket) :: l) s2).
  { apply consistent_update_details; [done|done|done..| | |].
    - intros a. apply (c_monitors _ _ W1 id _ a Hd).
    - intros k Hk.
      assert (Hne : socket ≠ k) by (cbn in Hk; by apply lookup_delete_Some in Hk as [? _]).
      destruct (c_sockets _ _ W1 _ _ Hk) as (_ & _ & d & url & Hd' & Hu & Hc).
      cbn in Hd'. rewrite Hd in Hd'. injection Hd' as <-. exists url.
      split; [by apply lookup_delete_Some|].
      destruct Hc as [Hc|?]; [left|by right]. by apply forget_socket_kept.
    - intros url k Hk. apply forget_socket_lookup in Hk as [Hne Hk].
      + destruct Hk as [->|Hk].
        { split_and!; [lia| |by left|].
          - pose proof (c_items _ _ W1) as (? & _). lia.
          - intros id'. assert (E0 : su_subscriptionSocketMap s1 !! 0 = None).
            { apply lookup_delete_None. right. destruct (_ !! 0) eqn:E; [|done].
              destruct (c_sockets _ _ W _ _ E) as (_ & Hin & _). apply (c_items _ _ W) in Hin. lia. }
            by rewrite E0. }
        destruct (c_urls _ _ W1 id _ Hd _ _ Hk) as (? & Hu & ?). split_and!; [lia|lia| |done].
        destruct (decide (k = 0)); [by left|right]. destruct Hne as [|Hne]; [done|].
        cbn. rewrite lookup_delete_ne by done. by destruct Hu.
      + intros u Hu. by apply (c_urls _ _ W1 id _ Hd _ _ Hu). }
  assert (W3 : consistent ((id, socket) :: l) (s2 <| su_pollItems ::= erase_first socket |>)).
  { apply (consistent_remove_items _ socket _ s2); [done|apply lookup_delete_eq|..].
    - apply NoDup_erase_first, (c_items _ _ W2).
    - intros i. apply elem_of_erase_first.
    - intros i. apply elem_of_erase_first_ne. }
  apply pending_drop in W3; [|apply lookup_delete_eq]. by eapply consistent_core; [|exact W3].
Qed.

Lemma consistent_delete_entries l s : consistent l s → consistent [] (foldl delete_entry s l).
Proof.
  revert s. induction l as [|[id socket] l IH]; intros s W; cbn [foldl]; [done|].
  by apply IH, consistent_delete_entry.
Qed.

Lemma ok_process_deletes s : ok s → ok (process_deletes s).
Proof.
  intros W. apply consistent_delete_entries in W. unfold ok. by eapply consistent_core; [|exact W].
Qed.

Lemma ok_metrics_command command s : ok s → ok (metrics_command command s).
Proof. intros W. unfold metrics_command. repeat case_decide; same_core. Qed.

Lemma ok_node_request frames address s s' b :
  ok s → node_request frames address s = Some (s', b) → ok s'.
Proof.
  intros W E. unfold node_request in E. apply bind_Some in E as ([command fs] & _ & E).
  repeat (destruct (decide (command = _)); [
    first [ injection E as <- <-; done
          | apply bind_Some in E as ([q fs'] & _ & E); injection E as <- <-;
            first [ by apply ok_addSubscription | by apply ok_removeSubscription
                  | by apply ok_setTimeoutMonitor | by apply ok_clearTimeoutMonitor | same_core ] ]|]).
  by injection E as <- <-.
Qed.

Lemma ok_turn poll s s' b : ok s → subscription_turn poll s = Some (s', b) → ok s'.
Proof.
  intros W%ok_calculateTimeout E. unfold subscription_turn in E. cbv zeta in E.
  set (s1 := calculateTimeout s) in *. clearbody s1.
  destruct poll as [| | |request address metrics received]; try (injection E as <- <-; done).
  { injection E as <- <-. by apply ok_poll_timeout. }
  apply bind_Some in E as ([s2 c] & E2 & E).
  assert (W2 : ok s2).
  { destruct request; [by eapply ok_node_request|]. by injection E2 as <- <-. }
  destruct c; injection E as <- <-; [|done]. unfold after_request. apply ok_process_deletes, ok_poll_items.
  destruct metrics; [by apply ok_metrics_command|done].
Qed.

(** What the thread can get to between two turns. *)
Inductive subscription_reachable : SubscriptionManager → Prop :=
| reach_initial clock : subscription_reachable (initial_SubscriptionManager clock)
| reach_configure frames s s' : subscription_reachable s → configure frames s = Some s' →
    subscription_reachable s'
| reach_turn poll s s' b : subscription_reachable s → subscription_turn poll s = Some (s', b) →
    subscription_reachable s'.

Lemma ok_initial clock : ok (initial_SubscriptionManager clock).
Proof.
  split; try done; cbn.
  - split_and!; [lia|constructor|]. intros i Hi. by apply not_elem_of_nil in Hi.
  - intros id [? Hid]. done.
  - intros id socket Hi. by apply not_elem_of_nil in Hi.
Qed.

Lemma deletes_calculateTimeout s : su_deleteList (calculateTimeout s) = su_deleteList s.
Proof.
  unfold calculateTimeout.
  set (s1 := s <| su_currTimeoutMonitor := None |> <| su_currMonitorDetails := None |>).
  assert (E : su_deleteList (foldl check_details (-1, s1) (all_details s1)).2 = su_deleteList s).
  { apply (foldl_inv (λ acc : Z * SubscriptionManager, su_deleteList acc.2 = su_deleteList s)); [done|].
    intros acc id _ E1. unfold check_details.
    apply (foldl_inv (λ acc : Z * SubscriptionManager, su_deleteList acc.2 = su_deleteList s)); [done|].
    intros [m s2] a _ E2. unfold check_monitor. cbn in E2 |- *. by repeat case_match. }
  destruct (foldl _ _ _). exact E.
Qed.

Lemma deletes_fold {A} (f : SubscriptionManager → A → SubscriptionManager) l s :
  (∀ s x, su_deleteList (f s x) = su_deleteList s) → su_deleteList (foldl f s l) = su_deleteList s.
Proof.
  intros Hf. apply (foldl_inv (λ s', su_deleteList s' = su_deleteList s)); [done|].
  intros s' x _. by rewrite Hf.
Qed.

Lemma deletes_node_request frames address s s' b :
  node_request frames address s = Some (s', b) → su_deleteList s' = su_deleteList s.
Proof.
  intros E. unfold node_request in E. apply bind_Some in E as ([command fs] & _ & E).
  case_decide; [apply bind_Some in E as ([q fs'] & _ & [= <- <-])|].
  { unfold addSubscription. destruct (subscription_details q s) as [id s1] eqn:E1.
    assert (Ed : su_deleteList s1 = su_deleteList s).
    { revert E1. unfold subscription_details. destruct (find_details _ _ s); by intros [= <- <-]. }
    set (s2 := foldl _ s1 _). assert (E2 : su_deleteList s2 = su_deleteList s).
    { rewrite <- Ed. apply deletes_fold. intros s0 p. unfold subscribe_new. by repeat case_match. }
    set (s3 := if decide (_ ∧ _) then _ else s2). assert (E3 : su_deleteList s3 = su_deleteList s).
    { subst s3. case_decide; [|done]. by rewrite deletes_fold. }
    case_decide; [done|]. case_match; [|done]. unfold send_cached_values.
    set (s4 := foldl touch_cached _ _).
    assert (E4 : su_deleteList s4 = su_deleteList s) by by (unfold s4; rewrite deletes_fold).
    clearbody s4. by case_decide. }
  case_decide; [apply bind_Some in E as ([q fs'] & _ & [= <- <-])|].
  { unfold removeSubscription. case_match; [|done]. case_decide; [|done].
    rewrite deletes_fold by done. by case_decide. }
  case_decide; [by injection E as <- <-|].
  case_decide; [by apply bind_Some in E as ([q fs'] & _ & [= <- <-])|].
  case_decide; [apply bind_Some in E as ([q fs'] & _ & [= <- <-])|].
  { unfold setTimeoutMonitor. destruct (monitor_details q s) as [id s1] eqn:E1.
    assert (Ed : su_deleteList s1 = su_deleteList s).
    { revert E1. unfold monitor_details. destruct (find_details _ _ _); by intros [= <- <-]. }
    by case_match. }
  case_decide; [apply bind_Some in E as ([q fs'] & _ & [= <- <-])|].
  { unfold clearTimeoutMonitor. case_match; [|done]. by repeat case_match. }
  case_decide; [by apply bind_Some in E as ([q fs'] & _ & [= <- <-])|]. by injection E as <- <-.
Qed.

Lemma reachable_consistent s :
  subscription_reachable s → consistent [] s ∧ su_deleteList s = [].
Proof.
  induction 1 as [clock|frames s s' _ [W Ed] E|poll s s' b _ [W Ed] E].
  - split; [apply ok_initial|done].
  - unfold configure in E. apply bind_Some in E as ([command fs] & _ & E).
    case_decide; [|by injection E as <-].
    apply bind_Some in E as ([a fs1] & _ & E). apply bind_Some in E as ([b fs2] & _ & E).
    apply bind_Some in E as ([c fs3] & _ & [= <-]). split; [|done]. by eapply consistent_core; [|exact W].
  - assert (W' : ok s') by (eapply ok_turn; [|exact E]; unfold ok; by rewrite Ed).
    assert (Ed' : su_deleteList s' = []); [|by rewrite <- Ed' at 1].
    unfold subscription_turn in E. cbv zeta in E. pose proof (deletes_calculateTimeout s) as Ec.
    rewrite Ed in Ec. set (s1 := calculateTimeout s) in *. clearbody s1.
    destruct poll as [| | |request address metrics received]; try (injection E as <- <-; done).
    { injection E as <- <-. unfold poll_timeout. by destruct (su_currTimeoutMonitor s1). }
    apply bind_Some in E as ([s2 c] & E2 & E).
    assert (E3 : su_deleteList s2 = []).
    { destruct request; [|by injection E2 as <- <-]. apply deletes_node_request in E2. congruence. }
    destruct c; by injection E as <- <-.
Qed.

(** C16. In every state that the thread can get to, between two turns: every socket that is
    listened to is polled, has an expected registration time, and is the one socket of its url
    in details that know it; no url leads to a socket of other details; the sockets for lists
    of publishers are none of them; the entries of [subscriptionMap] lead to details of their
    key and filter; every address leads to an object; and nothing is left to delete. *)
Theorem subscription_maps_consistent s :
  subscription_reachable s → consistent [] s ∧ su_deleteList s = [].
Proof. apply reachable_consistent. Qed.
End turn.
