(* ===== verification/GravitySubscriptionManagerUpdates.v ===== *)
(** * Lists of publishers: what an update from the directory leads to

    After the turn that reads the list, the sockets of a subscription are one per publisher of
    the trimmed list, each with the registration time the directory gave. *)

From S2P Require Import Prelude.
From S2P Require Import Messages.
From S2P Require Import CommUtil.
From S2P Require Import GravityDataProduct.
From S2P Require Import GravityMetrics.
From S2P Require Import GravitySubscriptionManager.
From S2P Require Import GravitySubscriptionManagerProofs.
#[local] Open Scope gravity_scope.
#[local] Open Scope Z_scope.

Implicit Types s : SubscriptionManager.

Abbreviation url_of p := (str (pi_url p)).
Abbreviation time_of p := (num (pi_registration_time p)).

(** The socket of a url for some details. *)
Abbreviation socket_at id url s := (sb_pollItemMap (details id s) !! url).

(** An open and verified socket that stays. *)
Definition live (id : nat) (url : string) (t : Z) s : Prop :=
  ∃ socket, socket_at id url s = Some socket ∧ su_subscriptionSocketMap s !! socket = Some id ∧
    su_socketVerificationMap s !! socket = Some t ∧ ∀ id', (id', socket) ∉ su_deleteList s.

(** No open socket of the url is about to go. *)
Definition staying (id : nat) (url : string) s : Prop :=
  ∀ socket, socket_at id url s = Some socket → is_Some (su_subscriptionSocketMap s !! socket) →
    ∀ id', (id', socket) ∉ su_deleteList s.

(** The step from [s] to [s'] leaves the socket of this url alone. *)
Definition spares (id : nat) (url : string) s s' : Prop :=
  socket_at id url s' = socket_at id url s ∧
  ∀ socket, socket_at id url s = Some socket →
    su_subscriptionSocketMap s' !! socket = su_subscriptionSocketMap s !! socket ∧
    (is_Some (su_subscriptionSocketMap s !! socket) →
      su_socketVerificationMap s' !! socket = su_socketVerificationMap s !! socket ∧
      ∀ id', (id', socket) ∈ su_deleteList s' → (id', socket) ∈ su_deleteList s).

Lemma live_spared id url t s s' : spares id url s s' → live id url t s → live id url t s'.
Proof.
  intros [E Hs] (socket & H1 & H2 & H3 & H4). destruct (Hs _ H1) as [E1 HE].
  destruct (HE ltac:(by eexists)) as [E2 Hd]. exists socket. rewrite E, E1, E2.
  split_and!; [done..|]. intros id' Hin%Hd. by eapply H4.
Qed.

Lemma staying_spared id url s s' : spares id url s s' → staying id url s → staying id url s'.
Proof.
  intros [E Hs] H1 socket. rewrite E. intros Hk. destruct (Hs _ Hk) as [E1 HE]. rewrite E1.
  intros Ho id' Hin. destruct (HE Ho) as [_ Hd]. by eapply (H1 _ Hk Ho), Hd.
Qed.

Lemma spares_refl id url s : spares id url s s.
Proof. split; [done|]. intros socket _. split; [done|]. intros _. split; [done|auto]. Qed.

Lemma spares_trans id url s1 s2 s3 :
  spares id url s1 s2 → spares id url s2 s3 → spares id url s1 s3.
Proof.
  intros [E1 H1] [E2 H2]. split; [congruence|]. intros socket Hs. rewrite <- E1 in Hs at 1.
  destruct (H2 _ Hs) as [F2 G2]. rewrite E1 in Hs. destruct (H1 _ Hs) as [F1 G1].
  split; [congruence|]. intros Ho. destruct (G1 Ho) as [V1 D1]. rewrite F1 in G2.
  destruct (G2 Ho) as [V2 D2]. split; [congruence|auto].
Qed.

(** Sockets of different urls differ, unless they are null. *)
Lemma socket_at_inj id url id' url' s socket :
  ok s → valid id s → valid id' s → socket_at id url s = Some socket →
  socket_at id' url' s = Some socket → is_Some (su_subscriptionSocketMap s !! socket) →
  id = id' ∧ url = url'.
Proof.
  intros W V V' H1 H2 [i Hi].
  destruct (c_urls _ _ W _ _ (valid_details _ _ V) _ _ H1) as (_ & U1 & I1).
  destruct (c_urls _ _ W _ _ (valid_details _ _ V') _ _ H2) as (_ & U2 & I2).
  assert (Hne : socket ≠ 0) by (intros ->; rewrite (null_closed _ W) in Hi; done).
  assert (id = id') by (rewrite <- (I1 _ Hi), <- (I2 _ Hi); done). subst.
  split; [done|]. destruct U1, U2; congruence.
Qed.

Section update.
Context `{Protobuf ComponentDataLookupResponsePB} `{Protobuf GravityDataProductPB}.

(** *** One publisher *)

Lemma verification_touch_url id url s socket :
  is_Some (su_socketVerificationMap s !! socket) →
  su_socketVerificationMap (touch_url id url s) !! socket = su_socketVerificationMap s !! socket.
Proof.
  intros [t Ht]. unfold touch_url. cbn. rewrite idx_touch_lookup. case_decide as E; [|done].
  unfold idx. by rewrite E, Ht.
Qed.

Lemma socket_at_touch_url id url id2 url2 s :
  (id2, url2) ≠ (id, url) → socket_at id2 url2 (touch_url id url s) = socket_at id2 url2 s.
Proof.
  intros Hne. destruct (decide (id = id2)) as [<-|Hid].
  - rewrite details_touch_url, idx_touch_lookup, decide_False; [done|]. congruence.
  - unfold touch_url. change (details id2 (?a <| su_socketVerificationMap ::= ?b |>)) with (details id2 a).
    by rewrite details_update, decide_False.
Qed.

Lemma spares_touch_url id url id2 url2 s :
  ok s → (id2, url2) ≠ (id, url) → spares id2 url2 s (touch_url id url s).
Proof.
  intros W Hne. split; [by apply socket_at_touch_url|]. intros socket _. split; [done|].
  intros [i Hi]. split; [|done]. apply verification_touch_url. by destruct (c_sockets _ _ W _ _ Hi).
Qed.

Lemma spares_delete_later id k id2 url2 s :
  (∀ socket, socket_at id2 url2 s = Some socket → is_Some (su_subscriptionSocketMap s !! socket) →
    socket ≠ k) → spares id2 url2 s (delete_later id k s).
Proof.
  intros Hk. split; [done|]. intros socket Hs. split; [done|]. intros Ho. split; [done|].
  intros id' [?|[= -> ->]%list_elem_of_singleton]%elem_of_app; [done|]. by destruct (Hk _ Hs Ho).
Qed.

Lemma spares_subscribe_url id url filter t id2 url2 s :
  ok s → valid id2 s → (id2, url2) ≠ (id, url) →
  spares id2 url2 s (subscribe_url id url filter t s).
Proof.
  intros W V Hne. split.
  - destruct (decide (id = id2)) as [<-|Hid].
    + rewrite details_subscribe_url. cbn. apply lookup_insert_ne. congruence.
    + unfold details. cbn. by rewrite lookup_insert_ne.
  - intros socket Hs.
    destruct (c_urls _ _ W _ _ (valid_details _ _ V) _ _ Hs) as (? & _).
    cbn. rewrite !lookup_insert_ne by lia. done.
Qed.

Lemma spares_verify k t id2 url2 s :
  (∀ socket, socket_at id2 url2 s = Some socket → is_Some (su_subscriptionSocketMap s !! socket) →
    socket ≠ k) → spares id2 url2 s (s <| su_socketVerificationMap ::= insert k t |>).
Proof.
  intros Hk. split; [done|]. intros socket Hs. split; [done|]. intros Ho. split; [|done].
  cbn. apply lookup_insert_ne. intros <-. by destruct (Hk _ Hs Ho).
Qed.

Lemma socket_at_touched id url s :
  socket_at id url (touch_url id url s) = Some (socket_of id url (touch_url id url s)).
Proof.
  unfold socket_of. rewrite details_touch_url, idx_touch_idx, idx_touch_lookup. by rewrite decide_True.
Qed.

(** What follows the tests of [update_publisher]. *)
Definition replace_socket (updated : bool) (id : nat) (url filter : string) (t : Z) s
    : SubscriptionManager :=
  subscribe_url id url filter t (if updated then delete_later id (socket_of id url s) s else s).

Lemma ok_replace_socket updated id url filter t s :
  ok s → valid id s → socket_at id url s = Some (socket_of id url s) →
  (updated = false → socket_of id url s = 0) →
  ok (replace_socket updated id url filter t s).
Proof.
  intros W V Hs Hz. unfold replace_socket. destruct updated.
  - apply consistent_subscribe_url; [by apply ok_delete_later|done|].
    intros old Ho _. change (socket_at id url s = Some old) in Ho. rewrite Hs in Ho.
    injection Ho as <-. apply elem_of_app. right. by left.
  - apply consistent_subscribe_url; [done..|]. intros old. rewrite Hs, Hz by done. intros [= <-].
    by rewrite (null_closed _ W).
Qed.

(** The cases of [update_publisher]: nothing to do, or a new socket. *)
Lemma update_publisher_cases id filter s p :
  let url := url_of p in
  let s1 := touch_url id url s in
  let s2 := update_publisher id filter s p in
  (is_Some (socket_at id url s) ∧ su_socketVerificationMap s1 !! socket_of id url s1 = Some (time_of p) ∧
    s2 = s1 <| su_socketVerificationMap ::= insert (socket_of id url s1) (time_of p) |>) ∨
  (∃ updated, (updated = false → socket_of id url s1 = 0) ∧
    let s3 := replace_socket updated id url filter (time_of p) s1 in
    s2 = s3 <| su_socketVerificationMap ::= insert (socket_of id url s3) (time_of p) |>).
Proof.
  intros url s1 s2. unfold s2, update_publisher. fold url. fold s1. cbv zeta.
  assert (Ev : su_socketVerificationMap s1 !! socket_of id url s1 = Some (verification_of id url s1)).
  { unfold verification_of, idx. unfold s1 at 1, touch_url. cbn. fold s1.
    change (socket_of id url (update_details _ _ s)) with (socket_of id url s1).
    rewrite idx_touch_lookup, decide_True by done. f_equal. unfold s1 at 3, touch_url. cbn.
    change (socket_of id url (update_details _ _ s)) with (socket_of id url s1).
    by rewrite idx_touch_lookup, decide_True. }
  destruct (decide (verification_of id url s1 = time_of p)) as [Eq|Hne].
  - rewrite (bool_decide_eq_false_2 (verification_of _ _ _ ≠ _)), orb_false_r by auto.
    case_bool_decide as Ek; cbn [negb].
    + left. split_and!; [done|by rewrite Ev, Eq|done].
    + right. exists false. split; [|done]. intros _. unfold socket_of, s1.
      rewrite details_touch_url, idx_touch_idx. unfold idx. apply eq_None_not_Some in Ek. by rewrite Ek.
  - rewrite (bool_decide_eq_true_2 (verification_of _ _ _ ≠ _)), orb_true_r by done.
    right. exists true. split; done.
Qed.

Lemma spares_update_publisher id filter p id2 url2 s :
  ok s → valid id s → valid id2 s → (id2, url2) ≠ (id, url_of p) →
  spares id2 url2 s (update_publisher id filter s p).
Proof.
  intros W V V2 Hne. destruct (ok_touch_url id (url_of p) s W V) as [W1 V1].
  assert (V3 : valid id2 (touch_url id (url_of p) s)) by by apply valid_update.
  eapply spares_trans; [by apply (spares_touch_url id (url_of p))|].
  pose proof (socket_at_touched id (url_of p) s) as Hs.
  assert (Hother : ∀ s', ok s' → valid id s' → valid id2 s' →
    socket_at id (url_of p) s' = Some (socket_of id (url_of p) s') → ∀ socket,
    socket_at id2 url2 s' = Some socket → is_Some (su_subscriptionSocketMap s' !! socket) →
    socket ≠ socket_of id (url_of p) s').
  { intros s' W' V' V2' Hs' socket Q1 Ho ->.
    destruct (socket_at_inj _ _ _ _ _ _ W' V2' V' Q1 Hs' Ho) as [-> ->]. done. }
  destruct (update_publisher_cases id filter s p) as [(_ & _ & ->)|(updated & Hz & ->)];
    set (s1 := touch_url id (url_of p) s) in *; clearbody s1.
  { apply spares_verify. by apply Hother. }
  set (s2 := if updated then delete_later id (socket_of id (url_of p) s1) s1 else s1).
  assert (W2 : ok s2) by (destruct updated; [by apply ok_delete_later|done]).
  assert (Hs2 : spares id2 url2 s1 s2).
  { subst s2. destruct updated; [|apply spares_refl]. by apply spares_delete_later, Hother. }
  eapply spares_trans; [exact Hs2|].
  eapply spares_trans; [apply (spares_subscribe_url id (url_of p) filter (time_of p)); try done|].
  { by subst s2; destruct updated. }
  apply spares_verify, Hother; try done.
  - by apply (ok_replace_socket updated).
  - by apply valid_subscribe_url; subst s2; destruct updated.
  - by apply valid_subscribe_url; subst s2; destruct updated.
  - unfold socket_of, replace_socket. rewrite details_subscribe_url. cbn. unfold idx.
    by rewrite lookup_insert_eq.
Qed.

(** Only sockets there are are to be deleted. *)
Definition bounded s : Prop := ∀ id k, (id, k) ∈ su_deleteList s → k < su_nextSocket s.

Lemma live_update_publisher id filter p s :
  ok s → valid id s → bounded s → time_of p ≠ 0 → staying id (url_of p) s →
  live id (url_of p) (time_of p) (update_publisher id filter s p).
Proof.
  intros W V B Ht Hst. destruct (ok_touch_url id (url_of p) s W V) as [W1 V1].
  pose proof (socket_at_touched id (url_of p) s) as Hs.
  destruct (update_publisher_cases id filter s p) as [([k Hk] & Hv & ->)|(updated & Hz & ->)].
  - assert (Ek : socket_of id (url_of p) (touch_url id (url_of p) s) = k).
    { unfold socket_of. rewrite details_touch_url, idx_touch_idx. unfold idx. by rewrite Hk. }
    rewrite Ek in *. destruct (c_verification _ _ W1 _ _ Hv Ht) as [i Hi].
    destruct (c_urls _ _ W1 _ _ (valid_details _ _ V1) _ _ Hs) as (_ & _ & Hid).
    rewrite (Hid _ Hi) in Hi. exists k. split_and!; [done|done|by cbn; rewrite lookup_insert_eq|].
    intros id'. apply (Hst _ Hk). by exists id.
  - set (s1 := touch_url id (url_of p) s) in *.
    assert (Hn : su_nextSocket (if updated then delete_later id (socket_of id (url_of p) s1) s1 else s1)
      = su_nextSocket s1) by by destruct updated.
    set (s2 := replace_socket _ _ _ _ _ s1).
    assert (E2 : socket_at id (url_of p) s2 = Some (su_nextSocket s1)).
    { unfold s2, replace_socket. rewrite details_subscribe_url. cbn. rewrite Hn. apply lookup_insert_eq. }
    assert (E3 : socket_of id (url_of p) s2 = su_nextSocket s1) by (unfold socket_of, idx; by rewrite E2).
    rewrite E3. exists (su_nextSocket s1). split_and!; [done| |by cbn; rewrite lookup_insert_eq|].
    + cbn. unfold s2, replace_socket. cbn. rewrite Hn. apply lookup_insert_eq.
    + intros id' Hin. change (su_deleteList s2) with
        (su_deleteList (if updated then delete_later id (socket_of id (url_of p) s1) s1 else s1)) in Hin.
      assert (su_nextSocket s1 < su_nextSocket s1); [|lia].
      destruct updated; [|by apply (B id')].
      apply elem_of_app in Hin as [Hin|Hin%list_elem_of_singleton]; [by apply (B id')|].
      injection Hin as _ Hk.
      destruct (c_urls _ _ W1 _ _ (valid_details _ _ V1) _ _ Hs) as ([_ Hlt] & _).
      rewrite <- Hk in Hlt. exact Hlt.
Qed.

(** *** All publishers, for one filter *)

Lemma bounded_update_publisher id filter p s :
  ok s → valid id s → bounded s → bounded (update_publisher id filter s p).
Proof.
  intros W V B. destruct (ok_touch_url id (url_of p) s W V) as [W1 V1].
  pose proof (socket_at_touched id (url_of p) s) as Hs.
  destruct (c_urls _ _ W1 _ _ (valid_details _ _ V1) _ _ Hs) as ([_ Hlt] & _).
  destruct (update_publisher_cases id filter s p) as [(_ & _ & ->)|(updated & _ & ->)]; [done|].
  intros id' k Hin. assert (k < su_nextSocket s); [|destruct updated; cbn; lia].
  destruct updated; [|by apply (B id')].
  apply elem_of_app in Hin as [Hin|Hin%list_elem_of_singleton]; [by apply (B id')|].
  by injection Hin as _ ->.
Qed.

Lemma deletes_grow_update_publisher id filter p s :
  su_deleteList s ⊆ su_deleteList (update_publisher id filter s p).
Proof.
  destruct (update_publisher_cases id filter s p) as [(_ & _ & ->)|(updated & _ & ->)]; [done|].
  destruct updated; [|done]. cbn. set_solver.
Qed.

Record update_inv s s' : Prop := {
  ui_ok : ok s';
  ui_valid : ∀ id', valid id' s → valid id' s';
  ui_bounded : bounded s';
  ui_deletes : su_deleteList s ⊆ su_deleteList s';
}.

Lemma update_publishers_inv id filter l s :
  ok s → valid id s → bounded s → update_inv s (foldl (update_publisher id filter) s l).
Proof.
  intros W V B. apply (foldl_inv (update_inv s)); [by split|].
  intros s' p _ [W' V' B' D']. pose proof (V' _ V) as Vi. split.
  - by apply ok_update_publisher.
  - intros id' Hid. apply valid_update_publisher, (V' _ Hid).
  - by apply bounded_update_publisher.
  - etrans; [exact D'|]. apply deletes_grow_update_publisher.
Qed.

Lemma spares_update_publishers id filter l id2 url2 s :
  ok s → valid id s → bounded s → valid id2 s → (id2 ≠ id ∨ url2 ∉ (λ p, url_of p) <$> l) →
  spares id2 url2 s (foldl (update_publisher id filter) s l).
Proof.
  revert s. induction l as [|p l IH]; intros s W V B V2 Hne; [apply spares_refl|].
  cbn [foldl fmap list_fmap] in *. rewrite not_elem_of_cons in Hne.
  destruct (update_publishers_inv id filter [p] s W V B) as [W' V' B' _]. cbn [foldl] in *.
  eapply spares_trans; [apply (spares_update_publisher id filter p); try done; destruct Hne as [?|[? _]]; congruence|].
  apply IH; [done|by apply V'|done|by apply V'|]. destruct Hne as [?|[? ?]]; auto.
Qed.

Lemma live_update_publishers id filter l s :
  ok s → valid id s → bounded s → NoDup ((λ p, url_of p) <$> l) →
  Forall (λ p, time_of p ≠ 0) l → (∀ p, p ∈ l → staying id (url_of p) s) →
  ∀ p, p ∈ l → live id (url_of p) (time_of p) (foldl (update_publisher id filter) s l).
Proof.
  revert s. induction l as [|q l IH]; intros s W V B Hnd Ht Hst p Hp; [by apply not_elem_of_nil in Hp|].
  cbn [foldl fmap list_fmap] in *. apply NoDup_cons in Hnd as [Hq Hnd]. inversion Ht; subst.
  destruct (update_publishers_inv id filter [q] s W V B) as [W' V' B' _]. cbn [foldl] in *.
  pose proof (V' _ V) as Vi. apply elem_of_cons in Hp as [->|Hp].
  - eapply live_spared; [apply spares_update_publishers; auto|].
    apply live_update_publisher; try done. apply Hst. by left.
  - apply IH; try done. intros p' Hp'. eapply staying_spared; [|apply Hst; by right].
    apply spares_update_publisher; try done. intros [= E]. destruct Hq. rewrite <- E.
    by apply (list_elem_of_fmap_2 (λ p, url_of p)).
Qed.

(** *** Urls that are gone *)

Lemma delete_gone_cases l id s entry :
  (delete_gone l id s entry = s ∧ entry.1 ∈ (λ p, url_of p) <$> l) ∨
  (delete_gone l id s entry = delete_later id entry.2 s ∧ entry.1 ∉ (λ p, url_of p) <$> l).
Proof.
  unfold delete_gone. destruct (existsb _ l) eqn:E; [left|right]; split; try done.
  - apply existsb_exists in E as (p & Hp & ->%bool_decide_eq_true).
    by apply (list_elem_of_fmap_2 (λ p, url_of p)), list_elem_of_In.
  - intros (p & Ep & Hp)%list_elem_of_fmap. apply not_true_iff_false in E. apply E, existsb_exists.
    exists p. split; [by apply list_elem_of_In|]. by apply bool_decide_eq_true.
Qed.

(** Only the list of deletions changes. *)
Definition deletes_only s s' : Prop :=
  ∃ l, s' = s <| su_deleteList := su_deleteList s ++ l |>.

Lemma delete_gone_deletes l id entries s :
  let s' := foldl (delete_gone l id) s entries in
  su_details s' = su_details s ∧ su_subscriptionSocketMap s' = su_subscriptionSocketMap s ∧
  su_socketVerificationMap s' = su_socketVerificationMap s ∧ su_nextSocket s' = su_nextSocket s ∧
  ∀ id' k, (id', k) ∈ su_deleteList s' ↔ (id', k) ∈ su_deleteList s ∨
    id' = id ∧ ∃ url, (url, k) ∈ entries ∧ url ∉ (λ p, url_of p) <$> l.
Proof.
  revert s. induction entries as [|[url k0] entries IH]; intros s; cbn [foldl].
  { split_and!; [done..|]. intros id' k. split; [by left|].
    intros [?|(_ & u & Hu & _)]; [done|]. by apply not_elem_of_nil in Hu. }
  destruct (delete_gone_cases l id s (url, k0)) as [[-> Hin]|[-> Hin]]; cbn in Hin;
    match goal with |- context [foldl _ ?s1 entries] => destruct (IH s1) as (E1 & E2 & E3 & E4 & E5) end;
    (do 4 (split; [done|]); intros id' k; rewrite E5).
  - split.
    + intros [?|(? & u & ? & ?)]; [by left|right]. split; [done|]. exists u. split; [by right|done].
    + intros [?|(? & u & [[= -> ->]|?]%elem_of_cons & ?)]; [by left|done|right]. split; [done|by exists u].
  - cbn. rewrite elem_of_app, list_elem_of_singleton. split.
    + intros [[?|[= -> ->]]|(? & u & ? & ?)]; [by left| |]; right; (split; [done|]).
      * exists url. split; [left|done].
      * exists u. split; [by right|done].
    + intros [?|(-> & u & [[= -> ->]|?]%elem_of_cons & ?)]; [by left; left|by left; right|].
      right. split; [done|by exists u].
Qed.

(** What holds of the details of a filter after its update. *)
Definition mirrors (l : list PublisherInfoPB) (id : nat) s : Prop :=
  (∀ p, p ∈ l → live id (url_of p) (time_of p) s) ∧
  (∀ url k, url ∉ (λ p, url_of p) <$> l → socket_at id url s = Some k → (id, k) ∈ su_deleteList s).

Lemma update_filter_inv l s filter id :
  ok s → valid id s → bounded s → update_inv s (update_filter l s (filter, id)).
Proof.
  intros W V B. destruct (update_publishers_inv id filter l s W V B) as [W1 V1 B1 D1].
  destruct (ok_update_filter l s (filter, id) W V) as [W2 V2]. split; [done|done| |].
  - intros id' k Hin. cbn in Hin |- *. set (s1 := foldl _ s l) in *.
    destruct (delete_gone_deletes l id (kv_items (sb_pollItemMap (details id s1))) s1)
      as (_ & _ & _ & E4 & E5). rewrite E4. apply E5 in Hin as [Hin|(-> & url & Hin & _)].
    + by apply (B1 id').
    + apply elem_of_kv_items in Hin.
      destruct (c_urls _ _ W1 _ _ (valid_details _ _ (V1 _ V)) _ _ Hin). lia.
  - etrans; [exact D1|]. cbn. set (s1 := foldl _ s l).
    destruct (delete_gone_deletes l id (kv_items (sb_pollItemMap (details id s1))) s1)
      as (_ & _ & _ & _ & E5). intros [id' k] Hin. apply E5. by left.
Qed.

Lemma spares_update_filter l s filter id id2 url2 :
  ok s → valid id s → bounded s → valid id2 s → id2 ≠ id →
  spares id2 url2 s (update_filter l s (filter, id)).
Proof.
  intros W V B V2 Hne. destruct (update_publishers_inv id filter l s W V B) as [W1 V1 B1 D1].
  eapply spares_trans; [by apply (spares_update_publishers id filter l); auto|]. cbn.
  set (s1 := foldl _ s l) in *.
  destruct (delete_gone_deletes l id (kv_items (sb_pollItemMap (details id s1))) s1)
    as (E1 & E2 & E3 & _ & E5). set (s2 := foldl _ s1 _) in *.
  unfold spares, details. rewrite E1, E2, E3. split; [done|]. intros socket Hs. split; [done|].
  intros Ho. split; [done|]. intros id' [?|(-> & url & Hin & _)]%E5; [done|].
  apply elem_of_kv_items in Hin.
  destruct (socket_at_inj _ _ _ _ _ _ W1 (V1 _ V2) (V1 _ V) Hs Hin Ho). done.
Qed.

Lemma mirrors_update_filter l s filter id :
  ok s → valid id s → bounded s → NoDup ((λ p, url_of p) <$> l) →
  Forall (λ p, time_of p ≠ 0) l → (∀ p, p ∈ l → staying id (url_of p) s) →
  mirrors l id (update_filter l s (filter, id)).
Proof.
  intros W V B Hnd Ht Hst. destruct (update_publishers_inv id filter l s W V B) as [W1 V1 B1 D1].
  pose proof (live_update_publishers id filter l s W V B Hnd Ht Hst) as HL. cbn.
  set (s1 := foldl _ s l) in *. pose proof (V1 _ V) as Vi.
  destruct (delete_gone_deletes l id (kv_items (sb_pollItemMap (details id s1))) s1)
    as (E1 & E2 & E3 & _ & E5). set (s2 := foldl _ s1 _) in *. split.
  - intros p Hp. destruct (HL p Hp) as (k & L1 & L2 & L3 & L4).
    exists k. unfold details. rewrite E1, E2, E3. split_and!; [done..|].
    intros id' [?|(-> & url & Hin & Hg)]%E5; [by eapply L4|]. apply elem_of_kv_items in Hin.
    destruct (socket_at_inj _ _ _ _ _ _ W1 Vi Vi L1 Hin) as [_ <-]; [by eexists|].
    destruct Hg. by apply (list_elem_of_fmap_2 (λ p, url_of p)).
  - intros url k Hu. unfold details. rewrite E1. intros Hk. apply E5. right. split; [done|].
    exists url. split; [by apply elem_of_kv_items|done].
Qed.

(** *** All filters of the key *)

Lemma mirrors_spared l id s s' :
  (∀ url, spares id url s s') → su_deleteList s ⊆ su_deleteList s' → mirrors l id s → mirrors l id s'.
Proof.
  intros Hs Hd [HL HG]. split.
  - intros p Hp. eapply live_spared; [apply Hs|by apply HL].
  - intros url k Hu. destruct (Hs url) as [-> _]. intros Hk. by apply Hd, (HG url).
Qed.

Lemma mirrors_update_filters l entries s :
  ok s → (∀ entry, entry ∈ entries → valid entry.2 s) → bounded s →
  NoDup ((λ p, url_of p) <$> l) → Forall (λ p, time_of p ≠ 0) l → NoDup entries.*2 →
  (∀ entry p, entry ∈ entries → p ∈ l → staying entry.2 (url_of p) s) →
  ∀ entry, entry ∈ entries → mirrors l entry.2 (foldl (update_filter l) s entries).
Proof.
  intros W V B Hl Ht Hnd Hst. revert s W V B Hst.
  induction entries as [|[f id] entries IH]; intros s W V B Hst entry Hin;
    [by apply not_elem_of_nil in Hin|].
  cbn [fmap list_fmap snd] in Hnd. apply NoDup_cons in Hnd as [Hid Hnd]. cbn [foldl].
  assert (Vi : valid id s) by (apply (V (f, id)); left).
  assert (Hne : ∀ e, e ∈ entries → e.2 ≠ id).
  { intros e He <-. apply Hid. by apply list_elem_of_fmap_2. }
  destruct (update_filter_inv l s f id W Vi B) as [W1 V1 B1 D1].
  set (s1 := update_filter l s (f, id)) in *.
  assert (Hrest : ∀ e, e ∈ entries → ∀ url, spares e.2 url s s1).
  { intros e He url. apply spares_update_filter; auto. apply V. by right. }
  apply elem_of_cons in Hin as [->|Hin].
  - cbn [snd]. assert (Hm : mirrors l id s1).
    { apply mirrors_update_filter; try done. intros p Hp. apply (Hst (f, id) p); [left|done]. }
    clear IH Hst. clearbody s1. assert (Vi1 : valid id s1) by by apply V1.
    assert (Ve : ∀ e, e ∈ entries → valid e.2 s1) by (intros e He; apply V1, V; by right).
    clear Hrest Hid Hnd D1 V1 V. revert s1 W1 B1 Hm Vi1 Ve.
    induction entries as [|[f' id'] entries IH]; intros s1 W1 B1 Hm Vi1 Ve; [done|].
    cbn [foldl]. assert (Vi' : valid id' s1) by (apply (Ve (f', id')); left).
    assert (Hn : id ≠ id') by (intros ->; apply (Hne (f', id')); [left|done]).
    destruct (update_filter_inv l s1 f' id' W1 Vi' B1) as [W2 V2 B2 D2].
    apply IH; [by intros e He; apply Hne; right|done|done| |by apply V2|].
    + eapply mirrors_spared; [|exact D2|done]. intros url. by apply spares_update_filter.
    + intros e He. apply V2, Ve. by right.
  - apply IH; try done.
    + intros e He. apply V1, V. by right.
    + intros e p He Hp. apply (staying_spared _ _ s s1); [by apply Hrest|]. apply Hst; [by right|done].
Qed.

(** *** After the deletions *)

Definition kept (id : nat) (url : string) (t k : Z) s : Prop :=
  socket_at id url s = Some k ∧ su_subscriptionSocketMap s !! k = Some id ∧
  su_socketVerificationMap s !! k = Some t.

Lemma details_delete_entry_ne id id' k s :
  id ≠ id' → details id' (delete_entry s (id, k)) = details id' s.
Proof. intros Hne. unfold delete_entry, details. cbn. by rewrite lookup_insert_ne. Qed.

Lemma kept_delete_entries l id url t k s :
  kept id url t k s → (∀ id', (id', k) ∉ l) → kept id url t k (foldl delete_entry s l).
Proof.
  revert s. induction l as [|[id' k'] l IH]; intros s HK Hl; [done|]. cbn [foldl].
  apply IH; [|by intros i Hin; apply (Hl i); right].
  assert (Hne : k' ≠ k) by (intros ->; apply (Hl id'); left).
  destruct HK as (K1 & K2 & K3). split_and!.
  - destruct (decide (id' = id)) as [->|]; [|by rewrite details_delete_entry_ne].
    rewrite details_delete_entry. by apply forget_socket_kept.
  - cbn. by rewrite lookup_delete_ne.
  - cbn. by rewrite lookup_delete_ne.
Qed.

Lemma gone_delete_entries l id url s :
  consistent l s → (∀ k, socket_at id url s = Some k → k = 0 ∨ (id, k) ∈ l) →
  ∀ k, socket_at id url (foldl delete_entry s l) = Some k → k = 0.
Proof.
  revert s. induction l as [|[id' k'] l IH]; intros s W Hg k; cbn [foldl].
  { intros Hk. destruct (Hg k Hk) as [?|Hin]; [done|]. by apply not_elem_of_nil in Hin. }
  apply IH; [by apply consistent_delete_entry|]. clear k IH.
  assert (V : valid id' s) by (apply (c_pending _ _ W _ k'); left).
  intros k. destruct (decide (id' = id)) as [->|Hne].
  - rewrite details_delete_entry. intros Hk. apply forget_socket_lookup in Hk as [Hn Hk].
    + destruct Hk as [->|Hk]; [by left|]. destruct (Hg _ Hk) as [?|Hin]; [by left|].
      apply elem_of_cons in Hin as [[= ->]|?]; [|by right]. destruct Hn; [by left|done].
    + intros u Hu. by apply (c_urls _ _ W _ _ (valid_details _ _ V)).
  - rewrite details_delete_entry_ne by done. intros Hk. destruct (Hg _ Hk) as [?|Hin]; [by left|].
    apply elem_of_cons in Hin as [[= <-]|?]; [done|by right].
Qed.

(** *** The turn *)

Lemma su_trim_spec l s : su_trim l s = trimmed (su_componentID s) (su_ipAddress s) l.
Proof.
  unfold su_trim, trimPublishers, trimmed. destruct (existsb _ l).
  - by rewrite trim_loop_relay.
  - by rewrite trim_loop_other.
Qed.

Lemma update_mirrored s dataProductID bytes m filter id :
  let update : ComponentDataLookupResponsePB :=
    fst (populateMessage (GravityDataProduct_from_bytes bytes)) in
  let l := trimmed (su_componentID s) (su_ipAddress s) (dl_publishers update) in
  consistent [] s → su_deleteList s = [] → dataProductID ≠ "" →
  su_subscriptionMap s !! (dl_domain_id update, dataProductID) = Some m → m !! filter = Some id →
  NoDup ((λ p, url_of p) <$> l) → Forall (λ p, time_of p ≠ 0) l →
  ∀ rest, let s' := process_deletes (publisher_update ((dataProductID, bytes) :: rest) s) in
  (∀ p, p ∈ l → ∃ k, kept id (url_of p) (time_of p) k s') ∧
  (∀ url k, socket_at id url s' = Some k → k ≠ 0 → url ∈ (λ p, url_of p) <$> l).
Proof.
  intros update l W Ed Hne Hm Hid Hnd Ht rest s'. assert (W' : ok s) by (unfold ok; by rewrite Ed).
  unfold s', publisher_update. rewrite decide_False by done. cbv zeta. fold update. rewrite Hm.
  rewrite su_trim_spec. fold l. set (s1 := foldl _ s _).
  assert (B : bounded s) by (intros i k Hin; rewrite Ed in Hin; by apply not_elem_of_nil in Hin).
  assert (V : ∀ entry, entry ∈ kv_items m → valid entry.2 s) by (intros e; by eapply filter_map_valid).
  assert (W1 : ok s1 ∧ ∀ i, valid i s → valid i s1).
  { apply (foldl_inv (λ s', ok s' ∧ ∀ i, valid i s → valid i s')); [done|].
    intros s0 e He [W0 V0]. destruct (ok_update_filter l s0 e W0 (V0 _ (V _ He))) as [W2 V2].
    split; [done|]. intros i Hi. apply V2, (V0 _ Hi). }
  assert (HM : mirrors l id s1).
  { apply (mirrors_update_filters l (kv_items m) s W' V B Hnd Ht) with (entry := (filter, id)).
    - apply NoDup_fmap_2_strong; [|apply (NoDup_fmap_1 fst), NoDup_kv_items_keys].
      intros [f1 i1] [f2 i2] H1%elem_of_kv_items H2%elem_of_kv_items; cbn; intros <-.
      destruct (c_map _ _ W _ _ Hm) as [_ HF].
      destruct (HF _ _ H1) as (d1 & D1 & _ & <-). destruct (HF _ _ H2) as (d2 & D2 & _ & <-). congruence.
    - intros e p _ _ k _ _ i Hin. rewrite Ed in Hin. by apply not_elem_of_nil in Hin.
    - by apply elem_of_kv_items. }
  clearbody s1. destruct W1 as [W1 _], HM as [HL HG]. split.
  - intros p Hp. destruct (HL p Hp) as (k & L1 & L2 & L3 & L4). exists k.
    destruct (kept_delete_entries (su_deleteList s1) id (url_of p) (time_of p) k s1) as (K1 & K2 & K3);
      [done..|]. by split_and!.
  - intros url k Hk Hk0. destruct (decide (url ∈ (λ p, url_of p) <$> l)) as [|Hu]; [done|].
    destruct Hk0. apply (gone_delete_entries (su_deleteList s1) id url s1 W1); [|exact Hk].
    intros k' Hk'. right. by eapply HG.
Qed.
End update.

(** ** A turn with a list of publishers *)

(** What the timeouts do not touch. *)
Definition wiring s :=
  (su_details s, su_subscriptionMap s, su_subscriptionSocketMap s, su_socketVerificationMap s,
   su_lastCachedValueMap s, su_pollItems s, su_componentID s, su_ipAddress s,
   su_serviceDirectoryUrl s, su_deleteList s, su_nextSocket s).

Lemma wiring_calculateTimeout s : wiring (calculateTimeout s) = wiring s.
Proof.
  unfold calculateTimeout.
  set (s1 := s <| su_currTimeoutMonitor := None |> <| su_currMonitorDetails := None |>).
  assert (E : wiring (foldl check_details (-1, s1) (all_details s1)).2 = wiring s).
  { apply (foldl_inv (λ acc : Z * SubscriptionManager, wiring acc.2 = wiring s)); [done|].
    intros acc id _ E1. unfold check_details.
    apply (foldl_inv (λ acc : Z * SubscriptionManager, wiring acc.2 = wiring s)); [done|].
    intros [m s2] a _ E2. unfold check_monitor. cbn in E2 |- *.
    case_decide; [|done]. case_match; [done|]. by case_decide. }
  destruct (foldl _ _ _). exact E.
Qed.

Section turn.
Context `{Protobuf GravityDataProductPB} `{Protobuf ServiceDirectoryUnregistrationPB}
  `{Protobuf ComponentDataLookupResponsePB} `{Protobuf PublisherInfoPB}.

(** Looking up the url of an open socket inserts nothing. *)
Lemma touch_socket_url id k s :
  ok s → su_subscriptionSocketMap s !! k = Some id →
  update_details id (λ d, d <| sb_socketToUrlMap ::= idx_touch "" k |>) s = s.
Proof.
  intros W Es. destruct (c_sockets _ _ W _ _ Es) as (_ & _ & d & url & Hd & Hu & _).
  assert (Et : idx_touch "" k (sb_socketToUrlMap d) = sb_socketToUrlMap d).
  { unfold idx_touch, idx. rewrite Hu. by apply insert_id. }
  assert (E : insert id (d <| sb_socketToUrlMap ::= idx_touch "" k |>) (su_details s) = su_details s).
  { apply insert_id. rewrite Hd. unfold update. rewrite Et. by destruct d. }
  unfold update_details. rewrite (details_Some _ _ _ Hd). unfold update at 1. cbn in E |- *. rewrite E.
  by destruct s.
Qed.

Lemma poll_item_quiet received s k : ok s → received !! k = None → poll_item received s k = s.
Proof.
  intros W Hk. unfold poll_item. rewrite Hk.
  destruct (su_subscriptionSocketMap s !! k) as [id|] eqn:Es; [|done]. by apply touch_socket_url.
Qed.

Lemma poll_item_data socket msgs id url s :
  ok s → su_subscriptionSocketMap s !! socket = Some id →
  sb_socketToUrlMap (details id s) !! socket = Some url →
  poll_item {[socket := msgs]} s socket = data_message id socket url msgs s.
Proof.
  intros W Es Hu. unfold poll_item. rewrite Es, lookup_singleton_eq, touch_socket_url by done.
  unfold idx. by rewrite Hu.
Qed.

Lemma poll_items_quiet received l s :
  ok s → (∀ k, k ∈ l → received !! k = None) → foldl (poll_item received) s l = s.
Proof.
  intros W. induction l as [|k l IH]; intros Hl; [done|]. cbn [foldl].
  rewrite poll_item_quiet by (done || (apply Hl; left)). apply IH. intros k' Hk'. apply Hl. by right.
Qed.

(** One poll item with messages. *)
Lemma poll_items_one socket msgs s :
  ok s → socket ∈ su_pollItems s →
  ok (poll_item {[socket := msgs]} s socket) →
  poll_items {[socket := msgs]} s = poll_item {[socket := msgs]} s socket.
Proof.
  intros W Hin W'. pose proof (c_items _ _ W) as (_ & Hnd & _). unfold poll_items.
  apply list_elem_of_split in Hin as (pre & post & Ep). rewrite Ep in Hnd |- *.
  apply NoDup_app in Hnd as (_ & Hpre & Hpost). apply NoDup_cons in Hpost as [Hpost _].
  assert (E : foldl (poll_item {[socket := msgs]}) s (pre ++ socket :: post) =
    poll_item {[socket := msgs]} s socket).
  { rewrite foldl_app. rewrite (poll_items_quiet _ pre).
    - cbn [foldl]. apply poll_items_quiet; [done|]. intros k Hk. apply lookup_singleton_ne. by intros ->.
    - done.
    - intros k Hk. apply lookup_singleton_ne. intros ->. destruct (Hpre _ Hk). left. }
  cbv zeta. rewrite E. apply poll_items_quiet; [done|]. intros k _. apply lookup_empty.
Qed.

(** The turn that reads messages from one socket. *)
Lemma turn_one_socket s socket msgs address s' b :
  ok s → socket ∈ su_pollItems s →
  subscription_turn (PollReady None address None {[socket := msgs]}) s = Some (s', b) →
  s' = process_deletes (poll_item {[socket := msgs]} (calculateTimeout s) socket).
Proof.
  intros W Hin E. pose proof (wiring_calculateTimeout s) as Ew. injection Ew as _ _ _ _ _ Ep _ _ _ _ _.
  unfold subscription_turn in E. cbv zeta in E. cbn [mbind option_bind] in E. rewrite Ep in E.
  rewrite map_filter_singleton_True in E by done. injection E as <- _. unfold after_request.
  pose proof (ok_calculateTimeout _ W) as W1. rewrite poll_items_one; [done|done|by rewrite Ep|].
  by apply ok_poll_item.
Qed.

(** C13. After the turn that reads a list of publishers, the sockets open for a subscription of
    the product (whatever its filter) are exactly one for each publisher of the trimmed list,
    connected to its url and expecting its registration time: new publishers are added,
    publishers that registered again get a new socket, and the others go. *)
Theorem publisher_list_mirrored s s' b socket address dataProductID bytes rest m filter id :
  let update : ComponentDataLookupResponsePB :=
    fst (populateMessage (GravityDataProduct_from_bytes bytes)) in
  let l := trimmed (su_componentID s) (su_ipAddress s) (dl_publishers update) in
  subscription_reachable s →
  socket ∈ su_pollItems s → su_subscriptionSocketMap s !! socket = None →
  dataProductID ≠ "" → su_subscriptionMap s !! (dl_domain_id update, dataProductID) = Some m →
  m !! filter = Some id →
  NoDup ((λ p, url_of p) <$> l) → Forall (λ p, time_of p ≠ 0) l →
  subscription_turn (PollReady None address None {[socket := (dataProductID, bytes) :: rest]}) s
    = Some (s', b) →
  (∀ p, p ∈ l → ∃ k, kept id (url_of p) (time_of p) k s') ∧
  (∀ k, su_subscriptionSocketMap s' !! k = Some id → ∃ p, p ∈ l ∧ kept id (url_of p) (time_of p) k s').
Proof.
  intros update l [W Ed]%reachable_consistent Hin Hs Hne Hm Hid Hnd Ht E.
  assert (W0 : ok s) by (unfold ok; by rewrite Ed).
  assert (W' : ok s') by (by eapply ok_turn).
  apply turn_one_socket in E as ->; [|done..].
  pose proof (wiring_calculateTimeout s) as Ew.
  pose proof (ok_calculateTimeout _ W0) as W1. set (s1 := calculateTimeout s) in *. clearbody s1.
  injection Ew as _ Em Es _ _ _ Ec Ei _ Ed' _.
  unfold poll_item in W' |- *. rewrite Es, Hs, lookup_singleton_eq in W' |- *.
  destruct (update_mirrored s1 dataProductID bytes m filter id) with (rest := rest) as [HL HG];
    fold update; rewrite ?Ec, ?Ei, ?Em; try done; try congruence.
  { unfold ok in W1. congruence. }
  fold update in HG. rewrite Ec, Ei in HL, HG. split; [exact HL|].
  intros k Hk. destruct (c_sockets _ _ W' _ _ Hk) as (_ & Hki & d & url & Hd & _ & Hc).
  destruct Hc as [Hc|Hc]; [|by apply not_elem_of_nil in Hc].
  assert (Hk0 : k ≠ 0) by (intros ->; by rewrite (null_closed _ W') in Hk).
  assert (Hu : url ∈ (λ p, url_of p) <$> l).
  { apply (HG url k); [|done]. by rewrite (details_Some _ _ _ Hd). }
  apply list_elem_of_fmap in Hu as (p & -> & Hp). exists p. split; [done|].
  destruct (HL p Hp) as (k' & K1 & K2). rewrite (details_Some _ _ _ Hd), Hc in K1.
  injection K1 as <-. split; [|done]. by rewrite (details_Some _ _ _ Hd).
Qed.
End turn.
