(* ===== verification/GravitySubscriptionManagerDelivery.v ===== *)
(** * What subscribers and monitors see

    The products a turn delivers and their order; what happens to a publisher that is not the
    registered one; subscribing and unsubscribing; timeouts. *)

From S2P Require Import Prelude.
From S2P Require Import Messages.
From S2P Require Import CommUtil.
From S2P Require Import GravityDataProduct.
From S2P Require Import GravityMetrics.
From S2P Require Import GravitySubscriptionManager.
From S2P Require Import GravitySubscriptionManagerProofs.
From S2P Require Import GravitySubscriptionManagerUpdates.
#[local] Open Scope gravity_scope.
#[local] Open Scope Z_scope.

Implicit Types s : SubscriptionManager.
Implicit Types g h : GravityDataProduct.

(** ** Reading the messages of a socket *)

Section delivery.
Context `{Protobuf GravityDataProductPB} `{Protobuf ServiceDirectoryUnregistrationPB}
  `{Protobuf ComponentDataLookupResponsePB} `{Protobuf PublisherInfoPB}.

(** The product in a message. *)
Definition product (msg : frame * frame) : GravityDataProduct := GravityDataProduct_from_bytes msg.2.
Definition fresh (t : Z) (msg : frame * frame) : Prop := getRegistrationTime (product msg) = t.

(** What reading fresh messages leaves as it was. *)
Definition reading s :=
  (su_details s, su_monitorObjects s, su_subscriptionMap s, su_subscriptionSocketMap s,
   su_socketVerificationMap s, su_pollItems s, su_serviceDirectoryUrl s, su_deleteList s,
   su_metricsEnabled s, su_metricsData s, su_outputs s).

(** The products to deliver are among the messages, in the order of their time stamps and not
    older than the last one; and a product newer than everything before it is among them. *)
Record delivers (last : option GravityDataProduct) (msgs : list (frame * frame))
    (ps : list GravityDataProduct) : Prop := {
  dl_received : Forall (λ g, ∃ msg now, msg ∈ msgs ∧ g = setReceivedTimestamp now (product msg)) ps;
  dl_sorted : StronglySorted (λ g h, getGravityTimestamp g <= getGravityTimestamp h) ps;
  dl_last : ∀ h, last = Some h → Forall (λ g, getGravityTimestamp h <= getGravityTimestamp g) ps;
  dl_newer : ∀ pre msg post, msgs = pre ++ msg :: post →
    (∀ h, last = Some h → getGravityTimestamp h < getGravityTimestamp (product msg)) →
    (∀ m, m ∈ pre → getGravityTimestamp (product m) < getGravityTimestamp (product msg)) →
    isRelayedDataproduct (product msg) = false → isCachedDataproduct (product msg) = false →
    ∃ now, setReceivedTimestamp now (product msg) ∈ ps;
}.

Lemma delivers_skip last msg msgs ps :
  delivers last msgs ps →
  ((∀ h, last = Some h → getGravityTimestamp h < getGravityTimestamp (product msg)) →
    isRelayedDataproduct (product msg) = true) →
  delivers last (msg :: msgs) ps.
Proof.
  intros [D1 D2 D3 D4] Hno. split; [|done|done|].
  - eapply Forall_impl; [exact D1|]. intros g (m & now & Hm & E). exists m, now. split; [by right|done].
  - intros [|m pre] msg' post [= <- ->] Hl Hpre Hr Hc.
    + rewrite Hno in Hr by done. done.
    + apply (D4 pre msg' post); try done. intros m' Hm'. apply Hpre. by right.
Qed.

Lemma delivers_cons last msg msgs ps now (ignored : bool) :
  let g := setReceivedTimestamp now (product msg) in
  delivers (Some g) msgs ps → is_new last (product msg) = true →
  (ignored = true → isCachedDataproduct (product msg) = true) →
  delivers last (msg :: msgs) (if ignored then ps else g :: ps).
Proof.
  intros g [D1 D2 D3 D4] Hnew Hign.
  assert (Hts : getGravityTimestamp g = getGravityTimestamp (product msg)) by done.
  assert (Hle : ∀ h, last = Some h → getGravityTimestamp h <= getGravityTimestamp g).
  { intros h ->. cbn [is_new] in Hnew. rewrite Hts. apply orb_true_iff in Hnew as [Hn|Hn]; to_props; lia. }
  assert (D1' : Forall (λ g, ∃ m now, m ∈ msg :: msgs ∧ g = setReceivedTimestamp now (product m)) ps).
  { eapply Forall_impl; [exact D1|]. intros g' (m & now' & Hm & E). exists m, now'.
    split; [by right|done]. }
  assert (D3' := D3 _ eq_refl).
  split.
  - destruct ignored; [done|]. constructor; [|done]. exists msg, now. split; [left|done].
  - destruct ignored; [done|]. by constructor.
  - intros h Hh. assert (Forall (λ g, getGravityTimestamp h <= getGravityTimestamp g) ps).
    { eapply Forall_impl; [exact D3'|]. intros g' Hg'. by etrans; [apply Hle|]. }
    destruct ignored; [done|]. constructor; [by apply Hle|done].
  - intros [|m pre] msg' post [= <- ->] Hl Hpre Hr Hc.
    + exists now. destruct ignored; [rewrite Hign in Hc; done|left].
    + destruct (D4 pre msg' post) as [now' Hin]; try done.
      * intros h [= <-]. rewrite Hts. apply Hpre. left.
      * intros m' Hm'. apply Hpre. by right.
      * exists now'. destruct ignored; [done|by right].
Qed.

(** One fresh message: the product is new against the last one, or it is passed over. *)
Lemma read_messages_step id socket url t msg more s :
  let last := idx None socket (su_lastCachedValueMap s) in
  let s1 := touch_cached s socket in
  let cachedRelay := bool_decide (last = None) && isRelayedDataproduct (product msg) &&
    cached_elsewhere (product msg) s1 in
  let g := setReceivedTimestamp (su_now s1) (product msg) in
  let s2 := su_tick s1 <| su_lastCachedValueMap ::= insert socket (Some g) |> in
  let ignored := isCachedDataproduct g && negb (sb_receiveCachedDataProducts (details id s1)) in
  su_socketVerificationMap s !! socket = Some t → fresh t msg →
  read_messages id socket url (msg :: more) s =
    if negb cachedRelay && is_new last (product msg) then
      let '(ps, s') := read_messages id socket url more s2 in (if ignored then ps else g :: ps, s')
    else read_messages id socket url more s1.
Proof.
  intros last s1 cachedRelay g s2 ignored Hv Hm. destruct msg as [f bytes]. unfold fresh in Hm.
  assert (Et : s <| su_socketVerificationMap ::= idx_touch 0 socket |> = s).
  { unfold update. unfold idx_touch, idx. rewrite Hv. cbn. rewrite insert_id by done. by destruct s. }
  assert (Ev : idx 0 socket (su_socketVerificationMap s) = t) by (unfold idx; by rewrite Hv).
  cbn [read_messages]. rewrite Et. cbv zeta.
  rewrite Ev, decide_False by (intros Hn; by destruct Hn). fold s1.
  unfold s1 at 1 2. cbn [touch_cached]. unfold touch_cached. cbn. rewrite idx_touch_idx. done.
Qed.

Lemma read_messages_fresh id socket url t msgs s :
  su_socketVerificationMap s !! socket = Some t → Forall (fresh t) msgs →
  ∃ ps s', (∀ more, read_messages id socket url (msgs ++ more) s =
      let '(qs, s'') := read_messages id socket url more s' in (ps ++ qs, s'')) ∧
    reading s' = reading s ∧ delivers (idx None socket (su_lastCachedValueMap s)) msgs ps.
Proof.
  intros Hv Hf. revert s Hv. induction Hf as [|msg msgs Hm Hf IH]; intros s Hv.
  { exists [], s. split_and!; [|done|split; [constructor|constructor|by constructor|]].
    - intros more. cbn [app]. by destruct (read_messages _ _ _ more s).
    - intros [|] ??; discriminate. }
  cbn [app]. pose proof (λ more, read_messages_step id socket url t msg more s Hv Hm) as Hstep.
  cbv zeta in Hstep. set (s1 := touch_cached s socket) in *.
  set (last := idx None socket (su_lastCachedValueMap s)) in *.
  set (cachedRelay := bool_decide (last = None) && _ && _) in *.
  set (g := setReceivedTimestamp (su_now s1) (product msg)) in *.
  set (s2 := su_tick s1 <| su_lastCachedValueMap ::= insert socket (Some g) |>) in *.
  set (ignored := isCachedDataproduct g && _) in *.
  assert (El : idx None socket (su_lastCachedValueMap s1) = last) by apply idx_touch_idx.
  destruct (negb cachedRelay && is_new last (product msg)) eqn:Eb.
  - apply andb_true_iff in Eb as [_ Hnew].
    destruct (IH s2 Hv) as (ps & s' & Hr & Hs & HD).
    exists (if ignored then ps else g :: ps), s'. split_and!; [|done|].
    + intros more. rewrite Hstep, Hr. destruct (read_messages id socket url more s'). by destruct ignored.
    + apply delivers_cons; [|done|].
      * cbn in HD. unfold idx in HD. by rewrite lookup_insert_eq in HD.
      * unfold ignored. by intros [? _]%andb_true_iff.
  - destruct (IH s1 Hv) as (ps & s' & Hr & Hs & HD). exists ps, s'. split_and!; [by intros more; rewrite Hstep|done|].
    rewrite El in HD. apply delivers_skip; [done|]. intros Hn.
    unfold cachedRelay in Eb. clearbody last. destruct last as [h|].
    + assert (E1 : is_new (Some h) (product msg) = true)
        by (cbn [is_new]; apply orb_true_iff; left; by apply Z.ltb_lt, Hn).
      by rewrite E1 in Eb.
    + cbn [is_new] in Eb. rewrite andb_true_r in Eb. apply negb_false_iff in Eb. by to_props.
Qed.

(** Messages of one publisher, each newer than the one before. *)
Definition newer (last : option GravityDataProduct) (msgs : list (frame * frame)) : Prop :=
  StronglySorted (λ m m', getGravityTimestamp (product m) < getGravityTimestamp (product m')) msgs ∧
  ∀ h m, last = Some h → m ∈ msgs → getGravityTimestamp h < getGravityTimestamp (product m).
Definition original (msg : frame * frame) : Prop :=
  isRelayedDataproduct (product msg) = false ∧ isCachedDataproduct (product msg) = false.

Lemma read_messages_newer id socket url t msgs s :
  su_socketVerificationMap s !! socket = Some t → Forall (fresh t) msgs → Forall original msgs →
  newer (idx None socket (su_lastCachedValueMap s)) msgs →
  ∃ ps s', read_messages id socket url msgs s = (ps, s') ∧ reading s' = reading s ∧
    Forall2 (λ m g, ∃ now, g = setReceivedTimestamp now (product m)) msgs ps.
Proof.
  intros Hv Hf Hp [Hs Hl]. revert s Hv Hl.
  induction msgs as [|msg msgs IH]; intros s Hv Hl; [by exists [], s|].
  inversion_clear Hf as [|? ? Hm Hf']. inversion_clear Hp as [|? ? [Hr Hc] Hp'].
  inversion_clear Hs as [|? ? Hs' Hlt].
  rewrite (read_messages_step _ _ _ t) by done. cbv zeta. set (s1 := touch_cached s socket).
  set (g := setReceivedTimestamp (su_now s1) (product msg)).
  set (s2 := su_tick s1 <| su_lastCachedValueMap ::= insert socket (Some g) |>).
  change (isCachedDataproduct g) with (isCachedDataproduct (product msg)). rewrite Hr, Hc, andb_false_r.
  assert (Hnew : is_new (idx None socket (su_lastCachedValueMap s)) (product msg) = true).
  { destruct (idx None socket _) as [h|]; [|done]. cbn [is_new]. apply orb_true_iff. left.
    apply Z.ltb_lt, Hl; [done|left]. }
  rewrite Hnew. cbn [andb negb].
  destruct (IH Hf' Hp' Hs' s2 Hv) as (ps & s' & E & Er & HF).
  { intros h m. unfold s2. cbn. rewrite idx_insert, decide_True by done. intros [= <-] Hin.
    rewrite Forall_forall in Hlt. by apply Hlt. }
  rewrite E. exists (g :: ps), s'. split_and!; [done|exact Er|]. constructor; [by eexists|done].
Qed.

(** ** Delivery *)

(** One call for each subscriber, if there is something to deliver. *)
Definition fills (id : nat) (ps : list GravityDataProduct) s : list SubscriptionOutput :=
  if decide (ps = []) then []
  else (λ subscriber, SubscriptionFilled subscriber ps) <$> set_items (sb_subscribers (details id s)).

Lemma outputs_fold {A} (f : A → SubscriptionOutput) l s :
  foldl (λ s x, su_output (f x) s) s l = s <| su_outputs ::= λ o, o ++ (f <$> l) |>.
Proof.
  revert s. induction l as [|x l IH]; intros s; cbn [foldl].
  - destruct s. cbn. unfold update. cbn. by rewrite app_nil_r.
  - rewrite IH. unfold su_output, update. cbn. by rewrite <- app_assoc.
Qed.

(** What delivering and refreshing leaves as it was. *)
Definition network s :=
  (su_details s, su_subscriptionMap s, su_subscriptionSocketMap s, su_socketVerificationMap s,
   su_lastCachedValueMap s, su_pollItems s, su_serviceDirectoryUrl s, su_deleteList s).

Lemma refresh_fold currTime l s :
  let s' := foldl (refresh_monitor currTime) s l in
  network s' = network s ∧ su_outputs s' = su_outputs s ∧ su_metricsEnabled s' = su_metricsEnabled s.
Proof.
  apply (foldl_inv (λ s', network s' = network s ∧ su_outputs s' = su_outputs s ∧
    su_metricsEnabled s' = su_metricsEnabled s)); [done|].
  intros s' a _ E. exact E.
Qed.

Lemma deliver_spec id ps s :
  network (deliver id ps s) = network s ∧ su_outputs (deliver id ps s) = su_outputs s ++ fills id ps s.
Proof.
  unfold deliver, fills. case_decide; [by rewrite app_nil_r|]. cbv zeta. rewrite outputs_fold.
  set (s1 := s <| su_outputs ::= _ |>).
  destruct (refresh_fold (su_now s1 / 1000) (set_items (sb_monitors (details id s))) (su_tick s1))
    as (E1 & E2 & E3). set (s2 := foldl _ (su_tick s1) _) in *.
  case_match; (split; [exact E1|exact E2]).
Qed.

Lemma network_calculateTimeout s : network (calculateTimeout s) = network s.
Proof.
  pose proof (wiring_calculateTimeout s) as E. injection E as E1 E2 E3 E4 E5 E6 _ _ E7 E8 _.
  unfold network. by rewrite E1, E2, E3, E4, E5, E6, E7, E8.
Qed.

Lemma subscribers_fills id ps s s' : su_details s' = su_details s → fills id ps s' = fills id ps s.
Proof. unfold fills, details. by intros ->. Qed.

(** What a turn that reads a socket sends and keeps, given what it reads. *)
Lemma data_turn s s' b socket id msgs address :
  subscription_reachable s → su_subscriptionSocketMap s !! socket = Some id →
  subscription_turn (PollReady None address None {[socket := msgs]}) s = Some (s', b) →
  ∃ url, ∀ ps s2, read_messages id socket url msgs (calculateTimeout s) = (ps, s2) →
    reading s2 = reading (calculateTimeout s) →
    su_outputs s' = su_outputs (calculateTimeout s) ++ fills id ps s ∧
    su_subscriptionSocketMap s' = su_subscriptionSocketMap s ∧ su_pollItems s' = su_pollItems s.
Proof.
  intros [W Ed]%reachable_consistent Hs E.
  assert (W0 : ok s) by (unfold ok; by rewrite Ed).
  destruct (c_sockets _ _ W _ _ Hs) as (_ & Hin & d & url & Hd & Hu & _).
  apply turn_one_socket in E as ->; [|done..].
  pose proof (network_calculateTimeout s) as En. pose proof (ok_calculateTimeout _ W0) as W1.
  set (s1 := calculateTimeout s) in *. clearbody s1.
  injection En as E1 _ E3 E4 E5 E6 E7 E8.
  assert (Hu1 : sb_socketToUrlMap (details id s1) !! socket = Some url).
  { unfold details. by rewrite E1, Hd. }
  exists url. intros ps s2 Hr Es.
  rewrite (poll_item_data socket msgs id url) by (try rewrite E3; done). unfold data_message.
  rewrite Hr. destruct (deliver_spec id ps s2) as [F1 F2]. set (s3 := deliver id ps s2) in *.
  clearbody s3. injection Es as G1 _ _ G4 _ G6 _ G8 _ _ G10. injection F1 as F3 _ F4 _ _ F6 _ F8.
  unfold process_deletes.
  rewrite F8, G8, E8, Ed. cbn. rewrite F2, G10, F4, G4, F6, G6, E6, E3. split_and!; [|done..].
  f_equal. apply subscribers_fills. congruence.
Qed.

(** C14. A turn in which messages of the registered publisher wait on a socket: every subscriber
    gets the same products in one call, each of them received in this turn, in the order of
    their time stamps, none older than the last product of the socket; a product that is newer
    than everything before it, neither relayed nor cached, is among them.  Nothing else is
    sent, and no socket changes. *)
Theorem new_products_delivered s s' b socket id t msgs address :
  subscription_reachable s →
  su_subscriptionSocketMap s !! socket = Some id → su_socketVerificationMap s !! socket = Some t →
  Forall (fresh t) msgs →
  subscription_turn (PollReady None address None {[socket := msgs]}) s = Some (s', b) →
  ∃ ps, delivers (idx None socket (su_lastCachedValueMap s)) msgs ps ∧
    su_outputs s' = su_outputs (calculateTimeout s) ++ fills id ps s ∧
    su_subscriptionSocketMap s' = su_subscriptionSocketMap s ∧ su_pollItems s' = su_pollItems s.
Proof.
  intros Hr Hs Hv Hf E. destruct (data_turn _ _ _ _ _ _ _ Hr Hs E) as (url & Hturn).
  pose proof (network_calculateTimeout s) as En. injection En as _ _ _ E4 E5 _ _ _.
  destruct (read_messages_fresh id socket url t msgs (calculateTimeout s)) as (ps & s2 & Hread & Es & HD);
    [by rewrite E4|done|].
  specialize (Hread []). rewrite app_nil_r in Hread. cbn [read_messages] in Hread.
  rewrite app_nil_r in Hread. destruct (Hturn _ _ Hread Es) as (T1 & T2 & T3).
  exists ps. by rewrite <- E5.
Qed.

(** The request that tells the directory of a registration that is not valid any more. *)
Definition stale_notice (d : SubscriptionDetails) (url : string) (t : Z) s : SubscriptionOutput :=
  DirectoryNotice (su_serviceDirectoryUrl s)
    (serializeToArray (setData (mkServiceDirectoryUnregistrationPB (Some (sb_dataProductID d))
      (Some url) (Some DATA) (Some (sb_domain d)) (Some t))
      (new_GravityDataProduct "UnregistrationRequest"))).

Lemma read_messages_stale id socket url t msg more s :
  su_socketVerificationMap s !! socket = Some t → ¬ fresh t msg →
  read_messages id socket url (msg :: more) s =
  ([], delete_later id socket (su_output (stale_notice (details id s) url t s) s)).
Proof.
  intros Hv Hn. destruct msg as [f bytes]. cbn [read_messages].
  assert (Et : s <| su_socketVerificationMap ::= idx_touch 0 socket |> = s).
  { unfold update. unfold idx_touch, idx. rewrite Hv. cbn. rewrite insert_id by done. by destruct s. }
  assert (Ev : idx 0 socket (su_socketVerificationMap s) = t) by (unfold idx; by rewrite Hv).
  rewrite Et. cbv zeta. rewrite Ev, decide_True by (intros Eq; by destruct Hn). done.
Qed.

Lemma erase_first_gone socket l : NoDup l → socket ∉ erase_first socket l.
Proof.
  induction 1 as [|i l Hi Hl IH]; cbn; [apply not_elem_of_nil|]. case_decide; [by subst|].
  by apply not_elem_of_cons.
Qed.

Lemma data_message_stale id socket url t good msg more s :
  su_socketVerificationMap s !! socket = Some t → Forall (fresh t) good → ¬ fresh t msg →
  let s' := data_message id socket url (good ++ msg :: more) s in
  (∃ ps, delivers (idx None socket (su_lastCachedValueMap s)) good ps ∧
    su_outputs s' = (su_outputs s ++ [stale_notice (details id s) url t s]) ++ fills id ps s) ∧
  su_details s' = su_details s ∧ su_subscriptionSocketMap s' = su_subscriptionSocketMap s ∧
  su_pollItems s' = su_pollItems s ∧ su_deleteList s' = su_deleteList s ++ [(id, socket)].
Proof.
  intros Hv Hf Hn s'. unfold s', data_message.
  destruct (read_messages_fresh id socket url t good s Hv Hf) as (ps & s2 & Hr & Es & HD).
  injection Es as G1 _ _ G4 G5 G6 G7 G8 _ _ G10.
  assert (Hd2 : details id s2 = details id s) by (unfold details; by rewrite G1).
  rewrite Hr, (read_messages_stale id socket url t) by (try rewrite G5; done).
  rewrite app_nil_r. cbv iota beta zeta.
  assert (En : stale_notice (details id s2) url t s2 = stale_notice (details id s) url t s).
  { unfold stale_notice. by rewrite Hd2, G7. }
  rewrite En. set (o := stale_notice _ _ _ _). clearbody o.
  destruct (deliver_spec id ps (delete_later id socket (su_output o s2))) as [F1 F2].
  set (s4 := deliver _ _ _) in *. clearbody s4. injection F1 as F3 _ F4 _ _ F6 _ F8.
  cbn in F3, F4, F6, F8. rewrite F3, F4, F6, F8, G1, G4, G6, G8. split_and!; [|done..].
  exists ps. split; [done|]. rewrite F2. cbn. rewrite G10. f_equal. by apply subscribers_fills.
Qed.

Lemma process_one_delete id socket url s :
  su_deleteList s = [(id, socket)] → sb_socketToUrlMap (details id s) !! socket = Some url →
  sb_pollItemMap (details id s) !! url = Some socket → NoDup (su_pollItems s) →
  let s' := process_deletes s in
  su_outputs s' = su_outputs s ++ [Unsubscribe socket (sb_filter (details id s)); Close socket] ∧
  su_subscriptionSocketMap s' = delete socket (su_subscriptionSocketMap s) ∧
  su_socketVerificationMap s' !! socket = None ∧ su_lastCachedValueMap s' !! socket = None ∧
  socket ∉ su_pollItems s' ∧ sb_pollItemMap (details id s') !! url = None.
Proof.
  intros Ed Hu Hc Hnd s'.
  assert (Es : s' = (delete_entry s (id, socket)) <| su_deleteList := [] |>).
  { unfold s', process_deletes. by rewrite Ed. }
  rewrite Es. clear s' Es. split_and!.
  - cbn. by rewrite <- app_assoc.
  - done.
  - apply lookup_delete_eq.
  - apply lookup_delete_eq.
  - by apply erase_first_gone.
  - change (details id (?a <| su_deleteList := [] |>)) with (details id a).
    rewrite details_delete_entry. unfold forget_socket. cbn.
    assert (Eu : idx "" socket (sb_socketToUrlMap (details id s)) = url) by (unfold idx; by rewrite Hu).
    rewrite Eu, decide_True; [apply lookup_delete_eq|]. unfold idx. by rewrite Hc.
Qed.

(** C15. A message of another publisher than the registered one ends the reading: what came
    before it is delivered, the directory is told that the registration is stale, and the
    socket is closed and forgotten everywhere, so that nothing of this publisher reaches a
    subscriber. *)
Theorem stale_publisher_dropped s s' b socket id t url good msg more address :
  subscription_reachable s →
  su_subscriptionSocketMap s !! socket = Some id → su_socketVerificationMap s !! socket = Some t →
  sb_socketToUrlMap (details id s) !! socket = Some url →
  Forall (fresh t) good → ¬ fresh t msg →
  subscription_turn (PollReady None address None {[socket := good ++ msg :: more]}) s = Some (s', b) →
  (∃ ps, delivers (idx None socket (su_lastCachedValueMap s)) good ps ∧
    su_outputs s' = su_outputs (calculateTimeout s) ++ [stale_notice (details id s) url t s] ++
      fills id ps s ++ [Unsubscribe socket (sb_filter (details id s)); Close socket]) ∧
  su_subscriptionSocketMap s' = delete socket (su_subscriptionSocketMap s) ∧
  su_socketVerificationMap s' !! socket = None ∧ su_lastCachedValueMap s' !! socket = None ∧
  socket ∉ su_pollItems s' ∧ sb_pollItemMap (details id s') !! url = None.
Proof.
  intros [W Ed]%reachable_consistent Hs Hv Hu Hf Hn E.
  assert (W0 : ok s) by (unfold ok; by rewrite Ed).
  destruct (c_sockets _ _ W _ _ Hs) as (_ & Hin & d & url' & Hd & Hu' & Hc).
  destruct Hc as [Hc|Hc]; [|by apply not_elem_of_nil in Hc].
  rewrite <- (details_Some _ _ _ Hd) in Hu', Hc. assert (url' = url) as -> by congruence.
  apply turn_one_socket in E; [|done..].
  pose proof (network_calculateTimeout s) as En. pose proof (ok_calculateTimeout _ W0) as W1.
  set (s1 := calculateTimeout s) in *. clearbody s1.
  injection En as E1 _ E3 E4 E5 E6 E7 E8.
  assert (Hd1 : details id s1 = details id s) by (unfold details; by rewrite E1).
  rewrite (poll_item_data socket _ id url) in E by (rewrite ?E3, ?Hd1; done).
  destruct (data_message_stale id socket url t good msg more s1) as ((ps & HD & F2) & F3 & F4 & F6 & F8);
    [by rewrite E4|done|done|].
  set (s4 := data_message _ _ _ _ s1) in *. clearbody s4.
  assert (Hd4 : details id s4 = details id s) by (unfold details; by rewrite F3, E1).
  destruct (process_one_delete id socket url s4) as (P1 & P2 & P3).
  { by rewrite F8, E8, Ed. }
  { by rewrite Hd4. }
  { by rewrite Hd4. }
  { rewrite F6, E6. apply (c_items _ _ W). }
  rewrite E. split; [|split; [by rewrite P2, F4, E3|exact P3]].
  exists ps. rewrite <- E5. split; [done|].
  assert (Ef : fills id ps s1 = fills id ps s) by by apply subscribers_fills.
  assert (Eo : stale_notice (details id s1) url t s1 = stale_notice (details id s) url t s)
    by (unfold stale_notice; by rewrite Hd1, E7).
  by rewrite P1, F2, Hd4, Ef, Eo, <- !app_assoc.
Qed.
End delivery.
