(* ===== verification/GravitySubscriptionManagerRequests.v ===== *)
(** * Timeouts, subscribing and unsubscribing

    When monitors are called; what a subscription opens, and what the end of the last one
    closes. *)

From S2P Require Import Prelude.
From S2P Require Import Messages.
From S2P Require Import CommUtil.
From S2P Require Import GravityDataProduct.
From S2P Require Import GravityMetrics.
From S2P Require Import GravitySubscriptionManager.
From S2P Require Import GravitySubscriptionManagerProofs.
From S2P Require Import GravitySubscriptionManagerUpdates.
#[local] Open Scope gravity_scope.
#[local] Open Scope Z_scope.

Implicit Types s : SubscriptionManager.

(** ** Timeouts *)

(** The monitors in the order in which [calculateTimeout] looks at them. *)
Definition monitors_of s (id : nat) : list (nat * Z) :=
  pair id <$> set_items (sb_monitors (details id s)).
Definition all_monitors s : list (nat * Z) := all_details s ≫= monitors_of s.

(** A subscription with subscribers and a valid timeout. *)
Definition is_active s (x : nat * Z) : Prop :=
  sb_subscribers (details x.1 s) ≠ ∅ ∧ 0 <= tm_timeout (monitor_object x.2 s).
#[export] Instance is_active_dec s x : Decision (is_active s x).
Proof. unfold is_active. apply _. Defined.

Definition active_monitors s : list (nat * Z) := base.filter (is_active s) (all_monitors s).

(** Milliseconds until the monitor is to be called; the clock counts microseconds. *)
Definition remaining (us : Z) s (x : nat * Z) : Z :=
  s64 (tm_endTime (monitor_object x.2 s) - us / 1000).

Definition check_entry (acc : Z * SubscriptionManager) (x : nat * Z) : Z * SubscriptionManager :=
  check_monitor x.1 acc x.2.

Lemma check_monitor_details id acc a : su_details (check_monitor id acc a).2 = su_details acc.2.
Proof.
  destruct acc as [m s]. unfold check_monitor. case_decide; [|done]. cbn. case_match; [done|].
  by case_decide.
Qed.

Lemma check_monitors_details id acc l :
  su_details (foldl (check_monitor id) acc l).2 = su_details acc.2.
Proof.
  apply (foldl_inv (λ acc' : Z * SubscriptionManager, su_details acc'.2 = su_details acc.2)); [done|].
  intros acc' a _ E. by rewrite check_monitor_details.
Qed.

Lemma check_details_flat acc s ids :
  su_details acc.2 = su_details s →
  foldl check_details acc ids = foldl check_entry acc (ids ≫= monitors_of s).
Proof.
  revert acc. induction ids as [|id ids IH]; intros acc E; [done|].
  cbn [foldl mbind list_bind]. rewrite foldl_app, <- IH.
  - f_equal. unfold check_details, monitors_of, details at 1. rewrite E. fold (details id s).
    generalize (set_items (sb_monitors (details id s))). intros l. clear IH E. revert acc.
    induction l as [|a l IH]; intros acc; cbn; [done|]. apply IH.
  - unfold monitors_of. rewrite <- E. clear IH.
    rewrite <- (check_monitors_details id acc (set_items (sb_monitors (details id s)))). f_equal. f_equal.
    generalize (set_items (sb_monitors (details id s))). intros l. revert acc E.
    induction l as [|a l IH]; intros acc E; cbn; [done|]. apply IH. by rewrite check_monitor_details.
Qed.

(** The active monitors of a list, each with what the clock shows when it is looked at. *)
Definition looked_at s (l : list (nat * Z)) : list ((nat * Z) * Z) :=
  imap (λ i x, (x, su_clock s i)) (base.filter (is_active s) l).

Lemma looked_at_app s l l' :
  looked_at s (l ++ l') = looked_at s l ++
    imap (λ i x, (x, su_clock s (length (base.filter (is_active s) l) + i)%nat))
      (base.filter (is_active s) l').
Proof.
  unfold looked_at. by rewrite filter_app, imap_app.
Qed.

Lemma looked_at_nil s l : looked_at s l = [] → base.filter (is_active s) l = [].
Proof. unfold looked_at. by destruct (base.filter _ l). Qed.

(** What is known after some of the monitors. *)
Record scanned s (seen : list (nat * Z)) (acc : Z * SubscriptionManager) : Prop := {
  sc_details : su_details acc.2 = su_details s;
  sc_objects : su_monitorObjects acc.2 = su_monitorObjects s;
  sc_outputs : su_outputs acc.2 = su_outputs s;
  sc_clock n : su_clock acc.2 n = su_clock s (length (base.filter (is_active s) seen) + n)%nat;
  sc_first :
    match su_currTimeoutMonitor acc.2, su_currMonitorDetails acc.2 with
    | None, None => acc.1 = -1 ∧ looked_at s seen = []
    | Some a, Some id =>
        ∃ us, ((id, a), us) ∈ looked_at s seen ∧ acc.1 = remaining us s (id, a) ∧
        ∀ y us', (y, us') ∈ looked_at s seen → acc.1 <= remaining us' s y
    | _, _ => False
    end;
}.

Lemma scanned_inactive s seen acc x :
  scanned s seen acc → ¬ is_active s x → scanned s (seen ++ [x]) (check_entry acc x).
Proof.
  destruct acc as [m s1], x as [id a]. intros [E1 E2 E3 E4 E5] Hx. cbn in E1, E2, E3, E4, E5.
  assert (Hf : base.filter (is_active s) (seen ++ [(id, a)]) = base.filter (is_active s) seen).
  { rewrite filter_app, filter_cons, decide_False by done. apply app_nil_r. }
  assert (Hl : looked_at s (seen ++ [(id, a)]) = looked_at s seen) by (unfold looked_at; by rewrite Hf).
  unfold check_entry, check_monitor. cbn [fst snd].
  assert (Ed : details id s1 = details id s) by (unfold details; by rewrite E1).
  assert (Em : monitor_object a s1 = monitor_object a s) by (unfold monitor_object; by rewrite E2).
  rewrite Ed, Em, decide_False by exact Hx.
  split; [exact E1|exact E2|exact E3|rewrite Hf; exact E4|]. rewrite Hl. exact E5.
Qed.

Lemma scanned_active s seen acc x :
  let us := su_clock s (length (base.filter (is_active s) seen)) in
  scanned s seen acc → is_active s x → 0 < remaining us s x < 2147483648 →
  (∀ y us', (y, us') ∈ looked_at s seen → 0 < remaining us' s y) →
  scanned s (seen ++ [x]) (check_entry acc x).
Proof.
  intros us. destruct acc as [m s1], x as [id a]. intros [E1 E2 E3 E4 E5] Ha Hx Hseen.
  cbn in E1, E2, E3, E4, E5.
  assert (Hf : base.filter (is_active s) (seen ++ [(id, a)]) = base.filter (is_active s) seen ++ [(id, a)]).
  { by rewrite filter_app, filter_cons, decide_True. }
  assert (Hl : looked_at s (seen ++ [(id, a)]) = looked_at s seen ++ [((id, a), us)]).
  { rewrite looked_at_app. f_equal. rewrite filter_cons, decide_True by done. cbn. unfold us.
    by rewrite Nat.add_0_r. }
  unfold check_entry, check_monitor. cbn [fst snd].
  assert (Ed : details id s1 = details id s) by (unfold details; by rewrite E1).
  assert (Em : monitor_object a s1 = monitor_object a s) by (unfold monitor_object; by rewrite E2).
  assert (Hc : ∀ n, su_clock (su_tick s1) n =
    su_clock s (length (base.filter (is_active s) (seen ++ [(id, a)])) + n)%nat).
  { intros n. rewrite Hf, length_app. cbn. rewrite E4. f_equal. lia. }
  assert (Er : s64 (tm_endTime (monitor_object a s) - su_now s1 / 1000) = remaining us s (id, a)).
  { unfold remaining, su_now. by rewrite E4, Nat.add_0_r. }
  rewrite Ed, Em, decide_True by exact Ha. rewrite Er, (proj2 (Z.leb_gt _ 0)) by lia.
  assert (Hin : ∀ y us', (y, us') ∈ looked_at s (seen ++ [(id, a)]) ↔
    (y, us') ∈ looked_at s seen ∨ (y, us') = ((id, a), us)).
  { intros y us'. by rewrite Hl, elem_of_app, list_elem_of_singleton. }
  case_decide as Hm.
  - rewrite s32_id by (unfold is_s32; lia). split; [exact E1|exact E2|exact E3|exact Hc|].
    cbn [su_currTimeoutMonitor su_currMonitorDetails update fst snd]. exists us.
    split; [apply Hin; by right|]. split; [done|]. intros y us' [Hy|[= -> ->]]%Hin; [|apply Z.le_refl].
    destruct (su_currTimeoutMonitor s1) as [a'|], (su_currMonitorDetails s1) as [id'|];
      [|by destruct E5|by destruct E5|].
    + destruct E5 as (us1 & Hin' & -> & Hmin). specialize (Hseen _ _ Hin'). specialize (Hmin y us' Hy).
      destruct Hm as [Hm|Hm]; lia.
    + destruct E5 as [_ Hno]. rewrite Hno in Hy. exfalso. by apply elem_of_nil in Hy.
  - split; [exact E1|exact E2|exact E3|exact Hc|].
    change (su_currTimeoutMonitor (m, su_tick s1).2) with (su_currTimeoutMonitor s1).
    change (su_currMonitorDetails (m, su_tick s1).2) with (su_currMonitorDetails s1). cbn [fst].
    destruct (su_currTimeoutMonitor s1) as [a'|], (su_currMonitorDetails s1) as [id'|];
      [|by destruct E5|by destruct E5|].
    + destruct E5 as (us1 & Hin' & Em' & Hmin). exists us1. split; [apply Hin; by left|]. split; [done|].
      intros y us' [Hy|[= -> ->]]%Hin; [by apply Hmin|]. lia.
    + destruct E5 as [-> _]. destruct Hm. by right.
Qed.

Lemma scanned_all s l seen acc :
  scanned s seen acc → (∀ y us, (y, us) ∈ looked_at s (seen ++ l) → 0 < remaining us s y < 2147483648) →
  scanned s (seen ++ l) (foldl check_entry acc l).
Proof.
  revert seen acc. induction l as [|x l IH]; intros seen acc HS Hl; [by rewrite app_nil_r|].
  cbn [foldl]. rewrite cons_middle, app_assoc in Hl |- *. apply IH; [|exact Hl].
  assert (Hpre : ∀ y us, (y, us) ∈ looked_at s (seen ++ [x]) → 0 < remaining us s y < 2147483648).
  { intros y us Hy. apply Hl. rewrite looked_at_app. apply elem_of_app. by left. }
  rewrite looked_at_app in Hpre.
  destruct (decide (is_active s x)) as [Ha|Ha]; [|by apply scanned_inactive].
  apply scanned_active; [done|done| |].
  - apply Hpre. apply elem_of_app. right. rewrite filter_cons, decide_True by done. cbn.
    rewrite Nat.add_0_r. apply list_elem_of_here.
  - intros y us Hy. apply Hpre. apply elem_of_app. by left.
Qed.

(** What [calculateTimeout] looks at, and when. *)
Definition monitors_looked_at s : list ((nat * Z) * Z) := looked_at s (all_monitors s).

Lemma scanned_calculateTimeout s :
  (∀ x us, (x, us) ∈ monitors_looked_at s → 0 < remaining us s x < 2147483648) →
  ∃ acc, scanned s (all_monitors s) acc ∧
    calculateTimeout s = acc.2 <| su_pollTimeout := acc.1 |>.
Proof.
  intros Hr. unfold calculateTimeout.
  set (s0 := s <| su_currTimeoutMonitor := None |> <| su_currMonitorDetails := None |>).
  exists (foldl check_details (-1, s0) (all_details s0)). split.
  - rewrite (check_details_flat _ s) by done. change (all_details s0) with (all_details s).
    apply (scanned_all s (all_monitors s) []); [by split|exact Hr].
  - by destruct (foldl _ _ _).
Qed.

Section turn.
Context `{Protobuf GravityDataProductPB} `{Protobuf ServiceDirectoryUnregistrationPB}
  `{Protobuf ComponentDataLookupResponsePB} `{Protobuf PublisherInfoPB}.

(** What the monitor [a] of the details [id] is told at time [us]. *)
Definition timeout_call (us : Z) s (x : nat * Z) : SubscriptionOutput :=
  let d := details x.1 s in
  let t := monitor_object x.2 s in
  SubscriptionTimeout (tm_monitor t) (sb_dataProductID d)
    (if decide (tm_lastReceived t = -1) then -1 else s32 (us / 1000 - tm_lastReceived t))
    (sb_filter d) (sb_domain d).

(** C19. While no monitor is overdue when it is looked at, the poll waits for the earliest end of
    all active monitors, each by what the clock showed when it was looked at, and for ever if
    there is none; when it times out, that monitor (only) is called, with the time since its
    last product by what the clock shows then, and its next timeout starts where this one
    ended.  The clock may go on between any two readings. *)
Theorem first_timeout_called s s' b :
  (∀ x us, (x, us) ∈ monitors_looked_at s → 0 < remaining us s x < 2147483648) →
  subscription_turn PollTimeout s = Some (s', b) →
  let pollTimeout := su_pollTimeout (calculateTimeout s) in
  (active_monitors s = [] ∧ pollTimeout = -1 ∧ su_outputs s' = su_outputs s) ∨
  (∃ x us, (x, us) ∈ monitors_looked_at s ∧ pollTimeout = remaining us s x ∧
    (∀ y us', (y, us') ∈ monitors_looked_at s → pollTimeout <= remaining us' s y) ∧
    let later := su_clock s (length (active_monitors s)) in
    su_outputs s' = su_outputs s ++ [timeout_call later s x] ∧
    let t := monitor_object x.2 s in
    su_monitorObjects s' = <[x.2 := t <| tm_endTime := u64 (tm_endTime t + tm_timeout t) |>]>
      (su_monitorObjects s)).
Proof.
  intros Hr E. cbn in E. injection E as <- _.
  destruct (scanned_calculateTimeout s Hr) as (acc & [E1 E2 E3 E4 E5] & Es). rewrite Es.
  destruct acc as [m s1]. cbn [fst snd] in E1, E2, E3, E4, E5 |- *. cbv zeta.
  change (su_pollTimeout (s1 <| su_pollTimeout := m |>)) with m.
  unfold poll_timeout. set (s2 := s1 <| su_pollTimeout := m |>).
  change (su_currTimeoutMonitor s2) with (su_currTimeoutMonitor s1).
  destruct (su_currTimeoutMonitor s1) as [a|], (su_currMonitorDetails s1) as [id|] eqn:Eid;
    [|by destruct E5|by destruct E5|].
  - right. destruct E5 as (us & Hx & Hm & Hmin). exists (id, a), us.
    change (su_currMonitorDetails (su_tick s2)) with (su_currMonitorDetails s1). rewrite Eid.
    assert (Ed : details id s2 = details id s) by (unfold details; cbn; by rewrite E1).
    assert (Em : monitor_object a s2 = monitor_object a s) by (unfold monitor_object; cbn; by rewrite E2).
    split_and!; [exact Hx|exact Hm|exact Hmin| |].
    + unfold call_monitor, timeout_call. cbn.
      change (details id (su_tick s2)) with (details id s2). rewrite Ed.
      change (monitor_object a (su_tick s2)) with (monitor_object a s2). rewrite Em, E3.
      unfold su_now, s2. cbn. by rewrite E4, Nat.add_0_r.
    + unfold call_monitor. cbn.
      change (monitor_object a (su_output ?o (su_tick s2))) with (monitor_object a s2).
      by rewrite Em, E2.
  - left. destruct E5 as [-> Hno]. split_and!; [by apply looked_at_nil|done|done].
Qed.
End turn.

(** A monitor does not change what other products have. *)
Lemma setTimeoutMonitor_other_key key f q address s :
  key ≠ (mq_domain q, mq_dataProductID q) →
  find_details key f (setTimeoutMonitor q address s) = find_details key f s.
Proof.
  intros Hne. unfold setTimeoutMonitor, monitor_details.
  set (s1 := s <| su_subscriptionMap ::= _ |>).
  assert (E1 : su_subscriptionMap s1 !! key = su_subscriptionMap s !! key).
  { cbn. by rewrite idx_touch_lookup, decide_False. }
  clearbody s1. destruct (find_details (_, _) _ s1); cbn [new_details].
  - unfold find_details at 1. case_match; cbn; by rewrite E1.
  - unfold find_details at 1. case_match; cbn; by rewrite lookup_insert_ne, E1.
Qed.

(** ** Subscribing *)

Lemma subscribe_new_url id filter s p :
  has_url p → socket_at id (url_of p) s = None →
  subscribe_new id filter s p = subscribe_url id (url_of p) filter (time_of p) s.
Proof.
  unfold has_url, subscribe_new. destruct (pi_url p) as [url|]; [|done]. cbn. intros _. by intros ->.
Qed.

Lemma kept_subscribe_url id url filter t s : kept id url t (su_nextSocket s) (subscribe_url id url filter t s).
Proof.
  unfold kept. rewrite details_subscribe_url. cbn. by rewrite !lookup_insert_eq.
Qed.

Lemma kept_spared id url t k s s' : ok s → kept id url t k s → spares id url s s' → kept id url t k s'.
Proof.
  intros W (K1 & K2 & K3) [E Hs]. destruct (Hs k K1) as [E1 HE].
  destruct (HE ltac:(by eexists)) as [E2 _]. unfold kept. by rewrite E, E1, E2.
Qed.

(** Every url of the list gets its socket; the urls are new and distinct. *)
Lemma subscribe_all_new id filter l s :
  ok s → valid id s → Forall has_url l → NoDup ((λ p, url_of p) <$> l) →
  (∀ p, p ∈ l → socket_at id (url_of p) s = None) →
  let s' := foldl (subscribe_new id filter) s l in
  ok s' ∧ valid id s' ∧ (∀ p, p ∈ l → ∃ k, kept id (url_of p) (time_of p) k s') ∧
  (∀ url, url ∉ (λ p, url_of p) <$> l → spares id url s s').
Proof.
  revert s. induction l as [|p l IH]; intros s W V Hu Hnd Hn; cbn [foldl].
  { split_and!; [done|done| |intros; apply spares_refl]. intros p Hp. by apply not_elem_of_nil in Hp. }
  inversion Hu as [|?? Hp Hl]; subst. cbn [fmap list_fmap] in Hnd |- *.
  apply NoDup_cons in Hnd as [Hnp Hnd].
  assert (Hnone : socket_at id (url_of p) s = None) by (apply Hn; left).
  destruct (ok_subscribe_new id filter s p (conj W V)) as [W1 V1].
  assert (E : subscribe_new id filter s p = subscribe_url id (url_of p) filter (time_of p) s)
    by by apply subscribe_new_url.
  assert (Hother : ∀ url, url ≠ url_of p → spares id url s (subscribe_new id filter s p)).
  { intros url Hne. rewrite E. apply spares_subscribe_url; [done|done|congruence]. }
  destruct (IH (subscribe_new id filter s p) W1 V1 Hl Hnd) as (W2 & V2 & HK & HS).
  { intros q Hq. destruct (Hother (url_of q)) as [-> _].
    - intros Eq. apply Hnp. rewrite <- Eq. by apply (list_elem_of_fmap_2 (λ p, url_of p)).
    - apply Hn. by right. }
  split_and!; [done|done| |].
  - intros q [->|Hq]%elem_of_cons; [|by apply HK]. exists (su_nextSocket s).
    eapply kept_spared; [exact W1| |by apply HS]. rewrite E. apply kept_subscribe_url.
  - intros url [Hne Hurl]%not_elem_of_cons. eapply spares_trans; [by apply Hother|by apply HS].
Qed.

(** Steps that only touch subscribers, caches and outputs. *)
Lemma kept_update_details id id' url t k f s :
  (∀ d, sb_pollItemMap (f d) = sb_pollItemMap d) → kept id url t k s →
  kept id url t k (update_details id' f s).
Proof.
  intros Hf. unfold kept. rewrite details_update. destruct (decide (id' = id)) as [->|]; [|done].
  by rewrite Hf.
Qed.

Lemma send_cached_wiring id subscriber s :
  su_details (send_cached_values id subscriber s) = su_details s ∧
  su_subscriptionMap (send_cached_values id subscriber s) = su_subscriptionMap s ∧
  su_subscriptionSocketMap (send_cached_values id subscriber s) = su_subscriptionSocketMap s ∧
  su_socketVerificationMap (send_cached_values id subscriber s) = su_socketVerificationMap s ∧
  su_pollItems (send_cached_values id subscriber s) = su_pollItems s.
Proof.
  unfold send_cached_values. set (s1 := foldl _ _ _).
  assert (E : su_details s1 = su_details s ∧ su_subscriptionMap s1 = su_subscriptionMap s ∧
    su_subscriptionSocketMap s1 = su_subscriptionSocketMap s ∧
    su_socketVerificationMap s1 = su_socketVerificationMap s ∧ su_pollItems s1 = su_pollItems s).
  { apply (foldl_inv (λ s1, su_details s1 = su_details s ∧ su_subscriptionMap s1 = su_subscriptionMap s ∧
      su_subscriptionSocketMap s1 = su_subscriptionSocketMap s ∧
      su_socketVerificationMap s1 = su_socketVerificationMap s ∧ su_pollItems s1 = su_pollItems s)); [done|].
    intros s2 x _ E. exact E. }
  clearbody s1. by case_decide.
Qed.

Lemma subscriptionMap_fold id filter l s :
  su_subscriptionMap (foldl (subscribe_new id filter) s l) = su_subscriptionMap s ∧
  sb_subscribers (details id (foldl (subscribe_new id filter) s l)) = sb_subscribers (details id s) ∧
  sb_monitors (details id (foldl (subscribe_new id filter) s l)) = sb_monitors (details id s) ∧
  sb_publisherUpdatePollItem (details id (foldl (subscribe_new id filter) s l)) =
    sb_publisherUpdatePollItem (details id s) ∧
  su_pollItems s ⊆ su_pollItems (foldl (subscribe_new id filter) s l).
Proof.
  apply (foldl_inv (λ s', su_subscriptionMap s' = su_subscriptionMap s ∧
    sb_subscribers (details id s') = sb_subscribers (details id s) ∧
    sb_monitors (details id s') = sb_monitors (details id s) ∧
    sb_publisherUpdatePollItem (details id s') = sb_publisherUpdatePollItem (details id s) ∧
    su_pollItems s ⊆ su_pollItems s')); [done|].
  intros s' p _ (E1 & E2 & E3 & E4 & E5). unfold subscribe_new. destruct (pi_url p) as [url|]; [|done].
  destruct (_ !! url); [done|]. rewrite details_subscribe_url. cbn. split_and!; try done. set_solver.
Qed.

Section subscribing.
Context `{Protobuf GravityDataProductPB} `{Protobuf ServiceDirectoryUnregistrationPB}
  `{Protobuf ComponentDataLookupResponsePB} `{Protobuf PublisherInfoPB}.

(** The first subscription for a domain, product and filter: its details are entered, the
    socket for lists of publishers is polled, and each publisher of the trimmed list has a
    socket of its own, open and expecting the registration time of the request. *)
Theorem subscribe_connects s q :
  let key := (sq_domain q, sq_dataProductID q) in
  let l := trimmed (su_componentID s) (su_ipAddress s) (sq_pubInfoPBs q) in
  let s' := addSubscription q s in
  subscription_reachable s → find_details key (sq_filter q) s = None →
  NoDup ((λ p, url_of p) <$> l) →
  ∃ id, find_details key (sq_filter q) s' = Some id ∧
    sb_subscribers (details id s') = {[sq_subscriber q]} ∧
    sb_publisherUpdatePollItem (details id s') ∈ su_pollItems s' ∧
    su_subscriptionSocketMap s' !! sb_publisherUpdatePollItem (details id s') = None ∧
    ∀ p, p ∈ l → ∃ k, kept id (url_of p) (time_of p) k s'.
Proof.
  intros key l s' [W Ed]%reachable_consistent Hn Hnd.
  assert (W0 : ok s) by (unfold ok; by rewrite Ed).
  assert (W' : ok s') by by apply ok_addSubscription.
  unfold s', addSubscription in *. pose proof (ok_subscription_details q s W0) as W1.
  destruct (subscription_details q s) as [id s1] eqn:E1.
  unfold subscription_details in E1. fold key in E1. rewrite Hn in E1. injection E1 as <- E1.
  set (id := su_nextDetails s) in *. destruct W1 as [W1 V1].
  assert (Hd1 : details id s1 = mkSubscriptionDetails (sq_domain q) (sq_dataProductID q) (sq_filter q)
    (sq_receiveLastCachedValue q) ∅ ∅ ∅ ∅ (su_nextSocket s)).
  { rewrite <- E1. unfold details. cbn. by rewrite lookup_insert_eq. }
  assert (Hf1 : find_details key (sq_filter q) s1 = Some id).
  { rewrite <- E1. unfold find_details. cbn. rewrite lookup_insert_eq. cbn. apply lookup_insert_eq. }
  assert (Hl : su_trim (sq_pubInfoPBs q) s1 = l) by (rewrite <- E1; apply su_trim_spec).
  assert (Hp1 : su_nextSocket s ∈ su_pollItems s1).
  { rewrite <- E1. cbn. apply elem_of_app. right. by left. }
  clear E1. rewrite Hl in *.
  destruct (subscribe_all_new id (sq_filter q) l s1 W1 V1) as (W2 & V2 & HK & _); [|done| |].
  { apply Forall_forall. intros p [Hu _]%trimmed_has_url. done. }
  { intros p _. by rewrite Hd1. }
  destruct (subscriptionMap_fold id (sq_filter q) l s1) as (F1 & F2 & F3 & F4 & F5).
  set (s2 := foldl _ s1 l) in *. rewrite Hd1 in F2, F3, F4. cbn in F2, F3, F4. clearbody s2.
  rewrite F2, F3 in *.
  rewrite (decide_False (P := ∅ = ∅ ∧ ∅ ≠ ∅)) in * by (by intros [_ ?]).
  rewrite (decide_False (P := sq_subscriber q ∈ ∅)) in * by set_solver.
  set (s3 := update_details id _ s2) in *.
  assert (HK3 : ∀ p, p ∈ l → ∃ k, kept id (url_of p) (time_of p) k s3).
  { intros p Hp. destruct (HK p Hp) as [k Hk]. exists k. by apply kept_update_details. }
  assert (Hd3 : details id s3 = (details id s2) <| sb_subscribers ::= union {[sq_subscriber q]} |>)
    by by (unfold s3; rewrite details_update, decide_True).
  assert (Hend : ∀ s4, ok s4 → su_details s4 = su_details s3 ∧ su_subscriptionMap s4 = su_subscriptionMap s3 ∧
      su_subscriptionSocketMap s4 = su_subscriptionSocketMap s3 ∧
      su_socketVerificationMap s4 = su_socketVerificationMap s3 ∧ su_pollItems s4 = su_pollItems s3 →
    ∃ id, find_details key (sq_filter q) s4 = Some id ∧ sb_subscribers (details id s4) = {[sq_subscriber q]} ∧
      sb_publisherUpdatePollItem (details id s4) ∈ su_pollItems s4 ∧
      su_subscriptionSocketMap s4 !! sb_publisherUpdatePollItem (details id s4) = None ∧
      ∀ p, p ∈ l → ∃ k, kept id (url_of p) (time_of p) k s4).
  { intros s4 W4 (G1 & G2 & G3 & G4 & G5). exists id.
    assert (Hd4 : details id s4 = details id s3) by (unfold details; by rewrite G1).
    assert (V4 : valid id s4) by (unfold valid; rewrite G1; by apply valid_update).
    split_and!.
    - unfold find_details in Hf1 |- *. rewrite G2. cbn. by rewrite F1.
    - rewrite Hd4, Hd3. cbn. rewrite F2. set_solver.
    - rewrite Hd4, Hd3, G5. cbn. rewrite F4. by apply F5.
    - by apply (c_updates _ _ W4 id), valid_details.
    - intros p Hp. destruct (HK3 p Hp) as [k HKk]. exists k. unfold kept in *.
      by rewrite Hd4, G3, G4. }
  destruct (sq_receiveLastCachedValue q); apply Hend; try done. apply send_cached_wiring.
Qed.

(** *** A late subscriber *)

Lemma insert_product_perm g l : insert_product g l ≡ₚ g :: l.
Proof.
  induction l as [|h l IH]; cbn [insert_product]; [done|]. case_match; [done|].
  rewrite IH. apply Permutation_swap.
Qed.

Abbreviation not_later := (λ g h, getGravityTimestamp g <= getGravityTimestamp h).

Lemma insert_product_sorted g l :
  StronglySorted not_later l → StronglySorted not_later (insert_product g l).
Proof.
  induction 1 as [|h l Hl IH Hh]; cbn [insert_product]; [by repeat constructor|].
  case_match; to_props.
  - constructor; [by constructor|]. constructor; [lia|].
    eapply Forall_impl; [exact Hh|]. intros x Hx. etrans; [apply Z.lt_le_incl|]; done.
  - constructor; [done|]. rewrite insert_product_perm. constructor; [lia|done].
Qed.

Lemma sort_products_spec l :
  sort_products l ≡ₚ l ∧ StronglySorted not_later (sort_products l).
Proof.
  unfold sort_products.
  assert (Hg : ∀ acc, StronglySorted not_later acc →
    foldl (flip insert_product) acc l ≡ₚ l ++ acc ∧
    StronglySorted not_later (foldl (flip insert_product) acc l)).
  { induction l as [|g l IH]; intros acc Ha; [done|]. cbn [foldl app].
    destruct (IH (insert_product g acc)) as [E1 E2]; [by apply insert_product_sorted|].
    split; [|done]. rewrite E1. unfold flip. rewrite insert_product_perm. by rewrite <- Permutation_middle. }
  destruct (Hg []) as [E1 E2]; [constructor|]. by rewrite app_nil_r in E1.
Qed.

(** The last products that came in on the sockets of some details. *)
Definition cached_products (id : nat) s : list GravityDataProduct :=
  omap (λ k, idx None k (su_lastCachedValueMap s)) (kv_items (sb_pollItemMap (details id s))).*2.

Lemma send_cached_spec id subscriber s :
  su_outputs (send_cached_values id subscriber s) = su_outputs s ++
    (if decide (cached_products id s = []) then []
     else [SubscriptionFilled subscriber (sort_products (cached_products id s))]).
Proof.
  unfold send_cached_values. set (sockets := (kv_items _).*2). set (s1 := foldl touch_cached s sockets).
  assert (E : su_outputs s1 = su_outputs s ∧ ∀ k, idx None k (su_lastCachedValueMap s1) =
    idx None k (su_lastCachedValueMap s)).
  { apply (foldl_inv (λ s1, su_outputs s1 = su_outputs s ∧ ∀ k, idx None k (su_lastCachedValueMap s1) =
      idx None k (su_lastCachedValueMap s))); [done|].
    intros s2 x _ [E1 E2]. split; [exact E1|]. intros k. rewrite <- E2. apply idx_touch_idx. }
  destruct E as [E1 E2]. clearbody s1.
  assert (Ec : omap (λ k, idx None k (su_lastCachedValueMap s1)) sockets = cached_products id s).
  { unfold cached_products. fold sockets. apply list_omap_ext. apply Forall_Forall2_diag.
    apply Forall_forall. intros k _. apply E2. }
  cbv zeta. rewrite Ec. case_decide; [by rewrite E1, app_nil_r|]. cbn. by rewrite E1.
Qed.

Lemma subscribe_new_known id filter l s :
  (∀ p, p ∈ l → is_Some (socket_at id (url_of p) s)) → foldl (subscribe_new id filter) s l = s.
Proof.
  intros Hl. assert (Hs : ∀ p, p ∈ l → subscribe_new id filter s p = s).
  { intros p Hp. destruct (Hl p Hp) as [k Hk]. unfold subscribe_new.
    destruct (pi_url p) as [url|] eqn:Eu; [|done]. cbn in Hk. by rewrite Hk. }
  clear Hl. induction l as [|p l IH]; [done|]. cbn [foldl]. rewrite Hs by left. apply IH.
  intros q Hq. apply Hs. by right.
Qed.

(** A further subscriber of a subscription whose publishers are known opens nothing; when it
    asks for them, it gets the last product of each publisher at once, in the order of their
    time stamps, and otherwise nothing. *)
Theorem new_subscriber_gets_last_values s q id :
  let l := trimmed (su_componentID s) (su_ipAddress s) (sq_pubInfoPBs q) in
  let s' := addSubscription q s in
  subscription_reachable s →
  find_details (sq_domain q, sq_dataProductID q) (sq_filter q) s = Some id →
  sb_subscribers (details id s) ≠ ∅ → sq_subscriber q ∉ sb_subscribers (details id s) →
  (∀ p, p ∈ l → is_Some (socket_at id (url_of p) s)) →
  sb_subscribers (details id s') = {[sq_subscriber q]} ∪ sb_subscribers (details id s) ∧
  su_pollItems s' = su_pollItems s ∧
  ∃ ps, ps ≡ₚ cached_products id s ∧ StronglySorted not_later ps ∧
    su_outputs s' = su_outputs s ++
      (if sq_receiveLastCachedValue q && negb (bool_decide (ps = []))
       then [SubscriptionFilled (sq_subscriber q) ps] else []).
Proof.
  intros l s' Hr Hid Hsub Hnew Hl. unfold s', addSubscription, subscription_details. rewrite Hid.
  rewrite su_trim_spec. fold l. rewrite subscribe_new_known by done. cbv zeta.
  rewrite (decide_False (P := _ = ∅ ∧ _)) by (by intros [? _]). rewrite (decide_False (P := _ ∈ _)) by done.
  set (s1 := update_details id _ s).
  assert (Ed : details id s1 = (details id s) <| sb_subscribers ::= union {[sq_subscriber q]} |>)
    by by (unfold s1; rewrite details_update, decide_True).
  assert (Ec : cached_products id s1 = cached_products id s) by (unfold cached_products; by rewrite Ed).
  destruct (sort_products_spec (cached_products id s)) as [Hp Hs].
  destruct (sq_receiveLastCachedValue q); cbn [andb].
  - destruct (send_cached_wiring id (sq_subscriber q) s1) as (E1 & _ & _ & _ & E5).
    split_and!.
    + unfold details. rewrite E1. fold (details id s1). by rewrite Ed.
    + by rewrite E5.
    + exists (sort_products (cached_products id s)). split_and!; [done|done|].
      rewrite send_cached_spec, Ec. change (su_outputs s1) with (su_outputs s). f_equal.
      case_bool_decide as Eq; cbn [negb].
      * rewrite decide_True; [done|]. rewrite Eq in Hp. by apply Permutation_nil in Hp.
      * rewrite decide_False; [done|]. intros E0. rewrite E0 in Eq. done.
  - split_and!; [by rewrite Ed|done|]. exists (sort_products (cached_products id s)).
    split_and!; [done|done|]. by rewrite app_nil_r.
Qed.

(** ** Unsubscribing *)

Lemma close_poll_items_spec filter l s :
  let s' := foldl (close_poll_item filter) s l in
  su_details s' = su_details s ∧ su_subscriptionMap s' = su_subscriptionMap s ∧
  (∀ k, su_subscriptionSocketMap s' !! k =
    if decide (k ∈ l) then None else su_subscriptionSocketMap s !! k) ∧
  (∀ k, k ∈ su_pollItems s' ↔ k ∈ su_pollItems s ∧ k ∉ l) ∧
  su_outputs s' = su_outputs s ++ (l ≫= λ k, [Unsubscribe k filter; Close k]).
Proof.
  revert s. induction l as [|k l IH]; intros s; cbn [foldl].
  { split_and!; [done|done|done| |by rewrite app_nil_r]. intros k. set_solver. }
  destruct (IH (close_poll_item filter s k)) as (E1 & E2 & E3 & E4 & E5). cbv zeta.
  rewrite E1, E2, E5. split_and!; [done|done| | |].
  - intros i. rewrite E3. destruct (decide (i ∈ l)) as [Hi|Hi].
    + by rewrite decide_True by (by right).
    + cbn. destruct (decide (k = i)) as [->|Hne].
      * rewrite decide_True by left. apply lookup_delete_eq.
      * rewrite decide_False by (intros [?|?]%elem_of_cons; [congruence|done]).
        by apply lookup_delete_ne.
  - intros i. rewrite E4. cbn. rewrite list_elem_of_filter, not_elem_of_cons. tauto.
  - cbn. by rewrite <- !app_assoc.
Qed.

(** The sockets of details are those of their urls. *)
Lemma details_sockets s id k :
  consistent [] s → su_subscriptionSocketMap s !! k = Some id →
  k ∈ (kv_items (sb_pollItemMap (details id s))).*2.
Proof.
  intros W Hk. destruct (c_sockets _ _ W _ _ Hk) as (_ & _ & d & url & Hd' & _ & Hc).
  destruct Hc as [Hc|Hc]; [|by apply not_elem_of_nil in Hc].
  rewrite (details_Some _ _ _ Hd'). apply list_elem_of_fmap. exists (url, k).
  split; [done|]. by apply elem_of_kv_items.
Qed.
Lemma other_details_sockets s id id' k :
  consistent [] s → su_details s !! id = Some (details id s) →
  su_subscriptionSocketMap s !! k = Some id' → id' ≠ id →
  k ∉ (kv_items (sb_pollItemMap (details id s))).*2.
Proof.
  intros W Hd Hk Hne ([url k'] & -> & Hk')%list_elem_of_fmap. apply elem_of_kv_items in Hk'.
  destruct (c_urls _ _ W _ _ Hd _ _ Hk') as (_ & _ & Hi). by destruct Hne; apply Hi.
Qed.

Lemma close_publisher_updates_spec id p s :
  let u := sb_publisherUpdatePollItem (details id s) in
  su_pollItems (close_publisher_updates id p s) = base.filter (λ i, i ≠ u) (su_pollItems s) ∧
  su_outputs (close_publisher_updates id p s) = su_outputs s ++ [Unsubscribe u p; Close u].
Proof. unfold close_publisher_updates. cbn. by rewrite <- app_assoc. Qed.

(** C18. When the last subscriber goes, every socket of the subscription is closed and polled no
    more, and no other socket is; without monitors the details go too, with the socket for
    lists of publishers. *)
Theorem last_unsubscribe_closes s q id :
  let key := (uq_domain q, uq_dataProductID q) in
  let s' := removeSubscription q s in
  subscription_reachable s → find_details key (uq_filter q) s = Some id →
  sb_subscribers (details id s) ⊆ {[uq_subscriber q]} →
  (∀ k, su_subscriptionSocketMap s !! k = Some id →
    Close k ∈ su_outputs s' ∧ k ∉ su_pollItems s' ∧ su_subscriptionSocketMap s' !! k = None) ∧
  (∀ k id', su_subscriptionSocketMap s !! k = Some id' → id' ≠ id →
    su_subscriptionSocketMap s' !! k = Some id' ∧ k ∈ su_pollItems s') ∧
  (sb_monitors (details id s) = ∅ → find_details key (uq_filter q) s' = None ∧
    Close (sb_publisherUpdatePollItem (details id s)) ∈ su_outputs s' ∧
    sb_publisherUpdatePollItem (details id s) ∉ su_pollItems s').
Proof.
  intros key s' [W Ed]%reachable_consistent Hid Hsub.
  assert (W0 : ok s) by (unfold ok; by rewrite Ed).
  pose proof (valid_details _ _ (find_details_valid _ _ _ _ W0 Hid)) as Hd.
  unfold s', removeSubscription. fold key. cbv zeta. set (s1 := s <| su_metricsData ::= _ |>).
  change (find_details _ _ s1) with (find_details key (uq_filter q) s). rewrite Hid.
  set (s2 := update_details id _ s1).
  assert (Hd2 : details id s2 = (details id s) <| sb_subscribers ::= λ X, X ∖ {[uq_subscriber q]} |>)
    by by (unfold s2; rewrite details_update, decide_True).
  rewrite Hd2. rewrite decide_True by (cbn; set_solver).
  change (sb_monitors (?d <| sb_subscribers ::= _ |>)) with (sb_monitors d).
  change (sb_pollItemMap (?d <| sb_subscribers ::= _ |>)) with (sb_pollItemMap d).
  set (s3 := if decide (sb_monitors (details id s) = ∅) then _ else s2).
  set (l := (kv_items (sb_pollItemMap (details id s))).*2).
  assert (Hin : ∀ k, su_subscriptionSocketMap s !! k = Some id → k ∈ l) by (intros k; by apply details_sockets).
  assert (Hout : ∀ k id', su_subscriptionSocketMap s !! k = Some id' → id' ≠ id → k ∉ l)
    by (intros k id'; by apply other_details_sockets).
  set (u := sb_publisherUpdatePollItem (details id s)).
  assert (HS3 : su_subscriptionSocketMap s3 = su_subscriptionSocketMap s).
  { unfold s3. by case_decide. }
  set (s2' := erase_filter key (uq_filter q) s2) in *.
  assert (Eu : sb_publisherUpdatePollItem (details id s2') = u).
  { change (details id s2') with (details id s2). by rewrite Hd2. }
  destruct (close_publisher_updates_spec id (uq_dataProductID q) s2') as [Ec1 Ec2].
  rewrite Eu in Ec1, Ec2.
  assert (HP3 : ∀ k, is_Some (su_subscriptionSocketMap s !! k) → k ∈ su_pollItems s → k ∈ su_pollItems s3).
  { intros k Hk Hki. unfold s3. case_decide; [|done]. rewrite Ec1.
    apply list_elem_of_filter. split; [|done].
    intros ->. destruct (c_updates _ _ W _ _ Hd) as [_ Hu]. fold u in Hu. rewrite Hu in Hk.
    by destruct Hk. }
  assert (HM : sb_monitors (details id s) = ∅ → find_details key (uq_filter q) s3 = None ∧
    Close u ∈ su_outputs s3 ∧ u ∉ su_pollItems s3).
  { intros Hm. unfold s3. rewrite decide_True by done. split_and!.
    - unfold find_details, close_publisher_updates, erase_filter. cbn.
      goal_decide; [by rewrite lookup_delete_eq|]. rewrite lookup_insert_eq. cbn. apply lookup_delete_eq.
    - rewrite Ec2. apply elem_of_app. right. right. by left.
    - rewrite Ec1. by intros [? _]%list_elem_of_filter. }
  clearbody s3. destruct (close_poll_items_spec (uq_filter q) l s3) as (E1 & E2 & E3 & E4 & E5).
  set (s4 := foldl _ s3 l) in *. clearbody s4. split_and!.
  - intros k Hk. specialize (Hin k Hk). split_and!.
    + rewrite E5. apply elem_of_app. right. apply list_elem_of_bind. exists k. split; [|done].
      right. left.
    + rewrite E4. by intros [_ ?].
    + by rewrite E3, decide_True.
  - intros k id' Hk Hne. specialize (Hout k id' Hk Hne). rewrite E3, decide_False, HS3 by done.
    split; [done|]. apply E4. split; [|done]. apply HP3; [by eexists|]. by apply (c_sockets _ _ W _ _ Hk).
  - intros [Q1 [Q2 Q3]]%HM. split_and!.
    + unfold find_details in Q1 |- *. by rewrite E2.
    + rewrite E5. apply elem_of_app. by left.
    + rewrite E4. by intros [? _].
Qed.
End subscribing.
