(* ===== verification/GravitySubscriptionManagerExamples.v ===== *)
(** * Runs of the subscription manager

    Witnesses of the theorems about it, and runs that show what goes wrong: filters that a
    monitor drops, a subscription that stays deaf, a monitor called too early, a socket that
    is closed twice. *)

From S2P Require Import Prelude.
From S2P Require Import Messages.
From S2P Require Import CommUtil.
From S2P Require Import GravityDataProduct.
From S2P Require Import GravityMetrics.
From S2P Require Import GravitySubscriptionManager.
From S2P Require Import GravitySubscriptionManagerProofs.
From S2P Require Import GravitySubscriptionManagerUpdates.
From S2P Require Import GravitySubscriptionManagerDelivery.
From S2P Require Import GravitySubscriptionManagerRequests.
#[local] Open Scope gravity_scope.
#[local] Open Scope Z_scope.

(** ** Codecs

    Short encodings of the messages that the runs use: small numbers in a byte, products of
    ["p"], lists for the product ["p"] of the domain ["d"]. *)

Definition publisher_at (url : string) (t : Z) : PublisherInfoPB :=
  mkPublisherInfoPB (Some url) None (Some "c") None (Some t).

Definition put_byte (z : Z) (s : string) : string := String (Ascii.ascii_of_N (Z.to_N z)) s.
Definition get_byte (c : Ascii.ascii) : Z := Z.of_N (Ascii.N_of_ascii c).

#[local] Instance demo_gdp : Protobuf GravityDataProductPB := {|
  serialize g := put_byte (getGravityTimestamp g) (put_byte (getRegistrationTime g) (str (gdp_data g)));
  parse s := match s with
    | String t (String r data) => (setRegistrationTime (get_byte r) (setTimestamp (get_byte t)
        (setData_bytes data (new_GravityDataProduct "p"))), true)
    | _ => (empty_GravityDataProductPB, false)
    end;
  type_name := "GravityDataProductPB";
|}.

#[local] Instance demo_publisher : Protobuf PublisherInfoPB := {|
  serialize p := put_byte (num (pi_registration_time p)) (str (pi_url p));
  parse s := match s with
    | String t url => (publisher_at url (get_byte t), true)
    | _ => (empty_PublisherInfoPB, false)
    end;
  type_name := "PublisherInfoPB";
|}.

(** Publishers with the lengths of their encodings. *)
Fixpoint put_publishers (l : list PublisherInfoPB) : string :=
  match l with
  | [] => ""
  | p :: l => put_byte (Z.of_nat (String.length (serialize p))) (serialize p +:+ put_publishers l)
  end.
Fixpoint get_publishers (fuel : nat) (s : string) : list PublisherInfoPB :=
  match fuel, s with
  | S fuel, String c s =>
      let n := Z.to_nat (get_byte c) in
      (parse (String.substring 0 n s)).1 ::
        get_publishers fuel (String.substring n (String.length s - n) s)
  | _, _ => []
  end.

#[local] Instance demo_lookup : Protobuf ComponentDataLookupResponsePB := {|
  serialize r := put_publishers (dl_publishers r);
  parse s := (mkComponentDataLookupResponsePB "p" (get_publishers (String.length s) s) "d", true);
  type_name := "ComponentDataLookupResponsePB";
|}.

#[local] Instance demo_unregistration : Protobuf ServiceDirectoryUnregistrationPB := {|
  serialize u := put_byte (num (ur_registration_time u)) (str (ur_url u));
  parse s := (mkServiceDirectoryUnregistrationPB (Some "p") None None None None, true);
  type_name := "ServiceDirectoryUnregistrationPB";
|}.

(** ** Runs *)

Implicit Types s : SubscriptionManager.

(** A turn, when it does not fail. *)
Definition run (poll : PollResult) s : SubscriptionManager :=
  match subscription_turn poll s with Some (s', _) => s' | None => s end.

Lemma subscription_run_reachable poll s : subscription_reachable s → subscription_reachable (run poll s).
Proof.
  intros Hr. unfold run. destruct (subscription_turn poll s) as [[s' b]|] eqn:E; [|done].
  by eapply reach_turn.
Qed.

Lemma run_turn poll s :
  (if subscription_turn poll s is Some _ then true else false) = true →
  ∃ b, subscription_turn poll s = Some (run poll s, b).
Proof. unfold run. destruct (subscription_turn poll s) as [[s' b]|]; [by exists b|done]. Qed.

Definition command (frames : list frame) : PollResult := PollReady (Some frames) 100 None ∅.

Definition demo_subscribe (filter : string) (pbs : list PublisherInfoPB) (subscriber : Z) : PollResult :=
  command ([sendStringMessage "subscribe"; sendStringMessage "p"; sendIntMessage 1;
    sendUint32Message (Z.of_nat (length pbs))] ++ (serialize <$> pbs) ++
    [sendStringMessage filter; sendStringMessage "d"; sendStringMessage "tcp://sd"; le_bytes 8 subscriber]).
Definition demo_unsubscribe (filter : string) (subscriber : Z) : PollResult :=
  command [sendStringMessage "unsubscribe"; sendStringMessage "p"; sendStringMessage filter;
    sendStringMessage "d"; le_bytes 8 subscriber].
Definition demo_monitor (filter : string) (monitor timeout address : Z) : PollResult :=
  PollReady (Some [sendStringMessage "set_monitor"; sendStringMessage "p"; le_bytes 8 monitor;
    sendIntMessage timeout; sendStringMessage filter; sendStringMessage "d"]) address None ∅.

(** A product of time [ts] by the publisher registered at [t]; a list of publishers. *)
Definition demo_product (ts t : Z) : frame * frame :=
  ("", serialize (setRegistrationTime t (setTimestamp ts (new_GravityDataProduct "p")))).
Definition demo_list (pbs : list PublisherInfoPB) : frame * frame :=
  ("p", serialize (setData (mkComponentDataLookupResponsePB "p" pbs "d") (new_GravityDataProduct "u"))).

(** The clock stands at five seconds. *)
Definition demo_initial : SubscriptionManager := initial_SubscriptionManager (λ _, 5000000).

Definition demo_subscribed : SubscriptionManager :=
  run (demo_subscribe "" [publisher_at "tcp://a" 7] 77) demo_initial.

Lemma demo_subscribed_reachable : subscription_reachable demo_subscribed.
Proof. apply subscription_run_reachable, reach_initial. Qed.

(** Every theorem's [turn] hypothesis. *)
Ltac run_turn :=
  match goal with |- subscription_turn ?poll ?s = Some (?s', ?b) =>
    vm_compute; reflexivity end.

(** Socket 3 waits for lists of publishers, socket 4 for products. *)
Example demo_sockets :
  su_pollItems demo_subscribed = [3; 4] ∧ su_subscriptionSocketMap demo_subscribed !! 4 = Some 0%nat ∧
  su_socketVerificationMap demo_subscribed !! 4 = Some 7.
Proof. vm_compute. done. Qed.

(** ** Witnesses *)

Definition demo_updated : SubscriptionManager :=
  run (PollReady None 0 None {[3 := [demo_list [publisher_at "tcp://b" 9]]]}) demo_subscribed.

Lemma publisher_list_mirrored_witness :
  (∃ k, kept 0 "tcp://b" 9 k demo_updated) ∧ su_subscriptionSocketMap demo_updated !! 4 = None.
Proof.
  destruct (run_turn (PollReady None 0 None {[3 := [demo_list [publisher_at "tcp://b" 9]]]})
    demo_subscribed eq_refl) as [b E].
  assert (Eu : (populateMessage (GravityDataProduct_from_bytes (demo_list [publisher_at "tcp://b" 9]).2)).1 =
    mkComponentDataLookupResponsePB "p" [publisher_at "tcp://b" 9] "d") by by vm_compute.
  assert (Hm : ∃ m, su_subscriptionMap demo_subscribed !! ("d", "p") = Some m ∧ m !! "" = Some 0%nat).
  { eexists. split; vm_compute; reflexivity. }
  destruct Hm as (m & Hm & Hid).
  pose proof (publisher_list_mirrored demo_subscribed demo_updated b 3 0 "p"
    (demo_list [publisher_at "tcp://b" 9]).2 [] m "" 0) as T.
  cbv zeta in T. rewrite Eu in T. destruct T as [HL HK].
  - apply demo_subscribed_reachable.
  - apply (bool_decide_unpack _). by vm_compute.
  - by vm_compute.
  - done.
  - exact Hm.
  - exact Hid.
  - apply (bool_decide_unpack _). by vm_compute.
  - apply (bool_decide_unpack _). by vm_compute.
  - exact E.
  - split; [|by vm_compute]. apply (HL (publisher_at "tcp://b" 9)).
    apply (bool_decide_unpack _). by vm_compute.
Defined.

Lemma demo_updated_reachable : subscription_reachable demo_updated.
Proof. apply subscription_run_reachable, demo_subscribed_reachable. Qed.

Lemma subscription_maps_consistent_witness : consistent [] demo_updated ∧ su_deleteList demo_updated = [].
Proof. exact (subscription_maps_consistent demo_updated demo_updated_reachable). Defined.

Definition demo_messages : list (frame * frame) := [demo_product 1 7; demo_product 2 7].
Definition demo_received : SubscriptionManager :=
  run (PollReady None 0 None {[4 := demo_messages]}) demo_subscribed.

Lemma demo_received_reachable : subscription_reachable demo_received.
Proof. apply subscription_run_reachable, demo_subscribed_reachable. Qed.

Lemma new_products_delivered_witness :
  ∃ ps, delivers None demo_messages ps ∧
    su_outputs demo_received = su_outputs (calculateTimeout demo_subscribed) ++ fills 0 ps demo_subscribed.
Proof.
  destruct (run_turn (PollReady None 0 None {[4 := demo_messages]}) demo_subscribed eq_refl) as [b E].
  destruct (new_products_delivered demo_subscribed demo_received b 4 0 7 demo_messages 0)
    as (ps & HD & Ho & _).
  - apply demo_subscribed_reachable.
  - by vm_compute.
  - by vm_compute.
  - repeat constructor.
  - exact E.
  - exists ps. split; [exact HD|exact Ho].
Defined.

Definition demo_stale : SubscriptionManager :=
  run (PollReady None 0 None {[4 := [demo_product 1 7; demo_product 2 9]]}) demo_subscribed.

Lemma stale_publisher_dropped_witness :
  su_subscriptionSocketMap demo_stale = delete 4 (su_subscriptionSocketMap demo_subscribed) ∧
  4 ∉ su_pollItems demo_stale.
Proof.
  destruct (run_turn (PollReady None 0 None {[4 := [demo_product 1 7; demo_product 2 9]]})
    demo_subscribed eq_refl) as [b E].
  destruct (stale_publisher_dropped demo_subscribed demo_stale b 4 0 7 "tcp://a" [demo_product 1 7]
    (demo_product 2 9) [] 0) as (_ & Hs & _ & _ & Hp & _).
  - apply demo_subscribed_reachable.
  - by vm_compute.
  - by vm_compute.
  - by vm_compute.
  - repeat constructor.
  - by vm_compute.
  - exact E.
  - split; [exact Hs|exact Hp].
Defined.

(** A monitor with a timeout of a second. *)
Definition demo_monitored : SubscriptionManager := run (demo_monitor "" 55 1000 100) demo_subscribed.

Lemma demo_active : active_monitors demo_monitored = [(0%nat, 100)].
Proof. by vm_compute. Qed.

(** The clock shows 5 s when the monitor is looked at, and 6 s after the poll. *)
Definition demo_waiting : SubscriptionManager :=
  demo_monitored <| su_clock := λ n, if decide (n = 0%nat) then 5000000 else 6000000 |>.

Lemma first_timeout_called_witness :
  su_pollTimeout (calculateTimeout demo_waiting) = 1000 ∧
  su_outputs (run PollTimeout demo_waiting) =
    su_outputs demo_waiting ++ [SubscriptionTimeout 55 "p" (-1) "" "d"].
Proof.
  assert (El : monitors_looked_at demo_waiting = [((0%nat, 100), 5000000)]) by by vm_compute.
  destruct (first_timeout_called demo_waiting (run PollTimeout demo_waiting) true)
    as [(Ha & _)|(x & us & Hx & Hp & _ & Ho & _)].
  - rewrite El. intros x us [= -> ->]%list_elem_of_singleton. apply (bool_decide_unpack _). by vm_compute.
  - reflexivity.
  - vm_compute in Ha. discriminate Ha.
  - rewrite El in Hx. apply list_elem_of_singleton in Hx as [= -> ->]. split.
    + rewrite Hp. by vm_compute.
    + rewrite Ho. f_equal.
Defined.

Definition demo_request (subscriber : Z) : SubscribeRequest :=
  mkSubscribeRequest "p" true [publisher_at "tcp://a" 7] "" "d" "tcp://sd" subscriber.

Lemma subscribe_connects_witness :
  ∃ id k, find_details ("d", "p") "" (addSubscription (demo_request 77) demo_initial) = Some id ∧
    kept id "tcp://a" 7 k (addSubscription (demo_request 77) demo_initial).
Proof.
  destruct (subscribe_connects demo_initial (demo_request 77)) as (id & Hid & _ & _ & _ & HK).
  - apply reach_initial.
  - by vm_compute.
  - apply (bool_decide_unpack _). by vm_compute.
  - destruct (HK (publisher_at "tcp://a" 7)) as [k Hk].
    { apply (bool_decide_unpack _). by vm_compute. }
    exists id, k. split; [exact Hid|exact Hk].
Defined.

Lemma new_subscriber_gets_last_values_witness :
  ∃ ps, ps ≡ₚ cached_products 0 demo_received ∧
    su_outputs (addSubscription (demo_request 78) demo_received) = su_outputs demo_received ++
      (if negb (bool_decide (ps = [])) then [SubscriptionFilled 78 ps] else []).
Proof.
  destruct (new_subscriber_gets_last_values demo_received (demo_request 78) 0) as (_ & _ & ps & Hp & _ & Ho).
  - apply demo_received_reachable.
  - by vm_compute.
  - apply (bool_decide_unpack _). by vm_compute.
  - apply (bool_decide_unpack _). by vm_compute.
  - assert (E : trimmed (su_componentID demo_received) (su_ipAddress demo_received)
      (sq_pubInfoPBs (demo_request 78)) = [publisher_at "tcp://a" 7]) by by vm_compute.
    rewrite E. intros p ->%list_elem_of_singleton. vm_compute. by eexists.
  - exists ps. split; [exact Hp|exact Ho].
Defined.

Lemma last_unsubscribe_closes_witness :
  let s' := removeSubscription (mkUnsubscribeRequest "p" "" "d" 77) demo_subscribed in
  Close 4 ∈ su_outputs s' ∧ find_details ("d", "p") "" s' = None.
Proof.
  intros s'. destruct (last_unsubscribe_closes demo_subscribed (mkUnsubscribeRequest "p" "" "d" 77) 0)
    as (Ho & _ & Hm).
  - apply demo_subscribed_reachable.
  - by vm_compute.
  - apply (bool_decide_unpack _). by vm_compute.
  - split.
    + apply (Ho 4). by vm_compute.
    + apply Hm. apply (bool_decide_unpack _). by vm_compute.
Defined.

(** ** What goes wrong *)

(** A monitor for a filter that is not subscribed to replaces all filters of the product:
    their subscriptions cannot be found any more, neither to unsubscribe nor to take a list of
    publishers, while their sockets stay open. *)
Theorem monitor_drops_other_filters s q address filter :
  find_details (mq_domain q, mq_dataProductID q) (mq_filter q) s = None →
  filter ≠ mq_filter q →
  let s' := setTimeoutMonitor q address s in
  find_details (mq_domain q, mq_dataProductID q) filter s' = None ∧
  su_subscriptionSocketMap s' = su_subscriptionSocketMap s ∧ su_pollItems s' = su_pollItems s.
Proof.
  intros Hn Hne s'. unfold s', setTimeoutMonitor, monitor_details.
  assert (Ef : ∀ f, find_details (mq_domain q, mq_dataProductID q) f
      (s <| su_subscriptionMap ::= idx_touch ∅ (mq_domain q, mq_dataProductID q) |>) =
    find_details (mq_domain q, mq_dataProductID q) f s).
  { intros f. unfold find_details. cbn. rewrite idx_touch_lookup, decide_True by done. unfold idx.
    by destruct (_ !! _). }
  rewrite Ef, Hn. cbv zeta. cbn [new_details].
  set (s1 := _ <| su_subscriptionMap ::= insert _ _ |>).
  assert (E : find_details (mq_domain q, mq_dataProductID q) filter s1 = None).
  { unfold find_details, s1. cbn. rewrite lookup_insert_eq. cbn. by apply lookup_singleton_ne. }
  assert (E1 : su_subscriptionSocketMap s1 = su_subscriptionSocketMap s) by done.
  assert (E2 : su_pollItems s1 = su_pollItems s) by done. clearbody s1.
  by destruct (find_monitor _ _ _).
Qed.

Lemma monitor_drops_other_filters_witness :
  find_details ("d", "p") ""
    (setTimeoutMonitor (mkMonitorRequest "p" 55 1000 "f" "d") 100 demo_subscribed) = None ∧
  su_subscriptionSocketMap demo_subscribed !! 4 = Some 0%nat.
Proof.
  split; [|by vm_compute].
  apply (monitor_drops_other_filters demo_subscribed (mkMonitorRequest "p" 55 1000 "f" "d") 100 "").
  - by vm_compute.
  - done.
Defined.

(** A subscription that is given up while a monitor stays, and made again: the subscriber is
    there, but the url counts as known, and no socket is open. *)
Definition demo_deaf : SubscriptionManager :=
  run (demo_subscribe "" [publisher_at "tcp://a" 7] 77) (run (demo_unsubscribe "" 77) demo_monitored).

Lemma resubscribed_stays_deaf :
  subscription_reachable demo_deaf ∧ sb_subscribers (details 0 demo_deaf) = {[77]} ∧
  sb_pollItemMap (details 0 demo_deaf) !! "tcp://a" = Some 4 ∧
  su_subscriptionSocketMap demo_deaf = ∅ ∧ su_pollItems demo_deaf = [3].
Proof.
  split; [do 4 apply subscription_run_reachable; apply reach_initial|]. split_and!; by vm_compute.
Qed.

(** A monitor that was set before the subscription has details without a socket for lists of
    publishers, which the subscription then uses. *)
Definition demo_monitored_first : SubscriptionManager :=
  run (demo_subscribe "" [publisher_at "tcp://a" 7] 77) (run (demo_monitor "" 55 1000 100) demo_initial).

Lemma monitor_first_never_updated :
  sb_subscribers (details 0 demo_monitored_first) = {[77]} ∧
  sb_publisherUpdatePollItem (details 0 demo_monitored_first) = 0 ∧
  sb_receiveCachedDataProducts (details 0 demo_monitored_first) = false ∧
  su_pollItems demo_monitored_first = [3] ∧ su_subscriptionSocketMap demo_monitored_first !! 3 = Some 0%nat.
Proof. split_and!; by vm_compute. Qed.

(** Two filters of one product; both hear that the publisher is gone, and each update closes
    the sockets of both. *)
Definition demo_two_filters : SubscriptionManager :=
  run (demo_subscribe "f" [publisher_at "tcp://a" 7] 78) demo_subscribed.

Lemma sockets_closed_twice :
  su_outputs (run (PollReady None 0 None {[3 := [demo_list []]; 5 := [demo_list []]]}) demo_two_filters) =
  su_outputs demo_two_filters ++
    [Unsubscribe 4 ""; Close 4; Unsubscribe 6 "f"; Close 6; Unsubscribe 4 ""; Close 4;
     Unsubscribe 6 "f"; Close 6].
Proof. by vm_compute. Qed.

(** Two monitors: at six seconds the one at address 100 has ended and is called late, and its
    next timeout, a second later, is when the poll ends; but the monitor that is called then
    is the other one, which has thirty seconds. *)
Definition demo_two_monitors : SubscriptionManager :=
  run (demo_monitor "" 56 30000 99) demo_monitored.

Definition demo_later : SubscriptionManager := demo_two_monitors <| su_clock := λ _, 6000000 |>.

Lemma wrong_monitor_called :
  su_pollTimeout (calculateTimeout demo_later) = 1000 ∧
  su_outputs (run PollTimeout demo_later) = su_outputs demo_later ++
    [SubscriptionTimeout 55 "p" (-1) "" "d"; SubscriptionTimeout 56 "p" (-1) "" "d"] ∧
  remaining 6000000 demo_later (0%nat, 99) = 29000.
Proof. split_and!; by vm_compute. Qed.

(** A list of publishers opens sockets for details that only a monitor keeps; the end of the
    monitor drops the details, and the socket stays. *)
Definition demo_leak : SubscriptionManager :=
  run (command [sendStringMessage "clear_monitor"; sendStringMessage "p"; le_bytes 8 55;
    sendStringMessage ""; sendStringMessage "d"])
  (run (PollReady None 0 None {[3 := [demo_list [publisher_at "tcp://b" 9]]]})
    (run (demo_unsubscribe "" 77) demo_monitored)).

Lemma cleared_monitor_leaks_socket :
  su_subscriptionMap demo_leak = ∅ ∧ su_pollItems demo_leak = [5] ∧
  su_subscriptionSocketMap demo_leak !! 5 = Some 0%nat.
Proof. split_and!; by vm_compute. Qed.
