(* ===== verification/GravityPublishManager.v ===== *)
(** * GravityPublishManager: publishing, and the cache for late subscribers
    (src/src/api/cpp/GravityPublishManager.cpp)

    The thread keeps one [PublishDetails] object per registered product.  The object is
    reached through [publishMapByID] and [publishMapBySocket]; it is represented by its
    publish socket, and the second map is the store of the objects.  [operator[]] on the
    first map inserts a null pointer, [None]; a handler that dereferences a null pointer
    returns [None].  Binding a socket, creating one, and the clock are inputs.  The first
    four poll items are fixed; [pm_pollItems] are the others. *)

From S2P Require Import Prelude.
From S2P Require Import Messages.
From S2P Require Import CommUtil.
From S2P Require Import GravityDataProduct.
From S2P Require Import GravityMetrics.
#[local] Open Scope gravity_scope.

Record CacheValue := mkCacheValue {
  cv_filterText : string;
  cv_value : string;
  cv_timestamp : Z;
}.

Record PublishDetails := mkPublishDetails {
  pd_url : string;
  pd_dataProductID : string;
  pd_cacheLastValue : bool;
  pd_lastCachedValues : gmap string CacheValue;
  pd_hasSubscribers : bool;
}.
#[export] Instance eta_PublishDetails : Eta PublishDetails := λ p,
  mkPublishDetails (pd_url p) (pd_dataProductID p) (pd_cacheLastValue p) (pd_lastCachedValues p)
    (pd_hasSubscribers p).

Record PublishManager := mkPublishManager {
  publishMapByID : gmap string (option Z);
  publishMapBySocket : gmap Z PublishDetails;
  pm_pollItems : list Z;
  pm_metricsEnabled : bool;
  pm_metricsData : GravityMetrics;
  pm_publishHWM : Z;
  pm_tcpKeepAlive : option (Z * Z * Z);
  (* answers to the GravityNode, answers to the metrics manager, messages published *)
  pm_replies : list string;
  pm_metricsReplies : list (list frame);
  pm_published : list (Z * string * string);
}.
#[export] Instance eta_PublishManager : Eta PublishManager := λ p,
  mkPublishManager (publishMapByID p) (publishMapBySocket p) (pm_pollItems p)
    (pm_metricsEnabled p) (pm_metricsData p) (pm_publishHWM p) (pm_tcpKeepAlive p) (pm_replies p)
    (pm_metricsReplies p) (pm_published p).

Definition initial_PublishManager : PublishManager :=
  mkPublishManager ∅ ∅ [] false new_GravityMetrics 1000 None [] [] [].

Implicit Types p : PublishManager.

Definition pm_reply (s : string) p : PublishManager := p <| pm_replies ::= λ l, l ++ [s] |>.

(** [publish(socket, filterText, bytes, size)] *)
Definition publish_bytes (socket : Z) (filterText bytes : string) p : PublishManager :=
  p <| pm_published ::= λ l, l ++ [(socket, filterText, bytes)] |>.

Definition set_publish_details (socket : Z) (d : PublishDetails) p : PublishManager :=
  p <| publishMapBySocket ::= insert socket d |>.

(** ** Requests of the GravityNode *)

Record RegisterRequest := mkRegisterRequest {
  rr_dataProductID : string;
  rr_cacheLastValue : bool;
  rr_transportType : string;
  rr_minPort : Z;
  rr_maxPort : Z;
  rr_endpoint : string;
}.

Definition read_register : reader RegisterRequest :=
  (dataProductID <~ readStringMessage ;; cacheLastValue <~ readIntMessage ;;
   transportType <~ readStringMessage ;;
   let cacheLastValue := negb (cacheLastValue =? 0)%Z in
   if decide (transportType = "tcp") then
     minPort <~ readIntMessage ;; maxPort <~ readIntMessage ;; endpoint <~ readStringMessage ;;
     read_ret (mkRegisterRequest dataProductID cacheLastValue transportType minPort maxPort endpoint)
   else
     endpoint <~ readStringMessage ;;
     read_ret (mkRegisterRequest dataProductID cacheLastValue transportType 0 0 endpoint)).

(** The url the socket is bound to; [None] when it cannot be bound. *)
Definition bind_publisher (zmq_bind : string → bool) (r : RegisterRequest) : option string :=
  if decide (rr_transportType r = "tcp") then
    let port := bindFirstAvailablePort zmq_bind (rr_endpoint r) (rr_minPort r) (rr_maxPort r) in
    if (port <? 0)%Z then None else Some (tcp_url (rr_endpoint r) port)
  else
    let connectionURL := rr_transportType r +:+ "://" +:+ rr_endpoint r in
    if zmq_bind connectionURL then Some connectionURL else None.

(** [registerDataProduct]; [socket] is what [zmq_socket] gives.  When it gives none, the
    function returns without an answer. *)
Definition registerDataProduct (zmq_bind : string → bool) (socket : option Z)
    (r : RegisterRequest) p : PublishManager :=
  match socket with
  | None => p
  | Some pubSocket =>
      match bind_publisher zmq_bind r with
      | None => pm_reply "" p
      | Some connectionURL =>
          let p := pm_reply connectionURL p in
          let p := p <| pm_pollItems ::= λ l, l ++ [pubSocket] |> in
          let details := mkPublishDetails connectionURL (rr_dataProductID r)
            (rr_cacheLastValue r) ∅ false in
          let p := p <| publishMapByID ::= insert (rr_dataProductID r) (Some pubSocket) |> in
          set_publish_details pubSocket details p
      end
  end.

Definition unregisterDataProduct (dataProductID : string) p : option PublishManager :=
  let p := pm_reply "" p in
  let p := p <| pm_metricsData ::= metrics_remove dataProductID |> in
  match publishMapByID p !! dataProductID with
  | None => Some p
  | Some None => None
  | Some (Some socket) =>
      Some (p <| publishMapBySocket ::= delete socket |>
              <| publishMapByID ::= delete dataProductID |>
              <| pm_pollItems ::= filter (λ s, s ≠ socket) |>)
  end.

Definition setHWM (hwm : Z) p : PublishManager := pm_reply "ACK" (p <| pm_publishHWM := hwm |>).

Definition setKeepAlive (time probes intvl : Z) p : PublishManager :=
  pm_reply "ACK" (p <| pm_tcpKeepAlive := Some (time, probes, intvl) |>).

(** [publishMapByID[dataProductID]], the entry inserted when missing. *)
Definition touch_id (dataProductID : string) p : PublishManager :=
  p <| publishMapByID ::= idx_touch None dataProductID |>.

Definition details_by_id (dataProductID : string) p : option (Z * PublishDetails) :=
  socket ← idx None dataProductID (publishMapByID p);
  d ← publishMapBySocket p !! socket; Some (socket, d).

Definition subscribersExist (dataProductID : string) p : PublishManager :=
  let ret :=
    match details_by_id dataProductID p with
    | None => "Unknown data product id: " +:+ dataProductID
    | Some (_, d) => if pd_hasSubscribers d then "Y" else "N"
    end in
  pm_reply ret (touch_id dataProductID p).

(** ** Publishing *)

(** [publish(requestSocket)], after the frames were read. *)
Definition publish_request (dataProductId : string) (timestamp : Z) (filterText bytes : string) p
    : PublishManager :=
  let details := details_by_id dataProductId p in
  let p := touch_id dataProductId p in
  match details with
  | None => p
  | Some (socket, d) =>
      let p :=
        if pd_cacheLastValue d then
          set_publish_details socket
            (d <| pd_lastCachedValues ::=
              insert filterText (mkCacheValue filterText bytes timestamp) |>) p
        else p in
      let p := publish_bytes socket filterText bytes p in
      if pm_metricsEnabled p then
        p <| pm_metricsData ::= incrementMessageCount dataProductId 1 |>
          <| pm_metricsData ::= incrementByteCount dataProductId (Z.of_nat (String.length bytes)) |>
      else p
  end.

Definition read_publish : reader (string * Z * string * string) :=
  (dataProductId <~ readStringMessage ;; timestamp <~ readUint64Message ;;
   filterText <~ readStringMessage ;; bytes <~ readStringMessage ;;
   read_ret (dataProductId, timestamp, filterText, bytes)).

(** [values.sort(sortCacheValues)], a stable sort: a value goes behind those that are not
    later. *)
Fixpoint insert_value (v : CacheValue) (l : list CacheValue) : list CacheValue :=
  match l with
  | [] => [v]
  | w :: l => if (cv_timestamp v <? cv_timestamp w)%Z then v :: w :: l else w :: insert_value v l
  end.

Definition sort_values (l : list CacheValue) : list CacheValue := foldl (flip insert_value) [] l.

Section cached.
Context `{Protobuf GravityDataProductPB}.

(** The bytes sent to a late subscriber: the cached data product, marked as cached. *)
Definition mark_cached (bytes : string) : string :=
  serializeToArray (setIsCachedDataproduct true (GravityDataProduct_from_bytes bytes)).

(** A message on a publish socket: somebody subscribed ([newsub]) or unsubscribed. *)
Definition subscription_event (socket : Z) (newsub : bool) p : option PublishManager :=
  match publishMapBySocket p !! socket with
  | None => None
  | Some pd =>
      if newsub then
        let p := set_publish_details socket (pd <| pd_hasSubscribers := true |>) p in
        let values := sort_values (kv_items (pd_lastCachedValues pd)).*2 in
        Some (foldl (λ p v, publish_bytes socket (cv_filterText v) (mark_cached (cv_value v)) p)
          p values)
      else Some (set_publish_details socket (pd <| pd_hasSubscribers := false |>) p)
  end.
End cached.

(** ** Requests of the metrics manager *)

Definition publish_metrics_command (command : string) (now : Z) p : PublishManager :=
  if decide (command = "MetricsEnable") then
    p <| pm_metricsData ::= metrics_reset now |> <| pm_metricsEnabled := true |>
      <| pm_metricsReplies ::= λ l, l ++ [[sendStringMessage "ACK"]] |>
  else if decide (command = "MetricsDisable") then
    p <| pm_metricsEnabled := false |>
      <| pm_metricsReplies ::= λ l, l ++ [[sendStringMessage "ACK"]] |>
  else if decide (command = "GetMetrics") then
    let p := p <| pm_metricsData ::= metrics_done now |> in
    p <| pm_metricsReplies ::= λ l, l ++ [sendAsMessage (pm_metricsData p)] |>
      <| pm_metricsData ::= metrics_reset now |>
  else p.

(** ** The main loop *)

(** A message on one of the sockets, with what the system calls made for it return. *)
Inductive PublishEvent :=
| NodeRequest (frames : list frame) (zmq_bind : string → bool) (socket : option Z)
| PublishMessage (frames : list frame)
| MetricsRequest (command : string) (now : Z)
| MetricsMessage (frames : list frame)
| SubscriptionChange (socket : Z) (newsub : bool).

Section loop.
Context `{Protobuf GravityDataProductPB}.

Definition node_request (frames : list frame) (zmq_bind : string → bool) (socket : option Z) p
    : option PublishManager :=
  '(command, frames) ← readStringMessage frames;
  if decide (command = "register") then
    '(r, _) ← read_register frames; Some (registerDataProduct zmq_bind socket r p)
  else if decide (command = "unregister") then
    '(id, _) ← readStringMessage frames; unregisterDataProduct id p
  else if decide (command = "set_hwm") then
    '(hwm, _) ← readIntMessage frames; Some (setHWM hwm p)
  else if decide (command = "set_tcp_keepalive") then
    '(k, _) ← (time <~ readIntMessage ;; probes <~ readIntMessage ;; intvl <~ readIntMessage ;;
      read_ret (time, probes, intvl)) frames;
    Some (setKeepAlive k.1.1 k.1.2 k.2 p)
  else if decide (command = "subscribersExist") then
    '(id, _) ← readStringMessage frames; Some (subscribersExist id p)
  else Some p.

(** A publish command; the result says whether the thread goes on. *)
Definition publish_message (frames : list frame) (is_node : bool) p
    : option (PublishManager * bool) :=
  '(command, frames) ← readStringMessage frames;
  if decide (command = "publish") then
    '(r, _) ← read_publish frames;
    let '(dataProductId, timestamp, filterText, bytes) := r in
    Some (publish_request dataProductId timestamp filterText bytes p, true)
  else if decide (command = "kill" ∧ is_node = true) then Some (p, false)
  else Some (p, true).

Definition publish_step (e : PublishEvent) p : option (PublishManager * bool) :=
  match e with
  | NodeRequest frames zmq_bind socket =>
      p ← node_request frames zmq_bind socket p; Some (p, true)
  | PublishMessage frames => publish_message frames true p
  | MetricsRequest command now => Some (publish_metrics_command command now p, true)
  | MetricsMessage frames => publish_message frames false p
  | SubscriptionChange socket newsub =>
      if decide (socket ∈ pm_pollItems p) then
        p ← subscription_event socket newsub p; Some (p, true)
      else Some (p, true)
  end.
End loop.
