(* ===== verification/GravityPublishManagerProofs.v ===== *)
(** * GravityPublishManager: late subscribers, and the null entries of its map *)

From S2P Require Import Prelude.
From S2P Require Import Messages.
From S2P Require Import CommUtil.
From S2P Require Import GravityDataProduct.
From S2P Require Import GravityMetrics.
From S2P Require Import GravityPublishManager.
#[local] Open Scope gravity_scope.

Implicit Types p : PublishManager.

(** ** The invariant *)

(** Every pointer of the map by ID leads to an object of that ID; the poll items are the
    sockets of the objects. *)
Record publish_ok p : Prop := {
  po_id id socket : publishMapByID p !! id = Some (Some socket) →
    ∃ d, publishMapBySocket p !! socket = Some d ∧ pd_dataProductID d = id;
  po_poll socket : socket ∈ pm_pollItems p ↔ is_Some (publishMapBySocket p !! socket);
}.

Lemma details_by_id_spec p id socket d :
  details_by_id id p = Some (socket, d) →
  publishMapByID p !! id = Some (Some socket) ∧ publishMapBySocket p !! socket = Some d.
Proof.
  unfold details_by_id, idx. intros (s & Hs & H)%bind_Some. apply bind_Some in H as (d' & Hd & [= <- <-]).
  destruct (publishMapByID p !! id) as [[s'|]|]; cbn in Hs; simplify_eq. done.
Qed.

(** Different products have different sockets. *)
Lemma details_by_id_inj p id1 id2 socket d1 d2 :
  publish_ok p → details_by_id id1 p = Some (socket, d1) → details_by_id id2 p = Some (socket, d2) →
  id1 = id2.
Proof.
  intros Hok [H1 D1]%details_by_id_spec [H2 D2]%details_by_id_spec.
  destruct (po_id _ Hok _ _ H1) as (e1 & E1 & <-), (po_id _ Hok _ _ H2) as (e2 & E2 & <-). congruence.
Qed.

Lemma publish_ok_touch id p : publish_ok p → publish_ok (touch_id id p).
Proof.
  intros Hok. split; [|apply Hok]. intros id' socket. cbn. rewrite idx_touch_lookup.
  case_decide; [|apply Hok]. subst. unfold idx. intros Hs. apply Hok.
  destruct (publishMapByID p !! id') as [[s|]|]; cbn in Hs; by simplify_eq.
Qed.

Lemma publish_ok_set socket d d' p :
  publish_ok p → publishMapBySocket p !! socket = Some d → pd_dataProductID d' = pd_dataProductID d →
  publish_ok (set_publish_details socket d' p).
Proof.
  intros Hok Hd Hid. split; cbn.
  - intros id s Hs. destruct (po_id _ Hok _ _ Hs) as (e & He & <-).
    destruct (decide (s = socket)) as [->|Hne].
    + rewrite lookup_insert_eq. exists d'. split; [done|]. congruence.
    + rewrite lookup_insert_ne by done. eauto.
  - intros s. rewrite (po_poll _ Hok). destruct (decide (s = socket)) as [->|Hne].
    + rewrite lookup_insert_eq, Hd. split; eauto.
    + by rewrite lookup_insert_ne.
Qed.

(** Changes of the fields the invariant does not mention. *)
Lemma publish_ok_same p p' :
  publishMapByID p' = publishMapByID p → publishMapBySocket p' = publishMapBySocket p →
  pm_pollItems p' = pm_pollItems p → publish_ok p → publish_ok p'.
Proof. intros H1 H2 H3 []. split; by rewrite ?H1, ?H2, ?H3. Qed.

Lemma publish_ok_request id ts f bytes p :
  publish_ok p → publish_ok (publish_request id ts f bytes p).
Proof.
  intros Hok. unfold publish_request.
  destruct (details_by_id id p) as [[socket d]|] eqn:Hd; [|by apply publish_ok_touch].
  apply details_by_id_spec in Hd as [_ Hd].
  assert (Hok1 : publish_ok (if pd_cacheLastValue d then set_publish_details socket
    (d <| pd_lastCachedValues ::= insert f (mkCacheValue f bytes ts) |>) (touch_id id p)
    else touch_id id p)).
  { destruct (pd_cacheLastValue d); [|by apply publish_ok_touch].
    apply (publish_ok_set _ d); [by apply publish_ok_touch|done|done]. }
  set (p1 := if pd_cacheLastValue d then _ else _) in *. clearbody p1.
  destruct (pm_metricsEnabled _); by eapply publish_ok_same; [..|exact Hok1].
Qed.

Lemma publish_ok_register zmq_bind socket r p :
  publish_ok p → publishMapBySocket p !! socket = None →
  publish_ok (registerDataProduct zmq_bind (Some socket) r p).
Proof.
  intros Hok Hfresh. unfold registerDataProduct.
  destruct (bind_publisher zmq_bind r) as [url|]; [|by eapply publish_ok_same; [..|exact Hok]].
  split; cbn.
  - intros id s. rewrite lookup_insert. case_decide as Hid.
    + intros [= <-]. subst. rewrite lookup_insert_eq. eauto.
    + intros Hs. destruct (po_id _ Hok _ _ Hs) as (d & Hd & Hdid). exists d.
      rewrite lookup_insert_ne by congruence. done.
  - intros s. rewrite elem_of_app, list_elem_of_singleton, (po_poll _ Hok), lookup_insert.
    case_decide as Hs; [subst; split; eauto|]. naive_solver.
Qed.

Lemma publish_ok_unregister id p p' :
  publish_ok p → unregisterDataProduct id p = Some p' → publish_ok p'.
Proof.
  intros Hok Hu. unfold unregisterDataProduct in Hu.
  change (publishMapByID (_ <| pm_metricsData ::= _ |>)) with (publishMapByID p) in Hu.
  destruct (publishMapByID p !! id) as [[socket|]|] eqn:Hid; simplify_eq/=;
    [|by eapply publish_ok_same; [..|exact Hok]].
  destruct (po_id _ Hok _ _ Hid) as (d & Hd & Hdid). split; cbn.
  - intros id' s. rewrite lookup_delete. case_decide as Hne; [done|]. intros Hs.
    destruct (po_id _ Hok _ _ Hs) as (e & He & Heid). exists e.
    rewrite lookup_delete_ne by congruence. done.
  - intros s. rewrite list_elem_of_filter, (po_poll _ Hok), lookup_delete.
    case_decide as Hs; [|naive_solver]. subst. split; [tauto|by intros []].
Qed.

(** ** The cache *)

(** A publish request: product, time stamp, filter, bytes. *)
Definition PublishRequest : Type := string * Z * string * string.

Definition run_publish (reqs : list PublishRequest) p : PublishManager :=
  foldl (λ p '(id, ts, f, bytes), publish_request id ts f bytes p) p reqs.

(** The value last published for a product with a filter. *)
Definition last_request (id f : string) (reqs : list PublishRequest) : option CacheValue :=
  foldl (λ acc '(id', ts, f', bytes),
    if decide (id' = id ∧ f' = f) then Some (mkCacheValue f bytes ts) else acc) None reqs.

Lemma details_publish_request id ts f bytes p id' :
  publish_ok p →
  details_by_id id' (publish_request id ts f bytes p) =
    match details_by_id id' p with
    | Some (socket, d) => Some (socket,
        if decide (id = id' ∧ pd_cacheLastValue d = true)
        then d <| pd_lastCachedValues ::= insert f (mkCacheValue f bytes ts) |> else d)
    | None => None
    end.
Proof.
  intros Hok.
  assert (Htouch : ∀ q i, details_by_id i (touch_id id q) = details_by_id i q).
  { intros q i. unfold details_by_id. cbn. by rewrite idx_touch_idx. }
  assert (Hsame : ∀ q q' i, publishMapByID q' = publishMapByID q →
    publishMapBySocket q' = publishMapBySocket q → details_by_id i q' = details_by_id i q).
  { intros q q' i H1 H2. unfold details_by_id. by rewrite H1, H2. }
  unfold publish_request. destruct (details_by_id id p) as [[socket d]|] eqn:Hd.
  2:{ rewrite Htouch. destruct (details_by_id id' p) as [[s d']|] eqn:Hd'; [|done].
      rewrite decide_False; [done|]. intros [-> _]. congruence. }
  set (p1 := if pd_cacheLastValue d then _ else _).
  transitivity (details_by_id id' p1); [destruct (pm_metricsEnabled _); by apply Hsame|].
  subst p1. destruct (pd_cacheLastValue d) eqn:Hc.
  - unfold details_by_id at 1. cbn. rewrite idx_touch_idx.
    destruct (idx None id' (publishMapByID p)) as [s'|] eqn:Hs'.
    2:{ unfold details_by_id. by rewrite Hs'. }
    cbn. unfold details_by_id. rewrite Hs'. cbn.
    destruct (decide (s' = socket)) as [->|Hne].
    + rewrite lookup_insert_eq. pose proof Hd as Hd0. apply details_by_id_spec in Hd0 as [_ Hds].
      rewrite Hds. cbn. assert (id' = id) as ->.
      { apply (details_by_id_inj p id' id socket d d Hok); [|done].
        unfold details_by_id. rewrite Hs'. cbn. by rewrite Hds. }
      by rewrite decide_True.
    + rewrite lookup_insert_ne by done. destruct (publishMapBySocket p !! s') as [d'|] eqn:Hd'; [|done].
      cbn. rewrite decide_False; [done|]. intros [-> _].
      unfold details_by_id in Hd. rewrite Hs' in Hd. cbn in Hd. rewrite Hd' in Hd. cbn in Hd. congruence.
  - rewrite Htouch. destruct (details_by_id id' p) as [[s d']|] eqn:Hd'; [|done].
    rewrite decide_False; [done|]. intros [-> Hc']. congruence.
Qed.

Lemma run_publish_ok reqs p : publish_ok p → publish_ok (run_publish reqs p).
Proof.
  revert p. induction reqs as [|[[[id ts] f] bytes] reqs IH]; intros p Hok; [done|].
  apply IH. by apply publish_ok_request.
Qed.

(** What the requests leave in the cache of a product that caches. *)
Lemma run_publish_cache reqs p id socket d :
  publish_ok p → details_by_id id p = Some (socket, d) → pd_cacheLastValue d = true →
  ∃ d', details_by_id id (run_publish reqs p) = Some (socket, d') ∧
    pd_cacheLastValue d' = true ∧ pd_hasSubscribers d' = pd_hasSubscribers d ∧
    ∀ f, pd_lastCachedValues d' !! f =
      match last_request id f reqs with Some v => Some v | None => pd_lastCachedValues d !! f end.
Proof.
  intros Hok Hd Hc. induction reqs as [|[[[id' ts] f'] bytes] reqs IH] using rev_ind.
  { by exists d. }
  destruct IH as (d1 & H1 & C1 & S1 & L1).
  unfold run_publish, last_request. rewrite foldl_snoc. fold (run_publish reqs p).
  pose proof (details_publish_request id' ts f' bytes (run_publish reqs p) id
    (run_publish_ok reqs p Hok)) as Hstep.
  rewrite H1, C1 in Hstep. destruct (decide (id' = id ∧ true = true)) as [[-> _]|Hne];
    eexists; (split; [exact Hstep|]).
  - split; [done|]. split; [done|]. intros f. cbn. rewrite foldl_snoc. rewrite lookup_insert.
    case_decide as Hf.
    + subst. by rewrite decide_True.
    + rewrite decide_False by naive_solver. apply L1.
  - split; [done|]. split; [done|]. intros f. rewrite foldl_snoc.
    rewrite decide_False by naive_solver. apply L1.
Qed.

(** ** Sorting the cached values *)

Definition older (v w : CacheValue) : Prop := (cv_timestamp v <= cv_timestamp w)%Z.

Lemma insert_value_perm v l : insert_value v l ≡ₚ v :: l.
Proof.
  induction l as [|w l IH]; cbn; [done|]. destruct (_ <? _)%Z; [done|].
  rewrite IH. apply perm_swap.
Qed.

Lemma sort_values_perm l : sort_values l ≡ₚ l.
Proof.
  unfold sort_values. induction l as [|v l IH] using rev_ind; [done|].
  rewrite foldl_snoc. cbn. rewrite insert_value_perm, IH. by rewrite Permutation_app_comm.
Qed.

Lemma insert_value_sorted v l : StronglySorted older l → StronglySorted older (insert_value v l).
Proof.
  induction 1 as [|w l Hl IH Hw]; cbn; [by repeat constructor|].
  destruct (_ <? _)%Z eqn:Hlt; to_props.
  - constructor; [by constructor|]. constructor; [unfold older; lia|].
    eapply Forall_impl; [exact Hw|]. unfold older. intros; lia.
  - constructor; [done|]. rewrite insert_value_perm. constructor; [done|exact Hw].
Qed.

Lemma sort_values_sorted l : StronglySorted older (sort_values l).
Proof.
  unfold sort_values. induction l as [|v l IH] using rev_ind; [constructor|].
  rewrite foldl_snoc. by apply insert_value_sorted.
Qed.

(** * Properties *)

Section properties.
Context `{Protobuf GravityDataProductPB}.

Lemma publish_values socket vs p :
  pm_published (foldl (λ p v, publish_bytes socket (cv_filterText v) (mark_cached (cv_value v)) p)
    p vs) = pm_published p ++
      ((λ v, (socket, cv_filterText v, mark_cached (cv_value v))) <$> vs).
Proof.
  revert p. induction vs as [|v vs IH]; intros p; cbn; [by rewrite app_nil_r|].
  rewrite IH. cbn. by rewrite <-app_assoc.
Qed.

(** C23. A late subscriber catches up: when somebody subscribes to a product that caches, the manager
    sends, in the order of their time stamps and marked as cached, exactly the values last
    published with each filter since the product was registered, whatever was published for
    other products in between. *)
Theorem late_subscriber_catches_up zmq_bind socket r reqs p p' url :
  publish_ok p → publishMapBySocket p !! socket = None →
  rr_cacheLastValue r = true → bind_publisher zmq_bind r = Some url →
  let p1 := run_publish reqs (registerDataProduct zmq_bind (Some socket) r p) in
  subscription_event socket true p1 = Some p' →
  ∃ values, pm_published p' = pm_published p1 ++
      ((λ v, (socket, cv_filterText v, mark_cached (cv_value v))) <$> values) ∧
    StronglySorted older values ∧ NoDup values ∧
    (∀ v, v ∈ values ↔ ∃ f, last_request (rr_dataProductID r) f reqs = Some v) ∧
    (∃ d, publishMapBySocket p' !! socket = Some d ∧ pd_hasSubscribers d = true).
Proof.
  intros Hok Hfresh Hcache Hbind p1 Hsub.
  set (p0 := registerDataProduct zmq_bind (Some socket) r p) in p1.
  assert (Hok0 : publish_ok p0) by by apply publish_ok_register.
  assert (Hd0 : details_by_id (rr_dataProductID r) p0 =
    Some (socket, mkPublishDetails url (rr_dataProductID r) true ∅ false)).
  { unfold p0, registerDataProduct. rewrite Hbind, Hcache. unfold details_by_id. cbn.
    rewrite idx_insert, decide_True by done. cbn. by rewrite lookup_insert_eq. }
  destruct (run_publish_cache reqs p0 _ _ _ Hok0 Hd0 eq_refl) as (d & Hd & _ & _ & Hvals).
  cbn [pd_lastCachedValues] in Hvals. fold p1 in Hd. apply details_by_id_spec in Hd as [_ Hd].
  unfold subscription_event in Hsub. rewrite Hd in Hsub. injection Hsub as <-.
  set (values := sort_values (kv_items (pd_lastCachedValues d)).*2).
  exists values. rewrite publish_values. split; [done|]. split; [apply sort_values_sorted|].
  assert (Hin : ∀ v, v ∈ values ↔ ∃ f, last_request (rr_dataProductID r) f reqs = Some v).
  { intros v. unfold values. rewrite sort_values_perm, list_elem_of_fmap. split.
    - intros ([f w] & -> & Hf%elem_of_kv_items). exists f. rewrite Hvals in Hf. cbn.
      destruct (last_request _ f reqs); [done|]. by rewrite lookup_empty in Hf.
    - intros (f & Hf). exists (f, v). split; [done|]. apply elem_of_kv_items. by rewrite Hvals, Hf. }
  assert (Hfilter : ∀ f v, last_request (rr_dataProductID r) f reqs = Some v → cv_filterText v = f).
  { clear. intros f v. unfold last_request.
    induction reqs as [|[[[id ts] g] bytes] reqs IH] using rev_ind; [done|].
    rewrite foldl_snoc. case_decide; [by intros [= <-]|done]. }
  split_and!; [|exact Hin|].
  - unfold values. rewrite sort_values_perm. apply NoDup_fmap_2_strong; [|].
    + intros [f1 v1] [f2 v2] H1%elem_of_kv_items H2%elem_of_kv_items Heq. cbn in Heq. subst v2.
      f_equal. rewrite Hvals in H1, H2. rewrite lookup_empty in H1, H2.
      destruct (last_request _ f1 reqs) eqn:E1, (last_request _ f2 reqs) eqn:E2; try done.
      apply Hfilter in E1, E2. congruence.
    + eapply NoDup_fmap_1, NoDup_kv_items_keys.
  - set (p2 := set_publish_details _ _ _).
    assert (Hm : ∀ vs q, publishMapBySocket (foldl (λ p v,
      publish_bytes socket (cv_filterText v) (mark_cached (cv_value v)) p) q vs) = publishMapBySocket q).
    { clear. induction vs as [|v vs IH]; intros q; cbn; [done|]. by rewrite IH. }
    rewrite Hm. cbn. rewrite lookup_insert_eq. by eexists.
Qed.

(** Asking for the subscribers of a product that was never registered, or publishing it, leaves a
    null entry in the map by ID, so that unregistering it afterwards dereferences a null
    pointer; without such a request unregistering it is harmless. *)
Theorem unknown_product_null_entry id ts f bytes p :
  publishMapByID p !! id = None →
  unregisterDataProduct id (subscribersExist id p) = None ∧
  unregisterDataProduct id (publish_request id ts f bytes p) = None ∧
  ∃ p', unregisterDataProduct id p = Some p' ∧ publishMapByID p' = publishMapByID p ∧
    publishMapBySocket p' = publishMapBySocket p.
Proof.
  intros Hid.
  assert (Hi : idx None id (publishMapByID p) = None) by (unfold idx; by rewrite Hid).
  assert (Hd : details_by_id id p = None) by (unfold details_by_id; by rewrite Hi).
  split_and!.
  - unfold unregisterDataProduct, subscribersExist. rewrite Hd. cbn.
    by rewrite idx_touch_lookup, decide_True, Hi.
  - unfold unregisterDataProduct, publish_request. rewrite Hd. cbn.
    by rewrite idx_touch_lookup, decide_True, Hi.
  - unfold unregisterDataProduct. cbn. rewrite Hid. by eexists.
Qed.
End properties.

Lemma initial_publish_ok : publish_ok initial_PublishManager.
Proof.
  split; [intros id s; cbn; by rewrite lookup_empty|]. intros s. cbn. rewrite lookup_empty.
  split; [set_solver|by intros []].
Qed.

(** ** A concrete run *)

Definition demo_register : RegisterRequest := mkRegisterRequest "A" true "tcp" 5000 5001 "h".

Example late_subscriber_catches_up_witness :
  let codec := constant_protobuf empty_GravityDataProductPB in
  let p1 := run_publish [("A", 3%Z, "x", "one"); ("B", 1%Z, "x", "none"); ("A", 2%Z, "y", "two");
    ("A", 4%Z, "x", "three")] (registerDataProduct (λ _, true) (Some 7%Z) demo_register
      initial_PublishManager) in
  ∃ p' values, @subscription_event codec 7 true p1 = Some p' ∧
    mkCacheValue "x" "three" 4 ∈ values ∧
    pm_published p' = pm_published p1 ++
      ((λ v, (7%Z, cv_filterText v, @mark_cached codec (cv_value v))) <$> values).
Proof.
  intros codec p1.
  destruct (@subscription_event codec 7 true p1) as [p'|] eqn:Hs; [|vm_compute in Hs; discriminate].
  destruct (@late_subscriber_catches_up codec (λ _, true) 7 demo_register
    [("A", 3%Z, "x", "one"); ("B", 1%Z, "x", "none"); ("A", 2%Z, "y", "two"); ("A", 4%Z, "x", "three")]
    initial_PublishManager p' "tcp://h:5000") as (values & Hp & _ & _ & Hin & _).
  - exact initial_publish_ok.
  - reflexivity.
  - reflexivity.
  - vm_compute. reflexivity.
  - exact Hs.
  - exists p', values. split_and!; [reflexivity| |exact Hp]. apply Hin. exists "x".
    vm_compute. reflexivity.
Defined.

Example unknown_product_null_entry_witness :
  unregisterDataProduct "Z" (subscribersExist "Z" initial_PublishManager) = None.
Proof. exact (proj1 (unknown_product_null_entry "Z" 0 "" "" initial_PublishManager eq_refl)). Defined.
