(* ===== verification/ReturnCodes.v ===== *)
(** * The codes and transports of src/src/api/cpp/GravityNode.h

    [GravityReturnCodes::Codes] with the integers that cross the sockets, their printed
    names ([GravityNode::getCodeString]) and [GravityTransportTypes::Types]. *)

From stdpp Require Import pretty.
From S2P Require Import Prelude.
#[local] Open Scope gravity_scope.

Module GravityReturnCodes.

Inductive Codes :=
| SUCCESS | FAILURE | NO_SERVICE_DIRECTORY | REQUEST_TIMEOUT | DUPLICATE | REGISTRATION_CONFLICT
| NOT_REGISTERED | NO_SUCH_SERVICE | LINK_ERROR | INTERRUPTED | NO_SERVICE_PROVIDER
| NO_PORTS_AVAILABLE | INVALID_PARAMETER | NOT_INITIALIZED | RESERVED_DATA_PRODUCT_ID.

#[export] Instance Codes_eq_dec : EqDecision Codes.
Proof. solve_decision. Defined.

Definition code (c : Codes) : Z :=
  match c with
  | SUCCESS => 0
  | FAILURE => -1
  | NO_SERVICE_DIRECTORY => -2
  | REQUEST_TIMEOUT => -3
  | DUPLICATE => -4
  | REGISTRATION_CONFLICT => -5
  | NOT_REGISTERED => -6
  | NO_SUCH_SERVICE => -7
  | LINK_ERROR => -8
  | INTERRUPTED => -9
  | NO_SERVICE_PROVIDER => -10
  | NO_PORTS_AVAILABLE => -11
  | INVALID_PARAMETER => -12
  | NOT_INITIALIZED => -13
  | RESERVED_DATA_PRODUCT_ID => -14
  end.

(** The name of a code; the table has no entry for the last one, which prints as a number. *)
Definition getCodeString (c : Codes) : string :=
  match c with
  | SUCCESS => "SUCCESS"
  | FAILURE => "FAILURE"
  | NO_SERVICE_DIRECTORY => "NO_SERVICE_DIRECTORY"
  | REQUEST_TIMEOUT => "REQUEST_TIMEOUT"
  | DUPLICATE => "DUPLICATE"
  | REGISTRATION_CONFLICT => "REGISTRATION_CONFLICT"
  | NOT_REGISTERED => "NOT_REGISTERED"
  | NO_SUCH_SERVICE => "NO_SUCH_SERVICE"
  | LINK_ERROR => "LINK_ERROR"
  | INTERRUPTED => "INTERRUPTED"
  | NO_SERVICE_PROVIDER => "NO_SERVICE_PROVIDER"
  | NO_PORTS_AVAILABLE => "NO_PORTS_AVAILABLE"
  | INVALID_PARAMETER => "INVALID_PARAMETER"
  | NOT_INITIALIZED => "NOT_INITIALIZED"
  | RESERVED_DATA_PRODUCT_ID => pretty (code RESERVED_DATA_PRODUCT_ID)
  end.

End GravityReturnCodes.

Abbreviation GravityReturnCode := GravityReturnCodes.Codes.

Module GravityTransportTypes.

Inductive Types := TCP | INPROC | PGM | EPGM | IPC.

#[export] Instance Types_eq_dec : EqDecision Types.
Proof. solve_decision. Defined.

End GravityTransportTypes.

Abbreviation GravityTransportType := GravityTransportTypes.Types.
