(* ===== verification/GravityRequests.v ===== *)
(** * Requests and services: GravityRequestManager and GravityServiceManager
    (src/src/api/cpp/GravityRequestManager.cpp, GravityServiceManager.cpp)

    Sockets are addresses, and the maps that key on them iterate in address order.  What
    the system calls return (a new socket, the clock, the messages waiting) are inputs.
    A call into a requestor and a message sent are outputs.  A loop that never ends is
    the outcome [Hang], the dereference of a null pointer the outcome [Crash]. *)

From S2P Require Import Prelude.
From S2P Require Import Messages.
From S2P Require Import CommUtil.
From S2P Require Import ReturnCodes.
From S2P Require Import GravityDataProduct.
#[local] Open Scope gravity_scope.

Inductive outcome (A : Type) :=
| Done (a : A)
| Hang
| Crash.
Arguments Done {A} a.
Arguments Hang {A}.
Arguments Crash {A}.

Definition outcome_bind {A B} (m : outcome A) (k : A → outcome B) : outcome B :=
  match m with Done a => k a | Hang => Hang | Crash => Crash end.

(** ** The request manager *)

Record RequestDetails := mkRequestDetails {
  rd_serviceID : string;
  rd_requestID : string;
  rd_timeoutTimeMilliseconds : Z;
  rd_requestor : Z;
  rd_registrationTime : Z;
  rd_url : string;
}.

(** The calls of a requestor, the requests and notices sent, the answers to the node. *)
Inductive RequestOutput :=
| RequestFilled (requestor : Z) (serviceID requestID : string) (response : GravityDataProduct)
| RequestTimeout (requestor : Z) (serviceID requestID : string)
| SentRequest (socket : Z) (url : string) (bytes : string)
| FutureRequest (socket : Z) (url : string)
| StaleNotice (serviceDirectoryUrl : string) (bytes : string)
| FutureAnswer (socket : Z) (bytes : string)
| NodeAnswer (frame : frame).

Record RequestManager := mkRequestManager {
  requestMap : gmap Z (option RequestDetails);
  (* those behind the two fixed poll items *)
  rm_pollItems : list Z;
  futureResponseUrlToSocketMap : gmap string Z;
  rm_serviceDirectoryUrl : string;
  rm_out : list RequestOutput;
}.
#[export] Instance eta_RequestManager : Eta RequestManager := λ r,
  mkRequestManager (requestMap r) (rm_pollItems r) (futureResponseUrlToSocketMap r)
    (rm_serviceDirectoryUrl r) (rm_out r).

Definition initial_RequestManager : RequestManager := mkRequestManager ∅ [] ∅ "" [].

Implicit Types r : RequestManager.

Definition rm_output (o : RequestOutput) r : RequestManager := r <| rm_out ::= λ l, l ++ [o] |>.

(** *** Timeouts *)

(** The search for the poll item of an expired request: the iterator is never moved, so
    it only ends when there is no poll item or the first one is the socket's. *)
Definition erase_expired (socket : Z) (pollItems : list Z) : outcome (list Z) :=
  match pollItems with
  | [] => Done []
  | s :: rest => if decide (socket = s) then Done rest else Hang
  end.

(** One iteration of the loop over the requests; [clock] is the time in microseconds. *)
Definition expire_request (clock : Z) (entry : Z * option RequestDetails)
    (acc : RequestManager * Z) : outcome (RequestManager * Z) :=
  let '(socket, details) := entry in
  let '(r, nextTimeout) := acc in
  match details with
  | None => Crash
  | Some details =>
      let t := rd_timeoutTimeMilliseconds details in
      if (0 <? t)%Z then
        let currentTime := (clock / 1000)%Z in
        if (t <=? currentTime)%Z then
          let r := rm_output (RequestTimeout (rd_requestor details) (rd_serviceID details)
            (rd_requestID details)) r in
          outcome_bind (erase_expired socket (rm_pollItems r)) (λ items,
            Done (r <| rm_pollItems := items |> <| requestMap ::= delete socket |>, nextTimeout))
        else
          Done (r, if ((nextTimeout <? 0) || (t <? nextTimeout))%Z then (t - currentTime)%Z
                   else nextTimeout)
      else Done (r, nextTimeout)
  end.

(** The clock is read anew for every request. *)
Fixpoint expire_loop (clock : Z → Z) (entries : list (Z * option RequestDetails))
    (acc : RequestManager * Z) : outcome (RequestManager * Z) :=
  match entries with
  | [] => Done acc
  | entry :: entries =>
      outcome_bind (expire_request (clock entry.1) entry acc) (expire_loop clock entries)
  end.

(** What happens before each poll: the expired requests, and the timeout of the poll. *)
Definition expire_requests (clock : Z → Z) r : outcome (RequestManager * Z) :=
  expire_loop clock (kv_items (requestMap r)) (r, (-1)%Z).

Section request_manager.
Context `{Protobuf GravityDataProductPB, Protobuf ServiceDirectoryUnregistrationPB}.

(** *** Requests *)

Record NewRequest := mkNewRequest {
  nr_serviceID : string;
  nr_url : string;
  nr_requestID : string;
  nr_timeout_milliseconds : Z;
  nr_regTime : Z;
  nr_dataProduct : string;
  nr_requestor : Z;
}.

(** The last frame is copied into the pointer to the requestor. *)
Definition read_request : reader NewRequest :=
  (serviceID <~ readStringMessage ;; url <~ readStringMessage ;; requestID <~ readStringMessage ;;
   timeout_milliseconds <~ readIntMessage ;; regTime <~ readUint32Message ;;
   dataProduct <~ readStringMessage ;; requestor <~ readUint64Message ;;
   read_ret (mkNewRequest serviceID url requestID timeout_milliseconds regTime dataProduct
     requestor)).

(** [processRequest]; [reqSocket] is the new socket, [clock] the time in microseconds. *)
Definition processRequest (reqSocket clock : Z) (q : NewRequest) r : RequestManager :=
  let timeoutTimeMilliseconds :=
    if (0 <? nr_timeout_milliseconds q)%Z
    then (clock / 1000 + nr_timeout_milliseconds q)%Z else (-1)%Z in
  let dataProduct :=
    setRegistrationTime (nr_regTime q) (GravityDataProduct_from_bytes (nr_dataProduct q)) in
  let r := rm_output (SentRequest reqSocket (nr_url q) (serializeToArray dataProduct)) r in
  let r := r <| rm_pollItems ::= λ l, l ++ [reqSocket] |> in
  let details := mkRequestDetails (nr_serviceID q) (nr_requestID q) timeoutTimeMilliseconds
    (nr_requestor q) (nr_regTime q) (nr_url q) in
  r <| requestMap ::= insert reqSocket (Some details) |>.

Definition notifyServiceDirectoryOfStaleEntry (serviceId url : string) (regTime : Z) r
    : RequestManager :=
  let unregistration := mkServiceDirectoryUnregistrationPB (Some serviceId) (Some url)
    (Some SERVICE) None (Some regTime) in
  let request := setData unregistration (new_GravityDataProduct "UnregistrationRequest") in
  rm_output (StaleNotice (rm_serviceDirectoryUrl r) (serializeToArray request)) r.

(** *** Responses *)

(** A message on the socket of a request.  For the placeholder of a future response the
    request moves to a new socket ([future]); the result lists the sockets to poll next. *)
Definition process_response (socket future : Z) (bytes : string) r
    : outcome (RequestManager * list Z) :=
  let response := GravityDataProduct_from_bytes bytes in
  let details := idx None socket (requestMap r) in
  if isFutureResponse response then
    let r := rm_output (FutureRequest future (getFutureSocketUrl response)) r in
    let r := r <| requestMap ::= insert future details |> in
    Done (r <| requestMap ::= delete socket |>, [future])
  else
    match details with
    | None => Crash
    | Some details =>
        let r :=
          if decide (getRegistrationTime response ≠ rd_registrationTime details) then
            if (0 <? getRegistrationTime response)%Z then
              notifyServiceDirectoryOfStaleEntry (rd_serviceID details) (rd_url details)
                (rd_registrationTime details) r
            else r
          else
            rm_output (RequestFilled (rd_requestor details) (rd_serviceID details)
              (rd_requestID details) response) r in
        Done (r <| requestMap ::= delete socket |>, [])
    end.

(** The loop over the poll items behind the fixed ones: [ready] gives the message waiting
    on a socket, [future] the socket created if it is the placeholder of a future response.
    The item of an answered request is erased; the new items come last. *)
Fixpoint process_responses (ready : Z → option string) (future : Z → Z)
    (items kept newPollItems : list Z) r : outcome RequestManager :=
  match items with
  | [] => Done (r <| rm_pollItems := kept ++ newPollItems |>)
  | socket :: items =>
      match ready socket with
      | None => process_responses ready future items (kept ++ [socket]) newPollItems r
      | Some bytes =>
          outcome_bind (process_response socket (future socket) bytes r) (λ '(r, added),
            process_responses ready future items kept (newPollItems ++ added) r)
      end
  end.

Definition poll_responses (ready : Z → option string) (future : Z → Z) r : outcome RequestManager :=
  process_responses ready future (rm_pollItems r) [] [] r.

(** *** Future responses *)

Inductive PollResult := PollInterrupted | PollTimeout | PollReady.

Definition sendFutureResponse (url bytes : string) (poll : PollResult) r : RequestManager :=
  match futureResponseUrlToSocketMap r !! url with
  | None => r
  | Some responseSocket =>
      let '(ret, r) :=
        match poll with
        | PollInterrupted => (GravityReturnCodes.INTERRUPTED, r)
        | PollTimeout => (GravityReturnCodes.REQUEST_TIMEOUT, r)
        | PollReady => (GravityReturnCodes.SUCCESS, rm_output (FutureAnswer responseSocket
            (serializeToArray (GravityDataProduct_from_bytes bytes))) r)
        end in
      let r := rm_output (NodeAnswer (sendIntMessage (GravityReturnCodes.code ret))) r in
      r <| futureResponseUrlToSocketMap ::= delete url |>
  end.

Definition createFutureResponse (zmq_bind : string → bool) (responseSocket : Z) (ip : string)
    (minPort maxPort : Z) r : RequestManager :=
  let port := bindFirstAvailablePort zmq_bind ip minPort maxPort in
  if (port <? 0)%Z then rm_output (NodeAnswer (sendStringMessage "")) r
  else
    let url := tcp_url ip port in
    rm_output (NodeAnswer (sendStringMessage url))
      (r <| futureResponseUrlToSocketMap ::= insert url responseSocket |>).

(** *** One turn of the thread *)

(** What the system calls of a turn return: the times the requests are checked at, whether
    the poll fails (and if so, by an interruption), the frames waiting on the two fixed sockets and on those of the requests, the time and
    the socket of a new request, the sockets of future responses, the ports that can be
    bound and the poll of a future response's socket. *)
Record RequestEvents := mkRequestEvents {
  re_clock : Z → Z;
  re_poll_error : option bool;
  re_node : option (list frame);
  re_rep : option (list frame);
  re_ready : Z → option string;
  re_now : Z;
  re_reqSocket : Z;
  re_future : Z → Z;
  re_bind : string → bool;
  re_responseSocket : Z;
  re_poll : PollResult;
}.

(** A command of the node; [None] for a message with missing frames, which blocks the
    thread.  The flag says that the thread goes on. *)
Definition node_command (e : RequestEvents) (frames : list frame) r
    : option (RequestManager * bool) :=
  match readStringMessage frames with
  | None => None
  | Some (command, frames) =>
      if decide (command = "request") then
        match read_request frames with
        | Some (q, _) => Some (processRequest (re_reqSocket e) (re_now e) q r, true)
        | None => None
        end
      else if decide (command = "kill") then Some (r, false)
      else if decide (command = "set_service_dir_url") then
        match readStringMessage frames with
        | Some (url, _) => Some (r <| rm_serviceDirectoryUrl := url |>, true)
        | None => None
        end
      else Some (r, true)
  end.

Definition rep_command (e : RequestEvents) (frames : list frame) r : option RequestManager :=
  match readStringMessage frames with
  | None => None
  | Some (command, frames) =>
      if decide (command = "createFutureResponse") then
        match (ip <~ readStringMessage ;; minPort <~ readIntMessage ;;
               maxPort <~ readIntMessage ;; read_ret (ip, minPort, maxPort)) frames with
        | Some ((ip, minPort, maxPort), _) =>
            Some (createFutureResponse (re_bind e) (re_responseSocket e) ip minPort maxPort r)
        | None => None
        end
      else if decide (command = "sendFutureResponse") then
        match (url <~ readStringMessage ;; bytes <~ readStringMessage ;;
               read_ret (url, bytes)) frames with
        | Some ((url, bytes), _) => Some (sendFutureResponse url bytes (re_poll e) r)
        | None => None
        end
      else Some r
  end.

Definition blocking {A} (m : option A) : outcome A :=
  match m with Some x => Done x | None => Hang end.

Definition optional_command {A} (f : list frame → RequestManager → option A)
    (none : RequestManager → A) (frames : option (list frame)) r : outcome A :=
  match frames with Some fs => blocking (f fs r) | None => Done (none r) end.

(** The turn: the expired requests, the poll with its timeout, the commands, the
    responses on the sockets that were polled.  A poll that fails starts the next turn if it
    was interrupted and ends the loop otherwise. *)
Definition request_turn (e : RequestEvents) r : outcome (RequestManager * bool * Z) :=
  outcome_bind (expire_requests (re_clock e) r) (λ '(r, nextTimeout),
  let polled := rm_pollItems r in
  match re_poll_error e with
  | Some eintr => Done (r, eintr, nextTimeout)
  | None =>
      outcome_bind (optional_command (node_command e) (λ r, (r, true)) (re_node e) r)
        (λ '(r, running),
      if running : bool then
        outcome_bind (optional_command (rep_command e) id (re_rep e) r) (λ r,
        let ready := λ s, if decide (s ∈ polled) then re_ready e s else None in
        outcome_bind (poll_responses ready (re_future e) r) (λ r, Done (r, true, nextTimeout)))
      else Done (r, false, nextTimeout))
  end).
End request_manager.

(** ** The service manager *)

Record ServiceDetails := mkServiceDetails {
  svc_serviceID : string;
  svc_url : string;
  svc_socket : Z;
  svc_server : Z;
}.

Record ServiceManager := mkServiceManager {
  serviceMapBySocket : gmap Z ServiceDetails;
  serviceMapByServiceID : gmap string ServiceDetails;
  serviceRegistrationTimeMap : gmap string Z;
  sm_pollItems : list Z;
  sm_domain : string;
  sm_componentID : string;
  sm_nodeReplies : list string;
  sm_responses : list (Z * string);
}.
#[export] Instance eta_ServiceManager : Eta ServiceManager := λ s,
  mkServiceManager (serviceMapBySocket s) (serviceMapByServiceID s) (serviceRegistrationTimeMap s)
    (sm_pollItems s) (sm_domain s) (sm_componentID s) (sm_nodeReplies s) (sm_responses s).

Implicit Types s : ServiceManager.

(** The url a service is bound to. *)
Definition bind_service (zmq_bind : string → bool) (transportType endpoint : string)
    (minPort maxPort : Z) : option string :=
  if decide (transportType = "tcp") then
    let port := bindFirstAvailablePort zmq_bind endpoint minPort maxPort in
    if (port <? 0)%Z then None else Some (tcp_url endpoint port)
  else
    let connectionURL := transportType +:+ "://" +:+ endpoint in
    if zmq_bind connectionURL then Some connectionURL else None.

Record NewService := mkNewService {
  ns_serviceID : string;
  ns_transportType : string;
  ns_minPort : Z;
  ns_maxPort : Z;
  ns_endpoint : string;
  ns_registrationTime : Z;
  ns_server : Z;
}.

(** The port range is only sent for tcp. *)
Definition read_service : reader NewService :=
  (serviceID <~ readStringMessage ;; transportType <~ readStringMessage ;;
   ports <~ (if decide (transportType = "tcp")
             then (minPort <~ readIntMessage ;; maxPort <~ readIntMessage ;;
                   read_ret (minPort, maxPort))
             else read_ret (0%Z, 0%Z)) ;;
   endpoint <~ readStringMessage ;; registrationTime <~ readUint32Message ;;
   server <~ readUint64Message ;;
   read_ret (mkNewService serviceID transportType ports.1 ports.2 endpoint registrationTime server)).

Definition addService (zmq_bind : string → bool) (serverSocket : Z) (n : NewService) s
    : ServiceManager :=
  match bind_service zmq_bind (ns_transportType n) (ns_endpoint n) (ns_minPort n) (ns_maxPort n) with
  | None => s <| sm_nodeReplies ::= λ l, l ++ [""] |>
  | Some url =>
      let serviceDetails := mkServiceDetails (ns_serviceID n) url serverSocket (ns_server n) in
      s <| sm_nodeReplies ::= λ l, l ++ [url] |>
        <| sm_pollItems ::= λ l, l ++ [serverSocket] |>
        <| serviceMapBySocket ::= insert serverSocket serviceDetails |>
        <| serviceMapByServiceID ::= insert (ns_serviceID n) serviceDetails |>
        <| serviceRegistrationTimeMap ::= insert (ns_serviceID n) (ns_registrationTime n) |>
  end.

Definition removeService (serviceID : string) s : ServiceManager :=
  let s :=
    match serviceMapByServiceID s !! serviceID with
    | None => s
    | Some serviceDetails =>
        let socket := svc_socket serviceDetails in
        s <| serviceMapBySocket ::= delete socket |>
          <| serviceMapByServiceID ::= delete serviceID |>
          <| serviceRegistrationTimeMap ::= delete serviceID |>
          <| sm_pollItems ::= filter (λ x, x ≠ socket) |>
    end in
  s <| sm_nodeReplies ::= λ l, l ++ ["OK"] |>.

(** The parameters of the node, read before the first command. *)
Definition configure (frames : list frame) s : option ServiceManager :=
  match readStringMessage frames with
  | None => None
  | Some (command, frames) =>
      if decide (command = "configure") then
        match (domain <~ readStringMessage ;; componentID <~ readStringMessage ;;
               read_ret (domain, componentID)) frames with
        | Some ((domain, componentID), _) =>
            Some (s <| sm_domain := domain |> <| sm_componentID := componentID |>)
        | None => None
        end
      else Some s
  end.

(** A command of the node: [None] for missing frames; the flag is false for "kill". *)
Definition service_command (zmq_bind : string → bool) (serverSocket : Z) (frames : list frame) s
    : option (ServiceManager * bool) :=
  match readStringMessage frames with
  | None => None
  | Some (command, frames) =>
      if decide (command = "register") then
        match read_service frames with
        | Some (n, _) => Some (addService zmq_bind serverSocket n s, true)
        | None => None
        end
      else if decide (command = "unregister") then
        match readStringMessage frames with
        | Some (serviceID, _) => Some (removeService serviceID s, true)
        | None => None
        end
      else if decide (command = "kill") then Some (s, false)
      else Some (s, true)
  end.

Section service_manager.
Context `{Protobuf GravityDataProductPB}.
(** [GravityServiceProvider::request] of a server. *)
Variable provide : Z → string → GravityDataProduct → GravityDataProduct.

Definition registered_time (serviceID : string) s : Z :=
  idx 0%Z serviceID (serviceRegistrationTimeMap s).

(** A request on the socket of a service. *)
Definition service_message (socket : Z) (bytes : string) s : option ServiceManager :=
  match serviceMapBySocket s !! socket with
  | None => None
  | Some details =>
      let dataProduct := GravityDataProduct_from_bytes bytes in
      let id := svc_serviceID details in
      let response :=
        if decide (getRegistrationTime dataProduct ≠ 0%Z ∧
                   getRegistrationTime dataProduct ≠ registered_time id s)
        then new_GravityDataProduct id
        else provide (svc_server details) id dataProduct in
      let response := setRegistrationTime (registered_time id s)
        (setDomain (sm_domain s) (setComponentId (sm_componentID s) response)) in
      Some (s <| serviceRegistrationTimeMap ::= idx_touch 0%Z id |>
              <| sm_responses ::= λ l, l ++ [(socket, serializeToArray response)] |>)
  end.

(** The requests waiting on the sockets behind the node's; [None] is the dereference of a
    service that is not there. *)
Fixpoint service_messages (ready : Z → option string) (items : list Z) s : option ServiceManager :=
  match items with
  | [] => Some s
  | socket :: items =>
      match ready socket with
      | None => service_messages ready items s
      | Some bytes =>
          match service_message socket bytes s with
          | Some s => service_messages ready items s
          | None => None
          end
      end
  end.

(** One turn of the thread: the command of the node, then the requests on the sockets that
    were polled; or a poll that fails, as above.  [None]: missing frames, or a service that is
    not there. *)
Definition service_turn (poll_error : option bool) (zmq_bind : string → bool) (serverSocket : Z)
    (command : option (list frame)) (ready : Z → option string) s : option (ServiceManager * bool) :=
  let polled := sm_pollItems s in
  match poll_error with
  | Some eintr => Some (s, eintr)
  | None =>
      match match command with
            | Some frames => service_command zmq_bind serverSocket frames s
            | None => Some (s, true)
            end with
      | None => None
      | Some (s, false) => Some (s, false)
      | Some (s, true) =>
          let ready := λ socket, if decide (socket ∈ polled) then ready socket else None in
          match service_messages ready (sm_pollItems s) s with
          | Some s => Some (s, true)
          | None => None
          end
      end
  end.
End service_manager.
