(* ===== verification/GravityRequestsProofs.v ===== *)
(** * Properties of requests and services

    The request manager never dereferences a missing request; its search for the poll item
    of an expired request ends exactly when the expired requests are the first to have
    been polled; the timeout of its poll is that of one request.  A request, the service it
    reaches and the response are followed through both managers. *)

From S2P Require Import Prelude.
From S2P Require Import Messages.
From S2P Require Import CommUtil.
From S2P Require Import ReturnCodes.
From S2P Require Import GravityDataProduct.
From S2P Require Import GravityRequests.
#[local] Open Scope gravity_scope.

Implicit Types r : RequestManager.

Lemma rm_output_requestMap o r : requestMap (rm_output o r) = requestMap r.
Proof. done. Qed.
Lemma rm_output_pollItems o r : rm_pollItems (rm_output o r) = rm_pollItems r.
Proof. done. Qed.

(** ** The maps of the request manager *)

(** The poll items are the sockets of the requests, once each. *)
Record rm_aligned (items : list Z) (m : gmap Z (option RequestDetails)) : Prop := {
  aligned_NoDup : NoDup items;
  aligned_dom s : s ∈ items ↔ is_Some (m !! s);
  aligned_Some s : m !! s ≠ Some None;
}.

Definition aligned r : Prop := rm_aligned (rm_pollItems r) (requestMap r).

Lemma aligned_lookup items m s :
  rm_aligned items m → s ∈ items → ∃ d, m !! s = Some (Some d).
Proof.
  intros [_ Hd Hs] [o Ho]%Hd. destruct o as [d|]; [by exists d|by destruct (Hs s)].
Qed.

Lemma aligned_insert items m s d :
  rm_aligned items m → s ∉ items → rm_aligned (items ++ [s]) (<[s := Some d]> m).
Proof.
  intros [Hn Hd Hs] Hf. split.
  - apply NoDup_app. split_and!; [done| |apply NoDup_singleton].
    intros x Hx ->%list_elem_of_singleton. done.
  - intros x. rewrite elem_of_app, list_elem_of_singleton, Hd, lookup_insert_is_Some'. naive_solver.
  - intros x. rewrite lookup_insert_Some. intros [[-> ?]|[? Hx]]; [done|by destruct (Hs x)].
Qed.

Lemma aligned_perm items items' m :
  items ≡ₚ items' → rm_aligned items m → rm_aligned items' m.
Proof.
  intros Hp [Hn Hd Hs]. split; [by rewrite <- Hp| |done]. intros s. by rewrite <- Hp.
Qed.

Lemma aligned_delete items m s :
  rm_aligned (s :: items) m → rm_aligned items (delete s m).
Proof.
  intros [Hn Hd Hs]. apply NoDup_cons in Hn as [Hs' Hn]. split; [done| |].
  - intros x. rewrite lookup_delete_is_Some, <- Hd, elem_of_cons. set_solver.
  - intros x. rewrite lookup_delete_Some. intros [_ Hx]. by destruct (Hs x).
Qed.

(** *** The expired requests *)

Definition is_expired (clock : Z → Z) (entry : Z * option RequestDetails) : Prop :=
  match entry.2 with
  | Some d => (0 < rd_timeoutTimeMilliseconds d ≤ clock entry.1 / 1000)%Z
  | None => False
  end.
#[export] Instance is_expired_dec clock entry : Decision (is_expired clock entry).
Proof. unfold is_expired. destruct entry.2; apply _. Defined.

(** The sockets of the expired requests, in the order of the map. *)
Definition expired_sockets (clock : Z → Z) (entries : list (Z * option RequestDetails)) : list Z :=
  (filter (is_expired clock) entries).*1.

Definition timeout_calls (clock : Z → Z) (entries : list (Z * option RequestDetails))
    : list RequestOutput :=
  filter (is_expired clock) entries ≫= λ e,
    match e.2 with
    | Some d => [RequestTimeout (rd_requestor d) (rd_serviceID d) (rd_requestID d)]
    | None => []
    end.

(** The requests with a timeout still ahead, and how far. *)
Definition remaining (clock : Z → Z) (entry : Z * option RequestDetails) : option Z :=
  match entry.2 with
  | Some d =>
      let t := rd_timeoutTimeMilliseconds d in
      if decide (0 < t)%Z then
        if decide (t ≤ clock entry.1 / 1000)%Z then None else Some (t - clock entry.1 / 1000)%Z
      else None
  | None => None
  end.

Lemma expire_request_spec clock s d r n :
  expire_request (clock s) (s, Some d) (r, n) =
    if decide (is_expired clock (s, Some d)) then
      outcome_bind (erase_expired s (rm_pollItems r)) (λ items,
        Done (rm_output (RequestTimeout (rd_requestor d) (rd_serviceID d) (rd_requestID d)) r
          <| rm_pollItems := items |> <| requestMap ::= delete s |>, n))
    else
      Done (r, match remaining clock (s, Some d) with
               | Some k => if ((n <? 0) || (rd_timeoutTimeMilliseconds d <? n))%Z then k else n
               | None => n
               end).
Proof.
  unfold expire_request, is_expired, remaining. cbn [fst snd].
  repeat goal_decide; destruct (Z.ltb_spec 0 (rd_timeoutTimeMilliseconds d));
    try destruct (Z.leb_spec (rd_timeoutTimeMilliseconds d) (clock s / 1000)); try lia; done.
Qed.

Definition no_null (entries : list (Z * option RequestDetails)) : Prop :=
  Forall (λ e, is_Some e.2) entries.

Definition without (sockets : list Z) (m : gmap Z (option RequestDetails)) :=
  foldl (λ m s, delete s m) m sockets.

Lemma without_lookup sockets m s :
  without sockets m !! s = if decide (s ∈ sockets) then None else m !! s.
Proof.
  revert m. induction sockets as [|x l IH]; intros m; cbn [without foldl].
  { by rewrite decide_False by apply not_elem_of_nil. }
  unfold without in IH. rewrite IH. destruct (decide (s = x)) as [->|].
  - rewrite lookup_delete_eq. rewrite (decide_True (P := x ∈ x :: l)) by left. by goal_decide.
  - rewrite lookup_delete_ne by done. apply decide_ext. rewrite elem_of_cons. naive_solver.
Qed.

(** The timeout of the poll after the requests of [entries], [n] before them. *)
Fixpoint poll_timeout (clock : Z → Z) (entries : list (Z * option RequestDetails)) (n : Z) : Z :=
  match entries with
  | [] => n
  | e :: entries =>
      poll_timeout clock entries
        match remaining clock e, e.2 with
        | Some k, Some d => if ((n <? 0) || (rd_timeoutTimeMilliseconds d <? n))%Z then k else n
        | _, _ => n
        end
  end.

Lemma remaining_expired clock e : is_expired clock e → remaining clock e = None.
Proof.
  unfold is_expired, remaining. destruct e.2; [|done]. intros ?.
  rewrite decide_True by lia. by rewrite decide_True by lia.
Qed.

Lemma expire_loop_done clock entries rest r n :
  no_null entries → rm_pollItems r = expired_sockets clock entries ++ rest →
  expire_loop clock entries (r, n) =
    Done (r <| rm_out ::= λ l, l ++ timeout_calls clock entries |> <| rm_pollItems := rest |>
            <| requestMap ::= without (expired_sockets clock entries) |>,
          poll_timeout clock entries n).
Proof.
  revert r n. induction entries as [|[s o] l IH]; intros r n Hn Hp.
  { destruct r as [m p f u o]. cbn in Hp. subst p. cbn. unfold timeout_calls. cbn.
    unfold update. cbn. by rewrite app_nil_r. }
  apply Forall_cons in Hn as [[d Hd] Hn]. cbn in Hd. subst o. cbn [expire_loop fst].
  rewrite expire_request_spec.
  unfold expired_sockets, timeout_calls in *. rewrite filter_cons in *.
  destruct (decide (is_expired clock (s, Some d))) as [He|He].
  - rewrite fmap_cons in Hp. rewrite Hp. cbn [erase_expired app fst]. rewrite decide_True by done.
    cbn [outcome_bind]. rewrite IH by done. cbn [poll_timeout]. rewrite (remaining_expired _ _ He).
    destruct r; cbn -[is_expired]. unfold update. cbn -[is_expired]. by rewrite <- app_assoc.
  - cbn [outcome_bind]. by rewrite IH by done.
Qed.

Lemma expire_loop_hang clock entries r n :
  no_null entries → NoDup (expired_sockets clock entries) →
  (∀ s, s ∈ expired_sockets clock entries → s ∈ rm_pollItems r) →
  ¬ expired_sockets clock entries `prefix_of` rm_pollItems r →
  expire_loop clock entries (r, n) = Hang.
Proof.
  revert r n. induction entries as [|[s o] l IH]; intros r n Hn Hu Hi Hp.
  { destruct Hp. apply prefix_nil. }
  apply Forall_cons in Hn as [[d Hd] Hn]. cbn in Hd. subst o. cbn [expire_loop fst].
  rewrite expire_request_spec.
  unfold expired_sockets in *. rewrite filter_cons in *.
  destruct (decide (is_expired clock (s, Some d))) as [He|He].
  - rewrite fmap_cons in Hp, Hi, Hu. cbn [fst] in Hp, Hi, Hu. apply NoDup_cons in Hu as [Hs Hu].
    destruct (rm_pollItems r) as [|t items] eqn:Er.
    { exfalso. apply (not_elem_of_nil s), Hi. left. }
    cbn [erase_expired]. goal_decide; [|done]. subst t. cbn [outcome_bind]. apply IH; [done..| |].
    + intros x Hx. assert (Hx' : x ∈ s :: items) by (apply Hi; by right).
      apply elem_of_cons in Hx' as [->|]; done.
    + intros Hx. apply Hp. by apply prefix_cons.
  - cbn [outcome_bind]. by apply IH.
Qed.

Lemma aligned_no_null r : aligned r → no_null (kv_items (requestMap r)).
Proof.
  intros [_ _ Hs]. apply Forall_forall. intros [s o] Hin. apply elem_of_kv_items in Hin. cbn.
  destruct o; [done|by destruct (Hs s)].
Qed.

Lemma expired_NoDup clock m : NoDup (expired_sockets clock (kv_items m)).
Proof.
  unfold expired_sockets. eapply sublist_NoDup; [apply (NoDup_kv_items_keys m)|].
  apply fmap_sublist, sublist_filter.
Qed.

Lemma expired_polled clock r s :
  aligned r → s ∈ expired_sockets clock (kv_items (requestMap r)) → s ∈ rm_pollItems r.
Proof.
  intros [_ Hd _] [[x o] [-> Hx]]%list_elem_of_fmap. apply Hd.
  apply list_elem_of_filter in Hx as [_ Hx]. apply elem_of_kv_items in Hx. by exists o.
Qed.

Lemma expire_requests_done clock r rest :
  aligned r →
  rm_pollItems r = expired_sockets clock (kv_items (requestMap r)) ++ rest →
  expire_requests clock r =
    Done (r <| rm_out ::= λ l, l ++ timeout_calls clock (kv_items (requestMap r)) |>
            <| rm_pollItems := rest |>
            <| requestMap ::= without (expired_sockets clock (kv_items (requestMap r))) |>,
          poll_timeout clock (kv_items (requestMap r)) (-1)).
Proof. intros Ha Hp. apply expire_loop_done; [by apply aligned_no_null|done]. Qed.

(** C26. Before a poll, the requests whose time has come are looked up in the order of
    their sockets, and each is removed from the poll items.  When they are the first
    items, in that order, all of them are told of the timeout, once each, and exactly they
    are removed; in every other case the search for a poll item never ends, and the thread
    answers no request any more. *)
Theorem expire_requests_spec clock r (Ha : aligned r) :
  let expired := expired_sockets clock (kv_items (requestMap r)) in
  (expired `prefix_of` rm_pollItems r →
   ∃ r' n, expire_requests clock r = Done (r', n) ∧
     rm_out r' = rm_out r ++ timeout_calls clock (kv_items (requestMap r)) ∧
     rm_pollItems r = expired ++ rm_pollItems r' ∧
     ∀ s, requestMap r' !! s = if decide (s ∈ expired) then None else requestMap r !! s) ∧
  (¬ expired `prefix_of` rm_pollItems r → expire_requests clock r = Hang).
Proof.
  intros expired. split.
  - intros [rest Hp]. do 2 eexists. split; [by apply (expire_requests_done _ _ rest)|].
    split_and!; [done|done|]. intros s. apply without_lookup.
  - intros Hp. apply expire_loop_hang; [by apply aligned_no_null|apply expired_NoDup| |done].
    intros s. by apply expired_polled.
Qed.

(** *** The timeout of the poll *)

(** No timeout reaches further ahead than the time that has passed since 1970. *)
Definition near_timeouts (clock : Z → Z) (entries : list (Z * option RequestDetails)) : Prop :=
  ∀ e e' k, e ∈ entries → e' ∈ entries → remaining clock e = Some k → (k ≤ clock e'.1 / 1000)%Z.

Lemma remaining_Some clock e k :
  remaining clock e = Some k → ∃ d, e.2 = Some d ∧ (0 < k)%Z ∧
    rd_timeoutTimeMilliseconds d = (k + clock e.1 / 1000)%Z.
Proof.
  unfold remaining. destruct e.2 as [d|]; [|done]. cbn. repeat goal_decide; [done| |done].
  intros [= <-]. exists d. split_and!; [done|lia|lia].
Qed.

Lemma poll_timeout_set clock entries n :
  (0 ≤ n)%Z → (∀ e, e ∈ entries → (n ≤ clock e.1 / 1000)%Z) →
  poll_timeout clock entries n = n.
Proof.
  intros H0n. induction entries as [|e l IH]; intros Hn; [done|]. cbn [poll_timeout].
  assert (He : (n ≤ clock e.1 / 1000)%Z) by (apply Hn; left).
  destruct (remaining clock e) as [k|] eqn:Hk.
  - apply remaining_Some in Hk as (d & -> & Hk & Ht).
    destruct (Z.ltb_spec n 0), (Z.ltb_spec (rd_timeoutTimeMilliseconds d) n); [lia..|].
    apply IH. intros. apply Hn. by right.
  - apply IH. intros. apply Hn. by right.
Qed.

Lemma poll_timeout_head clock entries :
  near_timeouts clock entries →
  poll_timeout clock entries (-1) = default (-1)%Z (head (omap (remaining clock) entries)).
Proof.
  induction entries as [|e l IH]; intros Hn; [done|]. cbn [poll_timeout].
  destruct (remaining clock e) as [k|] eqn:Hk.
  - replace (head (omap (remaining clock) (e :: l))) with (Some k) by (cbn; by rewrite Hk).
    cbn [default from_option].
    pose proof (remaining_Some _ _ _ Hk) as (d & -> & Hk0 & _). cbn.
    apply poll_timeout_set; [lia|]. intros e' He'. apply (Hn e e' k); [left|by right|done].
  - replace (omap (remaining clock) (e :: l)) with (omap (remaining clock) l)
      by (cbn; by rewrite Hk).
    rewrite <- IH; [by destruct e.2|]. intros e1 e2 k H1 H2. apply Hn; by right.
Qed.

(** The poll of the request manager waits for the pending request whose socket comes
    first in memory, and not for the one whose timeout comes first: the deadlines of the
    other requests are compared, as times since 1970, with the milliseconds that are left
    of that one.  Without a pending request it waits for ever. *)
Theorem poll_waits_for_first_socket clock r (Ha : aligned r)
    (Hp : expired_sockets clock (kv_items (requestMap r)) `prefix_of` rm_pollItems r)
    (Hn : near_timeouts clock (kv_items (requestMap r))) :
  ∃ r', expire_requests clock r =
    Done (r', default (-1)%Z (head (omap (remaining clock) (kv_items (requestMap r))))).
Proof.
  destruct Hp as [rest Hp]. eexists. rewrite (expire_requests_done clock r rest Ha Hp).
  by rewrite poll_timeout_head.
Qed.

(** *** Every turn *)

(** What the loop leaves, if it ends. *)
Lemma expire_requests_ends clock r (Ha : aligned r) :
  expire_requests clock r = Hang ∨
  ∃ r' n, expire_requests clock r = Done (r', n) ∧
    let expired := expired_sockets clock (kv_items (requestMap r)) in
    rm_pollItems r = expired ++ rm_pollItems r' ∧
    ∀ s, requestMap r' !! s = if decide (s ∈ expired) then None else requestMap r !! s.
Proof.
  destruct (decide (expired_sockets clock (kv_items (requestMap r)) `prefix_of` rm_pollItems r))
    as [[rest Hp]|Hp]; [right|left].
  - do 2 eexists. split; [by apply (expire_requests_done _ _ rest)|].
    split; [done|]. intros s. apply without_lookup.
  - apply expire_loop_hang; [by apply aligned_no_null|apply expired_NoDup| |done].
    intros s. by apply expired_polled.
Qed.

Lemma expire_requests_aligned clock r r' n :
  aligned r → expire_requests clock r = Done (r', n) → aligned r'.
Proof.
  intros Ha He. destruct (expire_requests_ends clock r Ha) as [Hh|(r1 & n1 & He1 & Hi & Hm)];
    [by rewrite Hh in He|]. rewrite He in He1. injection He1 as <- <-.
  destruct Ha as [Hu Hdom Hs]. rewrite Hi in Hu. apply NoDup_app in Hu as (_ & Hx & Hu).
  split; [done| |].
  - intros s. rewrite Hm. specialize (Hdom s). rewrite Hi, elem_of_app in Hdom.
    goal_decide; [|naive_solver].
    split; [intros Hr; by destruct (Hx s)|by intros [? ?]].
  - intros s. rewrite Hm. goal_decide; [done|apply Hs].
Qed.

Section proofs.
Context `{Protobuf GravityDataProductPB, Protobuf ServiceDirectoryUnregistrationPB}.

Lemma process_response_map socket future bytes r d :
  requestMap r !! socket = Some (Some d) →
  ∃ r1 added, process_response socket future bytes r = Done (r1, added) ∧
    (added = [] ∧ requestMap r1 = delete socket (requestMap r) ∨
     added = [future] ∧ requestMap r1 = delete socket (<[future := Some d]> (requestMap r))).
Proof.
  intros Hd. unfold process_response, idx. rewrite Hd. cbn [default from_option].
  destruct (isFutureResponse _); do 2 eexists; (split; [done|]); [by right|left].
  split; [done|]. cbn. unfold update. cbn. by repeat split_matches.
Qed.

Lemma process_responses_aligned ready future items kept new r :
  rm_aligned (items ++ kept ++ new) (requestMap r) →
  NoDup (future <$> items) → (∀ s, s ∈ items → future s ∉ items ++ kept ++ new) →
  ∃ r', process_responses ready future items kept new r = Done r' ∧ aligned r'.
Proof.
  revert kept new r. induction items as [|s items IH]; intros kept new r Ha Hu Hf;
    cbn [process_responses].
  { eexists. split; [done|]. exact Ha. }
  rewrite fmap_cons in Hu. apply NoDup_cons in Hu as [Hsf Hu].
  assert (Hkeep : rm_aligned (items ++ (kept ++ [s]) ++ new) (requestMap r)).
  { eapply aligned_perm; [|exact Ha]. solve_Permutation. }
  destruct (ready s) as [bytes|].
  - destruct (aligned_lookup _ _ s Ha) as [d Hd]; [left|].
    destruct (process_response_map s (future s) bytes r d Hd) as (r1 & added & -> & Hm).
    cbn [outcome_bind]. destruct Hm as [[-> Hm]|[-> Hm]].
    + rewrite app_nil_r. apply IH; [|done|set_solver]. rewrite Hm. by apply aligned_delete.
    + apply IH; [|done|].
      * rewrite Hm. apply aligned_delete. eapply aligned_perm; [|apply aligned_insert].
        2: exact Ha. 2: apply Hf; left. solve_Permutation.
      * intros x Hx Hin. rewrite app_assoc, app_assoc, elem_of_app, <- app_assoc in Hin.
        destruct Hin as [Hin|Hin%list_elem_of_singleton].
        { apply (Hf x); [by right|]. by right. }
        apply Hsf. rewrite <- Hin. by apply list_elem_of_fmap_2.
  - apply IH; [done|done|]. set_solver.
Qed.

(** The sockets that a turn creates are not those in use, and differ from each other. *)
Definition fresh_sockets (e : RequestEvents) r : Prop :=
  let used := re_reqSocket e :: rm_pollItems r in
  NoDup used ∧ NoDup (re_future e <$> used) ∧ ∀ s, s ∈ used → re_future e s ∉ used.

Inductive reachable : RequestManager → Prop :=
| reachable_initial : reachable initial_RequestManager
| reachable_turn e r r' running t :
    reachable r → fresh_sockets e r → request_turn e r = Done (r', running, t) → reachable r'.

Lemma expire_requests_kept clock r r' n :
  aligned r → expire_requests clock r = Done (r', n) → rm_pollItems r' `sublist_of` rm_pollItems r.
Proof.
  intros Ha He. destruct (expire_requests_ends clock r Ha) as [Hh|(r1 & n1 & He1 & Hi & _)];
    [by rewrite Hh in He|]. rewrite He in He1. injection He1 as <- <-.
  rewrite Hi. by apply sublist_inserts_l.
Qed.

Lemma expire_requests_not_Crash clock r : aligned r → expire_requests clock r ≠ Crash.
Proof.
  intros Ha. by destruct (expire_requests_ends clock r Ha) as [->|(r1 & n1 & -> & _)].
Qed.

(** A command of the node keeps the maps or adds the new socket to both. *)
Lemma node_command_map e frames r r' running :
  node_command e frames r = Some (r', running) →
  (rm_pollItems r' = rm_pollItems r ∧ requestMap r' = requestMap r) ∨
  (rm_pollItems r' = rm_pollItems r ++ [re_reqSocket e] ∧
   ∃ d, requestMap r' = <[re_reqSocket e := Some d]> (requestMap r)).
Proof.
  unfold node_command. repeat split_matches; try done; intros [= <- <-]; auto.
  right. split; [done|]. by eexists.
Qed.

Lemma rep_command_map e frames r r' :
  rep_command e frames r = Some r' →
  rm_pollItems r' = rm_pollItems r ∧ requestMap r' = requestMap r.
Proof.
  unfold rep_command, createFutureResponse, sendFutureResponse.
  repeat split_matches; try done; by intros [= <-].
Qed.

Lemma request_turn_aligned e r :
  aligned r → fresh_sockets e r →
  request_turn e r ≠ Crash ∧
  ∀ r' running t, request_turn e r = Done (r', running, t) → aligned r'.
Proof.
  intros Ha (Hu & Hfu & Hff). unfold request_turn.
  destruct (expire_requests (re_clock e) r) as [[r1 n]| |] eqn:He; cbn [outcome_bind];
    [|done|by destruct (expire_requests_not_Crash _ _ Ha He)].
  pose proof (expire_requests_aligned _ _ _ _ Ha He) as Ha1.
  pose proof (expire_requests_kept _ _ _ _ Ha He) as Hk.
  destruct (re_poll_error e) as [eintr|]; [split; [done|]; by intros ? ? ? [= <- <- <-]|].
  assert (Hnode : ∀ r2 b, optional_command (node_command e) (λ r, (r, true)) (re_node e) r1 =
    Done (r2, b) → aligned r2 ∧ rm_pollItems r2 `sublist_of` rm_pollItems r ++ [re_reqSocket e]).
  { intros r2 b. unfold optional_command, blocking. apply NoDup_cons in Hu as [Hnew _].
    destruct (re_node e) as [fs|].
    2: { intros [= <- <-]. split; [done|]. by apply sublist_inserts_r. }
    destruct (node_command e fs r1) as [[r2' b']|] eqn:E; [|done]. intros [= -> ->].
    apply node_command_map in E.
    destruct E as [[Hp Hm]|[Hp [d Hm]]]; unfold aligned; rewrite Hp, Hm.
    - split; [done|]. by apply sublist_inserts_r.
    - split; [|by apply sublist_app]. apply aligned_insert; [done|].
      intros Hin. apply Hnew. by eapply sublist_subseteq. }
  destruct (optional_command (node_command e) (λ r, (r, true)) (re_node e) r1) as [[r2 b]| |] eqn:En;
    cbn [outcome_bind]; [|done|].
  2: { unfold optional_command, blocking in En. by repeat split_matches. }
  destruct (Hnode r2 b eq_refl) as [Ha2 Hk2]. clear Hnode.
  destruct b; [|split; [done|]; by intros ? ? ? [= <- <- <-]].
  destruct (optional_command (rep_command e) id (re_rep e) r2) as [r3| |] eqn:Er;
    cbn [outcome_bind]; [|done|].
  2: { unfold optional_command, blocking in Er. by repeat split_matches. }
  assert (H3 : rm_pollItems r3 = rm_pollItems r2 ∧ requestMap r3 = requestMap r2).
  { revert Er. unfold optional_command, blocking. destruct (re_rep e) as [fs|].
    - destruct (rep_command e fs r2) as [r3'|] eqn:E; [|done]. intros [= ->].
      by eapply rep_command_map.
    - by intros [= <-]. }
  destruct H3 as [Hp3 Hm3]. unfold poll_responses. rewrite Hp3.
  assert (Hin : ∀ s, s ∈ rm_pollItems r2 → s ∈ re_reqSocket e :: rm_pollItems r).
  { intros s Hs. eapply sublist_subseteq in Hs; [|exact Hk2]. set_solver. }
  edestruct (process_responses_aligned) as (r4 & -> & Ha4); cycle -1.
  - cbn [outcome_bind]. split; [done|]. by intros ? ? ? [= <- <- <-].
  - rewrite Hm3, !app_nil_r. exact Ha2.
  - eapply sublist_NoDup; [|apply fmap_sublist, Hk2].
    rewrite (Permutation_app_comm (rm_pollItems r)). exact Hfu.
  - intros s Hs. rewrite !app_nil_r. intros Hs'. by apply (Hff s); apply Hin.
Qed.

(** C24. The request manager keeps one poll item for every pending request, and the details
    of every request: from its start, whatever the node, the clients of future responses
    and the services send and whenever, no turn dereferences a request that is not
    there, and the poll items behind the two fixed ones stay the sockets of the requests. *)
Theorem request_manager_never_crashes r (Hr : reachable r) :
  aligned r ∧ ∀ e, fresh_sockets e r → request_turn e r ≠ Crash.
Proof.
  assert (Ha : aligned r).
  { induction Hr as [|e r r' running t _ IH Hf He].
    - split; [apply NoDup_nil_2| |done]. intros s. cbn. rewrite lookup_empty.
      split; [by intros ?%not_elem_of_nil|by intros [? ?]].
    - by apply (request_turn_aligned e r IH Hf) in He. }
  split; [done|]. intros e Hf. by apply request_turn_aligned.
Qed.

(** ** A request and its answer *)

Lemma request_answered `{!ProtobufLaw GravityDataProductPB}
    (provide : Z → string → GravityDataProduct → GravityDataProduct) (q : NewRequest)
    (sock now future : Z) r (ss : Z) (details : ServiceDetails) (s : ServiceManager)
    (Hd : serviceMapBySocket s !! ss = Some details)
    (Hf : ∀ g, isFutureResponse (provide (svc_server details) (svc_serviceID details) g) = false) :
  let T := registered_time (svc_serviceID details) s in
  let sent := setRegistrationTime (nr_regTime q) (GravityDataProduct_from_bytes (nr_dataProduct q)) in
  let answer :=
    if decide (nr_regTime q ≠ 0%Z ∧ nr_regTime q ≠ T)
    then new_GravityDataProduct (svc_serviceID details)
    else provide (svc_server details) (svc_serviceID details) sent in
  let response := setRegistrationTime T
    (setDomain (sm_domain s) (setComponentId (sm_componentID s) answer)) in
  let asked := processRequest sock now q r in
  ∃ s' r',
    rm_out asked = rm_out r ++ [SentRequest sock (nr_url q) (serializeToArray sent)] ∧
    service_message provide ss (serializeToArray sent) s = Some s' ∧
    sm_responses s' = sm_responses s ++ [(ss, serializeToArray response)] ∧
    process_response sock future (serializeToArray response) asked = Done (r', []) ∧
    requestMap r' !! sock = None ∧
    rm_out r' = rm_out asked ++
      (if decide (nr_regTime q = T)
       then [RequestFilled (nr_requestor q) (nr_serviceID q) (nr_requestID q) response]
       else if (0 <? T)%Z then
         rm_out (notifyServiceDirectoryOfStaleEntry (nr_serviceID q) (nr_url q) (nr_regTime q)
           (asked <| rm_out := [] |>))
       else []).
Proof.
  intros T sent answer response asked.
  assert (Hparse : ∀ g, GravityDataProduct_from_bytes (serializeToArray g) = g).
  { intros g. unfold GravityDataProduct_from_bytes, serializeToArray. by rewrite parse_serialize. }
  assert (Hresp : isFutureResponse response = false).
  { unfold response, answer. goal_decide; [done|]. apply (Hf sent). }
  do 2 eexists. split; [done|]. split.
  { unfold service_message. rewrite Hd, Hparse. done. }
  split; [done|]. unfold process_response. rewrite Hparse, Hresp.
  assert (idx None sock (requestMap asked) = Some (mkRequestDetails (nr_serviceID q)
    (nr_requestID q) (if (0 <? nr_timeout_milliseconds q)%Z
      then (now / 1000 + nr_timeout_milliseconds q)%Z else (-1)%Z) (nr_requestor q)
    (nr_regTime q) (nr_url q))) as ->.
  { unfold idx, asked, processRequest. cbn. unfold update. cbn. by rewrite lookup_insert_eq. }
  split; [done|]. split; [apply lookup_delete_eq|].
  cbn [rd_registrationTime rd_serviceID rd_requestID rd_requestor rd_url].
  change (getRegistrationTime response) with T.
  destruct (decide (nr_regTime q = T)) as [<-|Hne].
  - by rewrite decide_False by tauto.
  - rewrite decide_True by done. destruct (0 <? T)%Z; [done|]. cbn. unfold update. cbn.
    by rewrite app_nil_r.
Qed.

(** C25. A request, sent by one request manager to a service of another node, is answered as
    the registration times say.  The service is asked unless the request carries a
    registration time that is not the service's; the answer always carries the service's.
    The requestor gets it, once, exactly when that is the time it asked for: for a stale
    time it gets nothing, and the directory is told that the entry is stale.  A request
    without a registration time (0) runs the service, and its answer is dropped too. *)
Theorem request_answered_by_registration_time `{!ProtobufLaw GravityDataProductPB}
    (provide : Z → string → GravityDataProduct → GravityDataProduct) (q : NewRequest)
    (sock now future : Z) r (ss : Z) (details : ServiceDetails) (s : ServiceManager)
    (Hd : serviceMapBySocket s !! ss = Some details)
    (Hf : ∀ g, isFutureResponse (provide (svc_server details) (svc_serviceID details) g) = false) :
  let T := registered_time (svc_serviceID details) s in
  let sent := setRegistrationTime (nr_regTime q) (GravityDataProduct_from_bytes (nr_dataProduct q)) in
  let answer :=
    if decide (nr_regTime q ≠ 0%Z ∧ nr_regTime q ≠ T)
    then new_GravityDataProduct (svc_serviceID details)
    else provide (svc_server details) (svc_serviceID details) sent in
  let response := setRegistrationTime T
    (setDomain (sm_domain s) (setComponentId (sm_componentID s) answer)) in
  let asked := processRequest sock now q r in
  ∃ s' r',
    rm_out asked = rm_out r ++ [SentRequest sock (nr_url q) (serializeToArray sent)] ∧
    service_message provide ss (serializeToArray sent) s = Some s' ∧
    sm_responses s' = sm_responses s ++ [(ss, serializeToArray response)] ∧
    process_response sock future (serializeToArray response) asked = Done (r', []) ∧
    requestMap r' !! sock = None ∧
    rm_out r' = rm_out asked ++
      (if decide (nr_regTime q = T)
       then [RequestFilled (nr_requestor q) (nr_serviceID q) (nr_requestID q) response]
       else if (0 <? T)%Z then
         rm_out (notifyServiceDirectoryOfStaleEntry (nr_serviceID q) (nr_url q) (nr_regTime q)
           (asked <| rm_out := [] |>))
       else []).
Proof. by apply request_answered. Qed.

(** A component that answers a future response at a url the request manager does not
    know of, as after the response was sent once, gets no return code: its call waits for
    ever.  An answer at a known url gets exactly one return code, whatever the poll of the
    requesting socket gave, and the url is forgotten. *)
Theorem future_response_answered (url bytes : string) (poll : PollResult) r :
  match futureResponseUrlToSocketMap r !! url with
  | None => sendFutureResponse url bytes poll r = r
  | Some socket =>
      let r' := sendFutureResponse url bytes poll r in
      futureResponseUrlToSocketMap r' = delete url (futureResponseUrlToSocketMap r) ∧
      rm_out r' = rm_out r ++
        match poll with
        | PollInterrupted => [NodeAnswer (sendIntMessage (GravityReturnCodes.code GravityReturnCodes.INTERRUPTED))]
        | PollTimeout => [NodeAnswer (sendIntMessage (GravityReturnCodes.code GravityReturnCodes.REQUEST_TIMEOUT))]
        | PollReady => [FutureAnswer socket (serializeToArray (GravityDataProduct_from_bytes bytes));
                        NodeAnswer (sendIntMessage (GravityReturnCodes.code GravityReturnCodes.SUCCESS))]
        end
  end.
Proof.
  unfold sendFutureResponse. destruct (futureResponseUrlToSocketMap r !! url); [|done].
  destruct poll; (split; [done|]); try done. cbn. unfold update. cbn. by rewrite <- app_assoc.
Qed.
End proofs.

(** ** Concrete runs *)

Section witnesses.
#[local] Instance demo_request_codec : Protobuf GravityDataProductPB :=
  countable_protobuf empty_GravityDataProductPB "".
#[local] Instance demo_request_law : ProtobufLaw GravityDataProductPB := countable_protobuf_law _ _.
#[local] Instance demo_notice_codec : Protobuf ServiceDirectoryUnregistrationPB :=
  constant_protobuf (mkServiceDirectoryUnregistrationPB None None None None None).

(** A request that times out [ms] milliseconds after 1970. *)
Definition demo_request (ms : Z) : RequestDetails := mkRequestDetails "S" "R" ms 7 3 "tcp://s:1".

(** Requests on the sockets 10, 11 and 12; the one on 11 was made last. *)
Definition demo_requests (t10 t11 t12 : Z) : RequestManager :=
  mkRequestManager
    (<[10%Z := Some (demo_request t10)]> (<[11%Z := Some (demo_request t11)]>
      (<[12%Z := Some (demo_request t12)]> ∅)))
    [10; 12; 11]%Z ∅ "tcp://sd:1" [].

Lemma demo_requests_aligned t10 t11 t12 : aligned (demo_requests t10 t11 t12).
Proof.
  split; cbn.
  - apply (bool_decide_unpack _). by vm_compute.
  - intros s. rewrite !lookup_insert_is_Some', !elem_of_cons.
    rewrite lookup_empty, is_Some_alt. pose proof (not_elem_of_nil s). cbn. naive_solver.
  - intros s. rewrite !lookup_insert_Some, lookup_empty. naive_solver.
Qed.

(** At 20 ms, the requests on 10 and 12 have expired, then that on 11 alone. *)
Example expire_requests_spec_witness :
  aligned (demo_requests 5 50 9) ∧
  (∃ r' n, expire_requests (λ _, 20000%Z) (demo_requests 5 50 9) = Done (r', n) ∧
    rm_out r' = [RequestTimeout 7 "S" "R"; RequestTimeout 7 "S" "R"] ∧
    [10; 12; 11]%Z = [10; 12]%Z ++ rm_pollItems r') ∧
  expire_requests (λ _, 20000%Z) (demo_requests 50 9 50) = Hang.
Proof.
  split; [exact (demo_requests_aligned 5 50 9)|]. split.
  - destruct (proj1 (expire_requests_spec (λ _, 20000%Z) _ (demo_requests_aligned 5 50 9)))
      as (r' & n & E & Ho & Hi & _).
    { exists [11%Z]. by vm_compute. }
    exists r', n. split; [exact E|]. split; [exact Ho|exact Hi].
  - apply (proj2 (expire_requests_spec (λ _, 20000%Z) _ (demo_requests_aligned 50 9 50))).
    apply (bool_decide_unpack _). by vm_compute.
Defined.

(** 20 seconds after 1970, with 30 ms left on 10 and 5 ms left on 11, the poll waits 30 ms. *)
Example poll_waits_for_first_socket_witness :
  ∃ r', expire_requests (λ _, 20000000%Z) (demo_requests 20030 20005 0) = Done (r', 30%Z).
Proof.
  destruct (poll_waits_for_first_socket (λ _, 20000000%Z) _ (demo_requests_aligned 20030 20005 0))
    as [r' E].
  - exists [10; 12; 11]%Z. by vm_compute.
  - intros e e' k He _ Hk. change (k ≤ 20000)%Z.
    replace (kv_items (requestMap (demo_requests 20030 20005 0))) with
      [(10%Z, Some (demo_request 20030)); (11%Z, Some (demo_request 20005));
       (12%Z, Some (demo_request 0))] in He by (vm_compute; reflexivity).
    rewrite !elem_of_cons in He. destruct He as [->|[->|[->|[]%not_elem_of_nil]]];
      vm_compute in Hk; first [discriminate|injection Hk as <-; lia].
  - exists r'. exact E.
Defined.

Definition demo_turn (command : list frame) : RequestEvents :=
  mkRequestEvents (λ _, 0%Z) None (Some command) None (λ _, None) 0 1 (λ s, s + 100)%Z (λ _, true) 200
    PollTimeout.

Definition demo_command : list frame :=
  ["request"; "S"; "tcp://s:1"; "R"; sendIntMessage (-1); sendUint32Message 3; ""; le_bytes 8 7].

(** A request arrives, then the manager is told to stop. *)
Example request_manager_never_crashes_witness :
  ∃ r1 t, request_turn (demo_turn demo_command) initial_RequestManager = Done (r1, true, t) ∧
    rm_pollItems r1 = [1%Z] ∧ aligned r1.
Proof.
  destruct (request_turn (demo_turn demo_command) initial_RequestManager) as [[[r1 b] t]| |] eqn:E;
    [|vm_compute in E; discriminate..].
  assert (Hb : b = true) by (vm_compute in E; congruence). subst b.
  exists r1, t. split; [exact eq_refl|]. split; [vm_compute in E; injection E as <- _; reflexivity|].
  apply (request_manager_never_crashes r1).
  apply (reachable_turn (demo_turn demo_command) initial_RequestManager r1 true t);
    [apply reachable_initial| |exact E].
  split; [|split]; [apply (bool_decide_unpack _); by vm_compute..|].
  intros s Hs. cbn in Hs. apply list_elem_of_singleton in Hs as ->.
  apply (bool_decide_unpack _). by vm_compute.
Defined.

Definition demo_service : ServiceManager :=
  mkServiceManager (<[5%Z := mkServiceDetails "S" "tcp://s:1" 5 9]> ∅)
    (<["S" := mkServiceDetails "S" "tcp://s:1" 5 9]> ∅) (<["S" := 3%Z]> ∅) [5%Z] "D" "C" [] [].

(** The service answers with what it was sent; the request names the service's time, 3. *)
Example request_answered_by_registration_time_witness :
  ∃ r', requestMap r' !! 1%Z = None ∧
    rm_out r' = rm_out (processRequest 1 0 (mkNewRequest "S" "tcp://s:1" "R" (-1) 3 "" 7)
      initial_RequestManager) ++
      [RequestFilled 7 "S" "R" (setRegistrationTime 3 (setDomain "D" (setComponentId "C"
        (new_GravityDataProduct "S"))))].
Proof.
  destruct (request_answered_by_registration_time (λ _ id _, new_GravityDataProduct id)
    (mkNewRequest "S" "tcp://s:1" "R" (-1) 3 "" 7) 1 0 2 initial_RequestManager 5
    (mkServiceDetails "S" "tcp://s:1" 5 9) demo_service) as (s' & r' & _ & _ & _ & _ & Hm & Ho).
  - exact eq_refl.
  - intros g. exact eq_refl.
  - exists r'. split; [exact Hm|]. exact Ho.
Defined.
End witnesses.
