(* ===== verification/GravityHeartbeat.v ===== *)
(** * Heartbeats: the thread that sends them and the thread that listens
    (src/src/api/cpp/GravityHeartbeat.cpp, GravityHeartbeat.h)

    The listening thread keeps its elements in [queueElements], which only grows, and pointers
    to them in the priority queue [messageTimes]: here positions in the list.  A turn of its
    loop checks the element that is due first and reads at most one message of the node; the
    subscriber, in another thread, only adds to [filledHeartbeats] under the lock that the
    check holds too, so that its calls fall between turns.  A listener gets the interval by
    reference: what it makes of it is the parameter [set_interval]. *)

From S2P Require Import Prelude.
From S2P Require Import Messages.
From S2P Require Import CommUtil.
From S2P Require Import Utility.
From S2P Require Import GravityDataProduct.
#[local] Open Scope gravity_scope.
#[local] Open Scope Z_scope.

(** ** The listening thread *)

(** Times in microseconds; the member [socket] is never used. *)
Record ExpectedMessageQueueElement := mkExpectedMessageQueueElement {
  em_expectedTime : Z;
  em_lastHeartbeatTime : Z;
  em_timetowaitBetweenHeartbeats : Z;
  em_dataproductID : string;
}.
#[export] Instance eta_ExpectedMessageQueueElement : Eta ExpectedMessageQueueElement := λ e,
  mkExpectedMessageQueueElement (em_expectedTime e) (em_lastHeartbeatTime e)
    (em_timetowaitBetweenHeartbeats e) (em_dataproductID e).

Inductive HeartbeatOutput :=
| MissedHeartbeat (listener : Z) (componentID : string) (since interval : Z)
| ReceivedHeartbeat (listener : Z) (componentID : string) (interval : Z)
| HeartbeatSleep (milliseconds : Z)
| HeartbeatAnswer (f : frame).

Record HeartbeatListener := mkHeartbeatListener {
  hl_queueElements : list ExpectedMessageQueueElement;
  hl_messageTimes : list nat;
  hl_listener : gmap string Z;
  hl_filledHeartbeats : gset string;
  (* what the coming calls of [getCurrentTime] return *)
  hl_clock : nat → Z;
  hl_outputs : list HeartbeatOutput;
}.
#[export] Instance eta_HeartbeatListener : Eta HeartbeatListener := λ s,
  mkHeartbeatListener (hl_queueElements s) (hl_messageTimes s) (hl_listener s)
    (hl_filledHeartbeats s) (hl_clock s) (hl_outputs s).

Definition initial_HeartbeatListener (clock : nat → Z) : HeartbeatListener :=
  mkHeartbeatListener [] [] ∅ ∅ clock [].

Implicit Types s : HeartbeatListener.

Definition hl_now s : Z := hl_clock s 0%nat.
Definition hl_tick s : HeartbeatListener := s <| hl_clock ::= λ c n, c (S n) |>.
Definition hl_output (o : HeartbeatOutput) s : HeartbeatListener :=
  s <| hl_outputs ::= λ l, l ++ [o] |>.

(** The object behind a pointer of the queue. *)
Definition element s (a : nat) : ExpectedMessageQueueElement :=
  default (mkExpectedMessageQueueElement 0 0 0 "") (hl_queueElements s !! a).
Definition update_element (a : nat)
    (f : ExpectedMessageQueueElement → ExpectedMessageQueueElement) s : HeartbeatListener :=
  s <| hl_queueElements ::= alter f a |>.

(** [subscriptionFilled] *)
Definition fill_heartbeat (dataProducts : list GravityDataProduct) s : HeartbeatListener :=
  s <| hl_filledHeartbeats ::= λ X, list_to_set (getDataProductID <$> dataProducts) ∪ X |>.

(** [messageTimes.push]: the list is kept in the order in which the priority queue gives the
    pointers back.  (Which of two equal times comes first is not determined; here, the one
    that was pushed first.) *)
Fixpoint push_time (time : nat → Z) (a : nat) (q : list nat) : list nat :=
  match q with
  | [] => [a]
  | b :: q => if time a <? time b then a :: b :: q else b :: push_time time a q
  end.

Definition expected s (a : nat) : Z := em_expectedTime (element s a).

Definition push_element (a : nat) s : HeartbeatListener :=
  s <| hl_messageTimes ::= push_time (expected s) a |>.

(** [rfind], and the component of a heartbeat's data product. *)
Fixpoint rfind (pat s : string) : option nat :=
  match s with
  | EmptyString => if String.prefix pat s then Some 0%nat else None
  | String _ s' =>
      match rfind pat s' with
      | Some i => Some (S i)
      | None => if String.prefix pat s then Some 0%nat else None
      end
  end.

Definition component_of (dataproductID : string) : string :=
  match rfind "_GravityHeartbeat" dataproductID with
  | Some i => str_take i dataproductID
  | None => dataproductID
  end.

Section listening.
Variable set_interval : Z → string → Z → Z.

(** The listener of the element's data product is called, if it still has one. *)
Definition call_listener (a : nat) (gotHeartbeat : bool) s : HeartbeatListener :=
  let e := element s a in
  let componentId := component_of (em_dataproductID e) in
  let interval := em_timetowaitBetweenHeartbeats e in
  match hl_listener s !! em_dataproductID e with
  | None => s
  | Some l =>
      let set := λ e,
        e <| em_timetowaitBetweenHeartbeats := set_interval l componentId interval |> in
      if gotHeartbeat then
        let s := update_element a set (hl_output (ReceivedHeartbeat l componentId interval) s) in
        update_element a (λ e, e <| em_lastHeartbeatTime := hl_now s |>) (hl_tick s)
      else
        let last := em_lastHeartbeatTime e in
        let '(diff, s) :=
          if decide (last = 0) then (-1, s) else (s64 (hl_now s - last), hl_tick s) in
        update_element a set (hl_output (MissedHeartbeat l componentId diff interval) s)
  end.

(** The element on top when its time has come. *)
Definition check_heartbeat (a : nat) (rest : list nat) s : HeartbeatListener :=
  let id := em_dataproductID (element s a) in
  let gotHeartbeat := bool_decide (id ∈ hl_filledHeartbeats s) in
  let s := s <| hl_filledHeartbeats ::= λ X, X ∖ {[id]} |> in
  let s := (call_listener a gotHeartbeat s) <| hl_messageTimes := rest |> in
  let now := hl_now s in
  let s := update_element a
    (λ e, e <| em_expectedTime := u64 (now + em_timetowaitBetweenHeartbeats e) |>) (hl_tick s) in
  push_element a s.

Definition process_messages s : HeartbeatListener :=
  match hl_messageTimes s with
  | [] => s
  | a :: rest =>
      let now := hl_now s in
      let s := hl_tick s in
      if now <? expected s a then hl_output (HeartbeatSleep 100) s else check_heartbeat a rest s
  end.

(** *** Messages of the node *)

Definition read_register_listener : reader (string * Z * Z) :=
  (dataproductID <~ readStringMessage ;; p <~ readUint64Message ;; maxtime <~ readBytes 8 s64 ;;
   read_ret (dataproductID, p, maxtime)).

Definition register_listener (dataproductID : string) (p maxtime : Z) s : HeartbeatListener :=
  let s := s <| hl_listener ::= insert dataproductID p |> in
  let mqe1 := mkExpectedMessageQueueElement (u64 (hl_now s + maxtime)) 0 maxtime dataproductID in
  let a := length (hl_queueElements s) in
  push_element a ((hl_tick s) <| hl_queueElements ::= λ l, l ++ [mqe1] |>).

(** The queue is rebuilt without the elements of the data product. *)
Definition unregister_listener (dataproductID : string) s : HeartbeatListener :=
  let s := s <| hl_listener ::= delete dataproductID |> in
  s <| hl_messageTimes ::= foldl (λ tempQueue a,
    if decide (em_dataproductID (element s a) ≠ dataproductID)
    then push_time (expected s) a tempQueue else tempQueue) [] |>.

(** A command; [false] for the end of the thread, which sends no answer. *)
Definition listener_command (frames : list frame) s : option (HeartbeatListener * bool) :=
  '(command, frames) ← readStringMessage frames;
  if decide (command = "kill") then Some (s, false)
  else
    s ←
      (if decide (command = "register") then
         '(dataproductID, p, maxtime, _) ← read_register_listener frames;
         Some (register_listener dataproductID p maxtime s)
       else if decide (command = "unregister") then
         '(dataproductID, _) ← readStringMessage frames;
         Some (unregister_listener dataproductID s)
       else Some s);
    Some (hl_output (HeartbeatAnswer (sendStringMessage "ACK")) s, true).

(** What the receive that does not wait gives. *)
Inductive ReceiveOutcome :=
| ReceiveAgain
| ReceiveError
| ReceiveMessage (frames : list frame).

Definition listener_turn (r : ReceiveOutcome) s : option (HeartbeatListener * bool) :=
  let s := process_messages s in
  match r with
  | ReceiveAgain => Some (s, true)
  | ReceiveError => Some (s, false)
  | ReceiveMessage frames => listener_command frames s
  end.
End listening.

(** ** The threads that send heartbeats *)

Record HBParams := mkHBParams {
  hb_interval_in_microseconds : Z;
  hb_componentID : string;
  hb_minPort : Z;
  hb_maxPort : Z;
  hb_endpoint : string;
  hb_registrationTime : Z;
}.

(** The text with its final zero. *)
Definition heartbeat_data : string := "Good" +:+ String (Ascii.ascii_of_nat 0) EmptyString.

(** The message to the publish manager. *)
Definition heartbeat_product (params : HBParams) (now : Z) : GravityDataProduct :=
  setRegistrationTime (hb_registrationTime params) (setTimestamp now
    (setData_bytes heartbeat_data (new_GravityDataProduct (hb_componentID params)))).

Definition heartbeat_frames `{Protobuf GravityDataProductPB} (params : HBParams) (now : Z)
    : list frame :=
  let gdp := heartbeat_product params now in
  [sendStringMessage "publish"; sendStringMessage (getDataProductID gdp);
   sendUint64Message (getGravityTimestamp gdp); sendStringMessage "";
   serializeToArray gdp].

(** The [timespec] of the sleep that follows. *)
Definition heartbeat_sleep (params : HBParams) : Z * Z :=
  (hb_interval_in_microseconds params / 1000000,
   (hb_interval_in_microseconds params mod 1000000) * 1000).

(** Where a thread is: before [setHeartbeatRunning(true)], in its loop, or at its end. *)
Inductive HeartbeatThread := Starting (params : HBParams) | Looping (params : HBParams) | Ended.

(** All heartbeat threads of a process, which share one flag. *)
Record Heartbeats := mkHeartbeats {
  heartbeatRunning : bool;
  hb_threads : list HeartbeatThread;
}.

(** One step of a process: a node starts a thread, a node clears the flag, or a thread moves:
    it sets the flag, publishes because the flag is set, or ends because it is not.  The
    label is the component for which a heartbeat is published. *)
Inductive heartbeat_step : Heartbeats → option string → Heartbeats → Prop :=
| step_start params h ts :
    heartbeat_step (mkHeartbeats h ts) None (mkHeartbeats h (ts ++ [Starting params]))
| step_stop h ts : heartbeat_step (mkHeartbeats h ts) None (mkHeartbeats false ts)
| step_running params h ts i :
    ts !! i = Some (Starting params) →
    heartbeat_step (mkHeartbeats h ts) None (mkHeartbeats true (<[i := Looping params]> ts))
| step_publish params ts i :
    ts !! i = Some (Looping params) →
    heartbeat_step (mkHeartbeats true ts) (Some (hb_componentID params)) (mkHeartbeats true ts)
| step_end params ts i :
    ts !! i = Some (Looping params) →
    heartbeat_step (mkHeartbeats false ts) None (mkHeartbeats false (<[i := Ended]> ts)).
