(* ===== verification/GravityHeartbeatProofs.v ===== *)
(** * Heartbeats: the queue, what is called when, and what restarts do *)

From stdpp Require Import sorting.
From S2P Require Import Prelude.
From S2P Require Import Messages.
From S2P Require Import CommUtil.
From S2P Require Import Utility.
From S2P Require Import GravityDataProduct.
From S2P Require Import GravityMetrics.
From S2P Require Import GravityPublishManager.
From S2P Require Import GravityHeartbeat.
#[local] Open Scope gravity_scope.
#[local] Open Scope Z_scope.

Implicit Types s : HeartbeatListener.

(** ** Names *)

Lemma str_prefix_refl p : String.prefix p p = true.
Proof. induction p as [|c p IH]; [done|]. cbn. by destruct (Ascii.ascii_dec c c). Qed.

Lemma rfind_suffix p c : p ≠ "" → rfind p p = Some 0%nat → rfind p (c +:+ p) = Some (String.length c).
Proof. intros _ E. induction c as [|a c IH]; [done|].
  change (String a c +:+ p) with (String a (c +:+ p)). cbn [rfind]. by rewrite IH.
Qed.

(** The component in the name of a heartbeat. *)
Lemma component_of_heartbeat c : component_of (c +:+ "_GravityHeartbeat") = c.
Proof. unfold component_of. rewrite rfind_suffix by done. apply str_take_app. Qed.

(** ** The queue *)

Section queue.
Variable time : nat → Z.

Lemma push_time_perm a q : push_time time a q ≡ₚ a :: q.
Proof.
  induction q as [|b q IH]; [done|]. cbn. destruct (_ <? _); [done|]. rewrite IH. by constructor.
Qed.

Definition by_time (a b : nat) : Prop := time a <= time b.

Lemma push_time_sorted a q : StronglySorted by_time q → StronglySorted by_time (push_time time a q).
Proof.
  induction 1 as [|b q Hs IH Hb]; cbn; [by repeat constructor|]. destruct (Z.ltb_spec (time a) (time b)).
  - constructor; [by constructor|]. constructor; [unfold by_time; lia|].
    eapply Forall_impl; [exact Hb|]. unfold by_time. cbn. lia.
  - constructor; [done|]. rewrite push_time_perm. by constructor.
Qed.

Lemma push_time_last a q : Forall (λ b, by_time b a) q → push_time time a q = q ++ [a].
Proof.
  induction 1 as [|b q Hb Hq IH]; [done|]. cbn. unfold by_time in Hb.
  destruct (Z.ltb_spec (time a) (time b)); [lia|]. by rewrite IH.
Qed.

Lemma foldl_push (P : nat → Prop) `{∀ a, Decision (P a)} q q0 :
  StronglySorted by_time (q0 ++ q) →
  foldl (λ q a, if decide (P a) then push_time time a q else q) q0 q = q0 ++ base.filter P q.
Proof.
  revert q0. induction q as [|a q IH]; intros q0 Hs; cbn [foldl]; [by rewrite app_nil_r|].
  rewrite filter_cons. destruct (decide (P a)).
  - rewrite push_time_last; [rewrite IH; by rewrite <- app_assoc|].
    apply Forall_forall. intros b Hb.
    apply (StronglySorted_app_1_elem_of _ _ _ _ _ Hs); [done|left].
  - apply IH. apply StronglySorted_app in Hs as (Hc & ? & Hs). inversion Hs; subst.
    apply StronglySorted_app. split_and!; [|done..]. intros x y Hx Hy. apply Hc; [done|by right].
Qed.

Lemma filter_push (P : nat → Prop) `{∀ a, Decision (P a)} a q :
  ¬ P a → base.filter P (push_time time a q) = base.filter P q.
Proof.
  intros Ha. induction q as [|b q IH]; cbn [push_time].
  - by rewrite filter_cons_False.
  - destruct (_ <? _); rewrite ?filter_cons, ?IH; [|done]. by rewrite (decide_False (P := P a)).
Qed.
End queue.

Lemma sorted_ext (time time' : nat → Z) q :
  (∀ a, a ∈ q → time' a = time a) →
  StronglySorted (by_time time) q → StronglySorted (by_time time') q.
Proof.
  intros E. induction 1 as [|a q Hs IH Ha]; constructor.
  - apply IH. intros b Hb. apply E. by right.
  - apply Forall_forall. intros b Hb. rewrite Forall_forall in Ha. unfold by_time.
    rewrite !E by (by left || by right). by apply Ha.
Qed.

(** The queue is sorted, holds no pointer twice and no dangling one, and a data product has a
    listener exactly while it has an element in the queue. *)
Record queue_ok s : Prop := {
  q_sorted : StronglySorted (by_time (expected s)) (hl_messageTimes s);
  q_nodup : NoDup (hl_messageTimes s);
  q_range : ∀ a, a ∈ hl_messageTimes s → (a < length (hl_queueElements s))%nat;
  q_listener : ∀ id, is_Some (hl_listener s !! id) ↔
    ∃ a, a ∈ hl_messageTimes s ∧ em_dataproductID (element s a) = id;
}.

Lemma queue_ok_ext s s' :
  hl_queueElements s' = hl_queueElements s → hl_messageTimes s' = hl_messageTimes s →
  hl_listener s' = hl_listener s → queue_ok s → queue_ok s'.
Proof.
  intros E1 E2 E3 [K1 K2 K3 K4]. split; unfold expected, element in *; rewrite ?E1, ?E2, ?E3; done.
Qed.

Lemma element_update a b f s :
  (a < length (hl_queueElements s))%nat →
  element (update_element a f s) b = if decide (a = b) then f (element s b) else element s b.
Proof.
  intros Ha. unfold element. cbn. case_decide as E.
  - subst. rewrite list_lookup_alter_eq. destruct (_ !! b) eqn:Eb; [done|].
    apply lookup_ge_None_1 in Eb. lia.
  - by rewrite list_lookup_alter_ne.
Qed.

(** What changes between [s] and [s'] is at most the element [a], except for its data product
    and (where the second relation holds) the time it is expected at. *)
Record only_element (a : nat) s s' : Prop := {
  oe_length : length (hl_queueElements s') = length (hl_queueElements s);
  oe_other : ∀ b, b ≠ a → element s' b = element s b;
  oe_id : em_dataproductID (element s' a) = em_dataproductID (element s a);
  oe_queue : hl_messageTimes s' = hl_messageTimes s;
  oe_listener : hl_listener s' = hl_listener s;
}.

Lemma only_element_trans a s1 s2 s3 :
  only_element a s1 s2 → only_element a s2 s3 → only_element a s1 s3.
Proof.
  intros [L1 O1 I1 Q1 K1] [L2 O2 I2 Q2 K2]. split; try congruence.
  intros b Hb. by rewrite O2, O1.
Qed.

Lemma only_element_update a f s s1 :
  (a < length (hl_queueElements s))%nat →
  (∀ e, em_dataproductID (f e) = em_dataproductID e) →
  hl_queueElements s1 = hl_queueElements s → hl_messageTimes s1 = hl_messageTimes s →
  hl_listener s1 = hl_listener s → only_element a s (update_element a f s1).
Proof.
  intros Ha Hf E1 E2 E3.
  assert (Ee : ∀ b, element s1 b = element s b) by (intros b; unfold element; by rewrite E1).
  assert (Ha1 : (a < length (hl_queueElements s1))%nat) by by rewrite E1.
  split; [cbn; by rewrite length_alter, E1| | |done|done].
  - intros b Hb. by rewrite element_update, decide_False.
  - rewrite element_update, decide_True by done. by rewrite Hf, Ee.
Qed.

Section listening.
Variable set_interval : Z → string → Z → Z.

Abbreviation call_listener := (call_listener set_interval).
Abbreviation check_heartbeat := (check_heartbeat set_interval).
Abbreviation process_messages := (process_messages set_interval).

(** What the listener of an element is told, when it has one. *)
Definition listener_call (now : Z) s (a : nat) : list HeartbeatOutput :=
  let e := element s a in
  let id := em_dataproductID e in
  let interval := em_timetowaitBetweenHeartbeats e in
  match hl_listener s !! id with
  | None => []
  | Some l =>
      if decide (id ∈ hl_filledHeartbeats s) then [ReceivedHeartbeat l (component_of id) interval]
      else [MissedHeartbeat l (component_of id)
        (if decide (em_lastHeartbeatTime e = 0) then -1 else s64 (now - em_lastHeartbeatTime e))
        interval]
  end.

(** The interval after the call. *)
Definition next_interval s (a : nat) : Z :=
  let e := element s a in
  match hl_listener s !! em_dataproductID e with
  | None => em_timetowaitBetweenHeartbeats e
  | Some l => set_interval l (component_of (em_dataproductID e)) (em_timetowaitBetweenHeartbeats e)
  end.

Abbreviation stands now s := (∀ n, hl_clock s n = now).

Lemma call_listener_spec now a s (X : gset string) :
  (a < length (hl_queueElements s))%nat →
  let got := bool_decide (em_dataproductID (element s a) ∈ hl_filledHeartbeats s) in
  let s' := call_listener a got (s <| hl_filledHeartbeats := X |>) in
  only_element a s s' ∧ expected s' a = expected s a ∧ hl_filledHeartbeats s' = X ∧
  em_timetowaitBetweenHeartbeats (element s' a) = next_interval s a ∧
  (stands now s → stands now s' ∧ hl_outputs s' = hl_outputs s ++ listener_call now s a).
Proof.
  intros Ha got. subst got. rewrite bool_decide_decide.
  unfold GravityHeartbeat.call_listener, listener_call, next_interval, expected.
  cbn zeta. change (element (s <| hl_filledHeartbeats := X |>)) with (element s).
  change (hl_listener (s <| hl_filledHeartbeats := X |>)) with (hl_listener s).
  set (e := element s a). destruct (hl_listener s !! em_dataproductID e) as [l|] eqn:El.
  2:{ by rewrite app_nil_r. }
  destruct (decide (em_dataproductID e ∈ hl_filledHeartbeats s)).
  - set (f := λ e, e <| em_timetowaitBetweenHeartbeats := _ |>).
    set (s1 := update_element a f _).
    assert (Ha1 : (a < length (hl_queueElements (hl_tick s1)))%nat) by by (cbn; rewrite length_alter).
    split_and!; try done.
    + apply only_element_trans with s1; [by apply only_element_update|].
      by apply (only_element_update a _ s1 (hl_tick s1)).
    + rewrite element_update, decide_True by done. cbn.
      change (element (hl_tick s1)) with (element s1). unfold s1. by rewrite element_update, decide_True.
    + rewrite element_update, decide_True by done. cbn.
      change (element (hl_tick s1)) with (element s1). unfold s1. by rewrite element_update, decide_True.
    + intros Hc. split; [intros k; apply Hc|done].
  - destruct (decide (em_lastHeartbeatTime e = 0));
      (split_and!; [by apply only_element_update|by rewrite element_update, decide_True|done|
        by rewrite element_update, decide_True|]);
      intros Hc; (split; [intros k; apply Hc|]); [done|]. cbn. unfold hl_now. cbn. by rewrite Hc.
Qed.

Lemma check_heartbeat_spec now a rest s :
  (a < length (hl_queueElements s))%nat →
  hl_messageTimes s = a :: rest →
  let s' := check_heartbeat a rest s in
  length (hl_queueElements s') = length (hl_queueElements s) ∧
  (∀ b, b ≠ a → element s' b = element s b) ∧
  em_dataproductID (element s' a) = em_dataproductID (element s a) ∧
  em_timetowaitBetweenHeartbeats (element s' a) = next_interval s a ∧
  hl_messageTimes s' = push_time (expected s') a rest ∧ hl_listener s' = hl_listener s ∧
  (stands now s → stands now s' ∧ expected s' a = u64 (now + next_interval s a) ∧
    hl_outputs s' = hl_outputs s ++ listener_call now s a).
Proof.
  intros Ha Hq. unfold GravityHeartbeat.check_heartbeat. cbv zeta.
  change (s <| hl_filledHeartbeats ::= ?f |>) with (s <| hl_filledHeartbeats := f (hl_filledHeartbeats s) |>).
  destruct (call_listener_spec now a s (hl_filledHeartbeats s ∖ {[em_dataproductID (element s a)]}))
    as ([L1 O1 I1 Q1 K1] & E1 & _ & T1 & C1); [done..|].
  set (s1 := call_listener a _ _) in *. clearbody s1.
  change (hl_now (s1 <| hl_messageTimes := rest |>)) with (hl_now s1).
  set (s2 := hl_tick (s1 <| hl_messageTimes := rest |>)).
  set (f := λ e, e <| em_expectedTime := u64 (hl_now s1 + em_timetowaitBetweenHeartbeats e) |>).
  assert (Ha2 : (a < length (hl_queueElements s2))%nat) by by (cbn; rewrite L1).
  set (s3 := update_element a f s2).
  assert (E3 : ∀ b, element s3 b = if decide (a = b) then f (element s1 b) else element s1 b).
  { intros b. unfold s3. by rewrite element_update. }
  change (element (push_element a s3)) with (element s3).
  change (expected (push_element a s3)) with (expected s3). unfold expected.
  rewrite !E3, !decide_True by done. unfold f. cbn. rewrite T1, length_alter.
  split_and!; try done.
  - intros b Hb. rewrite E3, decide_False by done. by apply O1.
  - intros [C2 U2]%C1. split_and!; [intros k; apply C2| |done]. unfold hl_now. by rewrite C2.
Qed.

Lemma queue_ok_check a rest s :
  queue_ok s → hl_messageTimes s = a :: rest →
  queue_ok (check_heartbeat a rest s).
Proof.
  intros [K1 K2 K3 K4] Hq. rewrite Hq in K1, K2, K3.
  destruct (check_heartbeat_spec 0 a rest s) as (L & O & I & _ & Q & K & _);
    [apply K3; left|done|].
  set (s' := check_heartbeat a rest s) in *. clearbody s'.
  apply NoDup_cons in K2 as [Hna Hnd].
  split; rewrite ?Q, ?L, ?K.
  - apply push_time_sorted. inversion K1; subst. eapply sorted_ext; [|done]. intros b Hb. unfold expected.
    rewrite O; [done|]. by intros ->.
  - rewrite push_time_perm. by constructor.
  - intros b. rewrite push_time_perm. apply K3.
  - intros id. rewrite K4, Hq. setoid_rewrite push_time_perm.
    split; intros (b & Hb & <-); exists b; (split; [done|]); destruct (decide (b = a)) as [->|];
      rewrite ?I, ?O; done.
Qed.

Lemma queue_ok_process s : queue_ok s → queue_ok (process_messages s).
Proof.
  intros K. unfold GravityHeartbeat.process_messages.
  destruct (hl_messageTimes s) as [|a rest] eqn:Eq; [done|]. cbv zeta.
  assert (K1 : queue_ok (hl_tick s)) by by apply (queue_ok_ext s).
  destruct (_ <? _); [by apply (queue_ok_ext s)|by apply queue_ok_check].
Qed.

Lemma queue_ok_register id p t s : queue_ok s → queue_ok (register_listener id p t s).
Proof.
  intros [K1 K2 K3 K4]. unfold register_listener. cbv zeta.
  change (hl_queueElements (s <| hl_listener ::= insert id p |>)) with (hl_queueElements s).
  set (e := mkExpectedMessageQueueElement _ _ _ _). set (a := length (hl_queueElements s)).
  set (s1 := (hl_tick (s <| hl_listener ::= insert id p |>)) <| hl_queueElements ::= λ l, l ++ [e] |>).
  assert (Ea : element s1 a = e).
  { unfold element. cbn. unfold a. by rewrite lookup_app_r, Nat.sub_diag by lia. }
  assert (Eb : ∀ b, b ∈ hl_messageTimes s → element s1 b = element s b).
  { intros b Hb%K3. unfold element. cbn. by rewrite lookup_app_l. }
  assert (Hna : a ∉ hl_messageTimes s) by (intros Hb%K3; unfold a in Hb; lia).
  split.
  - apply push_time_sorted. eapply sorted_ext; [|exact K1]. intros b Hb. unfold expected. by rewrite Eb.
  - cbn. rewrite push_time_perm. by constructor.
  - intros b. cbn. rewrite push_time_perm, length_app, elem_of_cons. cbn. intros [->|Hb%K3]; unfold a; lia.
  - intros id'. cbn. setoid_rewrite push_time_perm. setoid_rewrite elem_of_cons.
    change (element (push_element a s1)) with (element s1). destruct (decide (id' = id)) as [->|Hne].
    + rewrite lookup_insert_eq. split; [|done]. intros _. exists a. rewrite Ea. by split; [left|].
    + rewrite lookup_insert_ne, K4 by done. split.
      * intros (b & Hb & <-). exists b. by rewrite Eb; [split; [right|]|].
      * intros (b & [->|Hb] & E); [by rewrite Ea in E|]. exists b. by rewrite <- Eb.
Qed.

Lemma unregister_queue id s :
  queue_ok s → hl_messageTimes (unregister_listener id s) =
    base.filter (λ a, em_dataproductID (element s a) ≠ id) (hl_messageTimes s).
Proof. intros K. unfold unregister_listener. cbn. by apply (foldl_push _ _ _ []), (q_sorted _ K). Qed.

Lemma sorted_filter (time : nat → Z) (P : nat → Prop) `{∀ a, Decision (P a)} q :
  StronglySorted (by_time time) q → StronglySorted (by_time time) (base.filter P q).
Proof.
  induction 1 as [|a q Hs IH Ha]; [by constructor|]. rewrite filter_cons. case_decide; [|done].
  constructor; [done|]. apply Forall_forall. intros b [_ Hb]%list_elem_of_filter.
  rewrite Forall_forall in Ha. by apply Ha.
Qed.

Lemma queue_ok_unregister id s : queue_ok s → queue_ok (unregister_listener id s).
Proof.
  intros K. pose proof (unregister_queue id s K) as Eq. destruct K as [K1 K2 K3 K4].
  split; rewrite ?Eq.
  - change (expected (unregister_listener id s)) with (expected s). by apply sorted_filter.
  - by apply NoDup_filter.
  - intros a [_ Ha]%list_elem_of_filter. by apply K3.
  - intros id'. change (element (unregister_listener id s)) with (element s). cbn.
    setoid_rewrite list_elem_of_filter. destruct (decide (id' = id)) as [->|Hne].
    + rewrite lookup_delete_eq. split; [by intros []|]. by intros (a & [] & E).
    + rewrite lookup_delete_ne, K4 by done. split; [|naive_solver].
      intros (a & Ha & <-). by exists a.
Qed.

(** The states the listening thread gets to, with heartbeats coming in between its turns. *)
Inductive heartbeat_reachable : HeartbeatListener → Prop :=
| heartbeat_initial clock : heartbeat_reachable (initial_HeartbeatListener clock)
| heartbeat_filled dataProducts s :
    heartbeat_reachable s → heartbeat_reachable (fill_heartbeat dataProducts s)
| heartbeat_turn r s s' b :
    heartbeat_reachable s → listener_turn set_interval r s = Some (s', b) → heartbeat_reachable s'.

Lemma queue_ok_command frames s s' b :
  queue_ok s → listener_command frames s = Some (s', b) → queue_ok s'.
Proof.
  intros K E. unfold listener_command in E. destruct (readStringMessage _) as [[command fs]|]; [|done].
  cbn in E. case_decide; [by injection E as <- <-|].
  match type of E with (?o ≫= _) = _ => destruct o as [s1|] eqn:E1 end; [|done].
  injection E as <- <-. assert (queue_ok s1); [|by apply (queue_ok_ext s1)].
  case_decide; [|case_decide; [|by injection E1 as <-]].
  - destruct (read_register_listener fs) as [[[[id p] t] ?]|]; [|done]. injection E1 as <-.
    by apply queue_ok_register.
  - destruct (readStringMessage fs) as [[id ?]|]; [|done]. injection E1 as <-.
    by apply queue_ok_unregister.
Qed.

Lemma reachable_queue_ok s : heartbeat_reachable s → queue_ok s.
Proof.
  induction 1 as [clock|ps s Hs IH|r s s' b Hs IH E].
  - split; [constructor|constructor|by intros a Ha%not_elem_of_nil|]. intros id. cbn. split.
    + by intros [].
    + by intros (a & Ha%not_elem_of_nil & _).
  - by apply (queue_ok_ext s).
  - apply queue_ok_process in IH. unfold listener_turn in E. destruct r.
    1-2: by injection E as <- <-. by eapply queue_ok_command.
Qed.

(** In every state of the listening thread: the priority queue gives its elements back in the
    order in which they are due, holds none twice, and a data product has a listener exactly
    while it has an element in the queue. *)
Theorem heartbeat_queue_consistent s : heartbeat_reachable s → queue_ok s.
Proof. apply reachable_queue_ok. Qed.

(** A turn at time [now]: while no element is due nobody is called; otherwise exactly one
    listener is called, that of an element that is due first, and told whether a heartbeat
    came in since its last check and, if not, how long the last one is ago; then the element
    waits for its interval, and no other changes. *)
Theorem due_heartbeat_checked now s :
  heartbeat_reachable s → stands now s →
  let s' := process_messages s in
  ((∀ a, a ∈ hl_messageTimes s → now < expected s a) ∧ hl_messageTimes s' = hl_messageTimes s ∧
   hl_outputs s' = hl_outputs s ++ if decide (hl_messageTimes s = []) then [] else [HeartbeatSleep 100]) ∨
  ∃ a, a ∈ hl_messageTimes s ∧ expected s a <= now ∧
    (∀ b, b ∈ hl_messageTimes s → expected s a <= expected s b) ∧
    hl_outputs s' = hl_outputs s ++ listener_call now s a ∧ length (listener_call now s a) = 1%nat ∧
    expected s' a = u64 (now + next_interval s a) ∧ hl_messageTimes s' ≡ₚ hl_messageTimes s ∧
    ∀ b, b ≠ a → element s' b = element s b.
Proof.
  intros [K1 K2 K3 K4]%reachable_queue_ok Hc s'. unfold s', GravityHeartbeat.process_messages.
  destruct (hl_messageTimes s) as [|a rest] eqn:Eq.
  { left. rewrite app_nil_r. split_and!; [|done..]. by intros a Ha%not_elem_of_nil. }
  change (expected (hl_tick s) a) with (expected s a). unfold hl_now. rewrite Hc.
  inversion K1 as [|? ? Hs Ha]; subst. rewrite Forall_forall in Ha.
  destruct (Z.ltb_spec now (expected s a)).
  - left. split_and!; [|done..]. intros b [->|Hb]%elem_of_cons; [done|].
    pose proof (Ha b Hb). unfold by_time in *. lia.
  - right. exists a. assert (Hin : a ∈ a :: rest) by left.
    destruct (check_heartbeat_spec now a rest (hl_tick s)) as (L & O & I & _ & Q & K & C);
      [by apply K3|done|]. destruct C as (C1 & C2 & C3); [intros k; apply Hc|].
    split_and!; [done|lia| |done| |done| |done].
    + intros b [->|Hb]%elem_of_cons; [lia|]. by apply Ha.
    + destruct (K4 (em_dataproductID (element s a))) as [_ Kl]. unfold listener_call.
      destruct Kl as [l ->]; [by exists a|]. by case_decide.
    + by rewrite Q, push_time_perm.
Qed.

(** ** Nobody waits for ever *)

Definition due now s : list nat := base.filter (λ a, expected s a <= now) (hl_messageTimes s).

(** A call of the listener of an element. *)
Definition call_for s (a : nat) (o : HeartbeatOutput) : Prop :=
  let id := em_dataproductID (element s a) in
  ∃ l, hl_listener s !! id = Some l ∧
    ((∃ since i, o = MissedHeartbeat l (component_of id) since i) ∨
     (∃ i, o = ReceivedHeartbeat l (component_of id) i)).

Lemma filter_ext_in (P Q : nat → Prop) `{∀ a, Decision (P a)} `{∀ a, Decision (Q a)}
    (l : list nat) :
  (∀ a, a ∈ l → P a ↔ Q a) → base.filter P l = base.filter Q l.
Proof.
  induction l as [|a l IH]; intros E; [done|]. rewrite !filter_cons, IH by (intros b Hb; apply E; by right).
  assert (Ea : P a ↔ Q a) by (apply E; left). by repeat case_decide; try tauto.
Qed.

Lemma due_step now s a ds :
  queue_ok s → stands now s → due now s = a :: ds →
  0 < next_interval s a → 0 <= now → now + next_interval s a < u64_max →
  let s' := process_messages s in
  queue_ok s' ∧ stands now s' ∧ due now s' = ds ∧ expected s' a = now + next_interval s a ∧
  (∃ o, hl_outputs s' = hl_outputs s ++ [o] ∧ call_for s a o) ∧
  hl_listener s' = hl_listener s ∧ ∀ b, b ≠ a → element s' b = element s b.
Proof.
  intros K Hc Hd Hi Hn Hu s'. pose proof (queue_ok_process s K) as K'. fold s' in K'.
  assert (Hq : ∃ rest, hl_messageTimes s = a :: rest ∧ ds = base.filter (λ a, expected s a <= now) rest ∧
    expected s a <= now).
  { pose proof (q_sorted _ K) as Hs. unfold due in Hd. destruct (hl_messageTimes s) as [|b rest]; [done|].
    rewrite filter_cons in Hd. case_decide as Eb; [injection Hd as -> <-; by exists rest|].
    exfalso. inversion Hs as [|? ? _ Hb]; subst. rewrite Forall_forall in Hb.
    assert (Ha : a ∈ base.filter (λ a, expected s a <= now) rest) by (rewrite Hd; left).
    apply list_elem_of_filter in Ha as [Ha Hr%Hb]. unfold by_time in Hr. lia. }
  destruct Hq as (rest & Hq & -> & Ha).
  unfold s', GravityHeartbeat.process_messages in K' |- *. rewrite Hq in K' |- *.
  change (expected (hl_tick s) a) with (expected s a) in *. unfold hl_now in *. rewrite Hc in *.
  destruct (Z.ltb_spec now (expected s a)); [lia|].
  pose proof (q_nodup _ K) as Hnd. rewrite Hq, NoDup_cons in Hnd. destruct Hnd as [Hna Hnd].
  assert (Hin : a ∈ hl_messageTimes s) by (rewrite Hq; left).
  destruct (check_heartbeat_spec now a rest (hl_tick s)) as (L & O & I & _ & Q & E & C);
    [by apply (q_range _ K)|done|]. destruct C as (C1 & C2 & C3); [intros k; apply Hc|].
  change (next_interval (hl_tick s) a) with (next_interval s a) in C2.
  rewrite u64_id in C2 by (unfold is_u64; lia).
  set (s1 := check_heartbeat a rest (hl_tick s)) in *. clearbody s1.
  split_and!; [done|done| |done| |done|done].
  - unfold due. rewrite Q, filter_push by lia. apply filter_ext_in. intros b Hb. unfold expected.
    rewrite O; [done|]. by intros ->.
  - unfold call_for. destruct (q_listener _ K (em_dataproductID (element s a))) as [_ Kl].
    destruct Kl as [l Hl]; [by exists a|]. unfold listener_call in C3.
    change (hl_listener (hl_tick s)) with (hl_listener s) in C3.
    change (element (hl_tick s)) with (element s) in C3. rewrite Hl in C3.
    case_decide; (eexists; split; [exact C3|]); exists l; (split; [done|]).
    + right. by eexists.
    + left. by do 2 eexists.
Qed.

Lemma due_served now ds s :
  queue_ok s → stands now s → 0 <= now → due now s = ds → NoDup ds →
  (∀ a, a ∈ ds → 0 < next_interval s a ∧ now + next_interval s a < u64_max) →
  let s' := Nat.iter (length ds) process_messages s in
  due now s' = [] ∧ (∀ a, a ∈ ds → expected s' a = now + next_interval s a) ∧
  (∀ a, a ∉ ds → expected s' a = expected s a) ∧
  ∃ calls, hl_outputs s' = hl_outputs s ++ calls ∧ Forall2 (call_for s) ds calls.
Proof.
  revert s. induction ds as [|a ds IH]; intros s K Hc Hn Hd Hnd Hi.
  { split_and!; [done| |done|]; [by intros a Ha%not_elem_of_nil|].
    exists []. rewrite app_nil_r. by split. }
  apply NoDup_cons in Hnd as [Hna Hnd]. destruct (Hi a) as [Hi1 Hi2]; [left|].
  destruct (due_step now s a ds) as (K1 & C1 & D1 & E1 & (o & U1 & Ho) & L1 & O1); [done..|].
  cbn [length]. rewrite Nat.iter_succ_r.
  set (s1 := process_messages s) in *. clearbody s1.
  assert (En : ∀ b, b ≠ a → next_interval s1 b = next_interval s b).
  { intros b Hb. unfold next_interval. by rewrite O1, L1. }
  assert (Hne : ∀ b, b ∈ ds → b ≠ a) by (by intros b Hb ->).
  destruct (IH s1) as (D & X1 & X2 & calls & U & F); [done..| |].
  { intros b Hb. rewrite En by by apply Hne. apply Hi. by right. }
  split_and!; [done| | |].
  - intros b [->|Hb]%elem_of_cons; [by rewrite X2|]. rewrite X1 by done. by rewrite En by by apply Hne.
  - intros b [Hb Hb']%not_elem_of_cons. rewrite X2 by done. unfold expected. by rewrite O1.
  - exists (o :: calls). rewrite U, U1, <- app_assoc. split; [done|]. constructor; [done|].
    apply Forall2_same_length_lookup. apply Forall2_same_length_lookup in F as [Fl F].
    split; [done|]. intros i b c Hb Hc'. pose proof (F i b c Hb Hc') as Hbc. unfold call_for in *.
    rewrite O1, L1 in Hbc; [done|]. apply Hne. by apply list_elem_of_lookup_2 in Hb.
Qed.

(** If nothing else happens at time [now], as many turns as there are elements due serve all
    of them: the listener of each is called exactly once, in the order in which they are due,
    and then waits for its own interval; no other element moves, and none is due. *)
Theorem due_elements_served now s :
  heartbeat_reachable s → stands now s → 0 <= now →
  (∀ a, a ∈ due now s → 0 < next_interval s a ∧ now + next_interval s a < u64_max) →
  let s' := Nat.iter (length (due now s)) process_messages s in
  due now s' = [] ∧ (∀ a, a ∈ due now s → expected s' a = now + next_interval s a) ∧
  (∀ a, a ∉ due now s → expected s' a = expected s a) ∧
  ∃ calls, hl_outputs s' = hl_outputs s ++ calls ∧ Forall2 (call_for s) (due now s) calls.
Proof.
  intros K%reachable_queue_ok Hc Hn Hi. apply due_served; try done.
  apply NoDup_filter, (q_nodup _ K).
Qed.

(** ** Commands *)

Lemma read_register_sent id p t rest :
  read_register_listener (sendStringMessage id :: le_bytes 8 p :: le_bytes 8 t :: rest) =
  Some (id, u64 p, s64 t, rest).
Proof.
  unfold read_register_listener, read_bind. cbn [readStringMessage sendStringMessage].
  change (le_bytes 8 p) with (sendUint64Message p). rewrite read_uint64_sent, readBytes_sent.
  unfold read_ret. do 2 f_equal. change (256 ^ Z.of_nat 8) with u64_max. unfold s64, u64_max.
  by rewrite Zplus_mod_idemp_l.
Qed.

(** After a registration the component has the new listener, which is called when the
    interval is over; after an unregistration it has none, and nothing of it is in the queue. *)
Theorem listener_commands_obeyed id p t s :
  heartbeat_reachable s → is_u64 p → is_s64 t →
  (∃ s', listener_command [sendStringMessage "register"; sendStringMessage id; le_bytes 8 p; le_bytes 8 t] s
      = Some (s', true) ∧
    hl_listener s' = <[id := p]> (hl_listener s) ∧
    ∃ a, a ∈ hl_messageTimes s' ∧ element s' a =
      mkExpectedMessageQueueElement (u64 (hl_now s + t)) 0 t id) ∧
  (∃ s', listener_command [sendStringMessage "unregister"; sendStringMessage id] s = Some (s', true) ∧
    hl_listener s' = delete id (hl_listener s) ∧
    ∀ a, a ∈ hl_messageTimes s' ↔ a ∈ hl_messageTimes s ∧ em_dataproductID (element s a) ≠ id).
Proof.
  intros K%reachable_queue_ok Hp Ht. split.
  - unfold listener_command. cbn [readStringMessage sendStringMessage mbind option_bind].
    rewrite decide_False, decide_True by done.
    change id with (sendStringMessage id) at 1. rewrite read_register_sent. cbn [mbind option_bind].
    rewrite u64_id, s64_id by done. eexists. split; [done|]. split; [done|].
    exists (length (hl_queueElements s)). split.
    + cbn. rewrite push_time_perm. left.
    + unfold element. cbn. by rewrite lookup_app_r, Nat.sub_diag by lia.
  - unfold listener_command. cbn [readStringMessage sendStringMessage mbind option_bind].
    rewrite decide_False, decide_False, decide_True by done. cbn [mbind option_bind].
    eexists. split; [done|]. split; [done|]. intros a.
    change (hl_messageTimes (hl_output ?o ?s)) with (hl_messageTimes s).
    rewrite unregister_queue by done. rewrite list_elem_of_filter. tauto.
Qed.
End listening.

(** ** From the sender to the listener *)

Section sending.
Context `{Protobuf GravityDataProductPB} `{!ProtobufLaw GravityDataProductPB}.

(** The publish manager takes the message of the thread for a product of the component's
    heartbeat, unfiltered, with the time of sending; its bytes are those of the product. *)
Theorem heartbeat_published params now p :
  is_u64 now →
  let product := heartbeat_product params now in
  publish_message (heartbeat_frames params now) true p =
    Some (publish_request (hb_componentID params) now "" (serializeToArray product) p, true) ∧
  GravityDataProduct_from_bytes (serializeToArray product) = product ∧
  getDataProductID product = hb_componentID params ∧ getGravityTimestamp product = now ∧
  getRegistrationTime product = hb_registrationTime params ∧ getData 5 product = Some heartbeat_data.
Proof.
  intros Hn product. split_and!; try done.
  - unfold publish_message, heartbeat_frames. fold product.
    cbn [readStringMessage sendStringMessage mbind option_bind]. rewrite decide_True by done.
    unfold read_publish, read_bind. cbn [readStringMessage sendStringMessage].
    rewrite read_uint64_sent, u64_id by exact Hn. done.
  - unfold GravityDataProduct_from_bytes, serializeToArray. by rewrite parse_serialize.
Qed.

(** C34. A heartbeat that came in before its element is checked is reported to the listener, under
    the name of the component that sent it. *)
Theorem heartbeat_reaches_listener set_interval params c t now s a rest l :
  hb_componentID params = c +:+ "_GravityHeartbeat" →
  heartbeat_reachable set_interval s → (∀ n, hl_clock s n = now) →
  hl_messageTimes s = a :: rest → expected s a <= now →
  em_dataproductID (element s a) = hb_componentID params →
  hl_listener s !! hb_componentID params = Some l →
  let g := GravityDataProduct_from_bytes (serializeToArray (heartbeat_product params t)) in
  hl_outputs (process_messages set_interval (fill_heartbeat [g] s)) =
    hl_outputs s ++ [ReceivedHeartbeat l c (em_timetowaitBetweenHeartbeats (element s a))].
Proof.
  intros Hc Hr Hs Hq Ha Hid Hl g.
  assert (Hg : g = heartbeat_product params t).
  { unfold g, GravityDataProduct_from_bytes, serializeToArray. by rewrite parse_serialize. }
  set (s1 := fill_heartbeat [g] s).
  assert (Hr1 : heartbeat_reachable set_interval s1) by by apply heartbeat_filled.
  apply reachable_queue_ok in Hr1 as K.
  unfold process_messages. change (hl_messageTimes s1) with (hl_messageTimes s). rewrite Hq.
  change (expected (hl_tick s1) a) with (expected s a). change (hl_now s1) with (hl_now s).
  unfold hl_now. rewrite Hs. destruct (Z.ltb_spec now (expected s a)); [lia|].
  destruct (check_heartbeat_spec set_interval now a rest (hl_tick s1)) as (_ & _ & _ & _ & _ & _ & C).
  { apply (q_range _ K). change (hl_messageTimes s1) with (hl_messageTimes s). rewrite Hq. left. }
  { done. }
  destruct C as (_ & _ & U); [intros k; apply Hs|]. rewrite U. unfold listener_call.
  change (element (hl_tick s1) a) with (element s a). change (hl_listener (hl_tick s1)) with (hl_listener s).
  rewrite Hid, Hl, decide_True; [|].
  - by rewrite Hc, component_of_heartbeat.
  - cbn. rewrite Hg. cbn. set_solver.
Qed.
End sending.

(** ** All heartbeat threads of a process *)

Inductive heartbeat_run : Heartbeats → list (option string) → Heartbeats → Prop :=
| run_nil h : heartbeat_run h [] h
| run_cons h l h1 ls h2 : heartbeat_step h l h1 → heartbeat_run h1 ls h2 → heartbeat_run h (l :: ls) h2.

Definition starting (t : HeartbeatThread) : Prop := match t with Starting _ => True | _ => False end.

Lemma heartbeat_step_threads h l h' :
  heartbeat_step h l h' → (length (hb_threads h) ≤ length (hb_threads h'))%nat.
Proof. destruct 1; cbn; rewrite ?length_app, ?length_insert; lia. Qed.

Lemma heartbeat_run_threads h ls h' :
  heartbeat_run h ls h' → (length (hb_threads h) ≤ length (hb_threads h'))%nat.
Proof. induction 1 as [|h l h1 ls h2 S1 _ IH]; [done|]. apply heartbeat_step_threads in S1. lia. Qed.

(** After the flag was cleared, and unless a thread that was already started has yet to set
    it, no heartbeat is published until another thread is started. *)
Theorem silent_after_stop ts ls h' :
  Forall (λ t, ¬ starting t) ts → heartbeat_run (mkHeartbeats false ts) ls h' →
  length (hb_threads h') = length ts → Forall (λ l, l = None) ls.
Proof.
  intros Ht R. remember (mkHeartbeats false ts) as h eqn:Eh. revert ts Ht Eh.
  induction R as [|h l h1 ls h2 S1 R IH]; intros ts Ht -> E; [constructor|].
  apply heartbeat_run_threads in R. inversion S1; subst; cbn in R; rewrite ?length_app, ?length_insert in R;
    cbn in R.
  - lia.
  - constructor; [done|]. by apply (IH ts).
  - exfalso. rewrite Forall_forall in Ht. eapply (Ht (Starting params)); [|done].
    by eapply list_elem_of_lookup_2.
  - constructor; [done|]. apply (IH (<[i := Ended]> ts)); [|done|by rewrite length_insert].
    apply Forall_insert; [done|by intros []].
Qed.

(** A thread sets the flag only when it runs: a stop before that is lost, and the heartbeat
    goes on. *)
Theorem early_stop_lost params :
  heartbeat_run (mkHeartbeats false []) [None; None; None; Some (hb_componentID params)]
    (mkHeartbeats true [Looping params]).
Proof.
  eapply run_cons; [apply (step_start params)|]. eapply run_cons; [apply step_stop|].
  eapply run_cons; [by apply (step_running params _ _ 0)|].
  eapply run_cons; [by apply (step_publish params _ 0)|]. constructor.
Qed.

(** A stop followed by a start before the old thread wakes up: both threads publish the same
    heartbeat from then on. *)
Theorem quick_restart_doubles params :
  heartbeat_run (mkHeartbeats false [])
    [None; None; None; None; None; Some (hb_componentID params); Some (hb_componentID params)]
    (mkHeartbeats true [Looping params; Looping params]).
Proof.
  eapply run_cons; [apply (step_start params)|]. eapply run_cons; [by apply (step_running params _ _ 0)|].
  eapply run_cons; [apply step_stop|]. eapply run_cons; [apply (step_start params)|].
  eapply run_cons; [by apply (step_running params _ _ 1)|].
  eapply run_cons; [by apply (step_publish params _ 0)|].
  eapply run_cons; [by apply (step_publish params _ 1)|]. constructor.
Qed.

(** ** Runs *)

Definition keep_interval : Z → string → Z → Z := λ _ _ i, i.

Definition hb_run (r : ReceiveOutcome) s : HeartbeatListener :=
  match listener_turn keep_interval r s with Some (s', _) => s' | None => s end.

Lemma hb_run_reachable r s :
  heartbeat_reachable keep_interval s → heartbeat_reachable keep_interval (hb_run r s).
Proof.
  intros Hr. unfold hb_run. destruct (listener_turn keep_interval r s) as [[s' b]|] eqn:E; [|done].
  by eapply heartbeat_turn.
Qed.

Definition register_message (id : string) (p t : Z) : ReceiveOutcome :=
  ReceiveMessage [sendStringMessage "register"; sendStringMessage id; le_bytes 8 p; le_bytes 8 t].
Definition unregister_message (id : string) : ReceiveOutcome :=
  ReceiveMessage [sendStringMessage "unregister"; sendStringMessage id].

Definition demo_name : string := "C_GravityHeartbeat".
Definition demo_params : HBParams := mkHBParams 1000000 demo_name 24000 24999 "127.0.0.1" 7.

(** One listener, told every second, registered at time 0; it is second 1 now. *)
Definition demo_listening : HeartbeatListener :=
  (hb_run (register_message demo_name 42 1000000) (initial_HeartbeatListener
    (λ n, if decide (n = 0)%nat then 0 else 1000000))).

Lemma demo_listening_reachable : heartbeat_reachable keep_interval demo_listening.
Proof. apply hb_run_reachable, heartbeat_initial. Qed.

Lemma heartbeat_queue_consistent_witness : queue_ok demo_listening.
Proof. apply (heartbeat_queue_consistent keep_interval), demo_listening_reachable. Defined.

Lemma due_heartbeat_checked_witness :
  (∃ a, a ∈ hl_messageTimes demo_listening ∧ expected demo_listening a <= 1000000) ∧
  hl_outputs (process_messages keep_interval demo_listening) =
    hl_outputs demo_listening ++ [MissedHeartbeat 42 "C" (-1) 1000000].
Proof.
  split; [exists 0%nat; split; [left|by vm_compute]|].
  destruct (due_heartbeat_checked keep_interval 1000000 demo_listening) as [(Hl & _)|(a & Ha & _ & _ & U & _)].
  - exact demo_listening_reachable.
  - intros n. by vm_compute.
  - exfalso. assert (Hlt : 1000000 < expected demo_listening 0) by (apply Hl; left). by vm_compute in Hlt.
  - rewrite U. apply list_elem_of_singleton in Ha as ->. by vm_compute.
Defined.

Lemma due_elements_served_witness :
  length (due 1000000 demo_listening) = 1%nat ∧
  due 1000000 (process_messages keep_interval demo_listening) = [].
Proof.
  split; [by vm_compute|].
  destruct (due_elements_served keep_interval 1000000 demo_listening) as [D _].
  - exact demo_listening_reachable.
  - intros n. by vm_compute.
  - done.
  - intros a Ha. assert (a = 0%nat) as -> by by apply list_elem_of_singleton in Ha. by vm_compute.
  - exact D.
Defined.

Lemma listener_commands_obeyed_witness :
  ∃ s', listener_command [sendStringMessage "unregister"; sendStringMessage demo_name] demo_listening =
    Some (s', true) ∧ hl_listener s' = delete demo_name (hl_listener demo_listening).
Proof.
  destruct (listener_commands_obeyed keep_interval demo_name 43 5 demo_listening) as [_ (s' & E & L & _)].
  - exact demo_listening_reachable.
  - apply (bool_decide_unpack _). by vm_compute.
  - apply (bool_decide_unpack _). by vm_compute.
  - by exists s'.
Defined.

#[local] Instance demo_hb_codec : Protobuf GravityDataProductPB :=
  countable_protobuf empty_GravityDataProductPB "GravityDataProductPB".
#[local] Instance demo_hb_law : ProtobufLaw GravityDataProductPB := countable_protobuf_law _ _.

Lemma heartbeat_published_witness :
  is_u64 5 ∧ getRegistrationTime (heartbeat_product demo_params 5) = 7.
Proof.
  assert (Hu : is_u64 5) by by apply (bool_decide_unpack _); vm_compute.
  split; [exact Hu|]. by apply (heartbeat_published demo_params 5 initial_PublishManager).
Defined.

Lemma heartbeat_reaches_listener_witness :
  hl_outputs (process_messages keep_interval (fill_heartbeat
    [GravityDataProduct_from_bytes (serializeToArray (heartbeat_product demo_params 9))] demo_listening)) =
  hl_outputs demo_listening ++ [ReceivedHeartbeat 42 "C" 1000000].
Proof.
  apply (heartbeat_reaches_listener keep_interval demo_params "C" 9 1000000 demo_listening 0 [] 42).
  - done.
  - exact demo_listening_reachable.
  - intros n. by vm_compute.
  - by vm_compute.
  - by vm_compute.
  - by vm_compute.
  - by vm_compute.
Defined.

Lemma silent_after_stop_witness :
  Forall (λ l, l = None) [@None string].
Proof.
  apply (silent_after_stop [Looping demo_params] [None] (mkHeartbeats false [Ended])).
  - constructor; [by intros []|constructor].
  - eapply run_cons; [by apply (step_end demo_params _ 0)|]. constructor.
  - done.
Defined.

(** A component that is registered twice is checked twice in each interval, and one heartbeat
    answers only the first of the checks: the second says that it was missed. *)
Lemma registered_twice_misses :
  hl_outputs (hb_run ReceiveAgain (hb_run ReceiveAgain
    (fill_heartbeat [heartbeat_product demo_params 9]
      (hb_run (register_message demo_name 42 1000000) (hb_run (register_message demo_name 42 1000000)
        (initial_HeartbeatListener (λ n, if decide (n < 3)%nat then 0 else 1000000))))))) =
  [HeartbeatAnswer "ACK"; HeartbeatSleep 100; HeartbeatAnswer "ACK";
   ReceivedHeartbeat 42 "C" 1000000; MissedHeartbeat 42 "C" (-1) 1000000].
Proof. by vm_compute. Qed.

(** A heartbeat that came in before an unregistration counts for the next registration. *)
Lemma old_heartbeat_counts :
  hl_outputs (hb_run ReceiveAgain (hb_run (register_message demo_name 43 1000000)
    (hb_run (unregister_message demo_name) (fill_heartbeat [heartbeat_product demo_params 9]
      (hb_run (register_message demo_name 42 1000000)
        (initial_HeartbeatListener (λ n, if decide (n < 3)%nat then 0 else 1000000))))))) =
  [HeartbeatAnswer "ACK"; HeartbeatSleep 100; HeartbeatAnswer "ACK"; HeartbeatAnswer "ACK";
   ReceivedHeartbeat 43 "C" 1000000].
Proof. by vm_compute. Qed.
