(* ===== verification/GravityNode.v ===== *)
(** * The node: state, environment, configuration and the exchange with the directory
    (src/src/api/cpp/GravityNode.cpp)

    A node keeps what it registered and subscribed to, and drives its managers over
    sockets, each behind a lock.  Everything outside is an environment [W] that the class
    [NodeEnvironment] describes: the clock, the sockets to the managers, and the exchange of
    a request for a reply with a directory or a service.  An operation is a state-passing
    function; [None] says that it never returns, because it waits for a lock that nobody
    releases or for a message that nobody sends. *)

From stdpp Require Import pretty.
From Stdlib Require Import Ascii.
From S2P Require Import Prelude.
From S2P Require Import Messages.
From S2P Require Import CommUtil.
From S2P Require Import Utility.
From S2P Require Import GravityDataProduct.
From S2P Require Import ReturnCodes.
From S2P Require Import GravityHeartbeat.
#[local] Open Scope gravity_scope.

Import GravityReturnCodes.

(** ** The state *)

(** The sockets to the managers and to the domain listener, by the lock that guards them if
    there is one; the lock of the directory's address, and that of initialization, which all
    nodes of a process share. *)
Inductive NodeSocket :=
| subscriptionManagerSWL | publishManagerRequestSWL | publishManagerPublishSWL
| serviceManagerSWL | requestManagerSWL | requestManagerRepSWL | hbSocket
| serviceManagerConfigSWL | subscriptionManagerConfigSWL
| metricsManagerSocket | domainListenerSWL | domainRecvSWL
| serviceDirectoryLock | initLock.
#[export] Instance NodeSocket_eq_dec : EqDecision NodeSocket.
Proof. solve_decision. Defined.

Record NetworkNode := mkNetworkNode {
  nn_transport : string;
  nn_ipAddress : string;
  nn_port : Z;
}.

(** [receiveLastCachedValue] is written and never read; the subscriber is an address. *)
Record SubscriptionDetails := mkSubscriptionDetails {
  sub_domain : string;
  sub_dataProductID : string;
  sub_filter : string;
  sub_receiveLastCachedValue : bool;
  sub_subscriber : Z;
}.
#[export] Instance SubscriptionDetails_eq_dec : EqDecision SubscriptionDetails.
Proof. solve_decision. Defined.

Record GravityNode := mkGravityNode {
  gn_initialized : bool;
  gn_componentID : string;
  gn_myDomain : string;
  gn_serviceDirectoryNode : NetworkNode;
  gn_publishMap : gmap string string;
  gn_serviceMap : gmap string string;
  gn_subscriptionList : list SubscriptionDetails;
  gn_urlInstanceMap : gmap string Z;
  gn_dataRegistrationTimeMap : gmap string Z;
  gn_publishedSettings : gmap string string;
  gn_settingsPubEnabled : bool;
  gn_settingsGDP : GravityDataProduct;
  (* the settings of the parser, [None] before it is there, and its component *)
  gn_parser : option (gmap string string);
  gn_parserID : string;
  gn_logInitialized : bool;
  gn_listenerEnabled : bool;
  gn_metricsEnabled : bool;
  gn_heartbeatStarted : bool;
  gn_hbSocket : bool;
  gn_defaultCacheLastSentDataprodut : bool;
  gn_defaultReceiveLastSentDataproduct : bool;
  serviceDirectory_ReservedDataProductIDs : gset string;
  gravityNode_ReservedDataProductIDs : gset string;
  (* the counts of the semaphores *)
  gn_semaphore : NodeSocket → nat;
}.
#[export] Instance eta_GravityNode : Eta GravityNode := λ n,
  mkGravityNode (gn_initialized n) (gn_componentID n) (gn_myDomain n) (gn_serviceDirectoryNode n)
    (gn_publishMap n) (gn_serviceMap n) (gn_subscriptionList n) (gn_urlInstanceMap n)
    (gn_dataRegistrationTimeMap n) (gn_publishedSettings n) (gn_settingsPubEnabled n)
    (gn_settingsGDP n) (gn_parser n) (gn_parserID n) (gn_logInitialized n) (gn_listenerEnabled n)
    (gn_metricsEnabled n) (gn_heartbeatStarted n) (gn_hbSocket n)
    (gn_defaultCacheLastSentDataprodut n) (gn_defaultReceiveLastSentDataproduct n)
    (serviceDirectory_ReservedDataProductIDs n) (gravityNode_ReservedDataProductIDs n)
    (gn_semaphore n).

(** The default constructor. *)
Definition new_GravityNode : GravityNode :=
  mkGravityNode false "" "" (mkNetworkNode "tcp" "" 5555) ∅ ∅ [] ∅ ∅ ∅ false
    (new_GravityDataProduct GRAVITY_SETTINGS_DPID) None "" false false false false false true true
    {[REGISTERED_PUBLISHERS_DPID; DOMAIN_DETAILS_DPID; DOMAIN_UPDATE_DPID; DIRECTORY_SERVICE_DPID]}
    {[METRICS_DATA_DPID; GRAVITY_SETTINGS_DPID; GRAVITY_LOGGER_DPID]}
    (λ _, 1).

(** ** The environment *)

(** The end of [zmq_poll] on the socket of a request. *)
Inductive PollOutcome :=
| PollError (eintr : bool)
| PollExpired
| PollReply (bytes : string)
| PollOther.

Class NodeEnvironment (W : Type) := {
  (** [getCurrentTime] *)
  env_time : W → Z * W;
  (** A message on a socket, and the next frame that arrives there, if any ever does. *)
  env_send : NodeSocket → list frame → W → W;
  env_receive : NodeSocket → W → option (frame * W);
  (** A request sent to a url and polled for at most so many milliseconds; the flag says
      that a signal was caught. *)
  env_exchange : string → GravityDataProduct → Z → W → (PollOutcome * bool) * W;
  (** The local address of a connection to that address and port. *)
  env_local_address : string → Z → string;
  (** [toDottedQuad] *)
  env_resolve : string → string;
  env_sleep : Z → W → W;
  env_start_heartbeat : HBParams → W → W;
  env_stop_heartbeat : W → W;
  env_start_heartbeat_listener : W → W;
  (** The addresses of the static subscribers of [registerHeartbeatListener] and of
      [unregisterHeartbeatListener], two objects. *)
  env_register_hbSub : Z;
  env_unregister_hbSub : Z;
  (** [tolower] of the user's locale *)
  env_tolower : ascii → ascii;
}.

(** ** Operations *)

Definition node (W A : Type) : Type := GravityNode → W → option (A * GravityNode * W).
#[export] Instance node_ret W : MRet (node W) := λ _ x n w, Some (x, n, w).
#[export] Instance node_bind W : MBind (node W) := λ _ _ k m n w,
  match m n w with Some (x, n, w) => k x n w | None => None end.

Section operations.
Context {W : Type} `{NodeEnvironment W}.

Definition gets {A} (f : GravityNode → A) : node W A := λ n w, Some (f n, n, w).
Definition modify (f : GravityNode → GravityNode) : node W unit := λ n w, Some ((), f n, w).
Definition ask {A} (f : W → A * W) : node W A := λ n w, let '(x, w) := f w in Some (x, n, w).
Definition tell (f : W → W) : node W unit := λ n w, Some ((), n, f w).
Definition send (socket : NodeSocket) (frames : list frame) : node W unit :=
  tell (env_send socket frames).
Definition receive (socket : NodeSocket) : node W frame := λ n w,
  match env_receive socket w with Some (f, w) => Some (f, n, w) | None => None end.

Definition set_semaphore (l : NodeSocket) (k : nat) (n : GravityNode) : GravityNode :=
  n <| gn_semaphore ::= λ sem l', if decide (l' = l) then k else sem l' |>.

(** [Semaphore::Lock] waits for a count above zero. *)
Definition Lock (l : NodeSocket) : node W unit := λ n w,
  match gn_semaphore n l with
  | O => None
  | S k => Some ((), set_semaphore l k n, w)
  end.
Definition Unlock (l : NodeSocket) : node W unit := λ n w,
  Some ((), set_semaphore l (S (gn_semaphore n l)) n, w).

(** [map[key]] of a map to integers, which inserts 0 for a missing key. *)
Definition registration_time_of (dataProductID : string) : node W Z :=
  n ← gets id;
  modify (λ n, n <| gn_dataRegistrationTimeMap ::= idx_touch 0%Z dataProductID |>);;
  mret (idx 0%Z dataProductID (gn_dataRegistrationTimeMap n)).
Definition url_instance (url : string) : node W Z :=
  n ← gets id;
  modify (λ n, n <| gn_urlInstanceMap ::= idx_touch 0%Z url |>);;
  mret (idx 0%Z url (gn_urlInstanceMap n)).

(** Microseconds to the 32 bits of seconds a registration time has. *)
Definition epoch_seconds (timestamp : Z) : Z := u32 (timestamp / 1000000).

(** A pointer as a frame. *)
Definition pointer_frame (p : Z) : frame := le_bytes 8 p.

Definition getIP : node W string :=
  initialized ← gets gn_initialized;
  if negb initialized then mret "" else
  Lock serviceDirectoryLock;;
  sd ← gets gn_serviceDirectoryNode;
  let ip :=
    if decide (nn_ipAddress sd ≠ "" ∧ nn_ipAddress sd ≠ "localhost")
    then env_local_address (nn_ipAddress sd) (nn_port sd) else "127.0.0.1" in
  Unlock serviceDirectoryLock;;
  mret ip.

Context `{Protobuf GravityDataProductPB, Protobuf GravityConfigParamPB}.

(** ** Publishing *)

(** The data product is a shared object: the node sets its fields, and they are returned. *)
Definition publish (dataProduct : GravityDataProduct) (filterText : string) (timestamp : Z)
    : node W (GravityReturnCode * GravityDataProduct) :=
  initialized ← gets gn_initialized;
  if negb initialized then mret (NOT_INITIALIZED, dataProduct) else
  let dataProductID := getDataProductID dataProduct in
  dataProduct ←
    (if isRelayedDataproduct dataProduct then mret dataProduct
     else
       ts ← (if decide (timestamp = 0%Z) then ask env_time else mret timestamp);
       n ← gets id;
       mret (setDomain (gn_myDomain n) (setComponentId (gn_componentID n)
         (setTimestamp ts dataProduct))));
  regTime ← registration_time_of dataProductID;
  let dataProduct := setRegistrationTime regTime dataProduct in
  Lock publishManagerPublishSWL;;
  send publishManagerPublishSWL
    [sendStringMessage "publish"; sendStringMessage dataProductID;
     sendUint64Message (getGravityTimestamp dataProduct); sendStringMessage filterText;
     serializeToArray dataProduct];;
  Unlock publishManagerPublishSWL;;
  mret (SUCCESS, dataProduct).

(** ** Settings *)

(** [GravityConfigParser::hasKey] and [getString] *)
Definition config_lookup (key : string) (parser : option (gmap string string)) : option string :=
  parser ≫= λ m, m !! StringToLowerCase env_tolower key.

Definition getStringParam (key default_value : string) : node W string :=
  n ← gets id;
  let found := config_lookup key (gn_parser n) in
  let value := default default_value found in
  let configParamPB := mkGravityConfigParamPB (Some key) (Some value)
    (Some (bool_decide (found = None))) in
  (if decide (gn_settingsPubEnabled n = true ∧ gn_initialized n = true ∧
              gn_publishedSettings n !! key ≠ Some value)
   then
     '(_, sent) ← publish (setData configParamPB (gn_settingsGDP n)) (gn_componentID n) 0;
     modify (λ n, n <| gn_settingsGDP := sent |>
       <| gn_publishedSettings ::= insert key value |>)
   else mret ());;
  mret value.

Definition getIntParam (key : string) (default_value : Z) : node W Z :=
  s ← getStringParam key (pretty default_value);
  mret (StringToInt s default_value).

Definition getBoolParam (key : string) (default_value : bool) : node W bool :=
  s ← getStringParam key (if default_value then "true" else "false");
  let val := StringToLowerCase env_tolower s in
  mret (bool_decide (val = "true" ∨ val = "t" ∨ val = "yes" ∨ val = "y")).

(** ** The address of the directory *)

(** [find_first_of] from the start of [s]. *)
Fixpoint find_first_of (chars s : string) : option nat :=
  match s with
  | EmptyString => None
  | String c s =>
      if char_in c chars then Some 0
      else match find_first_of chars s with Some i => Some (S i) | None => None end
  end.

(** The address in a url; [None] when [substr] throws, as for a url that ends within three
    characters of its first colon or slash. *)
Definition parse_url (serviceDirectoryUrl : string) : option NetworkNode :=
  let '(transport, pos) :=
    match find_first_of "://" serviceDirectoryUrl with
    | Some pos => (str_take pos serviceDirectoryUrl, pos + 3)
    | None => ("tcp", 0)
    end in
  if decide (String.length serviceDirectoryUrl < pos) then None else
  let rest := str_drop pos serviceDirectoryUrl in
  let '(ipAddress, port) :=
    match find_first_of ":" rest with
    | Some len => (str_take len rest, str_drop (S len) rest)
    | None => (rest, serviceDirectoryUrl)
    end in
  let ipAddress :=
    if decide (ipAddress = "" ∨ ipAddress = "*") then "localhost" else ipAddress in
  let ipAddress :=
    if decide (ipAddress ≠ "localhost" ∧ ipAddress ≠ "0.0.0.0")
    then env_resolve ipAddress else ipAddress in
  Some (mkNetworkNode transport ipAddress (StringToInt port 5555 mod 65536)).

Definition updateServiceDirectoryUrl (serviceDirectoryUrl : string) : node W unit :=
  Lock serviceDirectoryLock;;
  (match parse_url serviceDirectoryUrl with
   | Some sd => modify (λ n, n <| gn_serviceDirectoryNode := sd |>)
   | None => λ _ _, None
   end);;
  Unlock serviceDirectoryLock;;
  let frames := [sendStringMessage "set_service_dir_url"; sendStringMessage serviceDirectoryUrl] in
  Lock subscriptionManagerSWL;; send subscriptionManagerSWL frames;; Unlock subscriptionManagerSWL;;
  Lock requestManagerSWL;; send requestManagerSWL frames;; Unlock requestManagerSWL.

(** What the managers are told of the node; the address goes in a message of its own. *)
Definition configureServiceManager : node W unit :=
  n ← gets id;
  send serviceManagerConfigSWL
    [sendStringMessage "configure"; sendStringMessage (gn_myDomain n);
     sendStringMessage (gn_componentID n)].

Definition configureSubscriptionManager : node W unit :=
  n ← gets id;
  send subscriptionManagerConfigSWL
    [sendStringMessage "configure"; sendStringMessage (gn_myDomain n);
     sendStringMessage (gn_componentID n)];;
  ip ← getIP;
  send subscriptionManagerConfigSWL [sendStringMessage ip].

(** ** Requests and replies *)

Definition NETWORK_TIMEOUT : Z := 3000.
Definition NETWORK_RETRIES : nat := 3.

(** Parsing a reply never fails: [ParseFromArray] throws nothing, so the code for a bad
    response is dead. *)
Definition sendRequestToServiceProvider (url : string) (request response : GravityDataProduct)
    (timeout_in_milliseconds : Z) : node W (GravityReturnCode * GravityDataProduct) :=
  '(outcome, s_interrupted) ← ask (env_exchange url request timeout_in_milliseconds);
  let '(ret, response) :=
    match outcome with
    | PollError true => (INTERRUPTED, response)
    | PollError false => (FAILURE, response)
    | PollExpired => (REQUEST_TIMEOUT, response)
    | PollReply bytes => (SUCCESS, GravityDataProduct_from_bytes bytes)
    | PollOther => (NO_SERVICE_PROVIDER, response)
    end in
  mret (if s_interrupted : bool then INTERRUPTED else ret, response).

Fixpoint send_requests (url : string) (request : GravityDataProduct)
    (timeout_in_milliseconds : Z) (retriesLeft : nat) (ret : GravityReturnCode)
    (response : GravityDataProduct) : node W (GravityReturnCode * GravityDataProduct) :=
  match retriesLeft with
  | O => mret (ret, response)
  | S retriesLeft =>
      if decide (ret ≠ FAILURE ∧ ret ≠ SUCCESS) then
        '(ret, response) ←
          sendRequestToServiceProvider url request response timeout_in_milliseconds;
        send_requests url request timeout_in_milliseconds retriesLeft ret response
      else mret (ret, response)
  end.

Definition sendRequestsToServiceProvider (url : string) (request response : GravityDataProduct)
    (timeout_in_milliseconds : Z) (retries : nat) : node W (GravityReturnCode * GravityDataProduct) :=
  send_requests url request timeout_in_milliseconds retries NOT_INITIALIZED response.

Definition network_url (sd : NetworkNode) : string :=
  nn_transport sd +:+ "://" +:+ nn_ipAddress sd +:+ ":" +:+ pretty (nn_port sd).

Definition sendRequestToServiceDirectory (request response : GravityDataProduct)
    : node W (GravityReturnCode * GravityDataProduct) :=
  Lock serviceDirectoryLock;;
  sd ← gets gn_serviceDirectoryNode;
  r ← sendRequestsToServiceProvider (network_url sd) request response NETWORK_TIMEOUT NETWORK_RETRIES;
  Unlock serviceDirectoryLock;;
  mret r.

(** A request to the directory that is sent again, at most [numTries] times, while it fails. *)
Fixpoint resend (send_once : node W GravityReturnCode) (numTries : nat) (ret : GravityReturnCode)
    : node W GravityReturnCode :=
  match numTries with
  | O => mret ret
  | S numTries =>
      if decide (ret = SUCCESS) then mret ret
      else (ret ← send_once; resend send_once numTries ret)
  end.
End operations.
