(* ===== verification/GravityNodeAPI.v ===== *)
(** * The node: publications, subscriptions, services and requests
    (src/src/api/cpp/GravityNode.cpp)

    Every public operation of a node that talks to its managers or to the directory, in the
    order of the file.  The operations of GravityNode.v do the talking. *)

From S2P Require Import Prelude.
From S2P Require Import Messages.
From S2P Require Import CommUtil.
From S2P Require Import GravityDataProduct.
From S2P Require Import ReturnCodes.
From S2P Require Import GravityHeartbeat.
From S2P Require Import GravityNode.
#[local] Open Scope gravity_scope.

Import GravityReturnCodes.
Import GravityTransportTypes.

Section operations.
Context {W : Type} `{NodeEnvironment W}.
Context `{Protobuf GravityDataProductPB, Protobuf GravityConfigParamPB,
  Protobuf ServiceDirectoryRegistrationPB, Protobuf ServiceDirectoryUnregistrationPB,
  Protobuf ServiceDirectoryResponsePB, Protobuf ComponentLookupRequestPB,
  Protobuf ComponentDataLookupResponsePB, Protobuf ComponentServiceLookupResponsePB,
  Protobuf PublisherInfoPB}.

(** An operation of a node that is not initialized does nothing. *)
Definition when_initialized (op : node W GravityReturnCode) : node W GravityReturnCode :=
  initialized ← gets gn_initialized;
  if negb initialized then mret NOT_INITIALIZED else op.

(** ** Registering *)

(** The transport and the endpoint that a manager binds. *)
Definition transport_endpoint (transportType : GravityTransportType) (id : string)
    : node W (string * string) :=
  match transportType with
  | TCP => (ip ← getIP; mret ("tcp", ip))
  | IPC => mret ("ipc", "/tmp/" +:+ id)
  | INPROC => mret ("inproc", id)
  | PGM => mret ("pgm", id)
  | EPGM => mret ("epgm", id)
  end.

(** The port range, sent for tcp only. *)
Definition port_frames (transportType : GravityTransportType) : node W (list frame) :=
  if decide (transportType = TCP) then
    minPort ← getIntParam "MinPort" MIN_PORT;
    maxPort ← getIntParam "MaxPort" MAX_PORT;
    mret [sendIntMessage minPort; sendIntMessage maxPort]
  else mret [].

(** What the directory's answer to a registration means for the caller; an answer that does
    not parse reads as the default, success. *)
Definition registration_code (response : GravityDataProduct) : GravityReturnCode :=
  match sr_returnCode (populateMessage (M:=ServiceDirectoryResponsePB) response).1 with
  | Messages.SUCCESS => SUCCESS
  | Messages.REGISTRATION_CONFLICT => REGISTRATION_CONFLICT
  | Messages.DUPLICATE_REGISTRATION => DUPLICATE
  | Messages.NOT_REGISTERED => LINK_ERROR
  end.

Definition unregistration_code (response : GravityDataProduct) : GravityReturnCode :=
  match sr_returnCode (populateMessage (M:=ServiceDirectoryResponsePB) response).1 with
  | Messages.SUCCESS | Messages.NOT_REGISTERED => SUCCESS
  | _ => FAILURE
  end.

Definition send_registration (registration : ServiceDirectoryRegistrationPB)
    : node W GravityReturnCode :=
  '(ret, response) ← sendRequestToServiceDirectory
    (setData registration (new_GravityDataProduct "RegistrationRequest"))
    (new_GravityDataProduct "RegistrationResponse");
  mret (if decide (ret = SUCCESS) then registration_code response else ret).

Definition send_unregistration (unregistration : ServiceDirectoryUnregistrationPB)
    : node W GravityReturnCode :=
  '(ret, response) ← sendRequestToServiceDirectory
    (setData unregistration (new_GravityDataProduct "UnregistrationRequest"))
    (new_GravityDataProduct "UnregistrationResponse");
  mret (if decide (ret = SUCCESS) then unregistration_code response else ret).

Definition registerDataProductInternal (dataProductID : string)
    (transportType : GravityTransportType) (cacheLastValue isRelay localOnly allowReservedIDs : bool)
    : node W GravityReturnCode :=
  when_initialized (
  n ← gets id;
  if decide ((gn_componentID n ≠ "ServiceDirectory" ∧
              dataProductID ∈ serviceDirectory_ReservedDataProductIDs n) ∨
             (allowReservedIDs = false ∧ dataProductID ∈ gravityNode_ReservedDataProductIDs n))
  then mret RESERVED_DATA_PRODUCT_ID else
  Lock publishManagerRequestSWL;;
  if decide (is_Some (gn_publishMap n !! dataProductID)) then
    Unlock publishManagerRequestSWL;; mret SUCCESS
  else
    '(transportType_str, endpoint) ← transport_endpoint transportType dataProductID;
    timestamp ← ask env_time;
    ports ← port_frames transportType;
    send publishManagerRequestSWL
      ([sendStringMessage "register"; sendStringMessage dataProductID;
        sendIntMessage (if cacheLastValue then 1 else 0); sendStringMessage transportType_str]
       ++ ports ++ [sendStringMessage endpoint]);;
    connectionURL ← receive publishManagerRequestSWL;
    n ← gets id;
    ret ←
      (if decide (connectionURL = "") then mret NO_PORTS_AVAILABLE
       else if decide (nn_ipAddress (gn_serviceDirectoryNode n) ≠ "") then
         ip ← (if localOnly then (ip ← getIP; mret (Some ip)) else mret None);
         send_registration (mkServiceDirectoryRegistrationPB (Some dataProductID)
           (Some connectionURL) (Some DATA) (Some (gn_componentID n)) None (Some timestamp)
           (Some isRelay) ip)
       else mret NO_SERVICE_DIRECTORY);
    (if decide (ret = SUCCESS) then
       modify (λ n, n <| gn_publishMap ::= insert dataProductID connectionURL |>
         <| gn_urlInstanceMap ::= insert connectionURL timestamp |>
         <| gn_dataRegistrationTimeMap ::= insert dataProductID (epoch_seconds timestamp) |>)
     else
       send publishManagerRequestSWL
         [sendStringMessage "unregister"; sendStringMessage dataProductID];;
       receive publishManagerRequestSWL;;
       mret ());;
    Unlock publishManagerRequestSWL;;
    mret ret).

Definition registerDataProduct (dataProductID : string) (transportType : GravityTransportType)
    (cacheLastValue : option bool) : node W GravityReturnCode :=
  n ← gets id;
  registerDataProductInternal dataProductID transportType
    (default (gn_defaultCacheLastSentDataprodut n) cacheLastValue) false false false.

Definition unregisterDataProduct (dataProductID : string) : node W GravityReturnCode :=
  when_initialized (
  Lock publishManagerRequestSWL;;
  n ← gets id;
  ret ←
    match gn_publishMap n !! dataProductID with
    | None => mret REGISTRATION_CONFLICT
    | Some url =>
        send publishManagerRequestSWL
          [sendStringMessage "unregister"; sendStringMessage dataProductID];;
        receive publishManagerRequestSWL;;
        modify (λ n, n <| gn_publishMap ::= delete dataProductID |>
          <| gn_urlInstanceMap ::= delete url |>);;
        regTime ← registration_time_of dataProductID;
        modify (λ n, n <| gn_dataRegistrationTimeMap ::= delete dataProductID |>);;
        if decide (nn_ipAddress (gn_serviceDirectoryNode n) ≠ "") then
          send_unregistration (mkServiceDirectoryUnregistrationPB (Some dataProductID) (Some url)
            (Some DATA) None (Some regTime))
        else mret SUCCESS
    end;
  Unlock publishManagerRequestSWL;;
  mret ret).

(** The flag is what the caller's reference holds afterwards. *)
Definition subscribersExist (dataProductID : string) : node W (GravityReturnCode * bool) :=
  initialized ← gets gn_initialized;
  if negb initialized then mret (NOT_INITIALIZED, true) else
  Lock publishManagerRequestSWL;;
  send publishManagerRequestSWL
    [sendStringMessage "subscribersExist"; sendStringMessage dataProductID];;
  result ← receive publishManagerRequestSWL;
  Unlock publishManagerRequestSWL;;
  mret (if decide (result = "Y") then (SUCCESS, true)
        else if decide (result = "N") then (SUCCESS, false)
        else if String.prefix "Unknown data product" result then (NOT_REGISTERED, true)
        else (FAILURE, true)).

(** ** Subscribing *)

Definition node_lookup_request (lookupID domain : string) (type : RegistrationType)
    : GravityDataProduct :=
  setData (mkComponentLookupRequestPB (Some lookupID) (Some type) (Some domain))
    (new_GravityDataProduct "ComponentLookupRequest").

(** The publishers found are appended to [urls]. *)
Definition ServiceDirectoryDataProductLookup (dataProductID domain : string)
    (urls : list PublisherInfoPB) : node W (GravityReturnCode * list PublisherInfoPB) :=
  '(ret, response) ← sendRequestToServiceDirectory (node_lookup_request dataProductID domain DATA)
    (new_GravityDataProduct "ComponentLookupResponse");
  mret (if decide (ret = SUCCESS)
        then (SUCCESS, urls ++ dl_publishers
          (populateMessage (M:=ComponentDataLookupResponsePB) response).1)
        else (NO_SERVICE_DIRECTORY, urls)).

(** The wait for the directory to have registered the publisher of its updates; more than one
    is only logged, after which the loop sleeps once more and ends. *)
Fixpoint lookup_registered_publishers (tries : nat) (found : list PublisherInfoPB)
    : node W (GravityReturnCode * list PublisherInfoPB) :=
  match found, tries with
  | _ :: _, _ | _, O => mret (SUCCESS, found)
  | [], S tries =>
      n ← gets id;
      '(ret, found) ←
        ServiceDirectoryDataProductLookup REGISTERED_PUBLISHERS_DPID (gn_myDomain n) found;
      if decide (ret ≠ SUCCESS) then mret (ret, found)
      else
        (match found with
         | [_] => mret ()
         | _ => if decide (0 < tries) then tell (env_sleep 500) else mret ()
         end);;
        lookup_registered_publishers tries found
  end.

(** What the subscription manager is sent. *)
Definition subscribe_message (dataProductID : string) (receiveLastCachedValue : bool)
    (publisherInfoPBs : list PublisherInfoPB) (filter domain url : string) (subscriber : Z)
    : list frame :=
  [sendStringMessage "subscribe"; sendStringMessage dataProductID;
   sendIntMessage (if receiveLastCachedValue then 1 else 0);
   sendUint32Message (Z.of_nat (length publisherInfoPBs))]
  ++ (serialize <$> publisherInfoPBs)
  ++ [sendStringMessage filter; sendStringMessage domain; sendStringMessage url;
      pointer_frame subscriber].

Definition unsubscribe_message (dataProductID filter domain : string) (subscriber : Z) : list frame :=
  [sendStringMessage "unsubscribe"; sendStringMessage dataProductID; sendStringMessage filter;
   sendStringMessage domain; pointer_frame subscriber].

Definition set_monitor_message (dataProductID : string) (monitor milliSecondTimeout : Z)
    (filter domain : string) : list frame :=
  [sendStringMessage "set_monitor"; sendStringMessage dataProductID; pointer_frame monitor;
   sendIntMessage milliSecondTimeout; sendStringMessage filter; sendStringMessage domain].

Definition clear_monitor_message (dataProductID : string) (monitor : Z) (filter domain : string)
    : list frame :=
  [sendStringMessage "clear_monitor"; sendStringMessage dataProductID; pointer_frame monitor;
   sendStringMessage filter; sendStringMessage domain].

Definition subscribeInternal (dataProductID : string) (subscriber : Z) (filter domain : string)
    (receiveLastCachedValue : bool) : node W GravityReturnCode :=
  when_initialized (
  n ← gets id;
  let domain := if decide (domain = "") then gn_myDomain n else domain in
  '(ret, publisherInfoPBs) ← ServiceDirectoryDataProductLookup dataProductID domain [];
  if decide (ret ≠ SUCCESS) then mret ret else
  '(ret, registeredPublishersInfo) ← lookup_registered_publishers 5 [];
  if decide (ret ≠ SUCCESS) then mret ret else
  match registeredPublishersInfo with
  | [] => mret NO_SERVICE_DIRECTORY
  | info :: _ =>
      if decide (pi_url info = None) then mret NO_SERVICE_DIRECTORY else
      send subscriptionManagerSWL
        (subscribe_message dataProductID receiveLastCachedValue publisherInfoPBs filter domain
          (str (pi_url info)) subscriber);;
      modify (λ n, n <| gn_subscriptionList ::= λ l, l ++
        [mkSubscriptionDetails domain dataProductID filter receiveLastCachedValue subscriber] |>);;
      mret SUCCESS
  end).

Definition subscribe (dataProductID : string) (subscriber : Z) (filter domain : string)
    (receiveLastCachedValue : option bool) : node W GravityReturnCode :=
  Lock subscriptionManagerSWL;;
  n ← gets id;
  ret ← subscribeInternal dataProductID subscriber filter domain
    (default (gn_defaultReceiveLastSentDataproduct n) receiveLastCachedValue);
  Unlock subscriptionManagerSWL;;
  mret ret.

Definition unsubscribeInternal (dataProductID : string) (subscriber : Z) (filter domain : string)
    : node W GravityReturnCode :=
  when_initialized (
  n ← gets id;
  let domain := if decide (domain = "") then gn_myDomain n else domain in
  send subscriptionManagerSWL (unsubscribe_message dataProductID filter domain subscriber);;
  modify (λ n, n <| gn_subscriptionList ::= base.filter (λ d,
    ¬ (sub_dataProductID d = dataProductID ∧ sub_domain d = domain ∧ sub_filter d = filter ∧
       sub_subscriber d = subscriber)) |>);;
  mret SUCCESS).

Definition unsubscribe (dataProductID : string) (subscriber : Z) (filter domain : string)
    : node W GravityReturnCode :=
  Lock subscriptionManagerSWL;;
  ret ← unsubscribeInternal dataProductID subscriber filter domain;
  Unlock subscriptionManagerSWL;;
  mret ret.

(** ** Services and requests *)

(** The url and the registration time of a service. *)
Definition ServiceDirectoryServiceLookup (serviceID domain : string)
    : node W (GravityReturnCode * string * Z) :=
  '(ret, response) ← sendRequestToServiceDirectory (node_lookup_request serviceID domain SERVICE)
    (new_GravityDataProduct "ComponentLookupResponse");
  let pb := (populateMessage (M:=ComponentServiceLookupResponsePB) response).1 in
  mret (if decide (ret = SUCCESS) then
          if decide (sl_url pb ≠ "") then (SUCCESS, sl_url pb, num (sl_registration_time pb))
          else (NO_SUCH_SERVICE, "", 0%Z)
        else (NO_SERVICE_DIRECTORY, "", 0%Z)).

(** The asynchronous request to a url.  The caller's data product is sent with the node's
    component and domain. *)
Definition request_url (connectionURL serviceID : string) (dataProduct : GravityDataProduct)
    (requestor regTime : Z) (requestID : string) (timeout_milliseconds : Z)
    : node W GravityReturnCode :=
  when_initialized (
  Lock requestManagerSWL;;
  n ← gets id;
  let dataProduct := setDomain (gn_myDomain n) (setComponentId (gn_componentID n) dataProduct) in
  send requestManagerSWL
    [sendStringMessage "request"; sendStringMessage serviceID; sendStringMessage connectionURL;
     sendStringMessage requestID; sendIntMessage timeout_milliseconds; sendUint32Message regTime;
     serializeToArray dataProduct; pointer_frame requestor];;
  Unlock requestManagerSWL;;
  mret SUCCESS).

(** The asynchronous request by service. *)
Definition request_service (serviceID : string) (dataProduct : GravityDataProduct)
    (requestor : Z) (requestID : string) (timeout_milliseconds : Z) (domain : string)
    : node W GravityReturnCode :=
  when_initialized (
  '(ret, url, regTime) ← ServiceDirectoryServiceLookup serviceID domain;
  if decide (ret ≠ SUCCESS) then mret ret else
  request_url url serviceID dataProduct requestor regTime requestID timeout_milliseconds).

(** What is left of a timeout after a first response. *)
Definition left_of_timeout (timeout_milliseconds t1 t2 : Z) : Z :=
  if decide (0 < timeout_milliseconds)%Z then
    let timeout_milliseconds := (timeout_milliseconds - s32 (u64 (t2 - t1) / 1000))%Z in
    if decide (timeout_milliseconds ≤ 0)%Z then 1%Z else timeout_milliseconds
  else timeout_milliseconds.

(** The synchronous request; [None] is the null pointer. *)
Definition request_sync (serviceID : string) (request : GravityDataProduct)
    (timeout_milliseconds : Z) (domain : string) : node W (option GravityDataProduct) :=
  initialized ← gets gn_initialized;
  if negb initialized then mret None else
  n ← gets id;
  let request := setDomain (gn_myDomain n) (setComponentId (gn_componentID n) request) in
  '(ret, connectionURL, regTime) ← ServiceDirectoryServiceLookup serviceID domain;
  if decide (ret ≠ SUCCESS) then mret None else
  t1 ← ask env_time;
  '(ret, response) ← sendRequestToServiceProvider connectionURL request
    (new_GravityDataProduct serviceID) timeout_milliseconds;
  if decide (ret ≠ SUCCESS) then mret None else
  if decide (getRegistrationTime response ≠ regTime) then mret None else
  if isFutureResponse response then
    timeout_milliseconds ←
      (if decide (0 < timeout_milliseconds)%Z then
         t2 ← ask env_time; mret (left_of_timeout timeout_milliseconds t1 t2)
       else mret timeout_milliseconds);
    '(ret, response) ← sendRequestToServiceProvider (getFutureSocketUrl response) request
      response timeout_milliseconds;
    mret (if decide (ret ≠ SUCCESS) then None else Some response)
  else mret (Some response).

(** The answer of the service manager is not checked: a service that could not be bound is
    registered with an empty url. *)
Definition registerService (serviceID : string) (transportType : GravityTransportType) (server : Z)
    : node W GravityReturnCode :=
  when_initialized (
  Lock serviceManagerSWL;;
  n ← gets id;
  if decide (is_Some (gn_serviceMap n !! serviceID)) then
    Unlock serviceManagerSWL;; mret SUCCESS
  else
    '(transportType_str, endpoint) ← transport_endpoint transportType serviceID;
    timestamp ← ask env_time;
    ports ← port_frames transportType;
    send serviceManagerSWL
      ([sendStringMessage "register"; sendStringMessage serviceID;
        sendStringMessage transportType_str] ++ ports ++
       [sendStringMessage endpoint; sendUint32Message (epoch_seconds timestamp);
        pointer_frame server]);;
    connectionURL ← receive serviceManagerSWL;
    n ← gets id;
    ret ←
      (if decide (nn_ipAddress (gn_serviceDirectoryNode n) ≠ "") then
         send_registration (mkServiceDirectoryRegistrationPB (Some serviceID)
           (Some connectionURL) (Some SERVICE) (Some (gn_componentID n)) None (Some timestamp)
           None None)
       else mret SUCCESS);
    (if decide (ret ≠ SUCCESS) then
       send serviceManagerSWL [sendStringMessage "unregister"; sendStringMessage serviceID];;
       receive serviceManagerSWL;;
       mret ()
     else
       modify (λ n, n <| gn_serviceMap ::= insert serviceID connectionURL |>
         <| gn_urlInstanceMap ::= insert connectionURL timestamp |>));;
    Unlock serviceManagerSWL;;
    mret ret).

(** A service whose url has no instance any more is the way out that keeps the lock. *)
Definition unregisterService (serviceID : string) : node W GravityReturnCode :=
  when_initialized (
  Lock serviceManagerSWL;;
  n ← gets id;
  match gn_serviceMap n !! serviceID with
  | None => Unlock serviceManagerSWL;; mret REGISTRATION_CONFLICT
  | Some url =>
      send serviceManagerSWL [sendStringMessage "unregister"; sendStringMessage serviceID];;
      if decide (gn_urlInstanceMap n !! url = None) then mret REGISTRATION_CONFLICT else
      modify (λ n, n <| gn_serviceMap ::= delete serviceID |>);;
      receive serviceManagerSWL;;
      ret ←
        (if decide (nn_ipAddress (gn_serviceDirectoryNode n) ≠ "") then
           instance ← url_instance url;
           send_unregistration (mkServiceDirectoryUnregistrationPB (Some serviceID) (Some url)
             (Some SERVICE) None (Some (epoch_seconds instance)))
         else mret SUCCESS);
      modify (λ n, n <| gn_urlInstanceMap ::= delete url |>);;
      Unlock serviceManagerSWL;;
      mret ret
  end).

(** ** The directory has restarted *)

(** The registration of one url, with at most three more tries. *)
Definition reregister (componentId : string) (type : RegistrationType) (entry : string * string)
    : node W GravityReturnCode :=
  timestamp ← url_instance entry.2;
  let once :=
    '(ret, _) ← sendRequestToServiceDirectory
      (setData (mkServiceDirectoryRegistrationPB (Some entry.1) (Some entry.2) (Some type)
        (Some componentId) None (Some timestamp) None None)
        (new_GravityDataProduct "RegistrationRequest"))
      (new_GravityDataProduct "RegistrationResponse");
    mret ret in
  ret ← once;
  resend once 3 ret.

Fixpoint reregister_all (componentId : string) (type : RegistrationType)
    (entries : list (string * string)) (ret : GravityReturnCode) : node W GravityReturnCode :=
  match entries with
  | [] => mret ret
  | entry :: entries =>
      entryRet ← reregister componentId type entry;
      reregister_all componentId type entries (if decide (entryRet = SUCCESS) then ret else entryRet)
  end.

(** A subscription is made again without a look at its [receiveLastCachedValue]. *)
Definition resubscribe (d : SubscriptionDetails) : node W GravityReturnCode :=
  let once := subscribeInternal (sub_dataProductID d) (sub_subscriber d) (sub_filter d)
    (sub_domain d) true in
  ret ← once;
  resend once 3 ret.

Fixpoint resubscribe_all (subscriptions : list SubscriptionDetails) : node W unit :=
  match subscriptions with
  | [] => mret ()
  | d :: subscriptions => resubscribe d;; resubscribe_all subscriptions
  end.

Definition ServiceDirectoryReregister (componentId url : string) : node W GravityReturnCode :=
  updateServiceDirectoryUrl url;;
  Lock publishManagerRequestSWL;;
  n ← gets id;
  ret ← reregister_all componentId DATA (kv_items (gn_publishMap n)) SUCCESS;
  Unlock publishManagerRequestSWL;;
  Lock serviceManagerSWL;;
  n ← gets id;
  ret ← reregister_all componentId SERVICE (kv_items (gn_serviceMap n)) ret;
  Unlock serviceManagerSWL;;
  Lock subscriptionManagerSWL;;
  n ← gets id;
  resubscribe_all (gn_subscriptionList n);;
  Unlock subscriptionManagerSWL;;
  mret ret.

(** ** Heartbeats *)

Definition heartbeat_name (componentID : string) : string := componentID +:+ "_GravityHeartbeat".

Definition stopHeartbeat : node W GravityReturnCode :=
  when_initialized (
  n ← gets id;
  if gn_heartbeatStarted n then
    modify (λ n, n <| gn_heartbeatStarted := false |>);;
    tell env_stop_heartbeat;;
    unregisterDataProduct (heartbeat_name (gn_componentID n))
  else mret SUCCESS).

Definition startHeartbeat (interval_in_microseconds : Z) : node W GravityReturnCode :=
  when_initialized (
  n ← gets id;
  if decide (interval_in_microseconds < 0)%Z then mret FAILURE else
  if gn_heartbeatStarted n then mret FAILURE else
  let heartbeatName := heartbeat_name (gn_componentID n) in
  registerDataProductInternal heartbeatName TCP false false false true;;
  minPort ← getIntParam "MinPort" MIN_PORT;
  maxPort ← getIntParam "MaxPort" MAX_PORT;
  endpoint ← getIP;
  registrationTime ← registration_time_of heartbeatName;
  tell (env_start_heartbeat (mkHBParams interval_in_microseconds heartbeatName minPort maxPort
    endpoint registrationTime));;
  modify (λ n, n <| gn_heartbeatStarted := true |>);;
  mret SUCCESS).

Definition registerHeartbeatListener (componentID : string) (timebetweenMessages listener : Z)
    (domain : string) : node W GravityReturnCode :=
  when_initialized (
  n ← gets id;
  (if gn_hbSocket n then mret ()
   else
     modify (λ n, n <| gn_hbSocket := true |>);; tell env_start_heartbeat_listener);;
  ret ← subscribe (heartbeat_name componentID) env_register_hbSub "" domain None;
  (if decide (ret = SUCCESS) then
     send hbSocket [sendStringMessage "register"; sendStringMessage (heartbeat_name componentID);
       pointer_frame listener; le_bytes 8 timebetweenMessages];;
     receive hbSocket;;
     mret ()
   else mret ());;
  mret ret).

(** The subscription that is given up is that of the node's own domain. *)
Definition unregisterHeartbeatListener (componentID domain : string) : node W GravityReturnCode :=
  when_initialized (
  unsubscribe (heartbeat_name componentID) env_unregister_hbSub "" "";;
  send hbSocket [sendStringMessage "unregister"; sendStringMessage (heartbeat_name componentID)];;
  receive hbSocket;;
  mret SUCCESS).

(** ** Relays *)

Definition registerRelay (dataProductID : string) (subscriber : Z) (localOnly : bool)
    (transportType : GravityTransportType) (cacheLastValue : bool) : node W GravityReturnCode :=
  when_initialized (
  ret ← registerDataProductInternal dataProductID transportType cacheLastValue true localOnly false;
  if decide (ret ≠ SUCCESS) then mret ret
  else subscribe dataProductID subscriber "" "" (Some false)).

Definition unregisterRelay (dataProductID : string) (subscriber : Z) : node W GravityReturnCode :=
  when_initialized (
  ret ← unregisterDataProduct dataProductID;
  if decide (ret ≠ SUCCESS) then unsubscribe dataProductID subscriber "" "";; mret ret
  else unsubscribe dataProductID subscriber "" "").

(** ** Future responses *)

(** The way out without a port keeps the lock. *)
Definition createFutureResponse : node W (option GravityDataProduct) :=
  initialized ← gets gn_initialized;
  if negb initialized then mret None else
  Lock requestManagerRepSWL;;
  ip ← getIP;
  minPort ← getIntParam "MinPort" MIN_PORT;
  maxPort ← getIntParam "MaxPort" MAX_PORT;
  send requestManagerRepSWL
    [sendStringMessage "createFutureResponse"; sendStringMessage ip; sendIntMessage minPort;
     sendIntMessage maxPort];;
  url ← receive requestManagerRepSWL;
  if decide (url = "") then mret None
  else (Unlock requestManagerRepSWL;; mret (Some (new_FutureResponse url))).

(** The integer that the request manager answers is the code. *)
Definition sendFutureResponse (futureResponse : GravityDataProduct) : node W Z :=
  initialized ← gets gn_initialized;
  if negb initialized then mret (code NOT_INITIALIZED) else
  Lock requestManagerRepSWL;;
  n ← gets id;
  let response := setDomain (gn_myDomain n) (setComponentId (gn_componentID n)
    (GravityDataProduct_from_bytes (str (gdp_data futureResponse)))) in
  send requestManagerRepSWL
    [sendStringMessage "sendFutureResponse"; sendStringMessage (getUrl futureResponse);
     serializeToArray response];;
  ret ← receive requestManagerRepSWL;
  Unlock requestManagerRepSWL;;
  mret (s32 (le_value ret)).

(** ** Subscription monitors *)

Definition setSubscriptionTimeoutMonitor (dataProductID : string) (monitor : Z)
    (milliSecondTimeout : Z) (filter domain : string) : node W GravityReturnCode :=
  when_initialized (
  n ← gets id;
  let domain := if decide (domain = "") then gn_myDomain n else domain in
  if decide (milliSecondTimeout ≤ 0)%Z then mret INVALID_PARAMETER else
  Lock subscriptionManagerSWL;;
  send subscriptionManagerSWL
    (set_monitor_message dataProductID monitor milliSecondTimeout filter domain);;
  Unlock subscriptionManagerSWL;;
  mret SUCCESS).

(** An empty domain is sent as it is. *)
Definition clearSubscriptionTimeoutMonitor (dataProductID : string) (monitor : Z)
    (filter domain : string) : node W GravityReturnCode :=
  when_initialized (
  Lock subscriptionManagerSWL;;
  send subscriptionManagerSWL (clear_monitor_message dataProductID monitor filter domain);;
  Unlock subscriptionManagerSWL;;
  mret SUCCESS).
End operations.
