(* ===== verification/GravityNodeProofs.v ===== *)
(** * Properties of the node

    Which operations give their locks back; what is recorded when a publication is
    registered; what a restart of the directory does to the subscriptions; the address of
    the directory read out of its url. *)

From stdpp Require Import pretty.
From Stdlib Require Import Ascii.
From S2P Require Import Prelude.
From S2P Require Import Messages.
From S2P Require Import CommUtil.
From S2P Require Import Utility.
From S2P Require Import GravityDataProduct.
From S2P Require Import ReturnCodes.
From S2P Require Import GravityHeartbeat.
From S2P Require Import GravityNode.
From S2P Require Import GravityNodeAPI.
#[local] Open Scope gravity_scope.

Import GravityReturnCodes.
Import GravityTransportTypes.

Create HintDb node_net.

Section locks.
Context {W : Type} `{NodeEnvironment W}.

(** ** Locks *)

(** What an operation that returns adds to the count of a semaphore. *)
Definition net {A} (l : NodeSocket) (d : Z) (m : node W A) : Prop :=
  ∀ n w x n' w', m n w = Some (x, n', w') →
    Z.of_nat (gn_semaphore n' l) = (Z.of_nat (gn_semaphore n l) + d)%Z.

Definition one_if (l l' : NodeSocket) : Z := if decide (l = l') then 1 else 0.

Lemma net_ret {A} l d (x : A) : d = 0%Z → net l d (mret x).
Proof. intros -> n w y n' w' [= <- <- <-]. lia. Qed.

Lemma net_bind {A B} d1 l d (m : node W A) (k : A → node W B) :
  net l d1 m → (∀ x, net l (d - d1) (k x)) → net l d (m ≫= k).
Proof.
  intros Hm Hk n w y n' w'. unfold mbind, node_bind.
  destruct (m n w) as [[[x n1] w1]|] eqn:E; [|done]. intros Hy.
  apply Hm in E. apply Hk in Hy. lia.
Qed.

Lemma net_gets {A} l (f : GravityNode → A) : net l 0 (gets f).
Proof. intros n w x n' w' [= <- <- <-]. lia. Qed.

Lemma net_modify l f : (∀ n, gn_semaphore (f n) = gn_semaphore n) → net l 0 (modify f).
Proof. intros Hf n w x n' w' [= <- <- <-]. rewrite Hf. lia. Qed.

Lemma net_ask {A} l (f : W → A * W) : net l 0 (ask f).
Proof. intros n w x n' w'. unfold ask. destruct (f w). intros [= <- <- <-]. lia. Qed.

Lemma net_tell l (f : W → W) : net l 0 (tell f).
Proof. intros n w x n' w' [= <- <- <-]. lia. Qed.

Lemma net_send l socket frames : net l 0 (send socket frames).
Proof. apply net_tell. Qed.

Lemma net_receive l socket : net l 0 (receive socket).
Proof.
  intros n w x n' w'. unfold receive. destruct (env_receive socket w) as [[f w1]|]; [|done].
  intros [= <- <- <-]. lia.
Qed.

Lemma net_none {A} l d : net l d (λ _ _, @None (A * GravityNode * W)).
Proof. by intros n w x n' w'. Qed.

Lemma net_Lock l l' : net l (- one_if l l') (Lock l').
Proof.
  intros n w x n' w'. unfold Lock, one_if. destruct (gn_semaphore n l') eqn:E; [done|].
  intros [= <- <- <-]. cbn. unfold update. cbn. goal_decide; subst; lia.
Qed.

Lemma net_Unlock l l' : net l (one_if l l') (Unlock l').
Proof.
  intros n w x n' w' [= <- <- <-]. unfold one_if. cbn. unfold update. cbn. goal_decide; subst; lia.
Qed.
End locks.

#[export] Hint Resolve net_gets net_ask net_tell net_send net_receive net_Lock net_Unlock : node_net.

(** Splits an operation into its steps, whose effects on a semaphore are known; the
    composite steps have none. *)
Ltac net_step :=
  match goal with
  | |- net _ _ (mret _) => apply net_ret; lia
  | |- net _ _ (mbind _ (Lock _)) => eapply net_bind; [apply net_Lock|intros ?]
  | |- net _ _ (mbind _ (Unlock _)) => eapply net_bind; [apply net_Unlock|intros ?]
  | |- net _ _ (mbind _ _) => apply (net_bind 0); [|intros ?]
  | |- net _ _ (modify _) => apply net_modify; done
  | |- net _ _ (match ?x with _ => _ end) => destruct x
  | |- net _ _ (if ?x then _ else _) => destruct x
  | |- net _ (0 - 0) _ => change (0 - 0)%Z with 0%Z
  | |- net ?l ?d (Unlock ?l') => replace d with (one_if l l') by lia; apply net_Unlock
  | |- net _ _ _ => solve [apply net_none]
  | |- net _ _ _ => solve [eauto with node_net]
  | |- net _ ?d _ => replace d with 0%Z by lia; solve [eauto with node_net]
  end.
Ltac net_solve := repeat net_step.

Section runs.
Context {W : Type} `{NodeEnvironment W}.

(** The steps of a run. *)
Lemma bind_inv {A B} (m : node W A) (k : A → node W B) n w y n' w' :
  (m ≫= k) n w = Some (y, n', w') →
  ∃ x n1 w1, m n w = Some (x, n1, w1) ∧ k x n1 w1 = Some (y, n', w').
Proof.
  unfold mbind, node_bind. destruct (m n w) as [[[x n1] w1]|]; [|done]. by eexists _, _, _.
Qed.

Lemma Lock_inv l n (w : W) x n' w' :
  Lock l n w = Some (x, n', w') → ∃ k, gn_semaphore n l = S k ∧ n' = set_semaphore l k n ∧ w' = w.
Proof. unfold Lock. destruct (gn_semaphore n l) as [|k]; [done|]. intros [= <- <- <-]. eauto. Qed.

End runs.

(** ** What an operation leaves alone *)

(** The same node but for its locks, what it published of its settings, and zeroes in the
    map of registration times. *)
Record quiet (n n' : GravityNode) : Prop := {
  quiet_initialized : gn_initialized n' = gn_initialized n;
  quiet_componentID : gn_componentID n' = gn_componentID n;
  quiet_myDomain : gn_myDomain n' = gn_myDomain n;
  quiet_serviceDirectoryNode : gn_serviceDirectoryNode n' = gn_serviceDirectoryNode n;
  quiet_publishMap : gn_publishMap n' = gn_publishMap n;
  quiet_serviceMap : gn_serviceMap n' = gn_serviceMap n;
  quiet_subscriptionList : gn_subscriptionList n' = gn_subscriptionList n;
  quiet_urlInstanceMap : gn_urlInstanceMap n' = gn_urlInstanceMap n;
  quiet_registration_time i :
    idx 0%Z i (gn_dataRegistrationTimeMap n') = idx 0%Z i (gn_dataRegistrationTimeMap n);
}.

#[export] Instance quiet_preorder : PreOrder quiet.
Proof.
  split.
  - intros n. by split.
  - intros n1 n2 n3 [] []. by split; congruence.
Qed.

(** An operation whose runs end in states that are [quiet] against the start. *)
Definition quietly {W A} (m : node W A) : Prop :=
  ∀ n w x n' w', m n w = Some (x, n', w') → quiet n n'.

Section quietly.
Context {W : Type} `{NodeEnvironment W}.

Lemma quietly_ret {A} (x : A) : quietly (mret (M:=node W) x).
Proof. by intros n w y n' w' [= <- <- <-]. Qed.
Lemma quietly_bind {A B} (m : node W A) (k : A → node W B) :
  quietly m → (∀ x, quietly (k x)) → quietly (m ≫= k).
Proof.
  intros Hm Hk n w y n' w' (x & n1 & w1 & E1 & E2)%bind_inv.
  etrans; [by eapply Hm|by eapply Hk].
Qed.
Lemma quietly_gets {A} (f : GravityNode → A) : quietly (gets (W:=W) f).
Proof. by intros n w x n' w' [= <- <- <-]. Qed.
Lemma quietly_modify f : (∀ n, quiet n (f n)) → quietly (modify (W:=W) f).
Proof. intros Hf n w x n' w' [= <- <- <-]. apply Hf. Qed.
Lemma quietly_ask {A} (f : W → A * W) : quietly (ask f).
Proof. intros n w x n' w'. unfold ask. destruct (f w). by intros [= <- <- <-]. Qed.
Lemma quietly_tell (f : W → W) : quietly (tell f).
Proof. by intros n w x n' w' [= <- <- <-]. Qed.
Lemma quietly_send socket frames : quietly (send (W:=W) socket frames).
Proof. apply quietly_tell. Qed.
Lemma quietly_receive socket : quietly (receive (W:=W) socket).
Proof.
  intros n w x n' w'. unfold receive. destruct (env_receive socket w) as [[]|]; [|done].
  by intros [= <- <- <-].
Qed.
Lemma quietly_Lock l : quietly (Lock (W:=W) l).
Proof. intros n w x n' w' (k & _ & -> & ->)%Lock_inv. by split. Qed.
Lemma quietly_Unlock l : quietly (Unlock (W:=W) l).
Proof. intros n w x n' w' [= <- <- <-]. by split. Qed.
End quietly.

Create HintDb node_quiet.
#[export] Hint Resolve quietly_gets quietly_ask quietly_tell quietly_send quietly_receive
  quietly_Lock quietly_Unlock : node_quiet.

Ltac quiet_step :=
  match goal with
  | |- quietly (mret _) => apply quietly_ret
  | |- quietly (mbind _ _) => apply quietly_bind; [|intros ?]
  | |- quietly (match ?x with _ => _ end) => destruct x
  | |- quietly (if ?x then _ else _) => destruct x
  | |- quietly _ => solve [eauto with node_quiet]
  end.
Ltac quiet_solve := repeat quiet_step.

Section operations.
Context {W : Type} `{NodeEnvironment W}.
Context `{Protobuf GravityDataProductPB, Protobuf GravityConfigParamPB,
  Protobuf ServiceDirectoryRegistrationPB, Protobuf ServiceDirectoryUnregistrationPB,
  Protobuf ServiceDirectoryResponsePB, Protobuf ComponentLookupRequestPB,
  Protobuf ComponentDataLookupResponsePB, Protobuf ComponentServiceLookupResponsePB,
  Protobuf PublisherInfoPB}.

Lemma net_registration_time_of l i : net (W:=W) l 0 (registration_time_of i).
Proof. unfold registration_time_of. net_solve. Qed.
Lemma net_url_instance l url : net (W:=W) l 0 (url_instance url).
Proof. unfold url_instance. net_solve. Qed.
Lemma net_getIP l : net (W:=W) l 0 getIP.
Proof. unfold getIP. net_solve. Qed.
Hint Resolve net_registration_time_of net_url_instance net_getIP : node_net.

Lemma net_publish l g f t : net (W:=W) l 0 (publish g f t).
Proof. unfold publish. net_solve. Qed.
Hint Resolve net_publish : node_net.
Lemma net_getStringParam l k d : net (W:=W) l 0 (getStringParam k d).
Proof. unfold getStringParam. net_solve. Qed.
Hint Resolve net_getStringParam : node_net.
Lemma net_getIntParam l k d : net (W:=W) l 0 (getIntParam k d).
Proof. unfold getIntParam. net_solve. Qed.
Hint Resolve net_getIntParam : node_net.

Lemma net_updateServiceDirectoryUrl l url : net (W:=W) l 0 (updateServiceDirectoryUrl url).
Proof. unfold updateServiceDirectoryUrl. net_solve. Qed.
Lemma net_send_requests l url q t k ret resp : net (W:=W) l 0 (send_requests url q t k ret resp).
Proof.
  revert ret resp. induction k as [|k IH]; intros ret resp; cbn [send_requests]; [net_solve|].
  unfold sendRequestToServiceProvider. net_solve; apply IH.
Qed.
Hint Resolve net_updateServiceDirectoryUrl net_send_requests : node_net.
Lemma net_sendRequestToServiceDirectory l q r : net (W:=W) l 0 (sendRequestToServiceDirectory q r).
Proof. unfold sendRequestToServiceDirectory, sendRequestsToServiceProvider. net_solve. Qed.
Hint Resolve net_sendRequestToServiceDirectory : node_net.
Lemma net_resend l m k ret : net (W:=W) l 0 m → net (W:=W) l 0 (resend m k ret).
Proof.
  intros Hm. revert ret. induction k as [|k IH]; intros ret; cbn [resend]; [net_solve|].
  net_solve.
Qed.

Lemma net_send_registration l r : net (W:=W) l 0 (send_registration r).
Proof. unfold send_registration. net_solve. Qed.
Lemma net_send_unregistration l r : net (W:=W) l 0 (send_unregistration r).
Proof. unfold send_unregistration. net_solve. Qed.
Lemma net_transport_endpoint l t i : net (W:=W) l 0 (transport_endpoint t i).
Proof. unfold transport_endpoint. net_solve. Qed.
Lemma net_port_frames l t : net (W:=W) l 0 (port_frames t).
Proof. unfold port_frames. net_solve. Qed.
Hint Resolve net_send_registration net_send_unregistration net_transport_endpoint
  net_port_frames : node_net.

Lemma net_registerDataProductInternal l i t a b c d :
  net (W:=W) l 0 (registerDataProductInternal i t a b c d).
Proof. unfold registerDataProductInternal, when_initialized. net_solve. Qed.
Lemma net_unregisterDataProduct l i : net (W:=W) l 0 (unregisterDataProduct i).
Proof. unfold unregisterDataProduct, when_initialized. net_solve. Qed.
Lemma net_subscribersExist l i : net (W:=W) l 0 (subscribersExist i).
Proof. unfold subscribersExist. net_solve. Qed.
Hint Resolve net_registerDataProductInternal net_unregisterDataProduct net_subscribersExist
  : node_net.

Lemma net_ServiceDirectoryDataProductLookup l i d u :
  net (W:=W) l 0 (ServiceDirectoryDataProductLookup i d u).
Proof. unfold ServiceDirectoryDataProductLookup. net_solve. Qed.
Hint Resolve net_ServiceDirectoryDataProductLookup : node_net.
Lemma net_lookup_registered_publishers l k u : net (W:=W) l 0 (lookup_registered_publishers k u).
Proof.
  revert u. induction k as [|k IH]; intros u; cbn [lookup_registered_publishers]; net_solve.
Qed.
Hint Resolve net_lookup_registered_publishers : node_net.
Lemma net_subscribeInternal l i s f d r : net (W:=W) l 0 (subscribeInternal i s f d r).
Proof. unfold subscribeInternal, when_initialized. net_solve. Qed.
Hint Resolve net_subscribeInternal : node_net.
Lemma net_subscribe l i s f d r : net (W:=W) l 0 (subscribe i s f d r).
Proof. unfold subscribe. net_solve. Qed.
Lemma net_unsubscribe l i s f d : net (W:=W) l 0 (unsubscribe i s f d).
Proof. unfold unsubscribe, unsubscribeInternal, when_initialized. net_solve. Qed.
Hint Resolve net_subscribe net_unsubscribe : node_net.

Lemma net_ServiceDirectoryServiceLookup l i d : net (W:=W) l 0 (ServiceDirectoryServiceLookup i d).
Proof. unfold ServiceDirectoryServiceLookup. net_solve. Qed.
Hint Resolve net_ServiceDirectoryServiceLookup : node_net.
Lemma net_request_url l u i g q r s t : net (W:=W) l 0 (request_url u i g q r s t).
Proof. unfold request_url, when_initialized. net_solve. Qed.
Hint Resolve net_request_url : node_net.
Lemma net_request_service l i g q s t d : net (W:=W) l 0 (request_service i g q s t d).
Proof. unfold request_service, when_initialized. net_solve. Qed.
Lemma net_request_sync l i g t d : net (W:=W) l 0 (request_sync i g t d).
Proof. unfold request_sync, sendRequestToServiceProvider. net_solve. Qed.
Lemma net_registerService l i t s : net (W:=W) l 0 (registerService i t s).
Proof. unfold registerService, when_initialized. net_solve. Qed.
Hint Resolve net_request_service net_request_sync net_registerService : node_net.

Lemma net_reregister_all l c t es ret : net (W:=W) l 0 (reregister_all c t es ret).
Proof.
  revert ret. induction es as [|e es IH]; intros ret; cbn [reregister_all]; [net_solve|].
  apply (net_bind 0); [|intros ?; apply IH]. unfold reregister.
  apply (net_bind 0); [net_solve|intros ts]. apply (net_bind 0); [net_solve|intros r].
  apply net_resend. net_solve.
Qed.
Lemma net_resubscribe_all l ds : net (W:=W) l 0 (resubscribe_all ds).
Proof.
  induction ds as [|d ds IH]; cbn [resubscribe_all]; [net_solve|].
  apply (net_bind 0); [|intros ?; apply IH]. unfold resubscribe.
  apply (net_bind 0); [net_solve|intros r]. apply net_resend. net_solve.
Qed.
Hint Resolve net_reregister_all net_resubscribe_all : node_net.
Lemma net_ServiceDirectoryReregister l c u : net (W:=W) l 0 (ServiceDirectoryReregister c u).
Proof. unfold ServiceDirectoryReregister. net_solve. Qed.

Lemma set_semaphore_lookup l k n l' :
  gn_semaphore (set_semaphore l k n) l' = if decide (l' = l) then k else gn_semaphore n l'.
Proof. done. Qed.

(** What [unregisterService] does once the service and its url are known. *)
Lemma unregisterService_locks i n (w : W) r n' w' :
  unregisterService i n w = Some (r, n', w') →
  (∀ l, gn_semaphore n' l = gn_semaphore n l) ∨
  ∃ url, gn_serviceMap n !! i = Some url ∧ gn_urlInstanceMap n !! url = None ∧
    ∀ l, gn_semaphore n' l + (if decide (l = serviceManagerSWL) then 1 else 0) = gn_semaphore n l.
Proof.
  intros E. unfold unregisterService, when_initialized in E.
  apply bind_inv in E as (b & n1 & w1 & [= <- <- <-] & E).
  destruct (gn_initialized n); cbn [negb] in E; [|injection E as <- <- <-; by left].
  apply bind_inv in E as (u & n1 & w1 & HL & E). apply Lock_inv in HL as (k & Hk & -> & ->).
  apply bind_inv in E as (n2 & n3 & w2 & [= <- <- <-] & E).
  change (gn_serviceMap (set_semaphore serviceManagerSWL k n)) with (gn_serviceMap n) in E.
  assert (Hnet : ∀ (m : node W GravityReturnCode) w0, (∀ l, net l (one_if l serviceManagerSWL) m) →
    m (set_semaphore serviceManagerSWL k n) w0 = Some (r, n', w') →
    ∀ l, gn_semaphore n' l = gn_semaphore n l).
  { intros m w0 Hm Em l. apply (Hm l) in Em. rewrite set_semaphore_lookup in Em. unfold one_if in Em.
    destruct (decide (l = serviceManagerSWL)); subst; lia. }
  destruct (gn_serviceMap n !! i) as [url|] eqn:Hs.
  2: { left. revert E. apply Hnet. intros l. net_solve. }
  apply bind_inv in E as (v & n3 & w3 & [= <- <- <-] & E).
  change (gn_urlInstanceMap (set_semaphore serviceManagerSWL k n))
    with (gn_urlInstanceMap n) in E.
  destruct (decide (gn_urlInstanceMap n !! url = None)) as [Hu|Hu].
  - right. exists url. split_and!; [done|done|]. injection E as <- <- <-. intros l.
    rewrite set_semaphore_lookup. destruct (decide (l = serviceManagerSWL)); subst; lia.
  - left. revert E. apply Hnet. intros l. net_solve.
Qed.
Lemma createFutureResponse_locks n (w : W) r n' w' :
  createFutureResponse n w = Some (r, n', w') →
  (∀ l, gn_semaphore n' l = gn_semaphore n l) ∨
  r = None ∧
    ∀ l, gn_semaphore n' l + (if decide (l = requestManagerRepSWL) then 1 else 0) = gn_semaphore n l.
Proof.
  intros E. unfold createFutureResponse in E.
  apply bind_inv in E as (b & n1 & w1 & [= <- <- <-] & E).
  destruct (gn_initialized n); cbn [negb] in E; [|injection E as <- <- <-; by left].
  apply bind_inv in E as (? & n1 & w1 & E1 & E). apply bind_inv in E as (ip & n2 & w2 & E2 & E).
  apply bind_inv in E as (? & n3 & w3 & E3 & E). apply bind_inv in E as (? & n4 & w4 & E4 & E).
  apply bind_inv in E as (? & n5 & w5 & E5 & E). apply bind_inv in E as (url & n6 & w6 & E6 & E).
  assert (Hn : ∀ l, Z.of_nat (gn_semaphore n6 l) =
    (Z.of_nat (gn_semaphore n l) - one_if l requestManagerRepSWL)%Z).
  { intros l. pose proof (net_Lock l _ _ _ _ _ _ E1). pose proof (net_getIP l _ _ _ _ _ E2).
    pose proof (net_getIntParam l _ _ _ _ _ _ _ E3). pose proof (net_getIntParam l _ _ _ _ _ _ _ E4).
    pose proof (net_send l _ _ _ _ _ _ _ E5). pose proof (net_receive l _ _ _ _ _ _ E6). lia. }
  unfold one_if in Hn. destruct (decide (url = "")).
  - right. injection E as <- <- <-. split; [done|]. intros l. specialize (Hn l).
    destruct (decide (l = requestManagerRepSWL)); lia.
  - left. intros l. specialize (Hn l).
    assert (Hu : net l (one_if l requestManagerRepSWL)
      (Unlock requestManagerRepSWL;; mret (M:=node W) (Some (new_FutureResponse url)))) by net_solve.
    apply Hu in E. unfold one_if in E. destruct (decide (l = requestManagerRepSWL)); lia.
Qed.

(** ** Every operation *)

Inductive NodeCall :=
| Call_publish (dataProduct : GravityDataProduct) (filterText : string) (timestamp : Z)
| Call_registerDataProduct (id : string) (t : GravityTransportType) (cache : option bool)
| Call_unregisterDataProduct (id : string)
| Call_subscribersExist (id : string)
| Call_subscribe (id : string) (subscriber : Z) (filter domain : string) (cached : option bool)
| Call_unsubscribe (id : string) (subscriber : Z) (filter domain : string)
| Call_request_service (id : string) (q : GravityDataProduct) (requestor : Z) (requestID : string)
    (timeout : Z) (domain : string)
| Call_request_sync (id : string) (q : GravityDataProduct) (timeout : Z) (domain : string)
| Call_registerService (id : string) (t : GravityTransportType) (server : Z)
| Call_unregisterService (id : string)
| Call_ServiceDirectoryReregister (componentId url : string)
| Call_stopHeartbeat
| Call_startHeartbeat (interval : Z)
| Call_registerHeartbeatListener (componentID : string) (time listener : Z) (domain : string)
| Call_unregisterHeartbeatListener (componentID domain : string)
| Call_registerRelay (id : string) (subscriber : Z) (localOnly : bool) (t : GravityTransportType)
    (cache : bool)
| Call_unregisterRelay (id : string) (subscriber : Z)
| Call_createFutureResponse
| Call_sendFutureResponse (response : GravityDataProduct)
| Call_setSubscriptionTimeoutMonitor (id : string) (monitor timeout : Z) (filter domain : string)
| Call_clearSubscriptionTimeoutMonitor (id : string) (monitor : Z) (filter domain : string)
| Call_getIP.

Definition run_call (c : NodeCall) : node W unit :=
  match c with
  | Call_publish g f t => publish g f t;; mret ()
  | Call_registerDataProduct i t c => registerDataProduct i t c;; mret ()
  | Call_unregisterDataProduct i => unregisterDataProduct i;; mret ()
  | Call_subscribersExist i => subscribersExist i;; mret ()
  | Call_subscribe i s f d c => subscribe i s f d c;; mret ()
  | Call_unsubscribe i s f d => unsubscribe i s f d;; mret ()
  | Call_request_service i q r s t d => request_service i q r s t d;; mret ()
  | Call_request_sync i q t d => request_sync i q t d;; mret ()
  | Call_registerService i t s => registerService i t s;; mret ()
  | Call_unregisterService i => unregisterService i;; mret ()
  | Call_ServiceDirectoryReregister c u => ServiceDirectoryReregister c u;; mret ()
  | Call_stopHeartbeat => stopHeartbeat;; mret ()
  | Call_startHeartbeat i => startHeartbeat i;; mret ()
  | Call_registerHeartbeatListener c t l d => registerHeartbeatListener c t l d;; mret ()
  | Call_unregisterHeartbeatListener c d => unregisterHeartbeatListener c d;; mret ()
  | Call_registerRelay i s lo t c => registerRelay i s lo t c;; mret ()
  | Call_unregisterRelay i s => unregisterRelay i s;; mret ()
  | Call_createFutureResponse => createFutureResponse;; mret ()
  | Call_sendFutureResponse r => sendFutureResponse r;; mret ()
  | Call_setSubscriptionTimeoutMonitor i m t f d => setSubscriptionTimeoutMonitor i m t f d;; mret ()
  | Call_clearSubscriptionTimeoutMonitor i m f d => clearSubscriptionTimeoutMonitor i m f d;; mret ()
  | Call_getIP => getIP;; mret ()
  end.

Lemma net_other_calls l c :
  (∀ i, c ≠ Call_unregisterService i) → c ≠ Call_createFutureResponse → net (W:=W) l 0 (run_call c).
Proof.
  intros Hu Hc. destruct c; try done; try (by destruct (Hu id)); cbn [run_call];
    (apply (net_bind 0); [|intros ?; net_solve]);
    unfold registerDataProduct, stopHeartbeat, startHeartbeat, registerHeartbeatListener,
      unregisterHeartbeatListener, registerRelay, unregisterRelay, sendFutureResponse,
      setSubscriptionTimeoutMonitor, clearSubscriptionTimeoutMonitor, when_initialized;
    try apply net_ServiceDirectoryReregister; net_solve.
Qed.

(** C27. An operation of a node that returns has given back every lock it took, so that the
    next one can run, with two exceptions.  Unregistering a service whose url another
    service has taken out of the url map keeps the lock of the services; asking for a
    future response when no port is free keeps the lock of the future responses. *)
Theorem calls_return_their_locks (c : NodeCall) n (w : W) n' w'
    (Hrun : run_call c n w = Some ((), n', w')) :
  (∀ l, gn_semaphore n' l = gn_semaphore n l) ∨
  (∃ id url, c = Call_unregisterService id ∧
    gn_serviceMap n !! id = Some url ∧ gn_urlInstanceMap n !! url = None ∧
    ∀ l, gn_semaphore n' l + (if decide (l = serviceManagerSWL) then 1 else 0) = gn_semaphore n l) ∨
  (c = Call_createFutureResponse ∧ fst <$> (fst <$> createFutureResponse n w) = Some None ∧
    ∀ l, gn_semaphore n' l + (if decide (l = requestManagerRepSWL) then 1 else 0) = gn_semaphore n l).
Proof.
  assert (Hc : (∃ id, c = Call_unregisterService id) ∨ c = Call_createFutureResponse ∨
    (∀ i, c ≠ Call_unregisterService i) ∧ c ≠ Call_createFutureResponse) by (destruct c; naive_solver).
  destruct Hc as [[i ->]|[->|[Hu Hf]]].
  - apply bind_inv in Hrun as (r & n1 & w1 & E & [= <- <-]).
    apply unregisterService_locks in E as [E|(url & Hs & Hu & E)]; [by left|].
    right; left. by exists i, url.
  - apply bind_inv in Hrun as (r & n1 & w1 & E & [= <- <-]).
    destruct (createFutureResponse_locks _ _ _ _ _ E) as [El|[-> El]]; [by left|].
    right; right. by rewrite E.
  - left. intros l. apply (net_other_calls l c Hu Hf) in Hrun. lia.
Qed.

(** ** Runs that leave the registrations alone *)

Lemma quietly_registration_time_of i : quietly (registration_time_of (W:=W) i).
Proof.
  unfold registration_time_of. quiet_solve. apply quietly_modify. intros n. split; try done.
  intros j. cbn. unfold update. cbn. apply idx_touch_idx.
Qed.
Lemma quietly_getIP : quietly (getIP (W:=W)).
Proof. unfold getIP. quiet_solve. Qed.
Hint Resolve quietly_registration_time_of quietly_getIP : node_quiet.
Lemma quietly_publish g f t : quietly (publish (W:=W) g f t).
Proof. unfold publish. quiet_solve. Qed.
Hint Resolve quietly_publish : node_quiet.
Lemma quietly_getStringParam k d : quietly (getStringParam (W:=W) k d).
Proof. unfold getStringParam. quiet_solve. by apply quietly_modify. Qed.
Hint Resolve quietly_getStringParam : node_quiet.
Lemma quietly_getIntParam k d : quietly (getIntParam (W:=W) k d).
Proof. unfold getIntParam. quiet_solve. Qed.
Hint Resolve quietly_getIntParam : node_quiet.
Lemma quietly_send_requests url q t k ret resp : quietly (send_requests (W:=W) url q t k ret resp).
Proof.
  revert ret resp. induction k as [|k IH]; intros ret resp; cbn [send_requests]; [quiet_solve|].
  unfold sendRequestToServiceProvider. quiet_solve.
Qed.
Hint Resolve quietly_send_requests : node_quiet.
Lemma quietly_sendRequestToServiceDirectory q r : quietly (sendRequestToServiceDirectory (W:=W) q r).
Proof. unfold sendRequestToServiceDirectory, sendRequestsToServiceProvider. quiet_solve. Qed.
Hint Resolve quietly_sendRequestToServiceDirectory : node_quiet.
Lemma quietly_send_registration r : quietly (send_registration (W:=W) r).
Proof. unfold send_registration. quiet_solve. Qed.
Lemma quietly_send_unregistration r : quietly (send_unregistration (W:=W) r).
Proof. unfold send_unregistration. quiet_solve. Qed.
Lemma quietly_transport_endpoint t i : quietly (transport_endpoint (W:=W) t i).
Proof. unfold transport_endpoint. quiet_solve. Qed.
Lemma quietly_port_frames t : quietly (port_frames (W:=W) t).
Proof. unfold port_frames. quiet_solve. Qed.
Hint Resolve quietly_send_registration quietly_send_unregistration quietly_transport_endpoint
  quietly_port_frames : node_quiet.
Lemma quietly_ServiceDirectoryDataProductLookup i d u :
  quietly (ServiceDirectoryDataProductLookup (W:=W) i d u).
Proof. unfold ServiceDirectoryDataProductLookup. quiet_solve. Qed.
Hint Resolve quietly_ServiceDirectoryDataProductLookup : node_quiet.
Lemma quietly_lookup_registered_publishers k u : quietly (lookup_registered_publishers (W:=W) k u).
Proof.
  revert u. induction k as [|k IH]; intros u; cbn [lookup_registered_publishers]; quiet_solve.
Qed.
Hint Resolve quietly_lookup_registered_publishers : node_quiet.

(** ** Services *)

Lemma url_instance_known url n (w : W) x n' w' :
  gn_urlInstanceMap n !! url ≠ None → url_instance url n w = Some (x, n', w') → quiet n n'.
Proof.
  intros Hu E. apply bind_inv in E as (m & n1 & w1 & [= <- <- <-] & E).
  apply bind_inv in E as (u & n2 & w2 & [= <- <- <-] & [= <- <- <-]).
  split; try done. change (idx_touch 0%Z url (gn_urlInstanceMap n) = gn_urlInstanceMap n).
  unfold idx_touch, idx. destruct (gn_urlInstanceMap n !! url) eqn:Hx; [|done].
  by apply insert_id.
Qed.

Lemma unregisterService_removes i url n (w : W) r n' w' :
  gn_initialized n = true → gn_serviceMap n !! i = Some url →
  gn_urlInstanceMap n !! url ≠ None →
  unregisterService i n w = Some (r, n', w') →
  gn_initialized n' = true ∧ gn_serviceMap n' = delete i (gn_serviceMap n) ∧
  gn_urlInstanceMap n' = delete url (gn_urlInstanceMap n).
Proof.
  intros Hi Hs Hu E. unfold unregisterService, when_initialized in E.
  apply bind_inv in E as (b & n1 & w1 & [= <- <- <-] & E). rewrite Hi in E. cbn [negb] in E.
  apply bind_inv in E as (u & n1 & w1 & HL & E). apply quietly_Lock in HL.
  apply bind_inv in E as (n2 & n3 & w2 & [= <- <- <-] & E). unfold id in E.
  rewrite (quiet_serviceMap _ _ HL), Hs in E.
  apply bind_inv in E as (v & n3 & w3 & Hsend & E). apply quietly_send in Hsend.
  rewrite (quiet_urlInstanceMap _ _ HL), decide_False in E by done.
  apply bind_inv in E as (x & n4 & w4 & [= <- <- <-] & E).
  apply bind_inv in E as (y & n5 & w5 & Hr & E). apply quietly_receive in Hr.
  apply bind_inv in E as (ret & n6 & w6 & Hret & E).
  apply bind_inv in E as (z & n7 & w7 & [= <- <- <-] & E).
  apply bind_inv in E as (z & n8 & w8 & HU & [= <- <- <-]). apply quietly_Unlock in HU.
  assert (Hq : quiet n5 n6).
  { destruct (decide (nn_ipAddress (gn_serviceDirectoryNode n1) ≠ "")); [|by apply quietly_ret in Hret].
    apply bind_inv in Hret as (ts & n9 & w9 & Hts & Hret). apply url_instance_known in Hts.
    - etrans; [exact Hts|by eapply quietly_send_unregistration].
    - rewrite (quiet_urlInstanceMap _ _ Hr).
      change (gn_urlInstanceMap n3 !! url ≠ None).
      by rewrite (quiet_urlInstanceMap _ _ Hsend), (quiet_urlInstanceMap _ _ HL). }
  rewrite (quiet_initialized _ _ HU), (quiet_serviceMap _ _ HU), (quiet_urlInstanceMap _ _ HU).
  change (gn_initialized n6 = true ∧ gn_serviceMap n6 = delete i (gn_serviceMap n) ∧
    delete url (gn_urlInstanceMap n6) = delete url (gn_urlInstanceMap n)).
  rewrite (quiet_initialized _ _ Hq), (quiet_serviceMap _ _ Hq), (quiet_urlInstanceMap _ _ Hq).
  rewrite (quiet_initialized _ _ Hr), (quiet_serviceMap _ _ Hr), (quiet_urlInstanceMap _ _ Hr).
  change (gn_initialized n3 = true ∧ delete i (gn_serviceMap n3) = delete i (gn_serviceMap n) ∧
    delete url (gn_urlInstanceMap n3) = delete url (gn_urlInstanceMap n)).
  rewrite (quiet_initialized _ _ Hsend), (quiet_serviceMap _ _ Hsend), (quiet_urlInstanceMap _ _ Hsend).
  by rewrite (quiet_initialized _ _ HL), (quiet_serviceMap _ _ HL), (quiet_urlInstanceMap _ _ HL).
Qed.

Lemma blocked_at l {B} (k : unit → node W B) n w : gn_semaphore n l = 0 → (Lock l ≫= k) n w = None.
Proof. intros Hl. unfold mbind, node_bind, Lock. by rewrite Hl. Qed.

Lemma blocked_later {A B} l (m : node W A) (k : A → node W B) n w :
  net l 0 m → gn_semaphore n l = 0 → (∀ x n' w', gn_semaphore n' l = 0 → k x n' w' = None) →
  (m ≫= k) n w = None.
Proof.
  intros Hm Hl Hk. destruct ((m ≫= k) n w) as [[[y n'] w']|] eqn:E; [|done].
  apply bind_inv in E as (x & n1 & w1 & E1 & E2). apply Hm in E1.
  rewrite Hk in E2; [done|lia].
Qed.

Lemma registered_service_blocked n : gn_initialized n = true → gn_semaphore n serviceManagerSWL = 0 →
  ∀ (w : W), (∀ i t s, registerService i t s n w = None) ∧ (∀ i, unregisterService i n w = None) ∧
    (∀ c u, ServiceDirectoryReregister c u n w = None).
Proof.
  intros Hi Hl w. split_and!.
  - intros i t s. unfold registerService, when_initialized. unfold mbind at 1, node_bind at 1, gets at 1.
    rewrite Hi. by apply blocked_at.
  - intros i. unfold unregisterService, when_initialized.
    unfold mbind at 1, node_bind at 1, gets at 1. rewrite Hi. by apply blocked_at.
  - intros c u. unfold ServiceDirectoryReregister.
    repeat (apply (blocked_later serviceManagerSWL);
      [first [solve [eauto with node_net]|exact (net_Lock _ _)|exact (net_Unlock _ _)]|done|];
      clear dependent n; intros ? n ? Hl).
    by apply blocked_at.
Qed.

Lemma unregisterService_conflict i url n (w : W) r n' w' :
  gn_initialized n = true → gn_serviceMap n !! i = Some url → gn_urlInstanceMap n !! url = None →
  unregisterService i n w = Some (r, n', w') →
  r = REGISTRATION_CONFLICT ∧
  ∃ k, gn_semaphore n serviceManagerSWL = S k ∧ n' = set_semaphore serviceManagerSWL k n.
Proof.
  intros Hi Hs Hu E. unfold unregisterService, when_initialized in E.
  apply bind_inv in E as (x & n1 & w1 & [= <- <- <-] & E). rewrite Hi in E. cbn [negb] in E.
  apply bind_inv in E as (u & n1 & w1 & (k & Hk & -> & ->)%Lock_inv & E).
  apply bind_inv in E as (n2 & n3 & w2 & [= <- <- <-] & E). unfold id in E.
  change (gn_serviceMap (set_semaphore serviceManagerSWL k n)) with (gn_serviceMap n) in E.
  change (gn_urlInstanceMap (set_semaphore serviceManagerSWL k n)) with (gn_urlInstanceMap n) in E.
  rewrite Hs in E. apply bind_inv in E as (v & n3 & w3 & [= <- <- <-] & E).
  rewrite decide_True in E by done. injection E as <- <- <-. eauto.
Qed.

(** Two services of a node can have the same url: those for which the service manager
    found no port both have the empty one.  Then unregistering the first takes the url out of
    the node's map, and unregistering the second returns a conflict, leaves the service
    registered, and keeps the lock of the services: from then on no service can be registered
    or unregistered, and a restart of the directory hangs the node. *)
Theorem shared_url_blocks_services a b url n0 n1 n2 (w0 w1 w2 : W) ra rb
    (Hi : gn_initialized n0 = true) (Hab : a ≠ b)
    (Ha : gn_serviceMap n0 !! a = Some url) (Hb : gn_serviceMap n0 !! b = Some url)
    (Hl : gn_semaphore n0 serviceManagerSWL = 1)
    (Hrun_a : unregisterService a n0 w0 = Some (ra, n1, w1))
    (Hrun_b : unregisterService b n1 w1 = Some (rb, n2, w2)) :
  rb = REGISTRATION_CONFLICT ∧ gn_serviceMap n2 !! b = Some url ∧
  ∀ w : W, (∀ id t s, registerService id t s n2 w = None) ∧
    (∀ id, unregisterService id n2 w = None) ∧
    (∀ componentId u, ServiceDirectoryReregister componentId u n2 w = None).
Proof.
  destruct (decide (gn_urlInstanceMap n0 !! url = None)) as [Hu|Hu].
  - destruct (unregisterService_conflict _ _ _ _ _ _ _ Hi Ha Hu Hrun_a) as (_ & k & Hk & ->).
    assert (k = 0) as -> by lia.
    by rewrite (proj1 (proj2 (registered_service_blocked
      (set_semaphore serviceManagerSWL 0 n0) Hi eq_refl w1)) b) in Hrun_b.
  - destruct (unregisterService_removes _ _ _ _ _ _ _ Hi Ha Hu Hrun_a) as (Hi1 & Hs1 & Hu1).
    destruct (unregisterService_locks _ _ _ _ _ _ Hrun_a) as [Hl1|(u & Hs' & Hu' & _)]; [|congruence].
    assert (Hb1 : gn_serviceMap n1 !! b = Some url) by (rewrite Hs1, lookup_delete_ne; done).
    assert (Hu2 : gn_urlInstanceMap n1 !! url = None) by (rewrite Hu1; apply lookup_delete_eq).
    destruct (unregisterService_conflict _ _ _ _ _ _ _ Hi1 Hb1 Hu2 Hrun_b) as (-> & k & Hk & ->).
    assert (k = 0) as -> by (rewrite Hl1 in Hk; lia).
    split_and!; [done|exact Hb1|]. by apply registered_service_blocked.
Qed.

(** ** Publications *)

Lemma publish_registration_time g f T n (w : W) r g1 n' w' :
  gn_initialized n = true → publish g f T n w = Some ((r, g1), n', w') →
  r = SUCCESS ∧
  getRegistrationTime g1 = idx 0%Z (getDataProductID g) (gn_dataRegistrationTimeMap n).
Proof.
  intros Hi E. unfold publish in E.
  apply bind_inv in E as (x & n1 & w1 & [= <- <- <-] & E). rewrite Hi in E. cbn [negb] in E.
  apply bind_inv in E as (g2 & n2 & w2 & E2 & E).
  assert (Hq : quiet n n2).
  { revert E2. match goal with |- ?m n w = _ → _ => assert (Hm : quietly m) by quiet_solve end.
    apply Hm. }
  apply bind_inv in E as (ts & n3 & w3 & E3 & E).
  apply bind_inv in E as (? & n4 & w4 & _ & E). apply bind_inv in E as (? & n5 & w5 & _ & E).
  apply bind_inv in E as (? & n6 & w6 & _ & E). injection E as <- <- _ _.
  split; [done|]. rewrite <- (quiet_registration_time _ _ Hq).
  apply bind_inv in E3 as (m & n7 & w7 & [= <- <- <-] & E3).
  apply bind_inv in E3 as (? & n7 & w7 & _ & [= <- _ _]). done.
Qed.

(** Registering a new data product records it, under the url the publish manager bound
    and with the time of the registration, exactly when the whole registration succeeds;
    then every later publication of it carries that time, in seconds.  On any error, of the
    publish manager or of the directory, the node's records are as before. *)
Theorem registration_recorded i t cache relay localOnly reserved n (w : W) r n' w'
    (Hi : gn_initialized n = true)
    (Hr : ¬ ((gn_componentID n ≠ "ServiceDirectory" ∧ i ∈ serviceDirectory_ReservedDataProductIDs n) ∨
             (reserved = false ∧ i ∈ gravityNode_ReservedDataProductIDs n)))
    (Hnew : gn_publishMap n !! i = None)
    (Hrun : registerDataProductInternal i t cache relay localOnly reserved n w = Some (r, n', w')) :
  gn_serviceMap n' = gn_serviceMap n ∧ gn_subscriptionList n' = gn_subscriptionList n ∧
  if decide (r = SUCCESS) then
    ∃ url timestamp, url ≠ "" ∧
      gn_publishMap n' = <[i := url]> (gn_publishMap n) ∧
      gn_urlInstanceMap n' = <[url := timestamp]> (gn_urlInstanceMap n) ∧
      ∀ g filterText T w1 r1 g1 n2 w2, getDataProductID g = i →
        publish g filterText T n' w1 = Some (r1, g1, n2, w2) →
        r1 = SUCCESS ∧ getRegistrationTime g1 = epoch_seconds timestamp
  else
    gn_publishMap n' = gn_publishMap n ∧ gn_urlInstanceMap n' = gn_urlInstanceMap n ∧
    ∀ j, idx 0%Z j (gn_dataRegistrationTimeMap n') = idx 0%Z j (gn_dataRegistrationTimeMap n).
Proof.
  unfold registerDataProductInternal, when_initialized in Hrun.
  apply bind_inv in Hrun as (x & n1 & w1 & [= <- <- <-] & E). rewrite Hi in E. cbn [negb] in E.
  apply bind_inv in E as (x & n1 & w1 & [= <- <- <-] & E). unfold id in E.
  rewrite decide_False in E by done.
  apply bind_inv in E as (u & n1 & w1 & HL & E). apply quietly_Lock in HL.
  rewrite Hnew, decide_False in E by (intros []; done).
  apply bind_inv in E as ([tr ep] & n2 & w2 & E2 & E). apply quietly_transport_endpoint in E2.
  apply bind_inv in E as (ts & n3 & w3 & E3 & E). apply quietly_ask in E3.
  apply bind_inv in E as (ps & n4 & w4 & E4 & E). apply quietly_port_frames in E4.
  apply bind_inv in E as (v & n5 & w5 & E5 & E). apply quietly_send in E5.
  apply bind_inv in E as (url & n6 & w6 & E6 & E). apply quietly_receive in E6.
  apply bind_inv in E as (x & n7 & w7 & [= <- <- <-] & E). unfold id in E.
  apply bind_inv in E as (ret & n8 & w8 & E8 & E).
  assert (Hq : quiet n n8).
  { etrans; [exact HL|]. etrans; [exact E2|]. etrans; [exact E3|]. etrans; [exact E4|].
    etrans; [exact E5|]. etrans; [exact E6|]. revert E8.
    match goal with |- ?m n6 w6 = _ → _ => assert (Hm : quietly m) by quiet_solve end. apply Hm. }
  assert (Hurl : ret = SUCCESS → url ≠ "").
  { intros -> ->. by rewrite decide_True in E8 by done. }
  clear HL E2 E3 E4 E5 E6 E8 n1 n2 n3 n4 n5 n6.
  apply bind_inv in E as (y & n9 & w9 & E9 & E).
  apply bind_inv in E as (z & n10 & w10 & HU & E). apply quietly_Unlock in HU.
  injection E as <- <- <-. destruct (decide (ret = SUCCESS)) as [->|Hret].
  - injection E9 as <- <- <-.
    assert (Ep : gn_publishMap n10 = <[i := url]> (gn_publishMap n8))
      by exact (quiet_publishMap _ _ HU).
    assert (Eu : gn_urlInstanceMap n10 = <[url := ts]> (gn_urlInstanceMap n8))
      by exact (quiet_urlInstanceMap _ _ HU).
    assert (Et : idx 0%Z i (gn_dataRegistrationTimeMap n10) =
      idx 0%Z i (<[i := epoch_seconds ts]> (gn_dataRegistrationTimeMap n8)))
      by exact (quiet_registration_time _ _ HU i).
    assert (Es : gn_serviceMap n10 = gn_serviceMap n8) by exact (quiet_serviceMap _ _ HU).
    assert (El : gn_subscriptionList n10 = gn_subscriptionList n8)
      by exact (quiet_subscriptionList _ _ HU).
    assert (Ei : gn_initialized n10 = gn_initialized n8) by exact (quiet_initialized _ _ HU).
    destruct Hq. split_and!; [congruence..|].
    exists url, ts. split_and!; [by apply Hurl|congruence..|].
    intros g filterText T wp r1 g1 np wp2 <- Hp.
    apply publish_registration_time in Hp as [-> ->]; [|congruence].
    split; [done|]. by rewrite Et, idx_insert, decide_True.
  - assert (Hq9 : quiet n8 n9).
    { revert E9. match goal with |- ?m n8 w8 = _ → _ => assert (Hm : quietly m) by quiet_solve end.
      apply Hm. }
    destruct (transitivity Hq (transitivity Hq9 HU)). by split_and!.
Qed.

(** ** Runs that return *)

Definition returns {A} (m : node W A) (n : GravityNode) (w : W) (P : A → GravityNode → Prop) : Prop :=
  ∃ x n' w', m n w = Some (x, n', w') ∧ P x n'.

Lemma returns_ret {A} (x : A) n w P : P x n → returns (mret x) n w P.
Proof. intros HP. by exists x, n, w. Qed.
Lemma returns_bind {A B} (m : node W A) (k : A → node W B) n w P Q :
  returns m n w P → (∀ x n' w', P x n' → returns (k x) n' w' Q) → returns (m ≫= k) n w Q.
Proof.
  intros (x & n1 & w1 & E & HP) Hk. destruct (Hk x n1 w1 HP) as (y & n2 & w2 & E2 & HQ).
  exists y, n2, w2. split; [|done]. unfold mbind, node_bind. by rewrite E.
Qed.
Lemma returns_weaken {A} (m : node W A) n w (P Q : A → GravityNode → Prop) :
  returns m n w P → (∀ x n', P x n' → Q x n') → returns m n w Q.
Proof. intros (x & n1 & w1 & E & HP) Hk. exists x, n1, w1. auto. Qed.

(** Every lock is free. *)
Definition all_free (n : GravityNode) : Prop := ∀ l, gn_semaphore n l = 1.

(** A state that a step with free locks ends in again, with the same subscriptions. *)
Definition same_subscriptions (n n' : GravityNode) : Prop :=
  gn_initialized n' = gn_initialized n ∧ gn_myDomain n' = gn_myDomain n ∧
  gn_subscriptionList n' = gn_subscriptionList n ∧ ∀ l, gn_semaphore n' l = gn_semaphore n l.

#[local] Instance same_subscriptions_preorder : PreOrder same_subscriptions.
Proof.
  split; [done|]. intros n1 n2 n3 (? & ? & ? & H1') (? & ? & ? & H2'). split_and!; [congruence..|].
  intros l. by rewrite H2'.
Qed.

(** A step that is quiet and balanced, and returns. *)
Lemma quiet_same_subscriptions {A} (m : node W A) n w x n' w' :
  quietly m → (∀ l, net l 0 m) → m n w = Some (x, n', w') → same_subscriptions n n'.
Proof.
  intros Hq Hn E. pose proof (Hq _ _ _ _ _ E) as []. split_and!; [done..|].
  intros l. apply (Hn l) in E. lia.
Qed.

Lemma same_subscriptions_free l n n' :
  gn_semaphore n l = 1 → same_subscriptions n n' → gn_semaphore n' l = 1.
Proof. by intros Hl (_ & _ & _ & ->). Qed.

(** A directory that answers every request, and every lookup with a publisher that has a url. *)
Definition answered (bytes : string) : Prop :=
  ∃ info rest, dl_publishers (populateMessage (M:=ComponentDataLookupResponsePB)
    (GravityDataProduct_from_bytes bytes)).1 = info :: rest ∧ pi_url info ≠ None.

Definition directory_answers : Prop :=
  ∀ url q t (w : W), ∃ bytes w', env_exchange url q t w = ((PollReply bytes, false), w') ∧
    answered bytes.

Section answered.
Hypothesis Hdir : directory_answers.

Lemma exchange_returns q r n (w : W) : gn_semaphore n serviceDirectoryLock = 1 →
  returns (sendRequestToServiceDirectory q r) n w (λ x n', same_subscriptions n n' ∧
    ∃ bytes, x = (SUCCESS, GravityDataProduct_from_bytes bytes) ∧ answered bytes).
Proof.
  intros Hl.
  destruct (Hdir (network_url (gn_serviceDirectoryNode n)) q NETWORK_TIMEOUT w)
    as (bytes & w1 & E & Hb).
  assert (Hrun : ∃ n', sendRequestToServiceDirectory q r n w =
    Some ((SUCCESS, GravityDataProduct_from_bytes bytes), n', w1)).
  { unfold sendRequestToServiceDirectory, sendRequestsToServiceProvider, NETWORK_RETRIES.
    unfold mbind, node_bind, Lock. rewrite Hl. unfold gets. cbn [send_requests].
    unfold sendRequestToServiceProvider, ask, mbind, node_bind.
    change (gn_serviceDirectoryNode (set_semaphore serviceDirectoryLock 0 n)) with
      (gn_serviceDirectoryNode n). rewrite decide_True by done. rewrite E. by eexists. }
  destruct Hrun as [n' Hrun]. eexists _, n', w1. split; [exact Hrun|]. split; [|by exists bytes].
  eapply quiet_same_subscriptions; [..|exact Hrun]; eauto with node_quiet node_net.
Qed.

Lemma lookup_returns i d n (w : W) : gn_semaphore n serviceDirectoryLock = 1 →
  returns (ServiceDirectoryDataProductLookup i d []) n w (λ x n', same_subscriptions n n' ∧
    ∃ info rest, x = (SUCCESS, info :: rest) ∧ pi_url info ≠ None).
Proof.
  intros Hl. eapply returns_bind; [by apply exchange_returns|].
  intros x n1 w1 (Hs & bytes & -> & info & rest & Hp & Hu). apply returns_ret. split; [done|].
  exists info, rest. by rewrite decide_True, Hp.
Qed.

Definition renewed (n : GravityNode) (d : SubscriptionDetails) : SubscriptionDetails :=
  mkSubscriptionDetails (if decide (sub_domain d = "") then gn_myDomain n else sub_domain d)
    (sub_dataProductID d) (sub_filter d) true (sub_subscriber d).

Lemma subscribeInternal_returns d n (w : W) :
  gn_initialized n = true → gn_semaphore n serviceDirectoryLock = 1 →
  returns (subscribeInternal (sub_dataProductID d) (sub_subscriber d) (sub_filter d) (sub_domain d)
    true) n w (λ r n', r = SUCCESS ∧
      ∃ n1, same_subscriptions n n1 ∧
        n' = n1 <| gn_subscriptionList ::= λ l, l ++ [renewed n d] |>).
Proof.
  intros Hi Hl. unfold subscribeInternal, when_initialized.
  eapply (returns_bind _ _ _ _ (λ x n', x = true ∧ n' = n)); [by eexists _, _, _; split|].
  intros x n0 w0 [-> ->]. cbn [negb].
  eapply (returns_bind _ _ _ _ (λ x n', x = n ∧ n' = n)); [by eexists _, _, _; split|].
  intros x n0 w1 [-> ->]. cbv zeta.
  eapply returns_bind; [by apply lookup_returns|].
  intros x n1 w2 (Hs1 & info & rest & -> & Hu). rewrite decide_False by tauto.
  eapply (returns_bind _ _ _ _ (λ x n', same_subscriptions n1 n' ∧
    ∃ info rest, x = (SUCCESS, info :: rest) ∧ pi_url info ≠ None)).
  { cbn [lookup_registered_publishers].
    eapply (returns_bind _ _ _ _ (λ x n', x = n1 ∧ n' = n1)); [by eexists _, _, _; split|].
    intros x n2 w3 [-> ->].
    eapply returns_bind; [apply lookup_returns; by eapply same_subscriptions_free|].
    intros x n2 w4 (Hs2 & info2 & rest2 & -> & Hu2). rewrite decide_False by tauto.
    eapply (returns_bind _ _ _ _ (λ x n', n' = n2)); [by destruct rest2; eexists _, _, _; split|].
    intros ? ? w5 ->. apply returns_ret. split; [done|]. by exists info2, rest2. }
  intros x n2 w3 (Hs2 & info2 & rest2 & -> & Hu2). rewrite decide_False by tauto.
  rewrite decide_False by done.
  eapply (returns_bind _ _ _ _ (λ x n', n' = n2)); [by eexists _, _, _; split|].
  intros ? ? w4 ->.
  eapply (returns_bind _ _ _ _ (λ x n', n' = n2 <| gn_subscriptionList ::= λ l, l ++ [renewed n d] |>));
    [by eexists _, _, _; split|].
  intros ? ? w5 ->. apply returns_ret. split; [done|]. exists n2. split; [|done]. by etrans.
Qed.

(** The subscriptions grew by [ds], and the rest a subscription reads is as before. *)
Definition subscribed (n n' : GravityNode) (ds : list SubscriptionDetails) : Prop :=
  gn_initialized n' = gn_initialized n ∧ gn_myDomain n' = gn_myDomain n ∧
  gn_subscriptionList n' = gn_subscriptionList n ++ ds ∧
  ∀ l, gn_semaphore n' l = gn_semaphore n l.

Lemma resubscribe_all_returns ds n (w : W) :
  gn_initialized n = true → gn_semaphore n serviceDirectoryLock = 1 →
  returns (resubscribe_all ds) n w (λ _ n', subscribed n n' (renewed n <$> ds)).
Proof.
  revert n w. induction ds as [|d ds IH]; intros n w Hi Hl; cbn [resubscribe_all].
  { apply returns_ret. split_and!; [done|done|by rewrite app_nil_r|done]. }
  eapply (returns_bind _ _ _ _ (λ _ n', subscribed n n' [renewed n d])).
  - unfold resubscribe. eapply returns_bind; [by apply subscribeInternal_returns|].
    intros r n1 w1 (-> & n2 & (Hi2 & Hd2 & Hs2 & Hl2) & ->). cbn [resend].
    rewrite decide_True by done. apply returns_ret. split_and!; [done|done| |done].
    by rewrite <- Hs2.
  - intros _ n1 w1 (Hi1 & Hd1 & Hs1 & Hl1).
    eapply returns_weaken; [apply IH; [congruence|by rewrite Hl1]|].
    intros _ n2 (Hi2 & Hd2 & Hs2 & Hl2).
    split_and!; [congruence|congruence| |intros l; by rewrite Hl2].
    rewrite Hs2, Hs1, <- app_assoc. cbn. do 2 f_equal. apply list_fmap_ext.
    intros _ x _. unfold renewed. by rewrite Hd1.
Qed.

Lemma reregister_all_returns c t es ret n (w : W) :
  gn_semaphore n serviceDirectoryLock = 1 →
  returns (reregister_all c t es ret) n w (λ r n', r = ret ∧ same_subscriptions n n').
Proof.
  revert n w ret. induction es as [|e es IH]; intros n w ret Hl; cbn [reregister_all].
  { by apply returns_ret. }
  eapply (returns_bind _ _ _ _ (λ r n', r = SUCCESS ∧ same_subscriptions n n')).
  - unfold reregister.
    eapply (returns_bind _ _ _ _ (λ _ n', same_subscriptions n n')); [by eexists _, _, _; split|].
    intros ts n1 w1 Hs1.
    eapply (returns_bind _ _ _ _ (λ r n', r = SUCCESS ∧ same_subscriptions n1 n')).
    + eapply returns_bind; [apply exchange_returns; by eapply same_subscriptions_free|].
      intros x n2 w2 (Hs2 & bytes & -> & _). by apply returns_ret.
    + intros r n2 w2 [-> Hs2]. cbn [resend]. rewrite decide_True by done.
      apply returns_ret. split; [done|by etrans].
  - intros r n1 w1 [-> Hs1]. rewrite decide_True by done.
    eapply returns_weaken; [apply IH; by eapply same_subscriptions_free|].
    intros r n2 [-> Hs2]. split; [done|by etrans].
Qed.

Lemma same_subscribed n n' : same_subscriptions n n' ↔ subscribed n n' [].
Proof. unfold same_subscriptions, subscribed. by rewrite app_nil_r. Qed.

(** The end of a section under a lock that was free. *)
Lemma subscribed_unlocked l n n1 ds :
  gn_semaphore n l = 1 → subscribed (set_semaphore l 0 n) n1 ds →
  subscribed n (set_semaphore l (S (gn_semaphore n1 l)) n1) ds.
Proof.
  intros Hl (Hi & Hd & Hs & Hsem). split_and!; [exact Hi|exact Hd|exact Hs|].
  intros l'. rewrite set_semaphore_lookup, !Hsem.
  destruct (decide (l' = l)) as [->|]; rewrite set_semaphore_lookup.
  - by rewrite decide_True, Hl.
  - by rewrite decide_False.
Qed.

Lemma returns_Lock l n (w : W) : gn_semaphore n l = 1 →
  returns (Lock l) n w (λ _ n', n' = set_semaphore l 0 n).
Proof.
  intros Hl. exists (), (set_semaphore l 0 n), w. split; [|done]. unfold Lock. by rewrite Hl.
Qed.

(** The rest of a section under a lock, and what follows it. *)
Lemma returns_unlock {A B} l (m : node W A) (k : A → node W B) n0 n (w : W) (P : A → Prop) ds Q :
  gn_semaphore n0 l = 1 → n = set_semaphore l 0 n0 →
  returns m n w (λ x n1, P x ∧ subscribed n n1 ds) →
  (∀ x n' w', P x → subscribed n0 n' ds → returns (k x) n' w' Q) →
  returns (x ← m; Unlock l;; k x) n w Q.
Proof.
  intros Hl -> Hm Hk. eapply returns_bind; [exact Hm|]. intros x n1 w1 [HP Hs].
  eapply (returns_bind _ _ _ _ (λ _ n', n' = set_semaphore l (S (gn_semaphore n1 l)) n1));
    [by eexists _, _, _; split|].
  intros _ n2 w2 ->. apply Hk; [done|]. by apply subscribed_unlocked.
Qed.

Lemma returns_locked_send l frames n (w : W) :
  gn_semaphore n l = 1 →
  returns (Lock l;; send l frames;; Unlock l) n w (λ _ n', subscribed n n' []).
Proof.
  intros Hl. eapply returns_bind; [by apply returns_Lock|]. intros _ n1 w1 ->.
  eapply (returns_bind _ _ _ _ (λ _ n', n' = set_semaphore l 0 n)); [by eexists _, _, _; split|].
  intros _ n2 w2 ->. eexists _, _, _. split; [reflexivity|].
  apply subscribed_unlocked; [done|]. by apply same_subscribed.
Qed.

Lemma updateServiceDirectoryUrl_returns url sd n (w : W) :
  all_free n → parse_url (W:=W) url = Some sd →
  returns (updateServiceDirectoryUrl url) n w (λ _ n', same_subscriptions n n').
Proof.
  intros Hf Hp. unfold updateServiceDirectoryUrl. rewrite Hp.
  eapply returns_bind; [apply returns_Lock, Hf|]. intros [] n1 w1 Hn1.
  eapply (returns_unlock _ _ _ n _ _ (λ _, True) []); [apply Hf|exact Hn1| |].
  { eexists _, _, _. split; [reflexivity|]. split; [done|]. by apply same_subscribed. }
  intros [] n2 w2 _ Hs2%same_subscribed. cbv zeta.
  eapply returns_bind.
  { apply returns_Lock. eapply same_subscriptions_free; [apply Hf|exact Hs2]. }
  intros [] n3 w3 Hn3.
  eapply (returns_unlock _ _ _ n2 _ _ (λ _, True) []);
    [eapply same_subscriptions_free; [apply Hf|exact Hs2]|exact Hn3| |].
  { eexists _, _, _. split; [reflexivity|]. split; [done|]. by apply same_subscribed. }
  intros [] n4 w4 _ Hs4%same_subscribed.
  eapply returns_weaken; [apply returns_locked_send|].
  { eapply same_subscriptions_free; [apply Hf|by etrans]. }
  intros _ n5 Hs5%same_subscribed. etrans; [exact Hs2|]. by etrans.
Qed.

Lemma all_free_same n n' : all_free n → same_subscriptions n n' → all_free n'.
Proof. intros Hf (_ & _ & _ & Hs) l. by rewrite Hs. Qed.

(** When a node finds that the directory has restarted, and the directory answers, it
    makes every subscription once more and adds it to its list, without taking the old one
    out: the list doubles with every restart.  The new entries receive the last cached
    value, whether or not the old ones asked for it. *)
Theorem reregister_doubles_subscriptions componentId url sd n (w : W)
    (Hi : gn_initialized n = true) (Hf : all_free n) (Hp : parse_url (W:=W) url = Some sd) :
  ∃ n' w', ServiceDirectoryReregister componentId url n w = Some (SUCCESS, n', w') ∧
    gn_subscriptionList n' = gn_subscriptionList n ++ (renewed n <$> gn_subscriptionList n) ∧
    length (gn_subscriptionList n') = 2 * length (gn_subscriptionList n) ∧
    all_free n'.
Proof.
  enough (returns (ServiceDirectoryReregister componentId url) n w (λ r n', r = SUCCESS ∧
    subscribed n n' (renewed n <$> gn_subscriptionList n))) as (r & n' & w' & E & -> & Hs).
  { destruct Hs as (_ & _ & Hs & Hl). exists n', w'. split_and!; [done|done| |].
    - rewrite Hs, length_app, length_fmap. lia.
    - intros l. by rewrite Hl. }
  unfold ServiceDirectoryReregister.
  eapply returns_bind; [by eapply updateServiceDirectoryUrl_returns|]. intros [] n1 w1 Hs1.
  pose proof (all_free_same _ _ Hf Hs1) as Hf1.
  eapply returns_bind; [apply returns_Lock, Hf1|]. intros [] n2 w2 Hn2.
  eapply (returns_bind _ _ _ _ (λ x n', x = n2 ∧ n' = n2)); [by eexists _, _, _; split|].
  intros ? ? w3 [-> ->].
  eapply (returns_unlock _ _ _ n1 _ _ (λ r, r = SUCCESS) []); [apply Hf1|exact Hn2| |].
  { eapply returns_weaken; [apply reregister_all_returns; subst n2; apply Hf1|].
    intros r n' [-> Hs]. split; [done|]. by apply same_subscribed. }
  intros r n3 w4 -> Hs3%same_subscribed.
  pose proof (all_free_same _ _ Hf1 Hs3) as Hf3.
  eapply returns_bind; [apply returns_Lock, Hf3|]. intros [] n4 w5 Hn4.
  eapply (returns_bind _ _ _ _ (λ x n', x = n4 ∧ n' = n4)); [by eexists _, _, _; split|].
  intros ? ? w6 [-> ->].
  eapply (returns_unlock _ _ _ n3 _ _ (λ r, r = SUCCESS) []); [apply Hf3|exact Hn4| |].
  { eapply returns_weaken; [apply reregister_all_returns; subst n4; apply Hf3|].
    intros r n' [-> Hs]. split; [done|]. by apply same_subscribed. }
  intros r n5 w7 -> Hs5%same_subscribed.
  pose proof (all_free_same _ _ Hf3 Hs5) as Hf5.
  eapply returns_bind; [apply returns_Lock, Hf5|]. intros [] n6 w8 Hn6.
  eapply (returns_bind _ _ _ _ (λ x n', x = n6 ∧ n' = n6)); [by eexists _, _, _; split|].
  intros ? ? w9 [-> ->].
  assert (Hs : same_subscriptions n n5) by (etrans; [exact Hs1|]; by etrans).
  eapply (returns_unlock _ _ _ n5 _ _ (λ _, True) (renewed n <$> gn_subscriptionList n));
    [apply Hf5|exact Hn6| |].
  { destruct Hs as (Hsi & Hsd & Hsl & _).
    eapply returns_weaken; [apply resubscribe_all_returns; subst n6; [change (gn_initialized n5 = true); congruence|apply Hf5]|].
    intros [] n' Hn'. split; [done|]. subst n6.
    replace (renewed n <$> gn_subscriptionList n) with
      (renewed (set_semaphore subscriptionManagerSWL 0 n5) <$> gn_subscriptionList n5); [exact Hn'|].
    rewrite Hsl. apply list_fmap_ext. intros _ x _. unfold renewed.
    change (gn_myDomain (set_semaphore subscriptionManagerSWL 0 n5)) with (gn_myDomain n5).
    by rewrite Hsd. }
  intros [] n7 w10 _ (Hi7 & Hd7 & Hl7 & Hf7). apply returns_ret. split; [done|].
  destruct Hs as (Hsi & Hsd & Hsl & Hsf).
  split_and!; [congruence|congruence|by rewrite Hl7, Hsl|]. intros l. by rewrite Hf7.
Qed.
End answered.

(** ** The url of the directory *)

Lemma find_first_of_app chars pre c rest :
  all_chars (λ d, negb (char_in d chars)) pre = true → char_in c chars = true →
  find_first_of chars (pre +:+ String c rest) = Some (String.length pre).
Proof.
  intros Hp Hc. revert Hp. induction pre as [|d pre IH]; intros Hp.
  { change (find_first_of chars (String c rest) = Some 0). cbn. by rewrite Hc. }
  apply andb_prop in Hp as [Hd%negb_true_iff Hp].
  change (find_first_of chars (String d (pre +:+ String c rest)) = Some (S (String.length pre))).
  cbn [find_first_of]. by rewrite Hd, (IH Hp).
Qed.

Lemma find_first_of_none chars s :
  all_chars (λ d, negb (char_in d chars)) s = true → find_first_of chars s = None.
Proof.
  induction s as [|d s IH]; [done|]. cbn. intros [Hd%negb_true_iff Hs]%andb_prop.
  by rewrite Hd, (IH Hs).
Qed.

Lemma str_take_length_app s t : str_take (String.length s) (s +:+ t) = s.
Proof.
  induction s as [|c s IH]; [apply str_take_0|].
  change (String c (str_take (String.length s) (s +:+ t)) = String c s). by rewrite IH.
Qed.

Lemma str_drop_length_app s t n : str_drop (String.length s + n) (s +:+ t) = str_drop n t.
Proof. by induction s. Qed.

(** No colon and no slash; no colon. *)
Definition plain (s : string) : Prop := all_chars (λ d, negb (char_in d "://")) s = true.
Definition no_colon (s : string) : Prop := all_chars (λ d, negb (char_in d ":")) s = true.

(** The host of a url as the node keeps it. *)
Definition resolved_host (host : string) : string :=
  if decide (host = "" ∨ host = "*") then "localhost"
  else if decide (host = "localhost" ∨ host = "0.0.0.0") then host else env_resolve host.

Lemma resolved_host_eq host :
  (let ip := if decide (host = "" ∨ host = "*") then "localhost" else host in
   if decide (ip ≠ "localhost" ∧ ip ≠ "0.0.0.0") then env_resolve ip else ip) = resolved_host host.
Proof.
  unfold resolved_host. cbv zeta. destruct (decide (host = "" ∨ host = "*")).
  - by rewrite decide_False by naive_solver.
  - destruct (decide (host = "localhost" ∨ host = "0.0.0.0")).
    + by rewrite decide_False by naive_solver.
    + by rewrite decide_True by naive_solver.
Qed.

(** The url of the directory is taken apart as it was put together: transport, host and
    port, with a missing or unknown host read as the local one.  The search for the end of the
    transport looks for any colon or slash, though: out of a host and a port without a
    transport, the host becomes the transport, and the host is what follows the first two
    digits of the port. *)
Theorem directory_url_parts transport host port
    (Ht : plain transport) (Hh : no_colon host) :
  parse_url (W:=W) (transport +:+ "://" +:+ host +:+ ":" +:+ port) =
    Some (mkNetworkNode transport (resolved_host host) (StringToInt port 5555 mod 65536)) ∧
  (plain host → no_colon port → 2 ≤ String.length port →
   parse_url (W:=W) (host +:+ ":" +:+ port) =
     Some (mkNetworkNode host (resolved_host (str_drop 2 port))
       (StringToInt (host +:+ ":" +:+ port) 5555 mod 65536))).
Proof.
  split.
  - unfold parse_url. change ("://" +:+ host +:+ ":" +:+ port) with
      (String ":"%char ("//" +:+ host +:+ ":" +:+ port)).
    rewrite find_first_of_app by done. rewrite str_take_length_app, str_drop_length_app.
    rewrite str_length_app. change (String.length (String ":" ("//" +:+ host +:+ ":" +:+ port)))
      with (3 + String.length (host +:+ ":" +:+ port)).
    rewrite decide_False by lia.
    change (str_drop 3 _) with (host +:+ String ":"%char port).
    rewrite find_first_of_app by done. rewrite str_take_length_app.
    replace (S (String.length host)) with (String.length host + 1) by lia.
    rewrite str_drop_length_app. cbn [str_drop]. by rewrite <- resolved_host_eq.
  - intros Hph Hp Hlen. unfold parse_url. change (":" +:+ port) with (String ":"%char port).
    rewrite find_first_of_app by done. rewrite str_take_length_app, str_drop_length_app.
    rewrite str_length_app. change (String.length (String ":" port)) with (S (String.length port)).
    rewrite decide_False by lia. cbn [str_drop].
    rewrite find_first_of_none; [by rewrite <- resolved_host_eq|].
    destruct port as [|c [|d port]]; [done|done|]. cbn in Hp |- *.
    by apply andb_prop in Hp as [_ [_ Hp]%andb_prop].
Qed.

(** ** Heartbeats *)

Lemma subscribe_records i s f d c n (w : W) n' w' :
  gn_initialized n = true → subscribe i s f d c n w = Some (SUCCESS, n', w') →
  gn_initialized n' = true ∧
  ∃ sub, gn_subscriptionList n' = gn_subscriptionList n ++ [sub] ∧
    sub_dataProductID sub = i ∧ sub_filter sub = f ∧ sub_subscriber sub = s.
Proof.
  intros Hi E. unfold subscribe in E. apply bind_inv in E as (? & n1 & w1 & HL%quietly_Lock & E).
  apply bind_inv in E as (? & n2 & w2 & [= <- <- <-] & E).
  apply bind_inv in E as (r & n3 & w3 & E3 & E).
  apply bind_inv in E as (? & n4 & w4 & HU%quietly_Unlock & E). injection E as -> <- <-.
  unfold subscribeInternal, when_initialized in E3.
  apply bind_inv in E3 as (x5 & n5 & w5 & [= <- <- <-] & E).
  rewrite (quiet_initialized _ _ HL), Hi in E. cbn [negb] in E.
  apply bind_inv in E as (? & n5 & w5 & [= <- <- <-] & E). cbv zeta in E.
  apply bind_inv in E as ([ret urls] & n5 & w5 & Q5%quietly_ServiceDirectoryDataProductLookup & E).
  destruct (decide (ret ≠ SUCCESS)); [injection E as -> <- <-; done|].
  apply bind_inv in E as ([ret2 infos] & n6 & w6 & Q6%quietly_lookup_registered_publishers & E).
  destruct (decide (ret2 ≠ SUCCESS)); [injection E as -> <- <-; done|].
  destruct infos as [|info infos]; [done|]. destruct (decide (pi_url info = None)); [done|].
  apply bind_inv in E as (? & m7 & w7 & Q7%quietly_send & E).
  apply bind_inv in E as (? & m8 & w8 & [= <- <- <-] & [= <- <-]).
  assert (Hq : quiet n m7) by (etrans; [exact HL|]; etrans; [exact Q5|]; by etrans).
  rewrite (quiet_initialized _ _ HU), (quiet_subscriptionList _ _ HU).
  split; [change (gn_initialized m7 = true); by rewrite (quiet_initialized _ _ Hq)|].
  eexists. rewrite <- (quiet_subscriptionList _ _ Hq). split; [reflexivity|]. by split_and!.
Qed.

(** A component that stops listening to a heartbeat stays subscribed to it: the
    subscription was made by the static subscriber of [registerHeartbeatListener] and is
    looked up by that of [unregisterHeartbeatListener], another object. *)
Theorem heartbeat_listener_stays componentID time listener domain domain' n (w : W) n1 w1 r n2 w2
    (Hsub : env_register_hbSub (W:=W) ≠ env_unregister_hbSub (W:=W))
    (Hi : gn_initialized n = true)
    (Hreg : registerHeartbeatListener componentID time listener domain n w = Some (SUCCESS, n1, w1))
    (Hunreg : unregisterHeartbeatListener componentID domain' n1 w1 = Some (r, n2, w2)) :
  r = SUCCESS ∧ ∃ d, d ∈ gn_subscriptionList n2 ∧ sub_dataProductID d = heartbeat_name componentID ∧
    sub_subscriber d = env_register_hbSub (W:=W).
Proof.
  unfold registerHeartbeatListener, when_initialized in Hreg.
  apply bind_inv in Hreg as (x & n3 & w3 & [= <- <- <-] & E). rewrite Hi in E. cbn [negb] in E.
  apply bind_inv in E as (? & n3 & w3 & [= <- <- <-] & E).
  apply bind_inv in E as (? & n3 & w3 & E3 & E).
  assert (Hi3 : gn_initialized n3 = true).
  { unfold id in E3. destruct (gn_hbSocket n); [by injection E3 as <- <-|].
    apply bind_inv in E3 as (? & ? & ? & [= <- <- <-] & E3). by injection E3 as <- <-. }
  apply bind_inv in E as (ret & n4 & w4 & E4 & E).
  destruct (decide (ret = SUCCESS)) as [->|Hret]; cycle 1.
  { by apply bind_inv in E as (? & n5 & w5 & [= <- <- <-] & [= -> _ _]). }
  apply subscribe_records in E4 as (Hi4 & d & Hl & Hd1 & _ & Hd2); [|done].
  assert (Hq : quiet n4 n1).
  { revert E. match goal with |- ?m n4 w4 = _ → _ => assert (Hm : quietly m) by quiet_solve end.
    apply Hm. }
  clear E E3. pose proof (quiet_initialized _ _ Hq) as Hi1. rewrite Hi4 in Hi1.
  assert (Hd : d ∈ gn_subscriptionList n1).
  { rewrite (quiet_subscriptionList _ _ Hq), Hl. set_solver. }
  unfold unregisterHeartbeatListener, when_initialized in Hunreg.
  apply bind_inv in Hunreg as (? & n5 & w5 & [= <- <- <-] & E). rewrite Hi1 in E. cbn [negb] in E.
  apply bind_inv in E as (ru & n5 & w5 & E5 & E).
  assert (Hq2 : quiet n5 n2).
  { revert E. match goal with |- ?m n5 w5 = _ → _ => assert (Hm : quietly m) by quiet_solve end.
    apply Hm. }
  assert (Hr : r = SUCCESS).
  { apply bind_inv in E as (? & ? & ? & _ & E). apply bind_inv in E as (? & ? & ? & _ & E).
    by injection E as <-. }
  split; [done|]. exists d. split_and!; [|done|done].
  rewrite (quiet_subscriptionList _ _ Hq2).
  unfold unsubscribe, unsubscribeInternal, when_initialized in E5.
  apply bind_inv in E5 as (? & n6 & w6 & Q6%quietly_Lock & E5).
  apply bind_inv in E5 as (? & n7 & w7 & E7 & E5).
  apply bind_inv in E5 as (? & n8 & w8 & Q8%quietly_Unlock & [= _ <- _]).
  rewrite (quiet_subscriptionList _ _ Q8).
  apply bind_inv in E7 as (? & n9 & w9 & [= <- <- <-] & E7).
  rewrite (quiet_initialized _ _ Q6), Hi1 in E7. cbn [negb] in E7.
  apply bind_inv in E7 as (? & n9 & w9 & [= <- <- <-] & E7).
  apply bind_inv in E7 as (? & n9 & w9 & Q9%quietly_send & E7).
  apply bind_inv in E7 as (? & n10 & w10 & [= <- <- <-] & [= _ <- _]).
  match goal with |- d ∈ gn_subscriptionList (_ <| gn_subscriptionList ::= ?f |>) =>
    change (d ∈ f (gn_subscriptionList n9)) end.
  apply list_elem_of_filter. split; [intros (_ & _ & _ & Hs); apply Hsub; by rewrite <- Hd2, <- Hs|].
  by rewrite (quiet_subscriptionList _ _ Q9), (quiet_subscriptionList _ _ Q6).
Qed.
End operations.

(** ** Concrete runs *)

Section witnesses.

(** An environment in which every manager answers [reply], and every request is answered. *)
#[local] Instance demo_environment (reply : frame) : NodeEnvironment unit | 10 := {|
  env_time w := (5000000%Z, w);
  env_send _ _ w := w;
  env_receive _ w := Some (reply, w);
  env_exchange _ _ _ w := ((PollReply "", false), w);
  env_local_address _ _ := "10.0.0.2";
  env_resolve host := host;
  env_sleep _ w := w;
  env_start_heartbeat _ w := w;
  env_stop_heartbeat w := w;
  env_start_heartbeat_listener w := w;
  env_register_hbSub := 1%Z;
  env_unregister_hbSub := 2%Z;
  env_tolower c := c;
|}.

#[local] Instance demo_node_gdp : Protobuf GravityDataProductPB :=
  constant_protobuf (new_GravityDataProduct "A").
#[local] Instance demo_node_config : Protobuf GravityConfigParamPB :=
  constant_protobuf (mkGravityConfigParamPB None None None).
#[local] Instance demo_node_registration : Protobuf ServiceDirectoryRegistrationPB :=
  constant_protobuf (mkServiceDirectoryRegistrationPB None None None None None None None None).
#[local] Instance demo_node_unregistration : Protobuf ServiceDirectoryUnregistrationPB :=
  constant_protobuf (mkServiceDirectoryUnregistrationPB None None None None None).
#[local] Instance demo_node_response : Protobuf ServiceDirectoryResponsePB :=
  constant_protobuf (mkServiceDirectoryResponsePB "" Messages.SUCCESS).
#[local] Instance demo_node_lookup : Protobuf ComponentLookupRequestPB :=
  constant_protobuf (mkComponentLookupRequestPB None None None).
#[local] Instance demo_node_publishers : Protobuf ComponentDataLookupResponsePB :=
  constant_protobuf (mkComponentDataLookupResponsePB ""
    [mkPublisherInfoPB (Some "tcp://p:1") None None None None] "").
#[local] Instance demo_node_service : Protobuf ComponentServiceLookupResponsePB :=
  constant_protobuf (mkComponentServiceLookupResponsePB "" "" "" None).
#[local] Instance demo_node_publisher : Protobuf PublisherInfoPB :=
  constant_protobuf empty_PublisherInfoPB.

Definition demo_node : GravityNode :=
  new_GravityNode <| gn_initialized := true |> <| gn_componentID := "C" |>
    <| gn_myDomain := "D" |> <| gn_serviceDirectoryNode := mkNetworkNode "tcp" "10.0.0.1" 5555 |>.

(** Where a run ends. *)
Definition state_after {A} (m : node unit A) (n : GravityNode) : GravityNode :=
  match m n () with Some (_, n', _) => n' | None => n end.

(** Two services for which there was no port. *)
Definition demo_unbound : GravityNode :=
  state_after (@registerService unit (demo_environment "") _ _ _ _ "B" TCP 8)
    (state_after (@registerService unit (demo_environment "") _ _ _ _ "A" TCP 7) demo_node).

Example shared_url_blocks_services_witness :
  let env := demo_environment "" in
  gn_serviceMap demo_unbound !! "A" = Some "" ∧ gn_serviceMap demo_unbound !! "B" = Some "" ∧
  ∃ ra rb n1 n2,
    unregisterService "A" demo_unbound () = Some (ra, n1, ()) ∧
    unregisterService "B" n1 () = Some (rb, n2, ()) ∧
    rb = REGISTRATION_CONFLICT ∧ registerService "C" TCP 9 n2 () = None.
Proof.
  intros env. split; [by vm_compute|]. split; [by vm_compute|].
  set (n1 := state_after (unregisterService "A") demo_unbound).
  set (n2 := state_after (unregisterService "B") n1).
  assert (E1 : unregisterService "A" demo_unbound () = Some (SUCCESS, n1, ())) by (vm_compute; reflexivity).
  assert (E2 : unregisterService "B" n1 () = Some (REGISTRATION_CONFLICT, n2, ()))
    by (vm_compute; reflexivity).
  exists SUCCESS, REGISTRATION_CONFLICT, n1, n2. split; [exact E1|]. split; [exact E2|].
  split; [reflexivity|].
  apply (shared_url_blocks_services "A" "B" "" demo_unbound n1 n2 () () () SUCCESS
    REGISTRATION_CONFLICT); [by vm_compute|discriminate|by vm_compute|by vm_compute|by vm_compute|
    exact E1|exact E2].
Defined.

Example calls_return_their_locks_witness :
  gn_semaphore (state_after (@run_call unit (demo_environment "tcp://h:1") _ _ _ _ _ _ _ _ _
    (Call_registerDataProduct "A" TCP None)) demo_node) publishManagerRequestSWL = 1.
Proof.
  set (env := demo_environment "tcp://h:1").
  set (n' := state_after (run_call (Call_registerDataProduct "A" TCP None)) demo_node).
  destruct (calls_return_their_locks (Call_registerDataProduct "A" TCP None) demo_node () n' ())
    as [Hl|[(i & u & E & _)|[E _]]]; [vm_compute; reflexivity| |discriminate E|discriminate E].
  exact (Hl publishManagerRequestSWL).
Defined.

Example registration_recorded_witness :
  let env := demo_environment "tcp://h:1" in
  ∃ n' timestamp,
    registerDataProductInternal "A" TCP true false false false demo_node () = Some (SUCCESS, n', ()) ∧
    gn_publishMap n' !! "A" = Some "tcp://h:1" ∧
    gn_urlInstanceMap n' !! "tcp://h:1" = Some timestamp.
Proof.
  intros env.
  set (n' := state_after (registerDataProductInternal "A" TCP true false false false) demo_node).
  assert (E : registerDataProductInternal "A" TCP true false false false demo_node () =
    Some (SUCCESS, n', ())) by (vm_compute; reflexivity).
  destruct (registration_recorded "A" TCP true false false false demo_node () SUCCESS n' ())
    as (_ & _ & H); [by vm_compute| |by vm_compute|exact E|].
  { apply (bool_decide_unpack _). by vm_compute. }
  rewrite decide_True in H by reflexivity. destruct H as (url & ts & _ & Hp & Hu & _).
  assert (url = "tcp://h:1") as ->.
  { assert (Hx : gn_publishMap n' !! "A" = Some url) by (rewrite Hp; apply lookup_insert_eq).
    assert (Hy : gn_publishMap n' !! "A" = Some "tcp://h:1") by (vm_compute; reflexivity).
    rewrite Hx in Hy. by injection Hy. }
  exists n', ts. split; [exact E|]. split; [by vm_compute|]. rewrite Hu. apply lookup_insert_eq.
Defined.

(** A node with one subscription, and the directory at a new address. *)
Definition demo_subscriber : GravityNode :=
  demo_node <| gn_subscriptionList := [mkSubscriptionDetails "D" "P" "" false 3] |>.

Example reregister_doubles_subscriptions_witness :
  let env := demo_environment "" in
  ∃ n', ServiceDirectoryReregister "C" "tcp://sd:5555" demo_subscriber () = Some (SUCCESS, n', ()) ∧
    gn_subscriptionList n' = [mkSubscriptionDetails "D" "P" "" false 3;
      mkSubscriptionDetails "D" "P" "" true 3].
Proof.
  intros env.
  destruct (reregister_doubles_subscriptions (W:=unit)) with (componentId := "C")
    (url := "tcp://sd:5555") (sd := mkNetworkNode "tcp" "sd" 5555) (n := demo_subscriber) (w := ())
    as (n' & [] & E & Hl & _).
  - intros url q t w. exists "", w. split; [reflexivity|].
    exists (mkPublisherInfoPB (Some "tcp://p:1") None None None None), []. split; [reflexivity|].
    discriminate.
  - reflexivity.
  - intros l. reflexivity.
  - by vm_compute.
  - exists n'. split; [exact E|exact Hl].
Defined.

Example directory_url_parts_witness :
  let env := demo_environment "" in
  parse_url (W:=unit) "tcp://*:5555" = Some (mkNetworkNode "tcp" "localhost" 5555) ∧
  parse_url (W:=unit) "localhost:5555" = Some (mkNetworkNode "localhost" "55" 5555).
Proof.
  intros env. split.
  - exact (proj1 (directory_url_parts (W:=unit) "tcp" "*" "5555" eq_refl eq_refl)).
  - exact (proj2 (directory_url_parts (W:=unit) "tcp" "localhost" "5555" eq_refl eq_refl)
      eq_refl eq_refl ltac:(cbn; lia)).
Defined.

Example heartbeat_listener_stays_witness :
  let env := demo_environment "" in
  ∃ n1 n2,
    registerHeartbeatListener "C" 1000 5 "" demo_node () = Some (SUCCESS, n1, ()) ∧
    unregisterHeartbeatListener "C" "" n1 () = Some (SUCCESS, n2, ()) ∧
    ∃ d, d ∈ gn_subscriptionList n2 ∧ sub_dataProductID d = "C_GravityHeartbeat".
Proof.
  intros env.
  set (n1 := state_after (registerHeartbeatListener "C" 1000 5 "") demo_node).
  set (n2 := state_after (unregisterHeartbeatListener "C" "") n1).
  assert (E1 : registerHeartbeatListener "C" 1000 5 "" demo_node () = Some (SUCCESS, n1, ()))
    by (vm_compute; reflexivity).
  assert (E2 : unregisterHeartbeatListener "C" "" n1 () = Some (SUCCESS, n2, ()))
    by (vm_compute; reflexivity).
  exists n1, n2. split; [exact E1|]. split; [exact E2|].
  destruct (heartbeat_listener_stays "C" 1000 5 "" "" demo_node () n1 () SUCCESS n2 ())
    as (_ & d & Hd & Hn & _); [discriminate|by vm_compute|exact E1|exact E2|].
  exists d. split; [exact Hd|exact Hn].
Defined.
End witnesses.
