(* ===== verification/GravityNodeComponents.v ===== *)
(** * A node beside the components it talks to

    [with_component] adds the state of a component to the environment of a node, so that what
    the node sends is what the component gets; [leaves] says that an operation does not
    change a part of the environment. *)

From S2P Require Import Prelude.
From S2P Require Import Messages.
From S2P Require Import CommUtil.
From S2P Require Import GravityDataProduct.
From S2P Require Import ReturnCodes.
From S2P Require Import GravityNode.
From S2P Require Import GravityNodeAPI.
From S2P Require Import GravityNodeProofs.
#[local] Open Scope gravity_scope.
#[local] Open Scope Z_scope.

(** ** One component more

    [exchange] is how requests are answered, [receives] what the component makes of the
    messages on a socket, [reply] the next frame that arrives on one. *)
Section component.
Context {W C : Type} `{NodeEnvironment W}.

Definition beside {A} (f : W → A * W) (w : W * C) : A * (W * C) :=
  let '(x, w1) := f w.1 in (x, (w1, w.2)).

Definition with_component
    (exchange : string → GravityDataProduct → Z → W * C → (PollOutcome * bool) * (W * C))
    (receives : NodeSocket → list frame → C → C)
    (reply : NodeSocket → W * C → option (frame * (W * C))) : NodeEnvironment (W * C) := {|
  env_time := beside env_time;
  env_send l frames w := (env_send l frames w.1, receives l frames w.2);
  env_receive := reply;
  env_exchange := exchange;
  env_local_address := env_local_address;
  env_resolve := env_resolve;
  env_sleep t w := (env_sleep t w.1, w.2);
  env_start_heartbeat p w := (env_start_heartbeat p w.1, w.2);
  env_stop_heartbeat w := (env_stop_heartbeat w.1, w.2);
  env_start_heartbeat_listener w := (env_start_heartbeat_listener w.1, w.2);
  env_register_hbSub := env_register_hbSub;
  env_unregister_hbSub := env_unregister_hbSub;
  env_tolower := env_tolower;
|}.

(** A component that requests, or replies, do not concern. *)
Definition exchange_beside (url : string) (g : GravityDataProduct) (t : Z)
    : W * C → (PollOutcome * bool) * (W * C) := beside (env_exchange url g t).
Definition reply_beside (l : NodeSocket) (w : W * C) : option (frame * (W * C)) :=
  '(f, w1) ← env_receive l w.1; Some (f, (w1, w.2)).
End component.

(** ** What an operation leaves alone in the environment *)

Section leaves.
Context {W X : Type} `{NodeEnvironment W} (part : W → X).

Definition leaves {A} (op : node W A) : Prop :=
  ∀ n w x n' w', op n w = Some (x, n', w') → part w' = part w.

Lemma leaves_ret {A} (x : A) : leaves (mret x).
Proof. by intros n w y n' w' [= <- <- <-]. Qed.
Lemma leaves_bind {A B} (op : node W A) (k : A → node W B) :
  leaves op → (∀ x, leaves (k x)) → leaves (op ≫= k).
Proof.
  intros Ho Hk n w y n' w' (x & n1 & w1 & E1 & E2)%bind_inv. apply Ho in E1. apply Hk in E2. congruence.
Qed.
Lemma leaves_gets {A} (f : GravityNode → A) : leaves (gets f).
Proof. by intros n w y n' w' [= <- <- <-]. Qed.
Lemma leaves_modify f : leaves (modify f).
Proof. by intros n w y n' w' [= <- <- <-]. Qed.
Lemma leaves_Lock l : leaves (Lock l).
Proof. intros n w y n' w' (k & _ & -> & ->)%Lock_inv. done. Qed.
Lemma leaves_Unlock l : leaves (Unlock l).
Proof. by intros n w y n' w' [= <- <- <-]. Qed.
Lemma leaves_ask {A} (f : W → A * W) : (∀ w, part (f w).2 = part w) → leaves (ask f).
Proof. intros Hf n w y n' w'. unfold ask. specialize (Hf w). destruct (f w). by intros [= <- <- <-]. Qed.
Lemma leaves_tell f : (∀ w, part (f w) = part w) → leaves (tell f).
Proof. intros Hf n w y n' w' [= <- <- <-]. apply Hf. Qed.
Lemma leaves_send l frames : (∀ w, part (env_send l frames w) = part w) → leaves (send l frames).
Proof. apply leaves_tell. Qed.
Lemma leaves_receive l :
  (∀ w f w', env_receive l w = Some (f, w') → part w' = part w) → leaves (receive l).
Proof.
  intros Hf n w y n' w'. unfold receive. destruct (env_receive l w) as [[f w1]|] eqn:E; [|done].
  intros [= <- <- <-]. by eapply Hf.
Qed.
End leaves.

Create HintDb node_leaves.
#[export] Hint Resolve leaves_gets leaves_modify leaves_Lock leaves_Unlock : node_leaves.

(** The steps of an operation; the hypotheses say which of them leave the part alone. *)
Ltac leaves_step :=
  match goal with
  | |- leaves _ (mret _) => apply leaves_ret
  | |- leaves _ (mbind _ _) => apply leaves_bind; [|intros ?]
  | |- leaves _ (match ?x with _ => _ end) => destruct x
  | |- leaves _ (if ?x then _ else _) => destruct x
  | |- leaves _ (ask _) => apply leaves_ask; solve [eauto]
  | |- leaves _ (tell _) => apply leaves_tell; solve [eauto]
  | |- leaves _ (send _ _) => apply leaves_send; solve [eauto]
  | |- leaves _ (receive _) => apply leaves_receive; solve [eauto]
  | |- leaves _ _ => solve [eauto with node_leaves]
  end.
Ltac leaves_solve := repeat leaves_step.

Section operations.
Context {W X : Type} `{NodeEnvironment W} (part : W → X).
Context `{Protobuf GravityDataProductPB, Protobuf GravityConfigParamPB,
  Protobuf ServiceDirectoryRegistrationPB, Protobuf ServiceDirectoryUnregistrationPB,
  Protobuf ServiceDirectoryResponsePB, Protobuf ComponentLookupRequestPB,
  Protobuf ComponentDataLookupResponsePB, Protobuf ComponentServiceLookupResponsePB,
  Protobuf PublisherInfoPB}.

Lemma leaves_registration_time_of i : leaves part (registration_time_of i).
Proof. unfold registration_time_of. leaves_solve. Qed.
Lemma leaves_url_instance url : leaves part (url_instance url).
Proof. unfold url_instance. leaves_solve. Qed.
Lemma leaves_getIP : leaves part getIP.
Proof. unfold getIP. leaves_solve. Qed.

Section publishing.
Hypothesis time_leaves : ∀ w, part (env_time w).2 = part w.
Hypothesis publish_leaves : ∀ frames w, part (env_send publishManagerPublishSWL frames w) = part w.
#[local] Hint Resolve leaves_registration_time_of leaves_getIP : node_leaves.

Lemma leaves_publish g f t : leaves part (publish g f t).
Proof. unfold publish. leaves_solve. Qed.
#[local] Hint Resolve leaves_publish : node_leaves.
Lemma leaves_getStringParam k d : leaves part (getStringParam k d).
Proof. unfold getStringParam. leaves_solve. Qed.
#[local] Hint Resolve leaves_getStringParam : node_leaves.
Lemma leaves_getIntParam k d : leaves part (getIntParam k d).
Proof. unfold getIntParam. leaves_solve. Qed.
#[local] Hint Resolve leaves_getIntParam : node_leaves.
Lemma leaves_transport_endpoint t i : leaves part (transport_endpoint t i).
Proof. unfold transport_endpoint. leaves_solve. Qed.
Lemma leaves_port_frames t : leaves part (port_frames t).
Proof. unfold port_frames. leaves_solve. Qed.
End publishing.

Section requests.
Hypothesis exchange_leaves : ∀ url g t w, part (env_exchange url g t w).2 = part w.
Hypothesis sleep_leaves : ∀ t w, part (env_sleep t w) = part w.

Lemma leaves_send_requests url g t k ret r : leaves part (send_requests url g t k ret r).
Proof.
  revert ret r. induction k as [|k IH]; intros ret r; cbn [send_requests]; [leaves_solve|].
  unfold sendRequestToServiceProvider. leaves_solve.
Qed.
#[local] Hint Resolve leaves_send_requests : node_leaves.
Lemma leaves_sendRequestToServiceDirectory g r : leaves part (sendRequestToServiceDirectory g r).
Proof. unfold sendRequestToServiceDirectory, sendRequestsToServiceProvider. leaves_solve. Qed.
#[local] Hint Resolve leaves_sendRequestToServiceDirectory : node_leaves.
Lemma leaves_ServiceDirectoryDataProductLookup i d l :
  leaves part (ServiceDirectoryDataProductLookup i d l).
Proof. unfold ServiceDirectoryDataProductLookup. leaves_solve. Qed.
Lemma leaves_ServiceDirectoryServiceLookup i d : leaves part (ServiceDirectoryServiceLookup i d).
Proof. unfold ServiceDirectoryServiceLookup. leaves_solve. Qed.
Lemma leaves_send_registration r : leaves part (send_registration r).
Proof. unfold send_registration. leaves_solve. Qed.
#[local] Hint Resolve leaves_ServiceDirectoryDataProductLookup : node_leaves.
Lemma leaves_lookup_registered_publishers k found : leaves part (lookup_registered_publishers k found).
Proof.
  revert found. induction k as [|k IH]; intros found; cbn [lookup_registered_publishers]; leaves_solve.
Qed.
End requests.
End operations.

#[export] Hint Resolve leaves_registration_time_of leaves_url_instance leaves_getIP leaves_publish
  leaves_getStringParam leaves_getIntParam leaves_transport_endpoint leaves_port_frames
  leaves_send_requests leaves_sendRequestToServiceDirectory leaves_ServiceDirectoryDataProductLookup
  leaves_ServiceDirectoryServiceLookup leaves_send_registration
  leaves_lookup_registered_publishers : node_leaves.

(** ** What subscribing leaves in the node *)

Import GravityReturnCodes.

Section subscribing.
Context {W : Type} `{NodeEnvironment W}.
Context `{Protobuf GravityDataProductPB, Protobuf ComponentLookupRequestPB,
  Protobuf ComponentDataLookupResponsePB, Protobuf PublisherInfoPB}.

(** The subscription is there exactly when the answer is success. *)
Definition subscribed_if (i filter domain : string) (a : Z) (ret : GravityReturnCode)
    (n n' : GravityNode) : Prop :=
  gn_myDomain n' = gn_myDomain n ∧ ∃ receive, gn_subscriptionList n' = gn_subscriptionList n ++
    if decide (ret = SUCCESS)
    then [mkSubscriptionDetails (if decide (domain = "") then gn_myDomain n else domain) i filter receive a]
    else [].

Lemma not_subscribed i filter domain a ret n n' :
  quiet n n' → ret ≠ SUCCESS → subscribed_if i filter domain a ret n n'.
Proof.
  intros Q Hne. split; [exact (quiet_myDomain _ _ Q)|]. exists true.
  by rewrite decide_False, app_nil_r, (quiet_subscriptionList _ _ Q).
Qed.

Lemma subscribeInternal_subscriptions i a filter domain receive n (w : W) ret n' w' :
  subscribeInternal i a filter domain receive n w = Some (ret, n', w') →
  subscribed_if i filter domain a ret n n'.
Proof.
  intros E. unfold subscribeInternal, when_initialized in E.
  apply bind_inv in E as (b0 & n3 & w3 & [= <- <- <-] & E).
  destruct (negb _); [by injection E as <- <- <-; apply not_subscribed|].
  apply bind_inv in E as (n0 & n3 & w3 & [= <- <- <-] & E). unfold id in E.
  apply bind_inv in E as ([ret1 infos] & n3 & w3 & Q3%quietly_ServiceDirectoryDataProductLookup & E).
  destruct (decide (ret1 ≠ SUCCESS)); [by injection E as <- <- <-; apply not_subscribed|].
  apply bind_inv in E as ([ret2 found] & n4 & w4 & Q4%quietly_lookup_registered_publishers & E).
  assert (Q : quiet n n4) by by etrans.
  destruct (decide (ret2 ≠ SUCCESS)); [by injection E as <- <- <-; apply not_subscribed|].
  destruct found as [|info found]; [by injection E as <- <- <-; apply not_subscribed|].
  destruct (decide (pi_url info = None)); [by injection E as <- <- <-; apply not_subscribed|].
  apply bind_inv in E as (u1 & na & wa & [= <- <- <-] & E).
  apply bind_inv in E as (u2 & nb & wb & [= <- <- <-] & [= <- <- <-]).
  split; [exact (quiet_myDomain _ _ Q)|]. eexists. rewrite (decide_True _ _ (eq_refl SUCCESS)). cbn.
  rewrite (quiet_subscriptionList _ _ Q). reflexivity.
Qed.

Lemma subscribe_subscriptions i a filter domain receive n (w : W) ret n' w' :
  subscribe i a filter domain receive n w = Some (ret, n', w') →
  subscribed_if i filter domain a ret n n'.
Proof.
  intros E. unfold subscribe in E.
  apply bind_inv in E as (u & n1 & w1 & EL & E). apply Lock_inv in EL as (k & Hk & -> & ->).
  apply bind_inv in E as (n0 & n1 & w1 & [= <- <- <-] & E).
  apply bind_inv in E as (r & n2 & w2 & ES%subscribeInternal_subscriptions & E).
  apply bind_inv in E as (u' & n3 & w3 & [= <- <- <-] & [= <- <- <-]). exact ES.
Qed.
End subscribing.
