(* ===== verification/GravityNodeSubscriptions.v ===== *)
(** * The node and its subscription manager

    The messages that the operations of the node send are read by the manager's thread as the
    commands they stand for.  [node_with_manager] is an environment of the node in which a
    message to the manager is a turn of it, so that what an operation of the node does to the
    subscriptions is a statement about one run. *)

From S2P Require Import Prelude.
From S2P Require Import Messages.
From S2P Require Import CommUtil.
From S2P Require Import GravityDataProduct.
From S2P Require Import ReturnCodes.
From S2P Require Import GravityHeartbeat.
From S2P Require Import GravityNode.
From S2P Require Import GravityNodeAPI.
From S2P Require Import GravityNodeProofs.
From S2P Require Import GravityNodeComponents.
From S2P Require GravitySubscriptionManager.
From S2P Require GravitySubscriptionManagerRequests.
#[local] Open Scope gravity_scope.
#[local] Open Scope Z_scope.

Import GravityReturnCodes.

Module SM := GravitySubscriptionManager.
Module SMR := GravitySubscriptionManagerRequests.

Section messages.
Context `{ProtobufLaw PublisherInfoPB}.

Implicit Types m : SM.SubscriptionManager.

Lemma read_pointer_sent p rest : is_u64 p → SM.read_pointer (pointer_frame p :: rest) = Some (p, rest).
Proof.
  intros Hp. unfold SM.read_pointer, pointer_frame. change (le_bytes 8 p) with (sendUint64Message p).
  by rewrite read_uint64_sent, u64_id.
Qed.

Lemma read_publishers_sent (l : list PublisherInfoPB) rest :
  SM.read_publishers (length l) ((serialize <$> l) ++ rest) = Some (l, rest).
Proof.
  induction l as [|p l IH]; [done|]. cbn [length SM.read_publishers fmap list_fmap app].
  unfold read_bind at 1. cbn [readStringMessage]. unfold read_bind at 1.
  change (list_fmap _ _ serialize l) with (serialize <$> l). rewrite IH.
  by rewrite parse_serialize.
Qed.

Lemma subscription_commands_read m address id r infos filter domain url p timeout :
  is_u64 p → is_s32 timeout → Z.of_nat (length infos) < u32_max →
  SM.node_request (subscribe_message id r infos filter domain url p) address m =
    Some (SM.addSubscription (SM.mkSubscribeRequest id r infos filter domain url p) m, true) ∧
  SM.node_request (unsubscribe_message id filter domain p) address m =
    Some (SM.removeSubscription (SM.mkUnsubscribeRequest id filter domain p) m, true) ∧
  SM.node_request (set_monitor_message id p timeout filter domain) address m =
    Some (SM.setTimeoutMonitor (SM.mkMonitorRequest id p timeout filter domain) address m, true) ∧
  SM.node_request (clear_monitor_message id p filter domain) address m =
    Some (SM.clearTimeoutMonitor (SM.mkMonitorRequest id p 0 filter domain) m, true).
Proof.
  intros Hp Ht Hl. split_and!.
  - unfold SM.node_request, subscribe_message, SM.read_subscribe, read_bind.
    cbn -[SM.addSubscription SM.read_publishers SM.read_pointer pointer_frame readIntMessage
      sendIntMessage readUint32Message sendUint32Message].
    rewrite read_int_sent, s32_id by (by destruct r). cbv beta iota.
    rewrite read_uint32_sent, u32_id by (unfold is_u32; lia). rewrite Nat2Z.id.
    change (list_fmap _ _ serialize infos) with (serialize <$> infos). rewrite read_publishers_sent.
    cbn -[SM.addSubscription SM.read_pointer pointer_frame]. rewrite read_pointer_sent by done.
    by destruct r.
  - unfold SM.node_request, unsubscribe_message, SM.read_unsubscribe, read_bind.
    cbn -[SM.removeSubscription SM.read_pointer pointer_frame]. by rewrite read_pointer_sent.
  - unfold SM.node_request, set_monitor_message, SM.read_set_monitor, read_bind.
    cbn -[SM.setTimeoutMonitor SM.read_pointer pointer_frame readIntMessage sendIntMessage].
    rewrite read_pointer_sent by done. rewrite read_int_sent, s32_id by done. done.
  - unfold SM.node_request, clear_monitor_message, SM.read_clear_monitor, read_bind.
    cbn -[SM.clearTimeoutMonitor SM.read_pointer pointer_frame]. by rewrite read_pointer_sent.
Qed.
(** The four commands of the node about subscriptions arrive as they were meant: the manager
    reads the same product, filter, domain, publishers, addresses and times. *)
Theorem subscription_commands_understood m address id r infos filter domain url p timeout :
  is_u64 p → is_s32 timeout → Z.of_nat (length infos) < u32_max →
  SM.node_request (subscribe_message id r infos filter domain url p) address m =
    Some (SM.addSubscription (SM.mkSubscribeRequest id r infos filter domain url p) m, true) ∧
  SM.node_request (unsubscribe_message id filter domain p) address m =
    Some (SM.removeSubscription (SM.mkUnsubscribeRequest id filter domain p) m, true) ∧
  SM.node_request (set_monitor_message id p timeout filter domain) address m =
    Some (SM.setTimeoutMonitor (SM.mkMonitorRequest id p timeout filter domain) address m, true) ∧
  SM.node_request (clear_monitor_message id p filter domain) address m =
    Some (SM.clearTimeoutMonitor (SM.mkMonitorRequest id p 0 filter domain) m, true).
Proof. apply subscription_commands_read. Qed.
End messages.

(** ** The node with its manager *)

Section composition.
Context {W : Type} `{E0 : NodeEnvironment W}.
Context `{Protobuf GravityDataProductPB, Protobuf GravityConfigParamPB,
  Protobuf ServiceDirectoryRegistrationPB, Protobuf ServiceDirectoryUnregistrationPB,
  Protobuf ServiceDirectoryResponsePB, Protobuf ComponentLookupRequestPB,
  Protobuf ComponentDataLookupResponsePB, Protobuf ComponentServiceLookupResponsePB}.
Context `{ProtobufLaw PublisherInfoPB}.

(** The address of the next object the manager allocates. *)
Variable address : SM.SubscriptionManager → Z.

(** A message for the manager is served at once; a message it cannot read leaves it as it is. *)
Definition manager_receives (frames : list frame) (m : SM.SubscriptionManager)
    : SM.SubscriptionManager :=
  match SM.node_request frames (address m) m with Some (m', _) => m' | None => m end.

#[local] Instance node_with_manager : NodeEnvironment (W * SM.SubscriptionManager) :=
  with_component exchange_beside
    (λ l frames m, if decide (l = subscriptionManagerSWL) then manager_receives frames m else m)
    reply_beside.

Abbreviation world := (W * SM.SubscriptionManager)%type.

(** A message to the manager. *)
Lemma send_manager frames n w x n' w' :
  send subscriptionManagerSWL frames n w = Some (x, n', w') →
  n' = n ∧ w'.2 = manager_receives frames w.2.
Proof. unfold send, tell. cbn. rewrite decide_True by done. by intros [= <- <- <-]. Qed.

(** The domain an operation means: an empty one is the node's. *)
Definition meant_domain (n : GravityNode) (domain : string) : string :=
  if decide (domain = "") then gn_myDomain n else domain.

(** An end of a subscription is one of the manager. *)
Theorem unsubscribe_reaches_manager id subscriber filter domain n w ret n' w' :
  is_u64 subscriber → gn_initialized n = true →
  unsubscribe id subscriber filter domain n w = Some (ret, n', w') →
  ret = SUCCESS ∧ w'.2 = SM.removeSubscription
    (SM.mkUnsubscribeRequest id filter (meant_domain n domain) subscriber) w.2.
Proof.
  intros Hp Hi E. unfold unsubscribe, unsubscribeInternal, when_initialized in E.
  apply bind_inv in E as (u & n1 & w1 & EL & E). apply Lock_inv in EL as (k & Hk & -> & ->).
  apply bind_inv in E as (r & n2 & w2 & ES & E).
  apply bind_inv in E as (u' & n3 & w3 & [= <- <- <-] & [= <- <- <-]).
  apply bind_inv in ES as (b & n3 & w3 & [= <- <- <-] & ES).
  change (gn_initialized (set_semaphore _ _ n)) with (gn_initialized n) in ES. rewrite Hi in ES.
  cbn [negb] in ES. apply bind_inv in ES as (n0 & n3 & w3 & [= <- <- <-] & ES).
  unfold Datatypes.id in ES.
  apply bind_inv in ES as (u1 & na & wa & E3 & ES). apply send_manager in E3 as [-> E3].
  apply bind_inv in ES as (u2 & nb & wb & [= <- <- <-] & [= <- <- <-]).
  split; [done|]. rewrite E3. unfold manager_receives, meant_domain.
  change (gn_myDomain (set_semaphore _ _ n)) with (gn_myDomain n).
  destruct (subscription_commands_read w.2 (address w.2) id false [] filter
    (if decide (domain = "") then gn_myDomain n else domain) "" subscriber 0) as (_ & -> & _); done.
Qed.

(** A monitor that is set and cleared with the default domain stays: the node replaces the
    empty domain by its own when the monitor is set, and not when it is cleared. *)
Theorem default_domain_monitor_stays id monitor timeout filter n w r1 n1 w1 r2 n2 w2 :
  is_u64 monitor → is_s32 timeout → 0 < timeout →
  gn_initialized n = true → gn_myDomain n ≠ "" → SM.find_details ("", id) filter w.2 = None →
  setSubscriptionTimeoutMonitor id monitor timeout filter "" n w = Some (r1, n1, w1) →
  clearSubscriptionTimeoutMonitor id monitor filter "" n1 w1 = Some (r2, n2, w2) →
  r1 = SUCCESS ∧ r2 = SUCCESS ∧ w2.2 = SM.setTimeoutMonitor
    (SM.mkMonitorRequest id monitor timeout filter (gn_myDomain n)) (address w.2) w.2.
Proof.
  intros Hp Ht Hpos Hi Hd Hf E1 E2.
  unfold setSubscriptionTimeoutMonitor, when_initialized in E1.
  apply bind_inv in E1 as (b & n3 & w3 & [= <- <- <-] & E1). rewrite Hi in E1. cbn [negb] in E1.
  apply bind_inv in E1 as (n0 & n3 & w3 & [= <- <- <-] & E1). unfold Datatypes.id in E1.
  rewrite (decide_False (P := timeout <= 0)), (decide_True (P := "" = "")) in E1 by (done || lia).
  apply bind_inv in E1 as (u & n3 & w3 & EL & E1). apply Lock_inv in EL as (k & Hk & -> & ->).
  apply bind_inv in E1 as (u1 & na & wa & E3 & E1). apply send_manager in E3 as [-> E3].
  apply bind_inv in E1 as (u2 & nb & wb & [= <- <- <-] & [= <- <- <-]).
  unfold clearSubscriptionTimeoutMonitor, when_initialized in E2.
  apply bind_inv in E2 as (b & n3 & w3 & [= <- <- <-] & E2).
  change (gn_initialized (set_semaphore _ _ _)) with (gn_initialized n) in E2. rewrite Hi in E2.
  cbn [negb] in E2.
  apply bind_inv in E2 as (u3 & n3 & w3 & EL & E2). apply Lock_inv in EL as (k' & Hk' & -> & ->).
  apply bind_inv in E2 as (u4 & nc & wc & E4 & E2). apply send_manager in E4 as [-> E4].
  apply bind_inv in E2 as (u5 & nd & wd & [= <- <- <-] & [= <- <- <-]).
  split; [done|]. split; [done|]. rewrite E4, E3. unfold manager_receives.
  destruct (subscription_commands_read w.2 (address w.2) id false [] filter (gn_myDomain n) "" monitor
    timeout) as (_ & _ & -> & _); [done..|].
  set (m := SM.setTimeoutMonitor _ _ _).
  destruct (subscription_commands_read m (address m) id false [] filter "" "" monitor 0)
    as (_ & _ & _ & ->); [done..|].
  assert (Em : SM.find_details ("", id) filter m = None).
  { unfold m. rewrite SMR.setTimeoutMonitor_other_key; [done|].
    cbn [SM.mq_domain SM.mq_dataProductID]. congruence. }
  unfold SM.clearTimeoutMonitor. cbn [SM.mq_domain SM.mq_dataProductID SM.mq_filter]. by rewrite Em.
Qed.
End composition.

(** ** Concrete runs *)

Section witnesses.

(** Requests to the directory are answered. *)
#[local] Instance demo_environment : NodeEnvironment unit | 10 := {|
  env_time w := (5000000, w);
  env_send _ _ w := w;
  env_receive _ w := Some ("", w);
  env_exchange _ _ _ w := ((PollReply "", false), w);
  env_local_address _ _ := "10.0.0.2";
  env_resolve host := host;
  env_sleep _ w := w;
  env_start_heartbeat _ w := w;
  env_stop_heartbeat w := w;
  env_start_heartbeat_listener w := w;
  env_register_hbSub := 1;
  env_unregister_hbSub := 2;
  env_tolower c := c;
|}.

#[local] Program Instance PublisherInfoPB_countable : Countable PublisherInfoPB :=
  inj_countable' (λ p, (pi_url p, pi_isRelay p, pi_componentID p, pi_ipAddress p, pi_registration_time p))
    (λ '(u, r, c, i, t), mkPublisherInfoPB u r c i t) _.
Next Obligation. by intros []. Qed.

Definition demo_info : PublisherInfoPB := mkPublisherInfoPB (Some "t") None None None (Some 7).

#[local] Instance demo_publisher : Protobuf PublisherInfoPB :=
  countable_protobuf empty_PublisherInfoPB "PublisherInfoPB".
#[local] Instance demo_publisher_law : ProtobufLaw PublisherInfoPB := countable_protobuf_law _ _.
#[local] Instance demo_gdp : Protobuf GravityDataProductPB :=
  {| serialize _ := ""; parse _ := (new_GravityDataProduct "A", true); type_name := "" |}.
#[local] Instance demo_lookup : Protobuf ComponentLookupRequestPB :=
  {| serialize _ := ""; parse _ := (mkComponentLookupRequestPB None None None, true); type_name := "" |}.
#[local] Instance demo_publishers : Protobuf ComponentDataLookupResponsePB :=
  {| serialize _ := ""; parse _ := (mkComponentDataLookupResponsePB "" [demo_info] "", true);
     type_name := "" |}.

Lemma subscription_commands_understood_witness :
  SM.node_request (subscribe_message "P" true [demo_info] "" "D" "u" 7) 100
    (SM.initial_SubscriptionManager (λ _, 0)) =
  Some (SM.addSubscription (SM.mkSubscribeRequest "P" true [demo_info] "" "D" "u" 7)
    (SM.initial_SubscriptionManager (λ _, 0)), true).
Proof.
  apply (subscription_commands_understood (SM.initial_SubscriptionManager (λ _, 0)) 100 "P" true
    [demo_info] "" "D" "u" 7 1000); apply (bool_decide_unpack _); by vm_compute.
Defined.

Definition demo_world : unit * SM.SubscriptionManager := ((), SM.initial_SubscriptionManager (λ _, 0)).
Definition demo_address (m : SM.SubscriptionManager) : Z := 100.
#[local] Existing Instance node_with_manager.

Definition demo_composed {A} (op : node (unit * SM.SubscriptionManager) A) n w :=
  match op n w with Some (_, n', w') => (n', w') | None => (n, w) end.

Definition demo_after_subscribe :=
  demo_composed (subscribe (W := unit * SM.SubscriptionManager)
    (H := node_with_manager demo_address) "P" 7 "" "" (Some true)) demo_node demo_world.

Definition demo_after_unsubscribe :=
  demo_composed (unsubscribe (W := unit * SM.SubscriptionManager)
    (H := node_with_manager demo_address) "P" 7 "" "") demo_after_subscribe.1 demo_after_subscribe.2.

Lemma unsubscribe_reaches_manager_witness :
  demo_after_unsubscribe.2.2 =
    SM.removeSubscription (SM.mkUnsubscribeRequest "P" "" "D" 7) demo_after_subscribe.2.2.
Proof.
  destruct (unsubscribe_reaches_manager demo_address "P" 7 "" "" demo_after_subscribe.1
    demo_after_subscribe.2 SUCCESS demo_after_unsubscribe.1 demo_after_unsubscribe.2) as [_ E].
  - apply (bool_decide_unpack _). by vm_compute.
  - by vm_compute.
  - vm_compute. reflexivity.
  - exact E.
Defined.

Definition demo_after_set :=
  demo_composed (setSubscriptionTimeoutMonitor (W := unit * SM.SubscriptionManager)
    (H := node_with_manager demo_address) "P" 8 1000 "" "") demo_node demo_world.
Definition demo_after_clear :=
  demo_composed (clearSubscriptionTimeoutMonitor (W := unit * SM.SubscriptionManager)
    (H := node_with_manager demo_address) "P" 8 "" "") demo_after_set.1 demo_after_set.2.

Lemma default_domain_monitor_stays_witness :
  demo_after_clear.2.2 = SM.setTimeoutMonitor (SM.mkMonitorRequest "P" 8 1000 "" "D") 100 demo_world.2.
Proof.
  destruct (default_domain_monitor_stays demo_address "P" 8 1000 "" demo_node demo_world SUCCESS
    demo_after_set.1 demo_after_set.2 SUCCESS demo_after_clear.1 demo_after_clear.2) as (_ & _ & E).
  - apply (bool_decide_unpack _). by vm_compute.
  - apply (bool_decide_unpack _). by vm_compute.
  - lia.
  - by vm_compute.
  - by vm_compute.
  - by vm_compute.
  - vm_compute. reflexivity.
  - vm_compute. reflexivity.
  - exact E.
Defined.
End witnesses.
