(* ===== verification/FileArchive.v ===== *)
(** * Archives: writing, reading and replaying data products
    (src/src/components/cpp/Archiver/FileArchiver.cpp, Playback/FileReader.cpp,
    Playback/FileReplay.cpp)

    The archiver appends the products it receives to a file; a thread of the replay reads them
    ahead of the thread that publishes them.  A file is the string of its bytes, written by a
    little-endian machine with integers of 32 bits; an input stream is what is left to read,
    or nothing once a read has failed.  The two threads share the reader behind a mutex: each
    locked section is one step.  Calls of the node are outputs. *)

From Stdlib Require Import Ascii.
From S2P Require Import Prelude.
From S2P Require Import Messages.
From S2P Require Import CommUtil.
From S2P Require Import Utility.
From S2P Require Import GravityDataProduct.
#[local] Open Scope gravity_scope.
#[local] Open Scope Z_scope.

(** ** Lists in settings *)

(** [getline] until the end: the pieces between delimiters, without an empty last one. *)
Fixpoint getlines (delim : ascii) (tok s : string) : list string :=
  match s with
  | EmptyString => if decide (tok = "") then [] else [tok]
  | String c s =>
      if decide (c = delim) then tok :: getlines delim "" s
      else getlines delim (tok +:+ String c "") s
  end.

(** The same in [FileReader] and [FileArchiver]. *)
Definition split (s : string) : list string := (λ tok, trim tok " ") <$> getlines ","%char "" s.

(** ** The archiver *)

Record FileArchiverControlRequestPB := mkFileArchiverControlRequestPB {
  acq_suspend : option bool;
}.
Record FileArchiverControlResponsePB := mkFileArchiverControlResponsePB {
  acr_status : option bool;
}.

Record FileArchiver := mkFileArchiver {
  fa_archiveFile : string;
  fa_suspend : bool;
}.
#[export] Instance eta_FileArchiver : Eta FileArchiver := λ a,
  mkFileArchiver (fa_archiveFile a) (fa_suspend a).

(** The constructor, from the settings [DataProductList] and [StartSuspended]: the archive
    starts with an integer 1; the products are those it subscribes to. *)
Definition new_FileArchiver (dpList : string) (suspend : bool) : FileArchiver * list string :=
  (mkFileArchiver (le_bytes 4 1) suspend, split dpList).

Section archiver.
Context `{Protobuf GravityDataProductPB, Protobuf FileArchiverControlRequestPB,
  Protobuf FileArchiverControlResponsePB}.

Definition archive_product (file : string) (g : GravityDataProduct) : string :=
  file +:+ le_bytes 4 (getSize g) +:+ serializeToArray g.

Definition archive_filled (dataProducts : list GravityDataProduct) (a : FileArchiver) : FileArchiver :=
  if fa_suspend a then a
  else a <| fa_archiveFile ::= λ file, foldl archive_product file dataProducts |>.

(** Another service is answered with a status of false. *)
Definition archiver_request (serviceID : string) (dataProduct : GravityDataProduct)
    (a : FileArchiver) : GravityDataProduct * FileArchiver :=
  let '(status, a) :=
    if decide (serviceID = "FileArchiverControlRequest") then
      let '(faRequest, parsed) := populateMessage dataProduct in
      if parsed : bool then (true, a <| fa_suspend := flag (acq_suspend faRequest) |>) else (false, a)
    else (false, a) in
  (setData (mkFileArchiverControlResponsePB (Some status))
    (new_GravityDataProduct "FileArchiverControlResponse"), a).
End archiver.

(** ** The reader *)

(** Shifts of an [int], the right one with the sign. *)
Definition endian_swap (i : Z) : Z :=
  s32 (Z.lor (Z.lor (Z.lor (Z.shiftr i 24) (Z.land (s32 (Z.shiftl i 8)) 16711680))
    (Z.land (Z.shiftr i 8) 65280)) (s32 (Z.shiftl i 24))).

Record FileReader := mkFileReader {
  fr_archiveFile : option string;
  fr_dataProducts : list GravityDataProduct;
  fr_dpList : list string;
  fr_swapEndian : bool;
}.
#[export] Instance eta_FileReader : Eta FileReader := λ r,
  mkFileReader (fr_archiveFile r) (fr_dataProducts r) (fr_dpList r) (fr_swapEndian r).

(** [read]: all the bytes asked for, or failure. *)
Definition read_bytes (n : nat) (file : string) : option (string * string) :=
  if decide (n ≤ String.length file)%nat then Some (str_take n file, str_drop n file) else None.

(** [FileReader::init]; [None] for a file of less than four bytes, whose byte order is not
    determined. *)
Definition FileReader_init (file dataProductList : string) : option FileReader :=
  match read_bytes 4 file with
  | Some (i, file) =>
      Some (mkFileReader (Some file) [] (split dataProductList) (negb (s32 (le_value i) =? 1)))
  | None => None
  end.

Section reader.
Context `{Protobuf GravityDataProductPB}.

(** Is the product one to be replayed? *)
Definition of_interest (dpList : list string) (g : GravityDataProduct) : Prop :=
  dpList = [] ∨ getDataProductID g ∈ dpList.
#[global] Instance of_interest_dec dpList g : Decision (of_interest dpList g).
Proof. unfold of_interest. apply _. Defined.

(** The loop of [readNextDataProduct]; [None] when the size is negative, for which
    [std::vector] throws.  Every turn but the last reads four bytes or more. *)
Fixpoint read_loop (fuel : nat) (r : FileReader) : option FileReader :=
  match fuel, fr_archiveFile r with
  | S fuel, Some file =>
      match read_bytes 4 file with
      | None => Some (r <| fr_archiveFile := None |>)
      | Some (bytes, file) =>
          let size := s32 (le_value bytes) in
          let size := if fr_swapEndian r then endian_swap size else size in
          if size <? 0 then None
          else
            match read_bytes (Z.to_nat size) file with
            | None => Some (r <| fr_archiveFile := None |>)
            | Some (buffer, file) =>
                let gdp := GravityDataProduct_from_bytes buffer in
                let r := r <| fr_archiveFile := Some file |> in
                if decide (of_interest (fr_dpList r) gdp)
                then Some (r <| fr_dataProducts ::= λ l, l ++ [gdp] |>)
                else read_loop fuel r
            end
      end
  | _, _ => Some r
  end.

(** One locked section; the result of the function is the number of products waiting. *)
Definition readNextDataProduct (r : FileReader) : option FileReader :=
  read_loop (S (String.length (default "" (fr_archiveFile r)))) r.

Definition popGravityDataProduct (r : FileReader) : option (GravityDataProduct * FileReader) :=
  match fr_dataProducts r with
  | [] => None
  | g :: l => Some (g, r <| fr_dataProducts := l |>)
  end.

(** ** The two threads *)

(** [processArchive]: about to read, waiting while more than a hundred products wait, or at
    its end. *)
Inductive ReaderThread := Reading | Waiting | ReaderEnded.
(** [getNextDataProduct]: about to ask for data, to read, or to pop; or it gave null. *)
Inductive ReplayThread := Asking | ToRead | ToPop | AtEnd.

Record Playback := mkPlayback {
  pb_fileReader : FileReader;
  pb_reader : ReaderThread;
  pb_replay : ReplayThread;
  pb_delivered : list GravityDataProduct;
}.

Inductive PlaybackThread := TheReader | TheReplay.
#[export] Instance PlaybackThread_eq_dec : EqDecision PlaybackThread.
Proof. solve_decision. Defined.

Definition has_data (r : FileReader) : bool := bool_decide (fr_dataProducts r ≠ []).
Definition reader_full (r : FileReader) : bool :=
  bool_decide (is_Some (fr_archiveFile r)) && (100 <? length (fr_dataProducts r))%nat.

(** A locked section of one of the threads; [None] when it crashes or has ended. *)
Definition playback_step (t : PlaybackThread) (p : Playback) : option Playback :=
  let r := pb_fileReader p in
  match t with
  | TheReader =>
      match pb_reader p with
      | Reading =>
          r ← readNextDataProduct r;
          Some (mkPlayback r (if has_data r then Waiting else ReaderEnded) (pb_replay p) (pb_delivered p))
      | Waiting =>
          Some (mkPlayback r (if reader_full r then Waiting else Reading) (pb_replay p) (pb_delivered p))
      | ReaderEnded => None
      end
  | TheReplay =>
      match pb_replay p with
      | Asking =>
          Some (mkPlayback r (pb_reader p) (if has_data r then ToPop else ToRead) (pb_delivered p))
      | ToRead =>
          r ← readNextDataProduct r;
          Some (mkPlayback r (pb_reader p) (if has_data r then ToPop else AtEnd) (pb_delivered p))
      | ToPop =>
          '(g, r) ← popGravityDataProduct r;
          Some (mkPlayback r (pb_reader p) Asking (pb_delivered p ++ [g]))
      | AtEnd => None
      end
  end.

Definition new_Playback (r : FileReader) : Playback := mkPlayback r Reading Asking [].
End reader.

(** ** The replay *)

Inductive ReplayOutput :=
| ReplayRegister (dataProductID : string)
| ReplaySleep (microseconds : Z)
| ReplayPublish (g : GravityDataProduct).

Record FileReplay := mkFileReplay {
  rp_firstPublishTime : Z;
  rp_firstDataTime : Z;
  rp_datatypes : gset string;
}.
#[export] Instance eta_FileReplay : Eta FileReplay := λ r,
  mkFileReplay (rp_firstPublishTime r) (rp_firstDataTime r) (rp_datatypes r).

Definition new_FileReplay : FileReplay := mkFileReplay 0 0 ∅.

Definition data_time (g : GravityDataProduct) : Z :=
  if decide (getReceivedTimestamp g = 0) then getGravityTimestamp g else getReceivedTimestamp g.

(** One product, at time [now]; [usleep] takes 32 bits. *)
Definition replay_product (now : Z) (g : GravityDataProduct) (r : FileReplay)
    : list ReplayOutput * FileReplay :=
  let id := getDataProductID g in
  let registration := if decide (id ∈ rp_datatypes r) then [] else [ReplayRegister id] in
  let r := r <| rp_datatypes ::= union {[id]} |> in
  let timestamp := data_time g in
  let '(waiting, r) :=
    if decide (rp_firstPublishTime r = 0) then
      ([], r <| rp_firstPublishTime := now |> <| rp_firstDataTime := timestamp |>)
    else
      let timeToWait :=
        if rp_firstDataTime r <? timestamp then timestamp - rp_firstDataTime r else 0 in
      let elapsedTime := u64 (now - rp_firstPublishTime r) in
      (if elapsedTime <? timeToWait then [ReplaySleep (u32 (timeToWait - elapsedTime))] else [], r) in
  (registration ++ waiting ++ [ReplayPublish g], r).

(** The products with the times at which they are taken up. *)
Fixpoint replay_archive (l : list (Z * GravityDataProduct)) (r : FileReplay)
    : list ReplayOutput * FileReplay :=
  match l with
  | [] => ([], r)
  | (now, g) :: l =>
      let '(o, r) := replay_product now g r in
      let '(o', r) := replay_archive l r in (o ++ o', r)
  end.
