(* ===== verification/FileArchiveProofs.v ===== *)
(** * Archives: what is written is what is replayed *)

From S2P Require Import Prelude.
From S2P Require Import Messages.
From S2P Require Import CommUtil.
From S2P Require Import Utility.
From S2P Require Import GravityDataProduct.
From S2P Require Import FileArchive.
#[local] Open Scope gravity_scope.
#[local] Open Scope Z_scope.

(** ** The file *)

Section archive.
Context `{Protobuf GravityDataProductPB, !ProtobufLaw GravityDataProductPB}.
Context `{Protobuf FileArchiverControlRequestPB, Protobuf FileArchiverControlResponsePB}.

Definition record (g : GravityDataProduct) : string := le_bytes 4 (getSize g) +:+ serializeToArray g.
Definition records (gs : list GravityDataProduct) : string := foldr (λ g s, record g +:+ s) "" gs.

(** The size of the product's bytes fits an [int]. *)
Definition small (g : GravityDataProduct) : Prop :=
  Z.of_nat (String.length (serialize g)) < 2147483648.

Lemma archive_products file gs : foldl archive_product file gs = file +:+ records gs.
Proof.
  revert file. induction gs as [|g gs IH]; intros file; cbn; [by rewrite str_app_nil_r|].
  rewrite IH. unfold archive_product, record. by rewrite !str_app_assoc.
Qed.

Lemma records_app gs gs' : records (gs ++ gs') = records gs +:+ records gs'.
Proof.
  unfold records. induction gs as [|g gs IH]; [done|]. cbn [foldr app]. by rewrite IH, str_app_assoc.
Qed.

(** What happens to an archiver: products come in, or somebody asks it to pause or go on. *)
Inductive ArchiverEvent :=
| Filled (dataProducts : list GravityDataProduct)
| Requested (serviceID : string) (dataProduct : GravityDataProduct).

Definition archiver_event (a : FileArchiver) (e : ArchiverEvent) : FileArchiver :=
  match e with
  | Filled gs => archive_filled gs a
  | Requested serviceID g => (archiver_request serviceID g a).2
  end.

(** Does the archiver pause after an event? *)
Definition suspended_by (suspended : bool) (e : ArchiverEvent) : bool :=
  match e with
  | Filled _ => suspended
  | Requested serviceID g =>
      if decide (serviceID = "FileArchiverControlRequest" ∧ (populateMessage (M:=FileArchiverControlRequestPB) g).2 = true)
      then flag (acq_suspend (populateMessage g).1) else suspended
  end.

(** The products that come in while it does not. *)
Fixpoint received (suspended : bool) (events : list ArchiverEvent) : list GravityDataProduct :=
  match events with
  | [] => []
  | e :: events =>
      (match e with Filled gs => if suspended then [] else gs | _ => [] end) ++
      received (suspended_by suspended e) events
  end.

Lemma archiver_event_spec a e :
  fa_suspend (archiver_event a e) = suspended_by (fa_suspend a) e ∧
  fa_archiveFile (archiver_event a e) = fa_archiveFile a +:+ records (received (fa_suspend a) [e]).
Proof.
  destruct e as [gs|serviceID g]; cbn.
  - unfold archive_filled. destruct (fa_suspend a) eqn:E; cbn;
      rewrite ?E, ?app_nil_r, ?str_app_nil_r; [done|]. by rewrite archive_products.
  - rewrite str_app_nil_r. unfold archiver_request.
    destruct (populateMessage g) as [m p] eqn:Eg. destruct (decide (serviceID = _)) as [->|Hs].
    + destruct p; cbn; [rewrite decide_True by done|rewrite decide_False by naive_solver]; done.
    + rewrite decide_False by naive_solver. done.
Qed.

Lemma archiver_events_file events a :
  fa_archiveFile (foldl archiver_event a events) =
    fa_archiveFile a +:+ records (received (fa_suspend a) events).
Proof.
  revert a. induction events as [|e events IH]; intros a; cbn [foldl received].
  - cbn. by rewrite str_app_nil_r.
  - destruct (archiver_event_spec a e) as [Es Ef]. rewrite IH, Es, Ef. cbn [received].
    by rewrite app_nil_r, records_app, str_app_assoc.
Qed.

(** ** Reading it *)

Lemma read_bytes_app s t : read_bytes (String.length s) (s +:+ t) = Some (s, t).
Proof.
  unfold read_bytes. rewrite decide_True by (rewrite str_length_app; lia).
  by rewrite str_take_app, str_drop_app.
Qed.

Lemma read_size z t : 0 <= z < 2147483648 →
  ∃ bytes, read_bytes 4 (le_bytes 4 z +:+ t) = Some (bytes, t) ∧ s32 (le_value bytes) = z.
Proof.
  intros Hz. exists (le_bytes 4 z). split.
  - pose proof (read_bytes_app (le_bytes 4 z) t) as E. by rewrite length_le_bytes in E.
  - rewrite le_value_bytes. change (256 ^ Z.of_nat 4) with u32_max.
    rewrite Z.mod_small by (unfold u32_max; lia). apply s32_id. unfold is_s32. lia.
Qed.

(** The reader stands in front of these products. *)
Definition holds (r : FileReader) (gs : list GravityDataProduct) : Prop :=
  fr_swapEndian r = false ∧ Forall small gs ∧
  (fr_archiveFile r = Some (records gs) ∨ fr_archiveFile r = None ∧ gs = []).

Abbreviation wanted r := (base.filter (of_interest (fr_dpList r))).

Lemma read_record g s fuel r :
  fr_swapEndian r = false → small g → fr_archiveFile r = Some (record g +:+ s) →
  read_loop (S fuel) r =
    let r := r <| fr_archiveFile := Some s |> in
    if decide (of_interest (fr_dpList r) g) then Some (r <| fr_dataProducts ::= λ l, l ++ [g] |>)
    else read_loop fuel r.
Proof.
  intros Es Hg Ef. cbn [read_loop]. rewrite Ef. unfold record. rewrite str_app_assoc.
  assert (Hs : getSize g = Z.of_nat (String.length (serialize g))).
  { unfold getSize. apply s32_id. unfold is_s32, small in *. lia. }
  destruct (read_size (getSize g) (serializeToArray g +:+ s)) as (bytes & -> & Ez).
  { rewrite Hs. unfold small in Hg. lia. }
  rewrite Es, Ez, Hs. destruct (Z.ltb_spec (Z.of_nat (String.length (serialize g))) 0); [lia|].
  rewrite Nat2Z.id. unfold serializeToArray. rewrite read_bytes_app.
  unfold GravityDataProduct_from_bytes. by rewrite parse_serialize.
Qed.

Lemma read_end fuel r : fr_archiveFile r = Some "" →
  read_loop (S fuel) r = Some (r <| fr_archiveFile := None |>).
Proof. intros E. cbn. by rewrite E. Qed.

Lemma read_loop_spec gs fuel r :
  fr_swapEndian r = false → Forall small gs → fr_archiveFile r = Some (records gs) →
  (length gs < fuel)%nat →
  ∃ r' gs', read_loop fuel r = Some r' ∧ holds r' gs' ∧ fr_dpList r' = fr_dpList r ∧
    ((∃ g, wanted r gs = g :: wanted r gs' ∧ fr_dataProducts r' = fr_dataProducts r ++ [g]) ∨
     (wanted r gs = [] ∧ gs' = [] ∧ fr_dataProducts r' = fr_dataProducts r)).
Proof.
  revert fuel r. induction gs as [|g gs IH]; intros [|fuel] r Es Hs Ef Hl; try (cbn in Hl; lia).
  - rewrite read_end by done. exists (r <| fr_archiveFile := None |>), [].
    split_and!; [done| |done|by right]. split_and!; [done|done|by right].
  - apply Forall_cons in Hs as [Hg Hs]. rewrite (read_record g (records gs)) by done. cbv zeta.
    set (r1 := r <| fr_archiveFile := _ |>). change (fr_dpList r1) with (fr_dpList r).
    rewrite filter_cons. destruct (decide (of_interest (fr_dpList r) g)).
    + exists (r1 <| fr_dataProducts ::= λ l, l ++ [g] |>), gs.
      split_and!; [done| |done|left; by exists g]. split_and!; [done|done|by left].
    + apply (IH fuel r1); [done..|cbn in Hl; lia].
Qed.

Lemma records_length gs : (length gs ≤ String.length (records gs))%nat.
Proof.
  induction gs as [|g gs IH]; [done|]. cbn [records foldr length].
  change (foldr _ "" gs) with (records gs). unfold record.
  rewrite !str_length_app, length_le_bytes. lia.
Qed.

(** One product that is wanted is read, unless there is none. *)
Lemma readNext_spec r gs :
  holds r gs →
  ∃ r' gs', readNextDataProduct r = Some r' ∧ holds r' gs' ∧ fr_dpList r' = fr_dpList r ∧
    fr_dataProducts r' ++ wanted r gs' = fr_dataProducts r ++ wanted r gs ∧
    (length (fr_dataProducts r') ≤ S (length (fr_dataProducts r)))%nat ∧
    (fr_archiveFile r = None → fr_dataProducts r' = fr_dataProducts r) ∧
    (fr_archiveFile r = None → fr_archiveFile r' = None) ∧
    (fr_dataProducts r' = [] → fr_dataProducts r = [] ∧ wanted r gs = []).
Proof.
  intros (Es & Hs & [Ef|[Ef ->]]); unfold readNextDataProduct; rewrite Ef; cbn [default].
  - pose proof (records_length gs) as Hl.
    destruct (read_loop_spec gs (S (String.length (records gs))) r) as (r' & gs' & E & Hh & Ed & C);
      [done..|cbn in *; lia|].
    exists r', gs'. split_and!; [done|done|done| | |done|done|].
    + destruct C as [(g & -> & ->)|(-> & -> & ->)]; [by rewrite <- app_assoc|done].
    + destruct C as [(g & _ & ->)|(_ & _ & ->)]; rewrite ?length_app; cbn; lia.
    + destruct C as [(g & _ & ->)|(-> & _ & ->)]; [|done]. by destruct (fr_dataProducts r).
  - exists r, []. cbn [read_loop]. rewrite Ef. split_and!; try done; [|lia].
    split_and!; [done..|by right].
Qed.

(** ** The two threads *)

Inductive playback_run : Playback → list PlaybackThread → Playback → Prop :=
| playback_nil p : playback_run p [] p
| playback_snoc p ts p1 t p2 :
    playback_run p ts p1 → playback_step t p1 = Some p2 → playback_run p (ts ++ [t]) p2.

(** Products that the replay has still to be given. *)
Definition undelivered (gs : list GravityDataProduct) (r : FileReader) : list GravityDataProduct :=
  fr_dataProducts r ++ wanted r gs.

(** The products on the way never exceed a hundred, plus one that either thread is about to
    read. *)
Definition waiting_bound (p : Playback) : nat :=
  length (fr_dataProducts (pb_fileReader p)) +
  (if pb_replay p is ToRead then 1 else 0) + (if pb_reader p is Reading then 1 else 0).

Record playback_ok (all : list GravityDataProduct) (dpList : list string) (p : Playback)
    (gs : list GravityDataProduct) : Prop := {
  po_holds : holds (pb_fileReader p) gs;
  po_list : fr_dpList (pb_fileReader p) = dpList;
  po_all : all = pb_delivered p ++ undelivered gs (pb_fileReader p);
  po_pop : pb_replay p = ToPop → fr_dataProducts (pb_fileReader p) ≠ [];
  po_end : pb_replay p = AtEnd → undelivered gs (pb_fileReader p) = [];
  po_size : (length (fr_dataProducts (pb_fileReader p)) ≤ 102)%nat;
  po_bound : is_Some (fr_archiveFile (pb_fileReader p)) → (waiting_bound p ≤ 102)%nat;
}.

(** What is left to do for the replay. *)
Definition replay_rank (t : ReplayThread) : nat :=
  match t with Asking => 2 | ToRead => 1 | ToPop | AtEnd => 0 end.
Definition remaining_work (gs : list GravityDataProduct) (p : Playback) : nat :=
  3 * length (undelivered gs (pb_fileReader p)) + replay_rank (pb_replay p).

Lemma has_data_spec r : has_data r = true ↔ fr_dataProducts r ≠ [].
Proof. apply bool_decide_eq_true. Qed.

(** What reading keeps, in the terms of the threads. *)
Lemma readNext_undelivered r gs :
  holds r gs →
  ∃ r' gs', readNextDataProduct r = Some r' ∧ holds r' gs' ∧ fr_dpList r' = fr_dpList r ∧
    undelivered gs' r' = undelivered gs r ∧
    (length (fr_dataProducts r') ≤ S (length (fr_dataProducts r)))%nat ∧
    (fr_archiveFile r = None → fr_dataProducts r' = fr_dataProducts r ∧ fr_archiveFile r' = None) ∧
    (fr_dataProducts r' = [] → undelivered gs' r' = []).
Proof.
  intros Hh. destruct (readNext_spec r gs Hh) as (r' & gs' & E & Hh' & Ed & Eu & El & En1 & En2 & Ez).
  exists r', gs'. unfold undelivered. rewrite Ed. split_and!; try done.
  - intros Hn. by rewrite En1, En2.
  - intros Hn. rewrite Eu. by destruct (Ez Hn) as [-> ->].
Qed.

Lemma reader_step_ok all dpList p gs :
  playback_ok all dpList p gs → pb_reader p ≠ ReaderEnded →
  ∃ p' gs', playback_step TheReader p = Some p' ∧ playback_ok all dpList p' gs' ∧
    pb_replay p' = pb_replay p ∧ remaining_work gs' p' = remaining_work gs p.
Proof.
  intros [Kh Kl Ka Kp Ke Ks Kb] Hr. destruct p as [r th rt dl].
  cbn [pb_fileReader pb_reader pb_replay pb_delivered] in *. unfold waiting_bound in Kb.
  cbn [pb_fileReader pb_reader pb_replay] in Kb. unfold playback_step.
  cbn [pb_fileReader pb_reader pb_replay pb_delivered]. destruct th; [| |done].
  - destruct (readNext_undelivered r gs Kh) as (r' & gs' & E & Hh & Ed & Eu & El & En & Ez).
    rewrite E. cbn [mbind option_bind]. eexists _, gs'. split; [done|].
    assert (Hne : fr_dataProducts r ≠ [] → fr_dataProducts r' ≠ []).
    { intros Hd Hd'. specialize (Ez Hd'). rewrite Eu in Ez. unfold undelivered in Ez.
      by apply app_nil in Ez as [? _]. }
    split_and!; [|done|unfold remaining_work; cbn; by rewrite Eu].
    split; cbn; rewrite ?Eu, ?Ed; try done.
    + intros Ht. by apply Hne, Kp.
    + destruct (fr_archiveFile r) eqn:Ef; [|by destruct En as [-> _]].
      specialize (Kb (mk_is_Some _ _ eq_refl)). destruct rt; lia.
    + intros Ho. unfold waiting_bound. cbn. destruct (fr_archiveFile r) eqn:Ef.
      * specialize (Kb (mk_is_Some _ _ eq_refl)). destruct (has_data r'), rt; lia.
      * destruct En as [_ En]; [done|]. rewrite En in Ho. by destruct Ho.
  - eexists _, gs. split; [done|]. split_and!; [|done..]. split; cbn; try done.
    intros Ho. specialize (Kb Ho). unfold waiting_bound, reader_full.
    cbn [pb_fileReader pb_reader pb_replay]. rewrite bool_decide_true by done. cbn [andb].
    destruct (Nat.ltb_spec 100 (length (fr_dataProducts r))), rt; lia.
Qed.

Lemma replay_step_ok all dpList p gs :
  playback_ok all dpList p gs → pb_replay p ≠ AtEnd →
  ∃ p' gs', playback_step TheReplay p = Some p' ∧ playback_ok all dpList p' gs' ∧
    (remaining_work gs' p' < remaining_work gs p)%nat.
Proof.
  intros [Kh Kl Ka Kp Ke Ks Kb] Hr. destruct p as [r th rt dl].
  cbn [pb_fileReader pb_reader pb_replay pb_delivered] in *. unfold waiting_bound in Kb.
  cbn [pb_fileReader pb_reader pb_replay] in Kb. unfold playback_step.
  cbn [pb_fileReader pb_reader pb_replay pb_delivered]. destruct rt; [| | |done].
  - eexists _, gs. split; [done|]. split.
    + split; cbn; try done.
      * destruct (has_data r) eqn:E; [|done]. intros _. by apply has_data_spec.
      * by destruct (has_data r).
      * intros Ho. specialize (Kb Ho). unfold waiting_bound. cbn. destruct (has_data r) eqn:E; [lia|].
        destruct (fr_dataProducts r) eqn:Ed; [cbn; destruct th; lia|].
        exfalso. assert (Hd : has_data r = true) by (apply has_data_spec; by rewrite Ed). congruence.
    + unfold remaining_work. cbn. destruct (has_data r); cbn; lia.
  - destruct (readNext_undelivered r gs Kh) as (r' & gs' & E & Hh & Ed & Eu & El & En & Ez).
    rewrite E. cbn [mbind option_bind]. eexists _, gs'. split; [done|]. split.
    + split; cbn; rewrite ?Eu, ?Ed; try done.
      * destruct (has_data r') eqn:Eh; [|done]. intros _. by apply has_data_spec.
      * destruct (has_data r') eqn:Eh; [done|]. intros _. rewrite <- Eu. apply Ez.
        destruct (fr_dataProducts r') eqn:Ed'; [done|].
        assert (Hd : has_data r' = true) by (apply has_data_spec; by rewrite Ed'). congruence.
      * destruct (fr_archiveFile r) eqn:Ef; [|by destruct En as [-> _]].
        specialize (Kb (mk_is_Some _ _ eq_refl)). destruct th; lia.
      * intros Ho. unfold waiting_bound. cbn. destruct (fr_archiveFile r) eqn:Ef.
        -- specialize (Kb (mk_is_Some _ _ eq_refl)). destruct (has_data r'), th; lia.
        -- destruct En as [_ En]; [done|]. rewrite En in Ho. by destruct Ho.
    + unfold remaining_work. cbn. rewrite Eu. destruct (has_data r'); cbn; lia.
  - unfold popGravityDataProduct. destruct (fr_dataProducts r) as [|g l] eqn:Ed; [by specialize (Kp eq_refl)|].
    cbn. eexists _, gs. split; [done|]. unfold undelivered in Ka, Ke.
    rewrite Ed in Ka, Ke. cbn in Ka, Ks, Kb. split.
    + split; cbn; try done; try lia.
      * unfold undelivered. cbn. by rewrite <- app_assoc.
      * intros Ho. specialize (Kb Ho). unfold waiting_bound. cbn. destruct th; lia.
    + unfold remaining_work, undelivered. cbn [pb_fileReader pb_replay]. rewrite Ed. cbn. lia.
Qed.

(** The archive that a series of events leaves. *)
Definition archive_of (suspended : bool) (events : list ArchiverEvent) : string :=
  fa_archiveFile (foldl archiver_event (new_FileArchiver "" suspended).1 events).

Lemma archive_opened suspended events dataProductList :
  let all := received suspended events in
  Forall small all →
  ∃ r, FileReader_init (archive_of suspended events) dataProductList = Some r ∧
    playback_ok (base.filter (of_interest (split dataProductList)) all) (split dataProductList)
      (new_Playback r) all.
Proof.
  intros all Hs. unfold FileReader_init, archive_of. rewrite archiver_events_file.
  change (fa_archiveFile (new_FileArchiver "" suspended).1) with (le_bytes 4 1).
  change (fa_suspend (new_FileArchiver "" suspended).1) with suspended. fold all.
  destruct (read_size 1 (records all)) as (bytes & -> & ->); [lia|]. eexists. split; [done|].
  split; cbn; try done; try lia. split_and!; [done|done|by left].
Qed.

Lemma playback_run_ok all dpList p ts p' gs :
  playback_run p ts p' → playback_ok all dpList p gs →
  ∃ gs', playback_ok all dpList p' gs' ∧
    (length (base.filter (eq TheReplay) ts) + remaining_work gs' p' ≤ remaining_work gs p)%nat.
Proof.
  induction 1 as [p|p ts p1 t p2 R IH E]; intros K; [by exists gs|].
  destruct (IH K) as (gs1 & K1 & L1). rewrite filter_app, length_app. destruct t.
  - assert (Hn : pb_reader p1 ≠ ReaderEnded) by (intros Hn; cbn in E; by rewrite Hn in E).
    destruct (reader_step_ok _ _ _ _ K1 Hn) as (p2' & gs2 & E' & K2 & _ & L2).
    assert (p2' = p2) as -> by congruence. exists gs2. split; [done|].
    change (length (base.filter (eq TheReplay) [TheReader])) with 0%nat. lia.
  - assert (Hn : pb_replay p1 ≠ AtEnd) by (intros Hn; cbn in E; by rewrite Hn in E).
    destruct (replay_step_ok _ _ _ _ K1 Hn) as (p2' & gs2 & E' & K2 & L2).
    assert (p2' = p2) as -> by congruence. exists gs2. split; [done|].
    change (length (base.filter (eq TheReplay) [TheReplay])) with 1%nat. lia.
Qed.

(** C35. Whatever the schedule of the two threads: what the replay has been given so far is a first
    part of the products that the archiver received while it was not suspended and that are
    on the replay's list, in their order; when it is told that there are no more, it has been
    given them all. *)
Theorem archive_replayed suspended events dataProductList :
  let all := received suspended events in
  Forall small all →
  ∃ r, FileReader_init (archive_of suspended events) dataProductList = Some r ∧
    ∀ ts p, playback_run (new_Playback r) ts p →
      ∃ later, base.filter (of_interest (split dataProductList)) all = pb_delivered p ++ later ∧
        (pb_replay p = AtEnd → later = []).
Proof.
  intros all Hs. destruct (archive_opened suspended events dataProductList Hs) as (r & E & K).
  exists r. split; [done|]. intros ts p R. destruct (playback_run_ok _ _ _ _ _ _ R K) as (gs & [_ _ Ka _ Ke _ _] & _).
  eexists. split; [exact Ka|done].
Qed.

(** No schedule makes one of the threads crash: a thread that has not ended can go on.  At
    most 102 products are in memory. *)
Theorem playback_safe suspended events dataProductList r ts p :
  Forall small (received suspended events) →
  FileReader_init (archive_of suspended events) dataProductList = Some r →
  playback_run (new_Playback r) ts p →
  (length (fr_dataProducts (pb_fileReader p)) ≤ 102)%nat ∧
  (pb_reader p ≠ ReaderEnded → is_Some (playback_step TheReader p)) ∧
  (pb_replay p ≠ AtEnd → is_Some (playback_step TheReplay p)).
Proof.
  intros Hs E R. destruct (archive_opened suspended events dataProductList Hs) as (r' & E' & K).
  assert (r' = r) as -> by congruence.
  destruct (playback_run_ok _ _ _ _ _ _ R K) as (gs & K' & _). split_and!.
  - by apply (po_size _ _ _ _ K').
  - intros Hn. destruct (reader_step_ok _ _ _ _ K' Hn) as (p' & _ & -> & _). by eexists.
  - intros Hn. destruct (replay_step_ok _ _ _ _ K' Hn) as (p' & _ & -> & _). by eexists.
Qed.

(** The replay takes at most three steps for each product, and two more: since it can always
    go on until its end, every schedule that lets it go on brings it there. *)
Theorem replay_ends suspended events dataProductList r ts p :
  let all := received suspended events in
  Forall small all →
  FileReader_init (archive_of suspended events) dataProductList = Some r →
  playback_run (new_Playback r) ts p →
  (length (base.filter (eq TheReplay) ts) ≤
    3 * length (base.filter (of_interest (split dataProductList)) all) + 2)%nat.
Proof.
  intros all Hs E R. destruct (archive_opened suspended events dataProductList Hs) as (r' & E' & K).
  assert (r' = r) as -> by congruence.
  destruct (playback_run_ok _ _ _ _ _ _ R K) as (gs & _ & L).
  pose proof (po_all _ _ _ _ K) as Ka. unfold remaining_work in L.
  unfold all. rewrite Ka. cbn [new_Playback pb_delivered pb_fileReader pb_replay app] in *.
  cbn [replay_rank] in L. lia.
Qed.
End archive.
