(* ===== verification/FileArchiveReplay.v ===== *)
(** * Archives: foreign byte order, the pace of the replay, and runs *)

From Stdlib Require Import Ascii.
From S2P Require Import Prelude.
From S2P Require Import Messages.
From S2P Require Import CommUtil.
From S2P Require Import Utility.
From S2P Require Import GravityDataProduct.
From S2P Require Import FileArchive.
From S2P Require Import FileArchiveProofs.
#[local] Open Scope gravity_scope.
#[local] Open Scope Z_scope.

(** ** Integers of a machine with the other byte order *)

Lemma land_byte x k : 0 <= k → Z.land x (Z.shiftl 255 k) = Z.shiftl (Z.shiftr x k mod 256) k.
Proof.
  intros Hk. change 256 with (2 ^ 8). rewrite <- Z.land_ones by lia. change (Z.ones 8) with 255.
  apply Z.bits_inj'. intros n Hn. rewrite Z.land_spec.
  destruct (Z.lt_ge_cases n k).
  - rewrite !(Z.shiftl_spec_low _ k n) by lia. apply andb_false_r.
  - rewrite !Z.shiftl_spec_high, Z.land_spec, Z.shiftr_spec by lia. do 2 f_equal. lia.
Qed.

Lemma lor_disjoint a b k : 0 <= k → 0 <= a < 2 ^ k → Z.lor a (Z.shiftl b k) = a + Z.shiftl b k.
Proof.
  intros Hk Ha. rewrite <- Z.lxor_lor, Z.add_nocarry_lxor; [done| |].
  all: apply Z.bits_inj'; intros n Hn; rewrite Z.land_spec, Z.bits_0;
    destruct (Z.lt_ge_cases n k); [rewrite (Z.shiftl_spec_low _ k n) by lia; apply andb_false_r|];
    rewrite <- (Z.mod_small a (2 ^ k)) by lia; rewrite Z.mod_pow2_bits_high by lia; done.
Qed.

Section swap.
Variables b0 b1 b2 b3 : Z.
Hypotheses (B0 : 0 <= b0 < 256) (B1 : 0 <= b1 < 256) (B2 : 0 <= b2 < 256) (B3 : 0 <= b3 < 256).

(** A byte as the high one of a signed integer. *)
Definition signed_byte (b : Z) : Z := if b <? 128 then b else b - 256.

Definition swapped_int : Z := s32 (b3 + 256 * (b2 + 256 * (b1 + 256 * b0))).

Lemma swapped_int_eq : swapped_int = b3 + 256 * b2 + 65536 * b1 + 16777216 * signed_byte b0.
Proof using B0 B1 B2 B3.
  unfold swapped_int, s32, u32_max, signed_byte. destruct (Z.ltb_spec b0 128); Z.div_mod_to_equations; lia.
Qed.

Lemma swap_parts :
  Z.shiftr swapped_int 24 = signed_byte b0 ∧
  Z.land (s32 (Z.shiftl swapped_int 8)) 16711680 = Z.shiftl b2 16 ∧
  Z.land (Z.shiftr swapped_int 8) 65280 = Z.shiftl b1 8 ∧
  s32 (Z.shiftl swapped_int 24) = Z.shiftl (signed_byte b3) 24.
Proof using B0 B1 B2 B3.
  change 16711680 with (Z.shiftl 255 16). change 65280 with (Z.shiftl 255 8).
  rewrite !land_byte, swapped_int_eq by lia. unfold signed_byte at 2 3 4.
  set (c := if b0 <? 128 then b0 else b0 - 256). unfold signed_byte. fold c. clearbody c.
  rewrite !Z.shiftr_div_pow2, !Z.shiftl_mul_pow2 by lia.
  change (2 ^ 24) with 16777216. change (2 ^ 16) with 65536. change (2 ^ 8) with 256. unfold s32, u32_max.
  split_and!.
  - Z.div_mod_to_equations; lia.
  - f_equal. Z.div_mod_to_equations; lia.
  - f_equal. rewrite Z.div_div by lia. change (256 * 256) with 65536. Z.div_mod_to_equations; lia.
  - destruct (Z.ltb_spec b3 128); Z.div_mod_to_equations; lia.
Qed.

(** Reversing the bytes of an integer works when its low byte is below 128; otherwise, the
    sign bit that the right shift copies makes the result that byte less 256. *)
Theorem endian_swap_spec :
  endian_swap swapped_int =
    if b0 <? 128 then s32 (b0 + 256 * (b1 + 256 * (b2 + 256 * b3))) else b0 - 256.
Proof using B0 B1 B2 B3.
  unfold endian_swap. destruct swap_parts as (-> & -> & -> & ->). unfold signed_byte at 1.
  rewrite <- !Z.lor_assoc, (Z.lor_assoc (Z.shiftl b2 16)), (Z.lor_comm (Z.shiftl b2 16)).
  rewrite <- Z.lor_assoc. destruct (Z.ltb_spec b0 128).
  - assert (E1 : Z.lor b0 (Z.shiftl b1 8) = b0 + 256 * b1)
      by (rewrite lor_disjoint, Z.shiftl_mul_pow2 by lia; lia).
    assert (E2 : Z.lor (b0 + 256 * b1) (Z.shiftl b2 16) = b0 + 256 * b1 + 65536 * b2)
      by (rewrite lor_disjoint, Z.shiftl_mul_pow2 by lia; lia).
    rewrite !Z.lor_assoc, E1, E2, lor_disjoint, Z.shiftl_mul_pow2 by lia.
    change (2 ^ 24) with 16777216.
    unfold signed_byte, s32, u32_max. destruct (Z.ltb_spec b3 128); Z.div_mod_to_equations; lia.
  - assert (E : b0 - 256 = Z.lor b0 (Z.shiftl (-1) 8)).
    { rewrite lor_disjoint, Z.shiftl_mul_pow2 by lia. lia. }
    assert (Eh : Z.lor (Z.shiftl b1 8) (Z.lor (Z.shiftl b2 16) (Z.shiftl (signed_byte b3) 24)) =
      Z.shiftl (Z.lor b1 (Z.lor (Z.shiftl b2 8) (Z.shiftl (signed_byte b3) 16))) 8).
    { rewrite !Z.shiftl_lor, !Z.shiftl_shiftl by lia. done. }
    assert (Er : ∀ x, Z.lor (b0 - 256) (Z.shiftl x 8) = b0 - 256).
    { intros x. by rewrite E, <- Z.lor_assoc, <- Z.shiftl_lor, Z.lor_m1_l. }
    rewrite Eh, Er. apply s32_id. unfold is_s32. lia.
Qed.
End swap.

(** The four bytes of a size, high byte first. *)
Definition be_bytes (z : Z) : string :=
  le_bytes 1 (z / 16777216) +:+ le_bytes 1 (z / 65536) +:+ le_bytes 1 (z / 256) +:+ le_bytes 1 z.

Lemma le_value_be_bytes z : 0 <= z < u32_max →
  s32 (le_value (be_bytes z)) =
    swapped_int (z mod 256) (z / 256 mod 256) (z / 65536 mod 256) (z / 16777216).
Proof.
  intros Hz. unfold be_bytes, swapped_int. cbn [le_bytes].
  rewrite !str_app_cons, !str_app_nil. cbn [le_value]. unfold u32_max in Hz.
  rewrite !Ascii.N_ascii_embedding by (apply N2Z.inj_lt; rewrite Z2N.id;
    [apply Z.mod_pos_bound|apply Z.mod_pos_bound]; lia).
  rewrite !Z2N.id by (apply Z.mod_pos_bound; lia). f_equal.
  rewrite (Z.mod_small (z / 16777216)) by (Z.div_mod_to_equations; lia). lia.
Qed.

Section foreign.
Context `{Protobuf GravityDataProductPB}.

(** An archive of a machine with the other byte order ends the replay with an exception at
    the first product whose size has a low byte of 128 or more. *)
Theorem foreign_size_crashes r size rest :
  fr_swapEndian r = true → fr_archiveFile r = Some (be_bytes size +:+ rest) →
  0 <= size < 2147483648 → 128 <= size mod 256 → readNextDataProduct r = None.
Proof.
  intros Es Ef Hz Hb. unfold readNextDataProduct. rewrite Ef. cbn [default]. cbn [read_loop]. rewrite Ef.
  pose proof (read_bytes_app (be_bytes size) rest) as E.
  assert (El : String.length (be_bytes size) = 4%nat) by by vm_compute.
  rewrite El in E. rewrite E, Es, le_value_be_bytes by (unfold u32_max; lia).
  rewrite endian_swap_spec by (try apply Z.mod_pos_bound; Z.div_mod_to_equations; lia).
  destruct (Z.ltb_spec (size mod 256) 128); [lia|].
  destruct (Z.ltb_spec (size mod 256 - 256) 0); [done|]. Z.div_mod_to_equations; lia.
Qed.
End foreign.

(** ** The pace of the replay *)

Definition slept (o : list ReplayOutput) : Z :=
  foldr (λ x t, match x with ReplaySleep u => u + t | _ => t end) 0 o.
Definition published (o : list ReplayOutput) : list GravityDataProduct :=
  omap (λ x, match x with ReplayPublish g => Some g | _ => None end) o.
Definition registered (o : list ReplayOutput) : list string :=
  omap (λ x, match x with ReplayRegister id => Some id | _ => None end) o.

(** After the first product, each is published when as much time has passed since the first
    one was as lies between their time stamps, at once if that is over, as long as the wait
    fits the 32 bits of [usleep]. *)
Theorem replay_keeps_pace now g r :
  let first := rp_firstPublishTime r in
  let gap := Z.max 0 (data_time g - rp_firstDataTime r) in
  first ≠ 0 → 0 <= first <= now → now < u64_max → gap < u32_max →
  let '(o, r') := replay_product now g r in
  now + slept o = Z.max now (first + gap) ∧ published o = [g] ∧
  rp_firstPublishTime r' = first ∧ rp_firstDataTime r' = rp_firstDataTime r.
Proof.
  intros first gap Hf Hn Hu Hg. unfold replay_product. cbv zeta.
  change (rp_firstPublishTime (r <| rp_datatypes ::= union {[getDataProductID g]} |>)) with first.
  change (rp_firstDataTime (r <| rp_datatypes ::= union {[getDataProductID g]} |>)) with (rp_firstDataTime r).
  rewrite decide_False by done. rewrite u64_id by (unfold is_u64; lia).
  assert (Eg : (if rp_firstDataTime r <? data_time g then data_time g - rp_firstDataTime r else 0) = gap).
  { unfold gap. destruct (Z.ltb_spec (rp_firstDataTime r) (data_time g)); lia. }
  rewrite Eg. split_and!; try done.
  - destruct (Z.ltb_spec (now - first) gap); case_decide; cbn; rewrite ?u32_id by (unfold is_u32; lia); lia.
  - destruct (Z.ltb_spec (now - first) gap); by case_decide.
Qed.

(** A wait of more than 2^32 microseconds, an hour and twelve minutes, is shortened. *)
Theorem long_gap_shortened now g r :
  rp_firstPublishTime r = now → now ≠ 0 → 0 <= now < u64_max →
  u32_max <= data_time g - rp_firstDataTime r →
  slept (replay_product now g r).1 = u32 (data_time g - rp_firstDataTime r) ∧
  slept (replay_product now g r).1 < data_time g - rp_firstDataTime r.
Proof.
  intros Hf Hn Hu Hg. unfold replay_product. cbv zeta.
  change (rp_firstPublishTime (r <| rp_datatypes ::= union {[getDataProductID g]} |>)) with (rp_firstPublishTime r).
  change (rp_firstDataTime (r <| rp_datatypes ::= union {[getDataProductID g]} |>)) with (rp_firstDataTime r).
  rewrite Hf, decide_False, Z.sub_diag by done. rewrite (u64_id 0) by (unfold is_u64, u64_max; lia).
  pose proof (u32_range (data_time g - rp_firstDataTime r)) as Hr. unfold is_u32, u32_max in *.
  destruct (Z.ltb_spec (rp_firstDataTime r) (data_time g)); [|lia]. rewrite Z.sub_0_r.
  destruct (Z.ltb_spec 0 (data_time g - rp_firstDataTime r)); [|lia]. case_decide; cbn; lia.
Qed.

Lemma replay_product_spec now g r o r' :
  replay_product now g r = (o, r') →
  rp_datatypes r' = {[getDataProductID g]} ∪ rp_datatypes r ∧
  ∃ wait, o = (if decide (getDataProductID g ∈ rp_datatypes r) then [] else [ReplayRegister (getDataProductID g)])
      ++ wait ++ [ReplayPublish g] ∧ published wait = [] ∧ registered wait = [].
Proof.
  unfold replay_product. intros E.
  destruct (decide (rp_firstPublishTime _ = 0)); injection E as <- <-; (split; [done|]).
  - by exists [].
  - destruct (_ <? _); [by eexists [_]|by exists []].
Qed.

Lemma published_app o o' : published (o ++ o') = published o ++ published o'.
Proof. apply omap_app. Qed.
Lemma registered_app o o' : registered (o ++ o') = registered o ++ registered o'.
Proof. apply omap_app. Qed.

Lemma elem_of_published o g : g ∈ published o ↔ ReplayPublish g ∈ o.
Proof.
  unfold published. rewrite list_elem_of_omap. split; [|by exists (ReplayPublish g)].
  intros (x & Hx & E). by destruct x; simplify_eq/=.
Qed.

(** Every product that [o] publishes is known before or registered earlier in [o]. *)
Definition registers_first (known : gset string) (o : list ReplayOutput) : Prop :=
  ∀ k g, o !! k = Some (ReplayPublish g) →
    getDataProductID g ∈ known ∨ ReplayRegister (getDataProductID g) ∈ take k o.

Lemma registers_first_product now g r o r' :
  replay_product now g r = (o, r') → registers_first (rp_datatypes r) o.
Proof.
  intros (_ & wait & -> & Hp & _)%replay_product_spec k h Hk.
  assert (Hin : h ∈ published ((if decide (getDataProductID g ∈ rp_datatypes r) then []
      else [ReplayRegister (getDataProductID g)]) ++ wait ++ [ReplayPublish g])).
  { by apply elem_of_published, (list_elem_of_lookup_2 _ k). }
  rewrite !published_app, Hp in Hin. case_decide as Hd; [left|right].
  - by apply list_elem_of_singleton in Hin as ->.
  - apply list_elem_of_singleton in Hin as ->. destruct k as [|k]; [done|]. cbn. left.
Qed.

Lemma registers_first_app known o o' X :
  registers_first known o → registers_first (X ∪ known) o' →
  (∀ id, id ∈ X → id ∈ known ∨ ReplayRegister id ∈ o) → registers_first known (o ++ o').
Proof.
  intros F F' HX k g Hk. destruct (decide (k < length o)%nat).
  - rewrite lookup_app_l in Hk by done. rewrite take_app_le by lia. by apply F.
  - rewrite lookup_app_r in Hk by lia. rewrite take_app_ge by lia. setoid_rewrite elem_of_app.
    apply F' in Hk as [[Hd%HX|Hd]%elem_of_union|Hr]; naive_solver.
Qed.

Lemma replay_archive_spec l r :
  let '(o, r') := replay_archive l r in
  published o = l.*2 ∧ NoDup (registered o) ∧ (∀ id, id ∈ registered o → id ∉ rp_datatypes r) ∧
  registers_first (rp_datatypes r) o.
Proof.
  revert r. induction l as [|[now g] l IH]; intros r.
  { split_and!; [done|constructor|by intros id Hid%not_elem_of_nil|by intros [|k] g Hk]. }
  cbn [replay_archive]. destruct (replay_product now g r) as [o1 r1] eqn:E1.
  specialize (IH r1). destruct (replay_archive l r1) as [o2 r2]. destruct IH as (I1 & I2 & I3 & I4).
  pose proof (registers_first_product _ _ _ _ _ E1) as F1.
  apply replay_product_spec in E1 as (P1 & wait & P2 & P3 & P4). rewrite P1 in I3, I4.
  rewrite published_app, registered_app, I1, P2, !published_app, !registered_app, P3, P4.
  rewrite <- P2. split_and!.
  - by case_decide.
  - case_decide; [done|]. constructor; [|done]. intros Hid%I3. set_solver.
  - intros id Hid. case_decide; cbn in Hid; [|apply elem_of_cons in Hid as [->|Hid]]; [|done|];
      apply I3 in Hid; set_solver.
  - eapply registers_first_app; [exact F1|exact I4|]. intros id ->%elem_of_singleton.
    rewrite P2. case_decide; [by left|right; left].
Qed.

(** A whole archive: the products are published in their order, and each is registered once,
    before it is first published. *)
Theorem replay_registers_first l :
  let '(o, _) := replay_archive l new_FileReplay in
  published o = l.*2 ∧ NoDup (registered o) ∧
  ∀ k g, o !! k = Some (ReplayPublish g) → ReplayRegister (getDataProductID g) ∈ take k o.
Proof.
  pose proof (replay_archive_spec l new_FileReplay) as G.
  destruct (replay_archive l new_FileReplay) as [o r']. destruct G as (G1 & G2 & _ & G4).
  split_and!; [done..|]. intros k g Hk. by destruct (G4 k g Hk) as [Hd%not_elem_of_empty|].
Qed.

(** ** Runs *)

#[local] Instance demo_archive_codec : Protobuf GravityDataProductPB :=
  countable_protobuf empty_GravityDataProductPB "GravityDataProductPB".
#[local] Instance demo_archive_law : ProtobufLaw GravityDataProductPB := countable_protobuf_law _ _.
#[local] Instance demo_control_codec : Protobuf FileArchiverControlRequestPB := {|
  serialize m := if flag (acq_suspend m) then "1" else "0";
  parse s := (mkFileArchiverControlRequestPB (Some (bool_decide (s = "1"))), bool_decide (s = "0" ∨ s = "1"));
  type_name := "FileArchiverControlRequestPB";
|}.
#[local] Instance demo_control_answer : Protobuf FileArchiverControlResponsePB := {|
  serialize m := if flag (acr_status m) then "1" else "0";
  parse s := (mkFileArchiverControlResponsePB (Some (bool_decide (s = "1"))), true);
  type_name := "FileArchiverControlResponsePB";
|}.

Definition demo_recorded (id : string) (t : Z) : GravityDataProduct :=
  setTimestamp t (new_GravityDataProduct id).
Definition demo_control (suspend : bool) : ArchiverEvent :=
  Requested "FileArchiverControlRequest"
    (setData (mkFileArchiverControlRequestPB (Some suspend)) (new_GravityDataProduct "c")).

(** Two products, a pause in which one is lost, and another one. *)
Definition demo_events : list ArchiverEvent :=
  [Filled [demo_recorded "A" 10; demo_recorded "B" 20]; demo_control true;
   Filled [demo_recorded "A" 30]; demo_control false; Filled [demo_recorded "A" 40]].

Lemma demo_events_small : Forall small (received false demo_events).
Proof. unfold small. apply (bool_decide_unpack _). by vm_compute. Qed.

Definition demo_reader : FileReader :=
  default (mkFileReader None [] [] false) (FileReader_init (archive_of false demo_events) "C, A ").

Lemma archive_replayed_witness :
  received false demo_events = [demo_recorded "A" 10; demo_recorded "B" 20; demo_recorded "A" 40] ∧
  ∃ r, FileReader_init (archive_of false demo_events) "C, A " = Some r.
Proof.
  split; [by vm_compute|].
  destruct (archive_replayed false demo_events "C, A ") as (r & E & _); [exact demo_events_small|].
  by exists r.
Defined.

(** The replay takes two products, the reader another, and the replay finds the end. *)
Definition demo_schedule : list PlaybackThread :=
  [TheReplay; TheReplay; TheReplay; TheReader; TheReplay; TheReplay; TheReplay; TheReplay].

Fixpoint schedule (p : Playback) (ts : list PlaybackThread) : option Playback :=
  match ts with
  | [] => Some p
  | t :: ts => p ← playback_step t p; schedule p ts
  end.

Lemma playback_cons t ts p p1 p2 :
  playback_step t p = Some p1 → playback_run p1 ts p2 → playback_run p (t :: ts) p2.
Proof.
  intros E. induction 1 as [p1|p1 ts p2 t' p3 R IH E'].
  - apply (playback_snoc p [] p t p1); [constructor|done].
  - by apply (playback_snoc p (t :: ts) p2 t' p3); [apply IH|].
Qed.

Lemma schedule_run p ts p' : schedule p ts = Some p' → playback_run p ts p'.
Proof.
  revert p. induction ts as [|t ts IH]; intros p E; cbn in E.
  - injection E as <-. constructor.
  - destruct (playback_step t p) as [p1|] eqn:E1; [|done]. by eapply playback_cons; [|apply IH].
Qed.

Definition demo_playback : Playback :=
  default (new_Playback demo_reader) (schedule (new_Playback demo_reader) demo_schedule).

Lemma default_Some {A} (d : A) o : bool_decide (is_Some o) = true → o = Some (default d o).
Proof. by destruct o. Qed.

Lemma demo_playback_run : playback_run (new_Playback demo_reader) demo_schedule demo_playback.
Proof. apply schedule_run, default_Some. by vm_compute. Qed.

Example demo_delivered :
  pb_delivered demo_playback = [demo_recorded "A" 10; demo_recorded "A" 40] ∧ pb_replay demo_playback = AtEnd.
Proof. by vm_compute. Qed.

Lemma demo_reader_opened : FileReader_init (archive_of false demo_events) "C, A " = Some demo_reader.
Proof. apply default_Some. by vm_compute. Qed.

Lemma playback_safe_witness : pb_reader demo_playback ≠ ReaderEnded ∧ is_Some (playback_step TheReader demo_playback).
Proof.
  assert (Hn : pb_reader demo_playback ≠ ReaderEnded) by by vm_compute. split; [exact Hn|].
  exact (proj1 (proj2 (playback_safe false demo_events "C, A " demo_reader demo_schedule demo_playback
    demo_events_small demo_reader_opened demo_playback_run)) Hn).
Defined.

Lemma replay_ends_witness : (length (base.filter (eq TheReplay) demo_schedule) ≤ 8)%nat.
Proof.
  pose proof (replay_ends false demo_events "C, A " demo_reader demo_schedule demo_playback
    demo_events_small demo_reader_opened demo_playback_run) as E.
  replace (base.filter (of_interest (split "C, A ")) (received false demo_events))
    with [demo_recorded "A" 10; demo_recorded "A" 40] in E by by vm_compute.
  exact E.
Defined.

Lemma endian_swap_spec_witness : endian_swap (swapped_int 200 1 0 0) = -56.
Proof. apply (endian_swap_spec 200 1 0 0); lia. Defined.

Lemma foreign_size_crashes_witness :
  readNextDataProduct (mkFileReader (Some (be_bytes 200)) [] [] true) = None.
Proof. apply (foreign_size_crashes _ 200 ""); [done|by vm_compute|lia|by vm_compute]. Defined.

Definition demo_pace : FileReplay := mkFileReplay 1000 10 ∅.

Lemma replay_keeps_pace_witness : 1010 + slept (replay_product 1010 (demo_recorded "A" 40) demo_pace).1 = 1030.
Proof.
  assert (E := replay_keeps_pace 1010 (demo_recorded "A" 40) demo_pace).
  apply E; apply (bool_decide_unpack _); by vm_compute.
Defined.

Lemma long_gap_shortened_witness :
  slept (replay_product 1000 (demo_recorded "A" 4294967311) demo_pace).1 = 5.
Proof.
  apply (long_gap_shortened 1000 (demo_recorded "A" 4294967311) demo_pace);
    apply (bool_decide_unpack _); by vm_compute.
Defined.
