(* ===== verification/GravityNodeInit.v ===== *)
(** * The node: its life, from construction and initialization to destruction
    (src/src/api/cpp/GravityNode.cpp, GravityNode.h)

    Initialization reads the settings, sets logging up, starts the managers and connects to
    the directory, which it finds by its url or through the listener to broadcasts.  What it
    uses beside the environment of the other operations is the class [InitEnvironment]:
    files, threads, signals, loggers and the socket of the domain listener. *)

From Stdlib Require Import Ascii.
From S2P Require Import Prelude.
From S2P Require Import Messages.
From S2P Require Import CommUtil.
From S2P Require Import Utility.
From S2P Require Import GravityLogger.
From S2P Require Import GravityDataProduct.
From S2P Require Import Config.
From S2P Require Import ReturnCodes.
From S2P Require Import GravityHeartbeat.
From S2P Require Import GravityNode.
From S2P Require Import GravityNodeAPI.
#[local] Open Scope gravity_scope.
#[local] Open Scope Z_scope.

Import GravityReturnCodes.
Import GravityTransportTypes.

(** ** The environment of initialization *)

Inductive ManagerThread :=
| SubscriptionManagerThread | PublishManagerThread | RequestManagerThread
| ServiceManagerThread | MetricsManagerThread | DomainListenerThread.

(** The sinks of the two loggers of spdlog, with their levels. *)
Inductive SpdSink :=
| ConsoleSink (level : Z)
| FileSink (filename : string) (level : Z)
| PublishSink (level : Z).

(** [zmq_poll] without waiting *)
Inductive DomainPoll := DomainPollError | NothingYet | DomainMessage.
#[export] Instance DomainPoll_eq_dec : EqDecision DomainPoll.
Proof. solve_decision. Defined.

Class InitEnvironment (W : Type) := {
  (** A file of settings as the parser of its grammar sees it; the current section of that
      parser, which is a global variable; arithmetic on numerals. *)
  env_read_file : string → W → option config_file * W;
  env_current_section : W → option string;
  env_set_current_section : option string → W → W;
  env_arithmetic : ascii → string → string → string;
  (** The loggers of GravityLogger.v *)
  env_add_file_logger : string → string → LogLevel → bool → W → W;
  env_add_console_logger : string → LogLevel → W → W;
  (** spdlog: whether the logger "GravityLogger" is registered; [level::from_str]; the sinks
      of the two loggers that are registered, and whether the second becomes the default. *)
  env_spdlog_registered : W → bool;
  env_spdlog_level : string → Z;
  env_spdlog_register : list SpdSink → list SpdSink → bool → W → W;
  (** [zmq_init] *)
  env_zmq_init : W → bool * W;
  env_start_thread : ManagerThread → W → W;
  (** A message that a manager is ready, acknowledged; [None] if none ever comes. *)
  env_read_ready : W → option W;
  (** [s_interrupted], and raising that signal again: [None] if that ends the process. *)
  env_s_interrupted : W → bool;
  env_raise : W → option W;
  env_poll_domain : W → DomainPoll * W;
  (** The text of a number of seconds in whole microseconds, if it is above zero
      ([StringToDouble] and [std::round]). *)
  env_period : string → option Z;
  env_close : NodeSocket → W → W;
  (** The sockets of the domain listener: the broadcasts it passes on, and its answer to a
      command. *)
  env_domain_publish : list frame → W → W;
  env_domain_answer : frame → W → W;
  (** The address of the node *)
  env_self : Z;
}.

Definition DEFAULT_BROADCAST_PORT : Z := 8276.
Definition DEFAULT_BROADCAST_TIMEOUT_SEC : Z := 10.
Definition SPDLOG_LEVEL_OFF : Z := 6.

Section initialization.
Context {W : Type} `{NodeEnvironment W, InitEnvironment W}.
Context `{Protobuf GravityDataProductPB, Protobuf GravityConfigParamPB,
  Protobuf ServiceDirectoryRegistrationPB, Protobuf ServiceDirectoryUnregistrationPB,
  Protobuf ServiceDirectoryResponsePB, Protobuf ComponentLookupRequestPB,
  Protobuf ComponentDataLookupResponsePB, Protobuf ComponentServiceLookupResponsePB,
  Protobuf PublisherInfoPB, Protobuf ConfigRequestPB, Protobuf ConfigeResponsePB}.

(** A step that may never return. *)
Definition block (f : W → option W) : node W unit := λ n w,
  match f w with Some w => Some ((), n, w) | None => None end.

(** ** Settings *)

(** [new GravityConfigParser] *)
Definition new_parser (componentID : string) : node W unit :=
  modify (λ n, n <| gn_parser := Some ∅ |> <| gn_parserID := componentID |>).

Definition parse_config_file (config_filename : string) : node W unit :=
  file ← ask (env_read_file config_filename);
  section ← ask (λ w, (env_current_section w, w));
  n ← gets id;
  let '(section, key_value_map) :=
    ParseConfigFile env_tolower env_arithmetic (gn_parserID n) file section (default ∅ (gn_parser n)) in
  tell (env_set_current_section section);;
  modify (λ n, n <| gn_parser := Some key_value_map |>).

Definition CONFIG_REQUEST_TIMEOUT : Z := 4000.

Definition ParseConfigService : node W unit :=
  n ← gets id;
  response ← request_sync "ConfigService" (config_request (gn_parserID n)) CONFIG_REQUEST_TIMEOUT "";
  match response with
  | None => mret ()
  | Some response =>
      let responseMessage : ConfigeResponsePB := (populateMessage response).1 in
      modify (λ n, n <| gn_parser ::= option_map (parse_config_response env_tolower responseMessage) |>)
  end.

(** ** Logging *)

Definition add_loggers : node W unit :=
  n ← gets id;
  local ← getStringParam "LocalLogLevel" "none";
  let local_log_level := LogStringToLevel env_tolower local in
  (if decide (local_log_level ≠ NONE) then
     directory ← getStringParam "LogDirectory" "";
     close_file ← getBoolParam "CloseLogFileAfterWrite" false;
     tell (env_add_file_logger directory (gn_componentID n) local_log_level close_file)
   else mret ());;
  console ← getStringParam "ConsoleLogLevel" "none";
  let console_log_level := LogStringToLevel env_tolower console in
  if decide (console_log_level ≠ NONE)
  then tell (env_add_console_logger (gn_componentID n) console_log_level) else mret ().

Definition spdlog_level (key : string) : node W Z :=
  level ← getStringParam key "off";
  mret (env_spdlog_level (StringToLowerCase env_tolower level)).

Definition configSpdLoggers : node W unit :=
  registered ← ask (λ w, (env_spdlog_registered w, w));
  if registered : bool then mret () else
  gravity_file_level ← spdlog_level "GravityFileLogLevel";
  gravity_console_level ← spdlog_level "GravityConsoleLogLevel";
  app_file_level ← spdlog_level "AppFileLogLevel";
  app_console_level ← spdlog_level "AppConsoleLogLevel";
  app_publish_level ← spdlog_level "AppNetworkLogLevel";
  let has level := bool_decide (level ≠ SPDLOG_LEVEL_OFF) in
  n ← gets id;
  filename ←
    (if has gravity_file_level || has app_file_level then
       directory ← getStringParam "LogDirectory" ".";
       mret (directory +:+ "/" +:+ gn_componentID n +:+ ".log")
     else mret "");
  let gravity_sinks := ConsoleSink gravity_console_level ::
    (if has gravity_file_level then [FileSink filename gravity_file_level] else []) in
  let app_sinks := ConsoleSink app_console_level ::
    (if has app_file_level then [FileSink filename app_file_level] else []) ++
    (if has app_publish_level then [PublishSink app_publish_level] else []) in
  tell (env_spdlog_register gravity_sinks app_sinks
    (has app_file_level || has app_console_level || has app_publish_level)).

(** ** The domain *)

Definition listener_message (domain : string) (port broadcastTimeout : Z) (compId : string)
    (gravityNode : Z) : list frame :=
  [sendStringMessage "configure"; sendStringMessage domain; sendIntMessage port;
   sendIntMessage broadcastTimeout; sendStringMessage compId; pointer_frame gravityNode].

Definition configureNodeDomainListener (domain : string) : node W unit :=
  port ← getIntParam "ServiceDirectoryBroadcastPort" DEFAULT_BROADCAST_PORT;
  broadcastTimeout ← getIntParam "ServiceDirectoryBroadcastTimeout" DEFAULT_BROADCAST_TIMEOUT_SEC;
  n ← gets id;
  send domainListenerSWL
    (listener_message domain port broadcastTimeout (gn_componentID n) env_self);;
  receive domainListenerSWL;;
  mret ().

(** The milliseconds are an [int], and so is the time waited so far; too long a timeout
    overflows, here by wrapping around. *)
Fixpoint wait_for_url (fuel : nat) (waitTime limit : Z) : node W string :=
  match fuel with
  | O => mret ""
  | S fuel =>
      if decide (limit <= waitTime) then mret "" else
      outcome ← ask env_poll_domain;
      match outcome with
      | DomainPollError => mret ""
      | _ =>
          command ←
            (match outcome with DomainMessage => receive domainRecvSWL | _ => mret "" end);
          if decide (outcome = DomainMessage ∧ command = "connect") then
            domain ← receive domainRecvSWL;
            receive domainRecvSWL
          else
            tell (env_sleep 100);;
            wait_for_url fuel (waitTime + 100) limit
      end
  end.

Definition getDomainUrl (timeout : Z) : node W string :=
  let limit := s32 (timeout * 1000) in
  wait_for_url (Z.to_nat (limit / 100 + 1)) 0 limit.
(** ** Initialization *)

(** The managers report one after the other, unless a signal comes in. *)
Fixpoint wait_for_managers (numThreadsWaiting : nat) : node W unit :=
  match numThreadsWaiting with
  | O => mret ()
  | S numThreadsWaiting =>
      interrupted ← ask (λ w, (env_s_interrupted w, w));
      if interrupted : bool then mret () else
      block env_read_ready;;
      wait_for_managers numThreadsWaiting
  end.

(** A signal is raised again, without the lock of initialization; its handler may return. *)
Definition raise_interrupt : node W unit :=
  interrupted ← ask (λ w, (env_s_interrupted w, w));
  if interrupted : bool then
    Unlock initLock;;
    block env_raise
  else mret ().

Definition configure_queues : node W unit :=
  publishHWM ← getIntParam "PublishHWM" 1000;
  (if decide (publishHWM < 0) then mret () else
     send publishManagerRequestSWL [sendStringMessage "set_hwm"; sendIntMessage publishHWM];;
     receive publishManagerRequestSWL;; mret ());;
  subscribeHWM ← getIntParam "SubscribeHWM" 1000;
  (if decide (subscribeHWM < 0) then mret () else
     send subscriptionManagerSWL [sendStringMessage "set_hwm"; sendIntMessage subscribeHWM]);;
  keepAlive ← getBoolParam "TcpKeepAliveEnabled" false;
  if keepAlive : bool then
    tcpKeepAliveTime ← getIntParam "TcpKeepAliveTime" 7200;
    tcpKeepAliveProbes ← getIntParam "TcpKeepAliveProbes" 9;
    tcpKeepAliveIntvl ← getIntParam "TcpKeepAliveIntvl" 75;
    send publishManagerRequestSWL
      [sendStringMessage "set_tcp_keepalive"; sendIntMessage tcpKeepAliveTime;
       sendIntMessage tcpKeepAliveProbes; sendIntMessage tcpKeepAliveIntvl];;
    receive publishManagerRequestSWL;; mret ()
  else mret ().

(** The url of the directory from the settings, or else from the broadcasts of the domain, to
    which [start] starts listening; the first flag says that it was looked for there, the
    second that no broadcast came in time. *)
Definition find_directory (componentID : string) (start : string → node W unit)
    : node W (string * bool * bool) :=
  serviceDirectoryDomain ← getStringParam "Domain" "";
  serviceDirectoryUrl ← getStringParam "ServiceDirectoryURL" "";
  if decide (serviceDirectoryDomain ≠ "" ∧ componentID ≠ "ServiceDirectory" ∧ serviceDirectoryUrl = "")
  then
    start serviceDirectoryDomain;;
    broadcastTimeout ← getIntParam "ServiceDirectoryBroadcastTimeout" DEFAULT_BROADCAST_TIMEOUT_SEC;
    url ← getDomainUrl broadcastTimeout;
    mret (url, true, bool_decide (url = ""))
  else mret (serviceDirectoryUrl, false, false).

Definition start_listener (serviceDirectoryDomain : string) : node W unit :=
  tell (env_start_thread DomainListenerThread);;
  configureNodeDomainListener serviceDirectoryDomain.

(** Settings and logging *)
Definition init_settings (componentID : string) : node W unit :=
  new_parser componentID;;
  parse_config_file "Gravity.ini";;
  (if IsValidFilename (componentID +:+ ".ini") then parse_config_file (componentID +:+ ".ini")
   else mret ());;
  n ← gets id;
  if gn_logInitialized n then mret ()
  else add_loggers;; configSpdLoggers;; modify (λ n, n <| gn_logInitialized := true |>).

(** Starting the managers; a context that cannot be made is only noted. *)
Definition start_managers : node W bool :=
  context ← ask env_zmq_init;
  tell (env_start_thread SubscriptionManagerThread);;
  tell (env_start_thread PublishManagerThread);;
  tell (env_start_thread RequestManagerThread);;
  tell (env_start_thread ServiceManagerThread);;
  tell (env_start_thread MetricsManagerThread);;
  wait_for_managers 5;;
  mret context.

Definition init_managers : node W GravityReturnCode :=
  context ← start_managers;
  raise_interrupt;;
  configure_queues;;
  mret (if context : bool then SUCCESS else FAILURE).

Definition init_first (componentID : string) : node W (GravityReturnCode * string * bool) :=
  init_settings componentID;;
  ret ← init_managers;
  '(serviceDirectoryUrl, searched, domainTimeout) ← find_directory componentID start_listener;
  (if searched : bool then modify (λ n, n <| gn_listenerEnabled := true |>) else mret ());;
  cache ← getBoolParam "CacheLastSentDataproduct" true;
  modify (λ n, n <| gn_defaultCacheLastSentDataprodut := cache |>);;
  receive ← getBoolParam "ReceiveLastSentDataproduct" true;
  modify (λ n, n <| gn_defaultReceiveLastSentDataproduct := receive |> <| gn_initialized := true |>);;
  mret (ret, serviceDirectoryUrl, domainTimeout).

(** Initialized already: only the address of the directory is read again. *)
Definition init_again (componentID : string) : node W (GravityReturnCode * string * bool) :=
  '(serviceDirectoryUrl, _, domainTimeout) ← find_directory componentID (λ _, mret ());
  mret (SUCCESS, serviceDirectoryUrl, domainTimeout).

Definition fetch_domain (componentID : string) (ret : GravityReturnCode) : node W GravityReturnCode :=
  if decide (componentID ≠ "ServiceDirectory") then
    '(ret, response) ← sendRequestToServiceDirectory (new_GravityDataProduct "GetDomain")
      (new_GravityDataProduct "DomainResponse");
    (if decide (ret = SUCCESS)
     then modify (λ n, n <| gn_myDomain := str (gdp_data response) |>) else mret ());;
    mret ret
  else
    domain ← getStringParam "Domain" "";
    modify (λ n, n <| gn_myDomain := domain |>);;
    mret ret.

Definition enable_metrics (componentID : string) : node W unit :=
  registerDataProductInternal METRICS_DATA_DPID TCP false false false true;;
  samplePeriod ← getIntParam "GravityMetricsSamplePeriodSeconds" 10;
  samplesPerPublish ← getIntParam "GravityMetricsSamplesPerPublish" 6;
  ip ← getIP;
  regTime ← registration_time_of METRICS_DATA_DPID;
  send metricsManagerSocket
    [sendStringMessage "MetricsEnable"; sendIntMessage samplePeriod;
     sendIntMessage samplesPerPublish; sendStringMessage componentID; sendStringMessage ip;
     sendIntMessage regTime].

Definition publish_settings_and_metrics (componentID : string) : node W unit :=
  settings ← getBoolParam "GravitySettingsPublishEnabled" false;
  modify (λ n, n <| gn_settingsPubEnabled := settings |>);;
  (if settings : bool then
     registerDataProductInternal GRAVITY_SETTINGS_DPID TCP false false false true;; mret ()
   else mret ());;
  metrics ← getBoolParam "GravityMetricsEnabled" false;
  modify (λ n, n <| gn_metricsEnabled := metrics |>);;
  if metrics : bool then enable_metrics componentID else mret ().

(** Once the directory has answered. *)
Definition configure_node (componentID : string) : node W unit :=
  (if decide (componentID ≠ "ServiceDirectory") then publish_settings_and_metrics componentID
   else mret ());;
  (if decide (componentID = "ConfigServer") then mret () else
     noConfigServer ← getBoolParam "NoConfigServer" false;
     if noConfigServer : bool then mret () else ParseConfigService);;
  configureServiceManager;;
  configureSubscriptionManager;;
  period ← getStringParam "GravityHeartbeatPeriodSecs" "-1.000000";
  match env_period period with
  | Some micros => startHeartbeat micros;; mret ()
  | None => mret ()
  end.

(** What follows once the address of the directory is known. *)
Definition connect_node (componentID serviceDirectoryUrl : string) (domainTimeout : bool)
    (ret : GravityReturnCode) : node W GravityReturnCode :=
  if domainTimeout then mret FAILURE else
    updateServiceDirectoryUrl serviceDirectoryUrl;;
    ret ← fetch_domain componentID ret;
    (if decide (ret = SUCCESS) then configure_node componentID else mret ());;
    mret ret.

Definition init (componentID : string) : node W GravityReturnCode :=
  modify (λ n, n <| gn_componentID := componentID |>
    <| gravityNode_ReservedDataProductIDs ::= union {[heartbeat_name componentID]} |>);;
  Lock initLock;;
  initialized ← gets gn_initialized;
  '(ret, serviceDirectoryUrl, domainTimeout) ←
    (if initialized : bool then init_again componentID else init_first componentID);
  ret ← connect_node componentID serviceDirectoryUrl domainTimeout ret;
  Unlock initLock;;
  mret ret.

(** Without a component in Gravity.ini, the error is logged through a logger that is not set
    up yet: [None] is that access to a null pointer. *)
Definition init_from_file : node W GravityReturnCode :=
  new_parser "";;
  parse_config_file "Gravity.ini";;
  componentID ← getStringParam "GravityComponentID" "";
  if decide (componentID ≠ "") then init componentID
  else
    modify (λ n, n <| gn_componentID := "GravityNode" |>);;
    n ← gets id;
    (if gn_logInitialized n then mret () else add_loggers;; block (λ _, None));;
    init "GravityNode".

(** ** The constructor with a component, and the destructor *)

(** The members it leaves uninitialized are arguments. *)
Definition construct_GravityNode (listener cache receive : bool) (componentID : string) (w : W)
    : option (GravityReturnCode * GravityNode * W) :=
  let componentID := "" in
  init componentID
    (new_GravityNode <| gn_listenerEnabled := listener |>
      <| gn_defaultCacheLastSentDataprodut := cache |>
      <| gn_defaultReceiveLastSentDataproduct := receive |>
      <| serviceDirectory_ReservedDataProductIDs := ∅ |>
      <| gravityNode_ReservedDataProductIDs := ∅ |>) w.

Definition kill (socket : NodeSocket) : node W unit :=
  send socket [sendStringMessage "kill"];; tell (env_close socket).

(** The sockets exist once a node is initialized, those of the listener once it is enabled.
    What follows, the end of the context and of the threads, is not modelled. *)
Definition destroy_GravityNode : node W unit :=
  n ← gets id;
  (if gn_metricsEnabled n then unregisterDataProduct METRICS_DATA_DPID;; mret () else mret ());;
  (if gn_listenerEnabled n then
     send domainListenerSWL [sendStringMessage "kill"];;
     receive domainListenerSWL;;
     tell (env_close domainListenerSWL);;
     tell (env_close domainRecvSWL)
   else mret ());;
  (if gn_initialized n then
     kill subscriptionManagerSWL;;
     tell (env_close subscriptionManagerConfigSWL);;
     kill requestManagerSWL;;
     tell (env_close requestManagerRepSWL);;
     kill publishManagerPublishSWL;;
     tell (env_close publishManagerRequestSWL);;
     kill serviceManagerSWL;;
     tell (env_close serviceManagerConfigSWL);;
     kill metricsManagerSocket
   else mret ());;
  (if gn_hbSocket n then kill hbSocket else mret ());;
  if gn_heartbeatStarted n then stopHeartbeat;; mret () else mret ().

(** ** The domain listener *)

Record DomainListener := mkDomainListener {
  dl_domain : string;
  dl_port : Z;
  dl_timeout : Z;
  dl_compId : string;
  dl_gravityNode : Z;
  dl_startTime : Z;
}.
#[export] Instance eta_DomainListener : Eta DomainListener := λ l,
  mkDomainListener (dl_domain l) (dl_port l) (dl_timeout l) (dl_compId l) (dl_gravityNode l)
    (dl_startTime l).

Definition readDomainListenerParameters : reader DomainListener :=
  domain <~ readStringMessage ;; port <~ readIntMessage ;; timeout <~ readIntMessage ;;
  compId <~ readStringMessage ;; gravityNode <~ readBytes 8 u64 ;;
  read_ret (mkDomainListener domain port timeout compId gravityNode 0).

(** What comes in before the listener is ready: [None] for missing frames. *)
Definition listener_ready (frames : list frame) : option (option DomainListener) :=
  '(command, frames) ← readStringMessage frames;
  if decide (command = "configure") then
    '(l, _) ← readDomainListenerParameters frames; Some (Some l)
  else Some None.

(** A broadcast: what goes to the socket [domainRecvSWL], the url to register at again, and
    the listener. *)
Definition hear_broadcast (broadcastPB : ServiceDirectoryBroadcastPB) (l : DomainListener)
    : list frame * option string * DomainListener :=
  let url := bc_url broadcastPB in
  let starttime := bc_starttime broadcastPB in
  if decide (dl_domain l = bc_domain broadcastPB) then
    ([sendStringMessage "connect"; sendStringMessage (dl_domain l); sendStringMessage url],
     (if decide (dl_startTime l < starttime ∧ dl_startTime l ≠ 0) then Some url else None),
     (if decide (dl_startTime l < starttime) then l <| dl_startTime := starttime |> else l))
  else ([], None, l).

(** One turn of its loop: the bytes received, if it did not time out, and then a command of
    the node, if there is one; the flag is false when the loop ends. *)
Definition domain_listener_turn `{Protobuf ServiceDirectoryBroadcastPB} (recvString : option string)
    (command : option string) (l : DomainListener) : node W (DomainListener * bool) :=
  l ←
    (match recvString with
     | None => mret l
     | Some bytes =>
         let '(frames, url, l) := hear_broadcast (parse bytes).1 l in
         (if decide (frames = []) then mret () else tell (env_domain_publish frames));;
         (match url with
          | Some url => ServiceDirectoryReregister (dl_compId l) url;; mret ()
          | None => mret ()
          end);;
         mret l
     end);
  match command with
  | None => mret (l, true)
  | Some command =>
      tell (env_domain_answer (sendStringMessage "ACK"));;
      mret (l, negb (bool_decide (command = "kill")))
  end.
End initialization.
