(* ===== verification/GravityNodeInitProofs.v ===== *)
(** * Properties of a node's initialization

    Which locks it gives back and what it leaves behind; where settings come from; how long
    it waits for a directory and which one it finds; when it registers again. *)

From S2P Require Import Prelude.
From S2P Require Import Messages.
From S2P Require Import CommUtil.
From S2P Require Import Utility.
From S2P Require Import GravityLogger.
From S2P Require Import GravityDataProduct.
From S2P Require Import Config.
From S2P Require Import ConfigProofs.
From S2P Require Import ReturnCodes.
From S2P Require Import GravityHeartbeat.
From S2P Require Import GravityNode.
From S2P Require Import GravityNodeAPI.
From S2P Require Import GravityNodeProofs.
From S2P Require Import GravityNodeInit.
#[local] Open Scope gravity_scope.
#[local] Open Scope Z_scope.

Import GravityReturnCodes.

#[local] Hint Resolve net_registration_time_of net_url_instance net_getIP net_publish
  net_getStringParam net_getIntParam net_updateServiceDirectoryUrl net_send_requests
  net_sendRequestToServiceDirectory net_registerDataProductInternal net_unregisterDataProduct
  net_request_sync : node_net.

Section locks.
Context {W : Type} `{NodeEnvironment W, InitEnvironment W}.
Context `{Protobuf GravityDataProductPB, Protobuf GravityConfigParamPB,
  Protobuf ServiceDirectoryRegistrationPB, Protobuf ServiceDirectoryUnregistrationPB,
  Protobuf ServiceDirectoryResponsePB, Protobuf ComponentLookupRequestPB,
  Protobuf ComponentDataLookupResponsePB, Protobuf ComponentServiceLookupResponsePB,
  Protobuf PublisherInfoPB, Protobuf ConfigRequestPB, Protobuf ConfigeResponsePB}.

(** ** Locks *)

Lemma net_block l f : net (W:=W) l 0 (block f).
Proof. intros n w x n' w'. unfold block. destruct (f w); [|done]. intros [= <- <- <-]. lia. Qed.
Lemma net_getBoolParam l k d : net (W:=W) l 0 (getBoolParam k d).
Proof. unfold getBoolParam. net_solve. Qed.
Lemma net_new_parser l c : net (W:=W) l 0 (new_parser c).
Proof. unfold new_parser. net_solve. Qed.
Hint Resolve net_block net_getBoolParam net_new_parser : node_net.

Lemma net_parse_config_file l f : net (W:=W) l 0 (parse_config_file f).
Proof. unfold parse_config_file. net_solve. Qed.
Lemma net_ParseConfigService l : net (W:=W) l 0 ParseConfigService.
Proof. unfold ParseConfigService. net_solve. Qed.
Lemma net_add_loggers l : net (W:=W) l 0 add_loggers.
Proof. unfold add_loggers. net_solve. Qed.
Lemma net_spdlog_level l k : net (W:=W) l 0 (spdlog_level k).
Proof. unfold spdlog_level. net_solve. Qed.
Hint Resolve net_parse_config_file net_ParseConfigService net_add_loggers net_spdlog_level : node_net.
Lemma net_configSpdLoggers l : net (W:=W) l 0 configSpdLoggers.
Proof. unfold configSpdLoggers. net_solve. Qed.
Lemma net_configureNodeDomainListener l d : net (W:=W) l 0 (configureNodeDomainListener d).
Proof. unfold configureNodeDomainListener. net_solve. Qed.
Hint Resolve net_configSpdLoggers net_configureNodeDomainListener : node_net.

Lemma net_wait_for_url l fuel waitTime limit : net (W:=W) l 0 (wait_for_url fuel waitTime limit).
Proof.
  revert waitTime. induction fuel as [|fuel IH]; intros waitTime; cbn [wait_for_url]; [net_solve|].
  net_solve; apply IH.
Qed.
Hint Resolve net_wait_for_url : node_net.
Lemma net_find_directory l c start :
  (∀ d, net (W:=W) l 0 (start d)) → net (W:=W) l 0 (find_directory c start).
Proof. intros Hs. unfold find_directory, getDomainUrl. net_solve. Qed.
Lemma net_init_settings l c : net (W:=W) l 0 (init_settings c).
Proof. unfold init_settings. net_solve. Qed.
Hint Resolve net_init_settings : node_net.

Lemma net_wait_for_managers l k : net (W:=W) l 0 (wait_for_managers k).
Proof. induction k as [|k IH]; cbn [wait_for_managers]; net_solve. Qed.
Lemma net_configure_queues l : net (W:=W) l 0 configure_queues.
Proof. unfold configure_queues. net_solve. Qed.
Hint Resolve net_wait_for_managers net_configure_queues : node_net.

Lemma net_publish_settings_and_metrics l c : net (W:=W) l 0 (publish_settings_and_metrics c).
Proof. unfold publish_settings_and_metrics, enable_metrics. net_solve. Qed.
Lemma net_startHeartbeat l i : net (W:=W) l 0 (startHeartbeat i).
Proof. unfold startHeartbeat, when_initialized. net_solve. Qed.
Hint Resolve net_publish_settings_and_metrics net_startHeartbeat : node_net.
Lemma net_configure_node l c : net (W:=W) l 0 (configure_node c).
Proof. unfold configure_node, configureServiceManager, configureSubscriptionManager. net_solve. Qed.
Lemma net_fetch_domain l c r : net (W:=W) l 0 (fetch_domain c r).
Proof. unfold fetch_domain. net_solve. Qed.
Hint Resolve net_configure_node net_fetch_domain : node_net.
Lemma net_connect_node l c u late r : net (W:=W) l 0 (connect_node c u late r).
Proof. unfold connect_node. net_solve. Qed.

Lemma net_start_managers l : net (W:=W) l 0 start_managers.
Proof. unfold start_managers. net_solve. Qed.
Hint Resolve net_start_managers : node_net.

(** What a signal during the start of the managers adds to a lock: a handler that returns
    comes back with the lock of initialization given back already. *)
Lemma raise_interrupt_locks n (w : W) x n' w' l :
  raise_interrupt n w = Some (x, n', w') →
  gn_semaphore n' l =
    (gn_semaphore n l + if decide (l = initLock ∧ env_s_interrupted w = true) then 1 else 0)%nat.
Proof.
  intros (b & n1 & w1 & [= <- <- <-] & E)%bind_inv.
  destruct (env_s_interrupted w) eqn:Ei.
  - apply bind_inv in E as (u & n1 & w1 & [= <- <- <-] & E). unfold block in E.
    destruct (env_raise w) as [w2|] eqn:Er; [|done]. injection E as <- <- <-.
    rewrite set_semaphore_lookup. destruct (decide (l = initLock)) as [->|].
    + rewrite decide_True by done. lia.
    + rewrite decide_False by naive_solver. lia.
  - injection E as <- <- <-. rewrite decide_False by naive_solver. lia.
Qed.

(** The node when it starts its managers: it has its name, and the lock. *)
Definition starting (c : string) (n : GravityNode) : GravityNode :=
  set_semaphore initLock (Nat.pred (gn_semaphore n initLock))
    (n <| gn_componentID := c |>
       <| gravityNode_ReservedDataProductIDs ::= union {[heartbeat_name c]} |>).

(** A signal has come in by the time the managers run: the flag is set at the one point of
    the run at which it is looked at. *)
Definition interrupted_start (c : string) (n : GravityNode) (w : W) : Prop :=
  gn_initialized n = false ∧ ∃ context n1 w1,
    (init_settings c;; start_managers) (starting c n) w = Some (context, n1, w1) ∧
    env_s_interrupted w1 = true.

Lemma init_first_locks c n (w : W) x n' w' l :
  init_first c n w = Some (x, n', w') →
  ∃ context n1 w1, (init_settings c;; start_managers) n w = Some (context, n1, w1) ∧
    gn_semaphore n' l =
      (gn_semaphore n l + if decide (l = initLock ∧ env_s_interrupted w1 = true) then 1 else 0)%nat.
Proof.
  intros (u & n1 & w1 & E1 & E)%bind_inv. apply bind_inv in E as (ret & n2 & w2 & E2 & E).
  apply bind_inv in E2 as (context & n3 & w3 & E3 & E2).
  apply bind_inv in E2 as (u2 & n4 & w4 & E4 & E2).
  exists context, n3, w3. split.
  { unfold mbind, node_bind. rewrite E1. exact E3. }
  apply (net_init_settings l) in E1. apply (net_start_managers l) in E3.
  apply (raise_interrupt_locks _ _ _ _ _ l) in E4.
  assert (E2' : gn_semaphore n2 l = gn_semaphore n4 l).
  { revert E2. match goal with |- ?m n4 w4 = _ → _ => assert (Hm : net l 0 m) by net_solve end.
    intros E2. apply Hm in E2. lia. }
  assert (E' : gn_semaphore n' l = gn_semaphore n2 l).
  { revert E. match goal with |- ?m n2 w2 = _ → _ => assert (Hm : net l 0 m) end.
    { apply (net_bind 0); [apply net_find_directory; intros d; unfold start_listener; net_solve|].
      intros [[url searched] late]. net_solve. }
    intros E. apply Hm in E. lia. }
  lia.
Qed.

Lemma net_init_again l c : net (W:=W) l 0 (init_again c).
Proof.
  unfold init_again. apply (net_bind 0); [apply net_find_directory; intros d; net_solve|].
  intros [[url searched] late]. net_solve.
Qed.

(** C28. Initialization gives every lock back, whatever happens on the way, except in one case: when
    a signal has come in by the time the managers of this run are started, and its handler
    returns, the lock of initialization ends with exactly one count too many, so that it
    excludes nobody any more. *)
Theorem init_gives_locks_back c n (w : W) r n' w' l :
  init c n w = Some (r, n', w') →
  (¬ interrupted_start c n w ∨ l ≠ initLock → gn_semaphore n' l = gn_semaphore n l) ∧
  (interrupted_start c n w → gn_semaphore n' initLock = S (gn_semaphore n initLock)).
Proof.
  intros (u & n1 & w1 & [= <- <- <-] & E)%bind_inv.
  apply bind_inv in E as (u' & n2 & w2 & (k & Hk & -> & ->)%Lock_inv & E).
  apply bind_inv in E as (b & n3 & w3 & [= <- <- <-] & E).
  apply bind_inv in E as ([[ret url] late] & n4 & w4 & E1 & E).
  apply bind_inv in E as (ret' & n5 & w5 & E2 & E).
  apply bind_inv in E as (u & n6 & w6 & [= <- <- <-] & [= <- <- <-]).
  change (gn_semaphore n initLock = S k) in Hk.
  assert (Hs : set_semaphore initLock k (n <| gn_componentID := c |>
    <| gravityNode_ReservedDataProductIDs ::= union {[heartbeat_name c]} |>) = starting c n)
    by (unfold starting; by rewrite Hk).
  assert (Hn : ∀ l, (gn_semaphore (starting c n) l + if decide (l = initLock) then 1 else 0)%nat =
    gn_semaphore n l).
  { intros l'. unfold starting. rewrite set_semaphore_lookup.
    destruct (decide (l' = initLock)) as [->|]; [|cbn; lia]. rewrite Hk. cbn. lia. }
  assert (K : ∀ l', gn_semaphore n4 l' = gn_semaphore (starting c n) l' ∧ ¬ interrupted_start c n w ∨
    interrupted_start c n w ∧ gn_semaphore n4 l' =
      (gn_semaphore (starting c n) l' + if decide (l' = initLock) then 1 else 0)%nat).
  { intros l'. rewrite Hs in E1. change (gn_initialized (starting c n)) with (gn_initialized n) in E1.
    destruct (gn_initialized n) eqn:Hi.
    - left. apply (net_init_again l') in E1. split; [lia|]. intros [Hf _]. congruence.
    - destruct (init_first_locks c _ _ _ _ _ l' E1) as (context & m & w1 & Er & Hl).
      destruct (env_s_interrupted w1) eqn:Ei.
      + right. split; [split; [done|by exists context, m, w1]|]. rewrite Hl.
        destruct (decide (l' = initLock)); [rewrite decide_True by done|rewrite decide_False by naive_solver]; lia.
      + left. rewrite decide_False in Hl by naive_solver. split; [lia|].
        intros (_ & context' & m' & w1' & Er' & Ei'). congruence. }
  assert (K5 : ∀ l', gn_semaphore n5 l' = gn_semaphore n4 l').
  { intros l'. apply (net_connect_node l') in E2. lia. }
  split; intros Hc; rewrite set_semaphore_lookup.
  - destruct (K l) as [[K4 _]|[Hint K4]]; specialize (Hn l); specialize (K5 l).
    + destruct (decide (l = initLock)) as [->|]; lia.
    + destruct Hc as [Hc|Hc]; [done|]. rewrite decide_False in * by done. lia.
  - rewrite decide_True by done. destruct (K initLock) as [[_ Hno]|[_ K4]]; [done|].
    rewrite decide_True in K4 by done. specialize (Hn initLock). rewrite decide_True in Hn by done.
    specialize (K5 initLock). lia.
Qed.
End locks.

(** ** What initialization leaves behind *)

(** An operation that leaves a part of the node as it is. *)
Definition keeps {W A B} (f : GravityNode → B) (m : node W A) : Prop :=
  ∀ n w x n' w', m n w = Some (x, n', w') → f n' = f n.

Section keeping.
Context {W : Type} `{NodeEnvironment W, InitEnvironment W} {B : Type} (f : GravityNode → B).

Lemma keeps_ret {A} (x : A) : keeps f (mret (M:=node W) x).
Proof. by intros n w y n' w' [= <- <- <-]. Qed.
Lemma keeps_bind {A C} (m : node W A) (k : A → node W C) :
  keeps f m → (∀ x, keeps f (k x)) → keeps f (m ≫= k).
Proof.
  intros Hm Hk n w y n' w' (x & n1 & w1 & E1 & E2)%bind_inv.
  rewrite (Hk _ _ _ _ _ _ E2). by eapply Hm.
Qed.
Lemma keeps_gets {A} (g : GravityNode → A) : keeps f (gets (W:=W) g).
Proof. by intros n w x n' w' [= <- <- <-]. Qed.
Lemma keeps_modify g : (∀ n, f (g n) = f n) → keeps f (modify (W:=W) g).
Proof. intros Hg n w x n' w' [= <- <- <-]. apply Hg. Qed.
Lemma keeps_ask {A} (g : W → A * W) : keeps f (ask g).
Proof. intros n w x n' w'. unfold ask. destruct (g w). by intros [= <- <- <-]. Qed.
Lemma keeps_tell (g : W → W) : keeps f (tell g).
Proof. by intros n w x n' w' [= <- <- <-]. Qed.
Lemma keeps_send socket frames : keeps f (send (W:=W) socket frames).
Proof. apply keeps_tell. Qed.
Lemma keeps_receive socket : keeps f (receive (W:=W) socket).
Proof.
  intros n w x n' w'. unfold receive. destruct (env_receive socket w) as [[]|]; [|done].
  by intros [= <- <- <-].
Qed.
Lemma keeps_block g : keeps f (block (W:=W) g).
Proof. intros n w x n' w'. unfold block. destruct (g w); [|done]. by intros [= <- <- <-]. Qed.
Lemma keeps_none {A} : keeps f (λ (_ : GravityNode) (_ : W), @None (A * GravityNode * W)).
Proof. by intros n w x n' w'. Qed.

(** A part that locks are no part of. *)
Context (f_semaphore : ∀ l k n, f (set_semaphore l k n) = f n).
Lemma keeps_Lock l : keeps f (Lock (W:=W) l).
Proof. intros n w x n' w' (k & _ & -> & ->)%Lock_inv. apply f_semaphore. Qed.
Lemma keeps_Unlock l : keeps f (Unlock (W:=W) l).
Proof. intros n w x n' w' [= <- <- <-]. apply f_semaphore. Qed.
End keeping.

Create HintDb node_keeps.
#[export] Hint Resolve keeps_gets keeps_ask keeps_tell keeps_send keeps_receive keeps_block
  keeps_Lock keeps_Unlock : node_keeps.

Ltac keep_step :=
  match goal with
  | |- keeps _ (mret _) => apply keeps_ret
  | |- keeps _ (mbind _ _) => apply keeps_bind; [|intros ?]
  | |- keeps _ (modify _) => apply keeps_modify; done
  | |- keeps _ (match ?x with _ => _ end) => destruct x
  | |- keeps _ (if ?x then _ else _) => destruct x
  | |- keeps _ (λ _ _, None) => apply keeps_none
  | |- keeps _ _ => solve [eauto with node_keeps]
  end.
Ltac keep_solve := repeat keep_step.

Section remains.
Context {W : Type} `{NodeEnvironment W, InitEnvironment W}.
Context `{Protobuf GravityDataProductPB, Protobuf GravityConfigParamPB,
  Protobuf ServiceDirectoryRegistrationPB, Protobuf ServiceDirectoryUnregistrationPB,
  Protobuf ServiceDirectoryResponsePB, Protobuf ComponentLookupRequestPB,
  Protobuf ComponentDataLookupResponsePB, Protobuf ComponentServiceLookupResponsePB,
  Protobuf PublisherInfoPB, Protobuf ConfigRequestPB, Protobuf ConfigeResponsePB}.

(** The parts that only initialization itself writes. *)
Definition identity (n : GravityNode) : bool * string * gset string :=
  (gn_initialized n, gn_componentID n, gravityNode_ReservedDataProductIDs n).

Lemma identity_semaphore l k n : identity (set_semaphore l k n) = identity n.
Proof. done. Qed.
Hint Resolve identity_semaphore : node_keeps.

Abbreviation keeps_id := (keeps (W:=W) identity) (only parsing).

Lemma id_registration_time_of i : keeps_id (registration_time_of i).
Proof. unfold registration_time_of. keep_solve. Qed.
Lemma id_url_instance u : keeps_id (url_instance u).
Proof. unfold url_instance. keep_solve. Qed.
Lemma id_getIP : keeps_id getIP.
Proof. unfold getIP. keep_solve. Qed.
Hint Resolve id_registration_time_of id_url_instance id_getIP : node_keeps.
Lemma id_publish g t s : keeps_id (publish g t s).
Proof. unfold publish. keep_solve. Qed.
Hint Resolve id_publish : node_keeps.
Lemma id_getStringParam k d : keeps_id (getStringParam k d).
Proof. unfold getStringParam. keep_solve. Qed.
Hint Resolve id_getStringParam : node_keeps.
Lemma id_getIntParam k d : keeps_id (getIntParam k d).
Proof. unfold getIntParam. keep_solve. Qed.
Lemma id_getBoolParam k d : keeps_id (getBoolParam k d).
Proof. unfold getBoolParam. keep_solve. Qed.
Lemma id_updateServiceDirectoryUrl u : keeps_id (updateServiceDirectoryUrl u).
Proof. unfold updateServiceDirectoryUrl. keep_solve. Qed.
Lemma id_send_requests url q t k ret resp : keeps_id (send_requests url q t k ret resp).
Proof.
  revert ret resp. induction k as [|k IH]; intros ret resp; cbn [send_requests]; [keep_solve|].
  unfold sendRequestToServiceProvider. keep_solve; apply IH.
Qed.
Hint Resolve id_getIntParam id_getBoolParam id_updateServiceDirectoryUrl id_send_requests : node_keeps.
Lemma id_sendRequestToServiceDirectory q r : keeps_id (sendRequestToServiceDirectory q r).
Proof. unfold sendRequestToServiceDirectory, sendRequestsToServiceProvider. keep_solve. Qed.
Hint Resolve id_sendRequestToServiceDirectory : node_keeps.
Lemma id_send_registration r : keeps_id (send_registration r).
Proof. unfold send_registration. keep_solve. Qed.
Lemma id_transport_endpoint t i : keeps_id (transport_endpoint t i).
Proof. unfold transport_endpoint. keep_solve. Qed.
Lemma id_port_frames t : keeps_id (port_frames t).
Proof. unfold port_frames. keep_solve. Qed.
Hint Resolve id_send_registration id_transport_endpoint id_port_frames : node_keeps.
Lemma id_registerDataProductInternal i t a b c d : keeps_id (registerDataProductInternal i t a b c d).
Proof. unfold registerDataProductInternal, when_initialized. keep_solve. Qed.
Lemma id_ServiceDirectoryServiceLookup i d : keeps_id (ServiceDirectoryServiceLookup i d).
Proof. unfold ServiceDirectoryServiceLookup. keep_solve. Qed.
Hint Resolve id_registerDataProductInternal id_ServiceDirectoryServiceLookup : node_keeps.
Lemma id_request_sync i g t d : keeps_id (request_sync i g t d).
Proof. unfold request_sync, sendRequestToServiceProvider. keep_solve. Qed.
Lemma id_startHeartbeat i : keeps_id (startHeartbeat i).
Proof. unfold startHeartbeat, when_initialized. keep_solve. Qed.
Hint Resolve id_request_sync id_startHeartbeat : node_keeps.

Lemma id_ParseConfigService : keeps_id ParseConfigService.
Proof. unfold ParseConfigService. keep_solve. Qed.
Lemma id_publish_settings_and_metrics c : keeps_id (publish_settings_and_metrics c).
Proof. unfold publish_settings_and_metrics, enable_metrics. keep_solve. Qed.
Hint Resolve id_ParseConfigService id_publish_settings_and_metrics : node_keeps.
Lemma id_configure_node c : keeps_id (configure_node c).
Proof. unfold configure_node, configureServiceManager, configureSubscriptionManager. keep_solve. Qed.
Lemma id_fetch_domain c r : keeps_id (fetch_domain c r).
Proof. unfold fetch_domain. keep_solve. Qed.
Hint Resolve id_configure_node id_fetch_domain : node_keeps.

Lemma id_connect_node c u late r : keeps_id (connect_node c u late r).
Proof. unfold connect_node. keep_solve. Qed.

Lemma id_wait_for_url fuel waitTime limit : keeps_id (wait_for_url fuel waitTime limit).
Proof.
  revert waitTime. induction fuel as [|fuel IH]; intros waitTime; cbn [wait_for_url]; [keep_solve|].
  keep_solve; apply IH.
Qed.
Hint Resolve id_wait_for_url : node_keeps.
Lemma id_find_directory c start : (∀ d, keeps_id (start d)) → keeps_id (find_directory c start).
Proof. intros Hs. unfold find_directory, getDomainUrl. keep_solve. Qed.
Lemma id_start_listener d : keeps_id (start_listener d).
Proof. unfold start_listener, configureNodeDomainListener. keep_solve. Qed.
Hint Resolve id_start_listener id_find_directory : node_keeps.
Lemma id_parse_config_file i : keeps_id (parse_config_file i).
Proof. unfold parse_config_file. keep_solve. Qed.
Lemma id_add_loggers : keeps_id add_loggers.
Proof. unfold add_loggers. keep_solve. Qed.
Lemma id_configSpdLoggers : keeps_id configSpdLoggers.
Proof. unfold configSpdLoggers, spdlog_level. keep_solve. Qed.
Hint Resolve id_parse_config_file id_add_loggers id_configSpdLoggers : node_keeps.
Lemma id_init_settings c : keeps_id (init_settings c).
Proof. unfold init_settings, new_parser. keep_solve. Qed.
Lemma id_wait_for_managers k : keeps_id (wait_for_managers k).
Proof. induction k as [|k IH]; cbn [wait_for_managers]; keep_solve. Qed.
Hint Resolve id_wait_for_managers id_init_settings : node_keeps.
Lemma id_init_managers : keeps_id init_managers.
Proof. unfold init_managers, start_managers, raise_interrupt, configure_queues. keep_solve. Qed.
Hint Resolve id_init_managers : node_keeps.

Lemma init_first_initialized c n (w : W) x n' w' :
  init_first c n w = Some (x, n', w') → identity n' = (true, gn_componentID n, gravityNode_ReservedDataProductIDs n).
Proof.
  unfold init_first. intros (u & n1 & w1 & E1%id_init_settings & E)%bind_inv.
  apply bind_inv in E as (ret & n2 & w2 & E2%id_init_managers & E).
  apply bind_inv in E as ([[url searched] late] & n3 & w3 & E3%id_find_directory & E); [|intros d; keep_solve].
  apply bind_inv in E as (u1 & n4 & w4 & E4 & E).
  assert (K4 : identity n4 = identity n3) by (revert E4; case_match; by intros [= <- <- <-]).
  apply bind_inv in E as (cache & n5 & w5 & E5%id_getBoolParam & E).
  apply bind_inv in E as (u2 & n6 & w6 & [= <- <- <-] & E).
  apply bind_inv in E as (rc & n7 & w7 & E7%id_getBoolParam & E).
  apply bind_inv in E as (u3 & n8 & w8 & [= <- <- <-] & [= <- <- <-]).
  unfold identity in *. cbn in *. congruence.
Qed.

(** Whatever an initialization returns, the node counts as initialized afterwards, under the
    name it was given, and its heartbeat's name is reserved: a failure, such as no answer from
    the directory, differs from a success in the code alone, and the other operations do not
    answer that the node is not initialized. *)
Theorem init_leaves_initialized c n (w : W) r n' w' :
  init c n w = Some (r, n', w') →
  gn_initialized n' = true ∧ gn_componentID n' = c ∧
  gravityNode_ReservedDataProductIDs n' = {[heartbeat_name c]} ∪ gravityNode_ReservedDataProductIDs n.
Proof.
  intros (u & n1 & w1 & [= <- <- <-] & E)%bind_inv.
  apply bind_inv in E as (u' & n2 & w2 & (k & Hk & -> & ->)%Lock_inv & E).
  apply bind_inv in E as (b & n3 & w3 & [= <- <- <-] & E).
  apply bind_inv in E as ([[ret url] late] & n4 & w4 & E1 & E).
  apply bind_inv in E as (ret' & n5 & w5 & E2 & E).
  apply bind_inv in E as (u & n6 & w6 & [= <- <- <-] & [= <- <- <-]).
  assert (K5 : identity n5 = identity n4) by by apply id_connect_node in E2.
  assert (K4 : identity n4 = (true, c, {[heartbeat_name c]} ∪ gravityNode_ReservedDataProductIDs n)).
  { cbn in E1. destruct (gn_initialized n) eqn:Hi.
    - assert (K : keeps_id (init_again c)).
      { unfold init_again. apply keeps_bind; [apply id_find_directory; intros d; keep_solve|].
        intros [[? ?] ?]. keep_solve. }
      apply K in E1. rewrite E1. unfold identity. cbn. by rewrite Hi.
    - by apply init_first_initialized in E1. }
  rewrite K4 in K5. unfold identity in K5. cbn. injection K5 as -> -> ->. done.
Qed.
End remains.

(** ** What does not subscribe *)

Definition subscription_part (n : GravityNode) : list SubscriptionDetails * string :=
  (gn_subscriptionList n, gn_myDomain n).
Abbreviation keeps_subscriptions := (keeps subscription_part) (only parsing).

Section subscriptions.
Context {W : Type} `{NodeEnvironment W}.
Context `{Protobuf GravityDataProductPB, Protobuf GravityConfigParamPB,
  Protobuf ServiceDirectoryRegistrationPB, Protobuf ServiceDirectoryResponsePB,
  Protobuf ComponentLookupRequestPB, Protobuf ComponentServiceLookupResponsePB}.

Lemma subscriptions_semaphore l k n : subscription_part (set_semaphore l k n) = subscription_part n.
Proof. done. Qed.
Lemma keeps_quietly {A} (op : node W A) : quietly op → keeps subscription_part op.
Proof.
  intros Hq n w x n' w' Q%Hq. unfold subscription_part.
  by rewrite (quiet_subscriptionList _ _ Q), (quiet_myDomain _ _ Q).
Qed.
Hint Resolve subscriptions_semaphore keeps_quietly quietly_publish quietly_getIP quietly_getIntParam
  quietly_send_registration quietly_sendRequestToServiceDirectory : node_keeps.

Lemma subs_transport_endpoint t i : keeps_subscriptions (transport_endpoint (W:=W) t i).
Proof. unfold transport_endpoint. keep_solve. Qed.
Lemma subs_port_frames t : keeps_subscriptions (port_frames (W:=W) t).
Proof. unfold port_frames. keep_solve. Qed.
Hint Resolve subs_transport_endpoint subs_port_frames : node_keeps.
Lemma subs_registerDataProduct i t c : keeps_subscriptions (registerDataProduct (W:=W) i t c).
Proof. unfold registerDataProduct, registerDataProductInternal, when_initialized. keep_solve. Qed.
Lemma subs_registerService i t p : keeps_subscriptions (registerService (W:=W) i t p).
Proof. unfold registerService, when_initialized. keep_solve. Qed.
Lemma subs_lookup i d : keeps_subscriptions (ServiceDirectoryServiceLookup (W:=W) i d).
Proof. unfold ServiceDirectoryServiceLookup. keep_solve. Qed.
Hint Resolve subs_registerDataProduct subs_registerService subs_lookup : node_keeps.
Lemma subs_request_service i g r rid t d : keeps_subscriptions (request_service (W:=W) i g r rid t d).
Proof. unfold request_service, request_url, when_initialized. keep_solve. Qed.
Lemma subs_request_sync i g t d : keeps_subscriptions (request_sync (W:=W) i g t d).
Proof. unfold request_sync, sendRequestToServiceProvider. keep_solve. Qed.
Hint Resolve subs_request_service subs_request_sync : node_keeps.
End subscriptions.
