(* ===== verification/GravityNodeInitSettings.v ===== *)
(** * Initialization of a node: settings, the directory's address and the domain listener

    Where a setting comes from when both files have it; how long the node waits for a
    broadcast of its domain and which address it then uses; what the listener to broadcasts
    passes on, and when it makes the node register again. *)

From Stdlib Require Import Ascii.
From S2P Require Import Prelude.
From S2P Require Import Messages.
From S2P Require Import CommUtil.
From S2P Require Import Utility.
From S2P Require Import GravityLogger.
From S2P Require Import GravityDataProduct.
From S2P Require Import Config.
From S2P Require Import ConfigProofs.
From S2P Require Import ServiceDirectoryUDP.
From S2P Require Import ReturnCodes.
From S2P Require Import GravityHeartbeat.
From S2P Require Import GravityNode.
From S2P Require Import GravityNodeAPI.
From S2P Require Import GravityNodeProofs.
From S2P Require Import GravityNodeInit.
From S2P Require Import GravityNodeInitProofs.
#[local] Open Scope gravity_scope.
#[local] Open Scope Z_scope.

Import GravityReturnCodes.

(** ** Settings *)

Section settings.
Context {W : Type} `{NodeEnvironment W, InitEnvironment W}.
Context `{Protobuf GravityDataProductPB, Protobuf GravityConfigParamPB}.

Abbreviation keeps_parser := (keeps (W:=W) gn_parser) (only parsing).

Lemma parser_semaphore l k n : gn_parser (set_semaphore l k n) = gn_parser n.
Proof. done. Qed.
Hint Resolve parser_semaphore : node_keeps.
Lemma parser_registration_time_of i : keeps_parser (registration_time_of i).
Proof. unfold registration_time_of. keep_solve. Qed.
Hint Resolve parser_registration_time_of : node_keeps.
Lemma parser_publish g t s : keeps_parser (publish g t s).
Proof. unfold publish. keep_solve. Qed.
Hint Resolve parser_publish : node_keeps.
Lemma parser_getStringParam k d : keeps_parser (getStringParam k d).
Proof. unfold getStringParam. keep_solve. Qed.
Hint Resolve parser_getStringParam : node_keeps.
Lemma parser_getBoolParam k d : keeps_parser (getBoolParam k d).
Proof. unfold getBoolParam. keep_solve. Qed.
Hint Resolve parser_getBoolParam : node_keeps.
Lemma parser_add_loggers : keeps_parser add_loggers.
Proof. unfold add_loggers. keep_solve. Qed.
Lemma parser_configSpdLoggers : keeps_parser configSpdLoggers.
Proof. unfold configSpdLoggers, spdlog_level. keep_solve. Qed.
Hint Resolve parser_add_loggers parser_configSpdLoggers : node_keeps.

(** Files that do not change, and a global variable of the parser's. *)
Context (files : string → option config_file).
Hypothesis files_read : ∀ name (w : W), env_read_file name w = (files name, w).
Hypothesis section_set : ∀ s (w : W), env_current_section (env_set_current_section s w) = s.



End settings.

(** ** The directory's address *)

Section domain.
Context {W : Type} `{NodeEnvironment W, InitEnvironment W}.

(** Nothing comes in for a number of polls, each followed by a tenth of a second. *)
Inductive silence : nat → W → W → Prop :=
| silence_0 w : silence 0 w w
| silence_S k w w1 w' : env_poll_domain w = (NothingYet, w1) → silence k (env_sleep 100 w1) w' →
    silence (S k) w w'.

(** A message comes in, frame by frame. *)
Fixpoint frames_in (frames : list frame) (w w' : W) : Prop :=
  match frames with
  | [] => w' = w
  | f :: frames => ∃ w1, env_receive domainRecvSWL w = Some (f, w1) ∧ frames_in frames w1 w'
  end.
Definition message_in (frames : list frame) (w w' : W) : Prop :=
  ∃ w1, env_poll_domain w = (DomainMessage, w1) ∧ frames_in frames w1 w'.

Lemma wait_silence k fuel waitTime limit n w w' :
  silence k w w' → waitTime + 100 * Z.of_nat k <= limit →
  wait_for_url (k + fuel) waitTime limit n w =
    wait_for_url fuel (waitTime + 100 * Z.of_nat k) limit n w'.
Proof.
  intros Hs. revert waitTime. induction Hs as [w|k w w1 w' Hp Hs IH]; intros waitTime Hw.
  { cbn. f_equal. lia. }
  cbn [wait_for_url Nat.add]. rewrite decide_False by lia.
  unfold mbind, node_bind, ask, tell, mret, node_ret. rewrite Hp. cbn.
  rewrite decide_False by naive_solver. rewrite IH by lia. f_equal. lia.
Qed.

Lemma getDomainUrl_fuel timeout (j : nat) : 100 * Z.of_nat j <= timeout * 1000 →
  ∃ fuel, Z.to_nat (timeout * 1000 / 100 + 1) = (j + S fuel)%nat.
Proof.
  intros Hj. exists (Z.to_nat (timeout * 1000 / 100) - j)%nat.
  replace (timeout * 1000) with (timeout * 10 * 100) in * by lia. rewrite Z.div_mul by lia. lia.
Qed.

Lemma url_after_silence timeout k n w w1 domain url w' :
  is_s32 (timeout * 1000) → silence k w w1 → 100 * Z.of_nat k < timeout * 1000 →
  message_in ["connect"; domain; url] w1 w' → getDomainUrl timeout n w = Some (url, n, w').
Proof.
  intros Hb Hs Hk (w2 & Hp & w3 & Hc & w4 & Hd & w5 & Hu & ->). unfold getDomainUrl. rewrite s32_id by done.
  destruct (getDomainUrl_fuel timeout k) as [fuel ->]; [lia|].
  rewrite (wait_silence k _ _ _ n w w1 Hs) by lia. cbn [wait_for_url]. rewrite decide_False by lia.
  unfold mbind, node_bind, ask, receive. rewrite Hp, Hc. cbn.
  by rewrite decide_True, Hd, Hu by done.
Qed.

(** C32. A node waits for its domain as long as the timeout says, and no longer: a broadcast that
    comes in after some silence within that time gives the url, and silence for the whole
    time gives none. *)
Theorem getDomainUrl_waits timeout k n w w1 :
  is_s32 (timeout * 1000) → silence k w w1 →
  (∀ domain url w', 100 * Z.of_nat k < timeout * 1000 → message_in ["connect"; domain; url] w1 w' →
    getDomainUrl timeout n w = Some (url, n, w')) ∧
  (100 * Z.of_nat k = timeout * 1000 → getDomainUrl timeout n w = Some ("", n, w1)).
Proof.
  intros Hb Hs. split; [intros domain url w' Hk Hm; by eapply url_after_silence|].
  intros Hk. unfold getDomainUrl. rewrite s32_id by done.
  destruct (getDomainUrl_fuel timeout k) as [fuel ->]; [lia|].
  rewrite (wait_silence k _ _ _ n w w1 Hs) by lia.
  cbn [wait_for_url]. by rewrite decide_True by lia.
Qed.
End domain.

(** ** The listener *)

(** The listener is set up with what the node sends it. *)
Theorem listener_configured domain port broadcastTimeout compId gravityNode :
  is_s32 port → is_s32 broadcastTimeout → is_u64 gravityNode →
  listener_ready (listener_message domain port broadcastTimeout compId gravityNode) =
    Some (Some (mkDomainListener domain port broadcastTimeout compId gravityNode 0)).
Proof.
  intros Hp Ht Hg. unfold listener_ready, listener_message, readDomainListenerParameters, pointer_frame.
  cbn [readStringMessage sendStringMessage mbind option_bind]. rewrite decide_True by done.
  unfold read_bind. cbn [readStringMessage]. rewrite read_int_sent, s32_id by done.
  rewrite read_int_sent, s32_id by done. cbn [readStringMessage]. rewrite readBytes_sent.
  change (256 ^ Z.of_nat 8) with u64_max. unfold u64, is_u64 in *. by rewrite Zmod_mod, Z.mod_small.
Qed.

(** Broadcasts one after the other: the urls that the node registers at again. *)
Fixpoint hear_all (bs : list ServiceDirectoryBroadcastPB) (l : DomainListener)
    : list string * DomainListener :=
  match bs with
  | [] => ([], l)
  | b :: bs =>
      let '(_, url, l) := hear_broadcast b l in
      let '(urls, l) := hear_all bs l in (option_list url ++ urls, l)
  end.

(** The latest start of a directory of the domain among some broadcasts. *)
Fixpoint latest_start (domain : string) (start : Z) (bs : list ServiceDirectoryBroadcastPB) : Z :=
  match bs with
  | [] => start
  | b :: bs => latest_start domain
      (if decide (domain = bc_domain b) then Z.max start (bc_starttime b) else start) bs
  end.

Lemma hear_broadcast_start b l :
  let '(_, _, l') := hear_broadcast b l in
  dl_domain l' = dl_domain l ∧
  dl_startTime l' =
    (if decide (dl_domain l = bc_domain b) then Z.max (dl_startTime l) (bc_starttime b) else dl_startTime l).
Proof.
  unfold hear_broadcast. case_decide; [|done]. case_decide; split; cbn; try done; lia.
Qed.

Lemma hear_all_app bs bs' l :
  hear_all (bs ++ bs') l =
    let '(urls, l) := hear_all bs l in let '(urls', l) := hear_all bs' l in (urls ++ urls', l).
Proof.
  revert l. induction bs as [|b bs IH]; intros l; cbn [app hear_all].
  { by destruct (hear_all bs' l). }
  destruct (hear_broadcast b l) as [[f u] l1]. rewrite IH. destruct (hear_all bs l1) as [us l2].
  destruct (hear_all bs' l2) as [us' l3]. by rewrite app_assoc.
Qed.

Lemma hear_all_start bs l :
  dl_domain (hear_all bs l).2 = dl_domain l ∧
  dl_startTime (hear_all bs l).2 = latest_start (dl_domain l) (dl_startTime l) bs.
Proof.
  revert l. induction bs as [|b bs IH]; intros l; [done|]. cbn [hear_all latest_start].
  pose proof (hear_broadcast_start b l) as Hb. destruct (hear_broadcast b l) as [[f u] l1].
  destruct Hb as [Hd Hs]. specialize (IH l1). destruct (hear_all bs l1) as [us l2]. cbn in *.
  destruct IH as [-> ->]. by rewrite Hd, Hs.
Qed.

(** The node registers again after a broadcast of its domain exactly when it has heard from a
    directory of the domain before and the broadcast is of one that started later than all of
    those: a repetition, a broadcast of an older directory that comes in late, or one of
    another domain changes nothing. *)
Theorem reregisters_on_restart domain port timeout compId gravityNode bs b :
  let l := mkDomainListener domain port timeout compId gravityNode 0 in
  let start := latest_start domain 0 bs in
  (hear_all (bs ++ [b]) l).1 = (hear_all bs l).1 ++
    (if decide (bc_domain b = domain ∧ start ≠ 0 ∧ start < bc_starttime b) then [bc_url b] else []).
Proof.
  intros l start. rewrite hear_all_app. pose proof (hear_all_start bs l) as Hs.
  destruct (hear_all bs l) as [us l1]. cbn in Hs. destruct Hs as [Hd Hs]. cbn [hear_all fst].
  unfold hear_broadcast. rewrite Hd, Hs. fold start. cbn [fst].
  repeat case_decide; cbn; rewrite ?app_nil_r; try done; naive_solver lia.
Qed.

Section composition.
Context {W : Type} `{NodeEnvironment W, InitEnvironment W}.
Context `{Protobuf ServiceDirectoryBroadcastPB, !ProtobufLaw ServiceDirectoryBroadcastPB}.

(** C31. From the broadcaster of a directory through the listener to the node: when the listener
    hears the broadcast of a directory of its domain, and the node gets what the listener
    passes on within its timeout, it uses the url of that directory. *)
Theorem directory_found_by_broadcast b l timeout k n (w w1 w' : W) :
  ub_domainName b = dl_domain l →
  is_s32 (timeout * 1000) → 100 * Z.of_nat k < timeout * 1000 → silence k w w1 →
  message_in (hear_broadcast (parse (serialize (broadcast_message b))).1 l).1.1 w1 w' →
  getDomainUrl timeout n w = Some (ub_url b, n, w').
Proof.
  intros Hd Hb Hk Hs Hin. rewrite parse_serialize in Hin. cbn [fst] in Hin.
  unfold hear_broadcast in Hin. rewrite decide_True in Hin by done.
  by apply (url_after_silence timeout k n w w1 (dl_domain l)).
Qed.
End composition.

(** ** Runs *)

Section witnesses.

(** Messages wait for the node, one after the other, and another one comes in while it
    sleeps; all else is answered at once. *)
Record InitWorld := mkInitWorld {
  iw_messages : list (list frame);
  iw_frames : list frame;
  iw_later : list (list frame);
  iw_section : option string;
  iw_signal : bool;
}.

Definition demo_gravity_file : config_file := mkConfigFile
  [SECTION "[general]"; KVPAIR (TOKEN "domain") (TOKEN "D"); KVPAIR (TOKEN "minport") (TOKEN "1000")] true.
Definition demo_own_file : config_file := mkConfigFile
  [SECTION "[C]"; KVPAIR (TOKEN "MinPort") (TOKEN "2000")] true.
Definition demo_files (name : string) : option config_file :=
  if decide (name = "Gravity.ini") then Some demo_gravity_file
  else if decide (name = "C.ini") then Some demo_own_file else None.

#[local] Instance init_node_environment : NodeEnvironment InitWorld := {|
  env_time w := (5000000, w);
  env_send _ _ w := w;
  env_receive socket w :=
    if decide (socket = domainRecvSWL) then
      match iw_frames w with
      | f :: fs => Some (f, mkInitWorld (iw_messages w) fs (iw_later w) (iw_section w) (iw_signal w))
      | [] => None
      end
    else Some ("tcp://h:1", w);
  env_exchange _ _ _ w := ((PollReply "", false), w);
  env_local_address _ _ := "10.0.0.2";
  env_resolve host := host;
  env_sleep _ w :=
    mkInitWorld (iw_messages w ++ take 1 (iw_later w)) (iw_frames w) (drop 1 (iw_later w)) (iw_section w) (iw_signal w);
  env_start_heartbeat _ w := w;
  env_stop_heartbeat w := w;
  env_start_heartbeat_listener w := w;
  env_register_hbSub := 1;
  env_unregister_hbSub := 2;
  env_tolower := c_tolower;
|}.

#[local] Instance init_environment : InitEnvironment InitWorld := {|
  env_read_file name w := (demo_files name, w);
  env_current_section := iw_section;
  env_set_current_section s w := mkInitWorld (iw_messages w) (iw_frames w) (iw_later w) s (iw_signal w);
  env_arithmetic _ v _ := v;
  env_add_file_logger _ _ _ _ w := w;
  env_add_console_logger _ _ w := w;
  env_spdlog_registered _ := false;
  env_spdlog_level _ := SPDLOG_LEVEL_OFF;
  env_spdlog_register _ _ _ w := w;
  env_zmq_init w := (true, w);
  env_start_thread _ w := w;
  env_read_ready w := Some w;
  env_s_interrupted := iw_signal;
  env_raise w := Some w;
  env_poll_domain w :=
    match iw_messages w with
    | m :: ms => (DomainMessage, mkInitWorld ms m (iw_later w) (iw_section w) (iw_signal w))
    | [] => (NothingYet, w)
    end;
  env_period _ := None;
  env_close _ w := w;
  env_domain_publish _ w := w;
  env_domain_answer _ w := w;
  env_self := 7;
|}.

#[local] Existing Instances demo_node_gdp demo_node_config demo_node_registration
  demo_node_unregistration demo_node_response demo_node_lookup demo_node_publishers
  demo_node_service demo_node_publisher.
#[local] Instance init_config_request : Protobuf ConfigRequestPB :=
  constant_protobuf (mkConfigRequestPB None).
#[local] Instance init_config_response : Protobuf ConfigeResponsePB :=
  constant_protobuf (mkConfigeResponsePB [] []).

Definition heard (url : string) : list frame := ["connect"; "D"; url].
Definition init_world : InitWorld := mkInitWorld [] [] [heard "tcp://10.0.0.1:5555"] None false.

(** A first initialization, in a domain. *)
Definition init_run := init "C" new_GravityNode init_world.
Definition init_done : GravityNode * InitWorld :=
  match init_run with Some (_, n, w) => (n, w) | None => (new_GravityNode, init_world) end.

Lemma init_succeeds : init "C" new_GravityNode init_world = Some (SUCCESS, init_done.1, init_done.2).
Proof. vm_compute. reflexivity. Qed.

(** The same, with a signal and a handler that returns. *)
Definition signalled_world : InitWorld := mkInitWorld [] [] [heard "tcp://10.0.0.1:5555"] None true.
Definition signalled_done : GravityNode * InitWorld :=
  match init "C" new_GravityNode signalled_world with
  | Some (_, n, w) => (n, w) | None => (new_GravityNode, init_world) end.

Lemma init_signalled :
  init "C" new_GravityNode signalled_world = Some (SUCCESS, signalled_done.1, signalled_done.2).
Proof. vm_compute. reflexivity. Qed.

Lemma init_gives_locks_back_witness :
  gn_semaphore init_done.1 initLock = 1%nat ∧ gn_semaphore signalled_done.1 initLock = 2%nat.
Proof.
  split.
  - apply (proj1 (init_gives_locks_back "C" new_GravityNode init_world SUCCESS init_done.1 init_done.2
      initLock init_succeeds)).
    left. intros (_ & context & n1 & w1 & E & Hi). vm_compute in E. injection E as _ _ <-. discriminate Hi.
  - apply (proj2 (init_gives_locks_back "C" new_GravityNode signalled_world SUCCESS signalled_done.1
      signalled_done.2 initLock init_signalled)).
    split; [reflexivity|]. do 3 eexists. split; [vm_compute; reflexivity|reflexivity].
Defined.

Lemma init_leaves_initialized_witness : gn_initialized init_done.1 = true.
Proof. apply (init_leaves_initialized "C" new_GravityNode init_world SUCCESS _ _ init_succeeds). Defined.


Lemma one_silence : silence 1 init_world (env_sleep 100 init_world).
Proof. eapply silence_S; [reflexivity|apply silence_0]. Qed.
Lemma then_heard : message_in (heard "tcp://10.0.0.1:5555") (env_sleep 100 init_world) (mkInitWorld [] [] [] None false).
Proof. vm_compute. repeat (eexists; split; [reflexivity|]). reflexivity. Qed.

Lemma getDomainUrl_waits_witness :
  getDomainUrl 10 new_GravityNode init_world = Some ("tcp://10.0.0.1:5555", new_GravityNode, mkInitWorld [] [] [] None false).
Proof.
  apply (proj1 (getDomainUrl_waits 10 1 new_GravityNode init_world _
    ltac:(by unfold is_s32) one_silence) "D"); [lia|apply then_heard].
Defined.

Lemma listener_configured_witness :
  listener_ready (listener_message "D" 8276 10 "C" 7) = Some (Some (mkDomainListener "D" 8276 10 "C" 7 0)).
Proof. by apply (listener_configured "D" 8276 10 "C" 7). Defined.

#[local] Instance broadcast_eq_dec : EqDecision ServiceDirectoryBroadcastPB.
Proof. solve_decision. Defined.
#[local] Program Instance broadcast_countable : Countable ServiceDirectoryBroadcastPB :=
  inj_countable' (λ b, (bc_id b, bc_domain b, bc_url b, bc_rate b, bc_starttime b))
    (λ '(i, d, u, r, s), mkServiceDirectoryBroadcastPB i d u r s) _.
Next Obligation. by intros []. Qed.
#[local] Instance broadcast_codec : Protobuf ServiceDirectoryBroadcastPB :=
  countable_protobuf (mkServiceDirectoryBroadcastPB None "" "" 0 0) "ServiceDirectoryBroadcastPB".
#[local] Instance broadcast_law : ProtobufLaw ServiceDirectoryBroadcastPB := countable_protobuf_law _ _.

Lemma directory_found_by_broadcast_witness :
  getDomainUrl 10 new_GravityNode init_world = Some ("tcp://10.0.0.1:5555", new_GravityNode, mkInitWorld [] [] [] None false).
Proof.
  apply (directory_found_by_broadcast (mkUDPBroadcaster "D" "tcp://10.0.0.1:5555" "" 8276 10 3 true "" [])
    (mkDomainListener "D" 8276 10 "C" 7 0) 10 1 new_GravityNode init_world (env_sleep 100 init_world));
    [done|by unfold is_s32|lia|apply one_silence|].
  rewrite parse_serialize. apply then_heard.
Defined.

(** What the listener passes on waits in a queue: a node that is initialized again takes the
    oldest broadcast it has not read yet, even if the directory has moved since. *)
Lemma stale_url_used :
  getDomainUrl 10 init_done.1 (mkInitWorld [heard "tcp://old:5555"; heard "tcp://new:5555"] [] [] None false) =
    Some ("tcp://old:5555", init_done.1, mkInitWorld [heard "tcp://new:5555"] [] [] None false).
Proof. vm_compute. reflexivity. Qed.

(** The constructor with a component initializes a node without a name, in which no data
    product is reserved but the heartbeat of that name. *)
Lemma constructor_ignores_component listener cache receive c (w : InitWorld) :
  construct_GravityNode listener cache receive c w = construct_GravityNode listener cache receive "" w.
Proof. unfold construct_GravityNode. reflexivity. Qed.

(** Without a component in the file, the first initialization ends in a null pointer. *)
Lemma missing_component_crashes : init_from_file new_GravityNode init_world = None.
Proof. vm_compute. reflexivity. Qed.
End witnesses.
