(* ===== verification/LogRecorder.v ===== *)
(** * Published log messages and their recorder
    (src/src/api/cpp/PublishSink.h, src/src/components/cpp/LogRecorder/GravityLogRecorder.cpp)

    A sink of spdlog publishes what an application logs; the recorder subscribes to those
    products and writes them to files that it rotates.  The text of a message is as spdlog
    formats it; dates are as [strftime] prints them; a file system maps names to contents. *)

From S2P Require Import Prelude.
From S2P Require Import Messages.
From S2P Require Import CommUtil.
From S2P Require Import GravityDataProduct.
From S2P Require Import ReturnCodes.
From S2P Require Import GravityHeartbeat.
From S2P Require Import GravityNode.
From S2P Require Import GravityNodeAPI.
#[local] Open Scope gravity_scope.
#[local] Open Scope Z_scope.

Import GravityReturnCodes.
Import GravityTransportTypes.

Record GravityLogMessagePB := mkGravityLogMessagePB {
  lm_level : option string;
  lm_message : option string;
}.

(** ** The sink *)

Section sink.
Context {W : Type} `{NodeEnvironment W}.
Context `{Protobuf GravityDataProductPB, Protobuf GravityConfigParamPB,
  Protobuf ServiceDirectoryRegistrationPB, Protobuf ServiceDirectoryUnregistrationPB,
  Protobuf ServiceDirectoryResponsePB, Protobuf GravityLogMessagePB}.

(** The flag says whether the product is registered. *)
Definition checkInit (init : bool) : node W bool :=
  if init then mret true
  else
    ret ← registerDataProductInternal GRAVITY_LOGGER_DPID TCP false false false true;
    mret (bool_decide (ret = SUCCESS)).

Definition log_product (level formatted : string) : GravityDataProduct :=
  setData (mkGravityLogMessagePB (Some level) (Some formatted)) (new_GravityDataProduct GRAVITY_LOGGER_DPID).

(** The flag after a message, and the product if it was published. *)
Definition sink_it_ (level formatted : string) (init : bool) : node W (bool * option GravityDataProduct) :=
  init ← checkInit init;
  if init : bool then
    '(_, dp) ← publish (log_product level formatted) "" 0;
    mret (true, Some dp)
  else mret (false, None).
End sink.

(** ** The recorder *)

(** [filebasename] is the member of that name, which nothing sets; [log_file] is the open
    file, if it could be opened. *)
Record LogRecorder := mkLogRecorder {
  lr_filebasename : string;
  lr_num_logs : Z;
  lr_log_file : option string;
  lr_files : gmap string string;
}.
#[export] Instance eta_LogRecorder : Eta LogRecorder := λ r,
  mkLogRecorder (lr_filebasename r) (lr_num_logs r) (lr_log_file r) (lr_files r).

Definition NUM_LOGS_BEFORE_ROTATE : Z := 1000000 / 81.

Section recorder.
(** [fopen] of a file to write, and the text of a time of [gmtime]. *)
Variable can_open : string → bool.
Variable gmtime_text : Z → string.
Context `{Protobuf GravityLogMessagePB}.

(** The local time in the form %Y_%m_%d_%H_%M_%S, behind the member and not the argument;
    [None] when that does not fit the buffer. *)
Definition getNewFilename (filebasename basefilename timestr : string) : option string :=
  if decide (String.length filebasename ≤ 511 - 19)%nat then Some (filebasename +:+ timestr) else None.

(** [fopen] empties the file. *)
Definition open_log_file (filename : string) (r : LogRecorder) : LogRecorder :=
  if can_open filename
  then r <| lr_log_file := Some filename |> <| lr_files ::= insert filename "" |>
  else r <| lr_log_file := None |>.

Definition new_LogRecorder (filebasename timestr : string) (files : gmap string string)
    : option LogRecorder :=
  let r := mkLogRecorder "" 0 None files in
  filename ← getNewFilename (lr_filebasename r) filebasename timestr;
  Some (open_log_file filename r).

Definition rotateLogs (timestr : string) (r : LogRecorder) : option LogRecorder :=
  filename ← getNewFilename (lr_filebasename r) (lr_filebasename r) timestr;
  Some (open_log_file filename r).

Definition recorded_line (dataProduct : GravityDataProduct) : string :=
  let message : GravityLogMessagePB := (populateMessage dataProduct).1 in
  "[" +:+ getDomain dataProduct +:+ " " +:+ str (lm_level message) +:+ " "
    +:+ gmtime_text (getGravityTimestamp dataProduct / 1000000) +:+ "] "
    +:+ str (lm_message message) +:+ String (Ascii.ascii_of_nat 10) "".

(** The loop returns in its first turn.  [None]: a file that is not open, an overflow. *)
Definition record_logs (timestr : string) (dataProducts : list GravityDataProduct) (r : LogRecorder)
    : option LogRecorder :=
  match dataProducts with
  | [] => Some r
  | dataProduct :: _ =>
      let r := r <| lr_num_logs ::= λ k, k + 1 |> in
      if decide (lr_num_logs r < 2147483648) then
        log_file ← lr_log_file r;
        let r := r <| lr_files ::= λ files,
          <[log_file := default "" (files !! log_file) +:+ recorded_line dataProduct]> files |> in
        if decide (NUM_LOGS_BEFORE_ROTATE <= lr_num_logs r) then rotateLogs timestr r else Some r
      else None
  end.

(** Calls with the time at which each is handled. *)
Fixpoint record_all (calls : list (string * list GravityDataProduct)) (r : LogRecorder)
    : option LogRecorder :=
  match calls with
  | [] => Some r
  | (timestr, dataProducts) :: calls => r ← record_logs timestr dataProducts r; record_all calls r
  end.
End recorder.
