(* ===== verification/Relay.v ===== *)
(** * The relay: products published again on another host
    (src/src/components/cpp/Relay/Relay.cpp)

    A node that subscribes to products and publishes them as relayed ones, until a signal
    tells it to quit; the flag for that is shared with the handler of the signal behind a
    semaphore. *)

From S2P Require Import Prelude.
From S2P Require Import Messages.
From S2P Require Import CommUtil.
From S2P Require Import Utility.
From S2P Require Import GravityDataProduct.
From S2P Require Import ReturnCodes.
From S2P Require Import GravityHeartbeat.
From S2P Require Import GravityNode.
From S2P Require Import GravityNodeAPI.
From S2P Require Import FileArchive.
#[local] Open Scope gravity_scope.

Import GravityReturnCodes.
Import GravityTransportTypes.

Section relay.
Context {W : Type} `{NodeEnvironment W}.
Context `{Protobuf GravityDataProductPB, Protobuf GravityConfigParamPB,
  Protobuf ServiceDirectoryRegistrationPB, Protobuf ServiceDirectoryUnregistrationPB,
  Protobuf ServiceDirectoryResponsePB, Protobuf ComponentLookupRequestPB,
  Protobuf ComponentDataLookupResponsePB, Protobuf PublisherInfoPB}.

Fixpoint register_relays (relay : Z) (localOnly : bool) (tokens : list string) : node W unit :=
  match tokens with
  | [] => mret ()
  | token :: tokens =>
      registerRelay token relay localOnly TCP false;;
      register_relays relay localOnly tokens
  end.

(** From the settings to the products that are relayed. *)
Definition relay_start (relay : Z) : node W (list string) :=
  localOnly ← getBoolParam "ProvideLocalOnly" true;
  dpList ← getStringParam "DataProductList" "";
  let dataProducts := split dpList in
  register_relays relay localOnly dataProducts;;
  mret dataProducts.

Fixpoint relay_stop (relay : Z) (dataProducts : list string) : node W unit :=
  match dataProducts with
  | [] => mret ()
  | dataProduct :: dataProducts =>
      unregisterRelay dataProduct relay;;
      relay_stop relay dataProducts
  end.

(** The products as they are left. *)
Fixpoint relay_filled (dataProducts : list GravityDataProduct) : node W (list GravityDataProduct) :=
  match dataProducts with
  | [] => mret []
  | dataProduct :: dataProducts =>
      '(_, dataProduct) ← publish (setIsRelayedDataproduct true dataProduct) "" 0%Z;
      rest ← relay_filled dataProducts;
      mret (dataProduct :: rest)
  end.
End relay.

(** ** Quitting *)

Record RelayLoop := mkRelayLoop {
  rl_quit : bool;
  rl_relayLock : nat;
}.
Definition new_RelayLoop : RelayLoop := mkRelayLoop false 1.

(** The handler of a signal; [None] when it waits for the lock. *)
Definition handler (r : RelayLoop) : option RelayLoop :=
  match rl_relayLock r with
  | O => None
  | S k => Some (mkRelayLoop true (S k))
  end.

(** A turn of the main loop; the flag says that it is left, with the lock. *)
Definition main_turn (r : RelayLoop) : option (bool * RelayLoop) :=
  match rl_relayLock r with
  | O => None
  | S k => Some (if rl_quit r then (true, mkRelayLoop true k) else (false, mkRelayLoop false (S k)))
  end.
