(* ===== verification/LogRecorderProofs.v ===== *)
(** * Properties of published log messages, their recorder and the relay *)

From stdpp Require Import pretty.
From S2P Require Import Prelude.
From S2P Require Import Messages.
From S2P Require Import CommUtil.
From S2P Require Import Utility.
From S2P Require Import GravityDataProduct.
From S2P Require Import MessageCodecs.
From S2P Require Import ReturnCodes.
From S2P Require Import GravityHeartbeat.
From S2P Require Import GravityNode.
From S2P Require Import GravityNodeAPI.
From S2P Require Import GravityNodeProofs.
From S2P Require Import LogRecorder.
From S2P Require Import Relay.
#[local] Open Scope gravity_scope.
#[local] Open Scope Z_scope.

Import GravityReturnCodes.

(** ** The recorder *)

Section recorder.
Variable can_open : string → bool.
Variable gmtime_text : Z → string.
Context `{Protobuf GravityLogMessagePB}.

(** What the recorder writes of a call: the first product of a batch. *)
Definition batch_line (dataProducts : list GravityDataProduct) : string :=
  match dataProducts with
  | [] => ""
  | g :: _ => recorded_line gmtime_text g
  end.
Definition batch_count (dataProducts : list GravityDataProduct) : Z :=
  match dataProducts with [] => 0 | _ => 1 end.

Fixpoint batch_lines (calls : list (string * list GravityDataProduct)) : string :=
  match calls with
  | [] => ""
  | (_, dataProducts) :: calls => batch_line dataProducts +:+ batch_lines calls
  end.
Fixpoint batch_counts (calls : list (string * list GravityDataProduct)) : Z :=
  match calls with
  | [] => 0
  | (_, dataProducts) :: calls => batch_count dataProducts + batch_counts calls
  end.

Lemma batch_counts_nonneg calls : 0 <= batch_counts calls.
Proof. induction calls as [|[t [|g l]] calls IH]; cbn; lia. Qed.

Lemma record_before_rotation timestr l r name :
  lr_log_file r = Some name → lr_num_logs r + batch_count l < NUM_LOGS_BEFORE_ROTATE →
  record_logs can_open gmtime_text timestr l r =
    Some (r <| lr_num_logs ::= λ k, k + batch_count l |>
            <| lr_files ::= λ files, if decide (l = []) then files else
                 <[name := default "" (files !! name) +:+ batch_line l]> files |>).
Proof.
  intros Hname Hn. destruct r as [base k file files]. cbn in *. subst file.
  destruct l as [|g l]; cbn [record_logs batch_count batch_line] in *.
  { unfold update. cbn. by rewrite Z.add_0_r. }
  unfold update. cbn. change NUM_LOGS_BEFORE_ROTATE with 12345 in *. rewrite decide_True by lia.
  cbn. unfold update. cbn. rewrite decide_False by lia. done.
Qed.

(** Until it rotates its file for the first time, a recorder writes one line for every batch
    of products it receives, that of the first product in it, in order. *)
Lemma recorder_before_rotation calls filebasename timestr files :
  can_open timestr = true → batch_counts calls < NUM_LOGS_BEFORE_ROTATE →
  ∃ r, (r ← new_LogRecorder can_open filebasename timestr files;
        record_all can_open gmtime_text calls r) = Some r ∧ lr_log_file r = Some timestr ∧
    lr_files r !! timestr = Some (batch_lines calls) ∧
    ∀ other, other ≠ timestr → lr_files r !! other = files !! other.
Proof.
  intros Hopen Hn. unfold new_LogRecorder, getNewFilename. cbn. rewrite decide_True by (cbn; lia). cbn.
  unfold open_log_file. rewrite str_app_nil, Hopen. cbn. unfold update. cbn.
  assert (Hrun : ∀ k fs text, 0 <= k → k + batch_counts calls < NUM_LOGS_BEFORE_ROTATE →
    fs !! timestr = Some text → ∃ r, record_all can_open gmtime_text calls
      (mkLogRecorder "" k (Some timestr) fs) = Some r ∧ lr_log_file r = Some timestr ∧
    lr_files r !! timestr = Some (text +:+ batch_lines calls) ∧
    ∀ other, other ≠ timestr → lr_files r !! other = fs !! other).
  { clear Hn files. induction calls as [|[t l] calls IH]; intros k fs text Hk Hn Htext.
    { eexists. split; [done|]. split; [done|]. cbn. by rewrite str_app_nil_r. }
    cbn [record_all batch_lines batch_counts] in *. pose proof (batch_counts_nonneg calls).
    rewrite (record_before_rotation t l _ timestr) by (cbn; lia || done).
    unfold update. cbn. case_decide as Hl.
    - subst l. cbn in *. rewrite Z.add_0_r. destruct (IH k fs text) as (r & Hr & Hf & Hin & Hout); [lia..|done|].
      exists r. by rewrite str_app_nil.
    - rewrite Htext. cbn.
      destruct (IH (k + batch_count l) (<[timestr := text +:+ batch_line l]> fs) (text +:+ batch_line l))
        as (r & Hr & Hf & Hin & Hout); [destruct l; cbn in *; lia|lia|by rewrite lookup_insert_eq|].
      exists r. split; [done|]. split; [done|]. split; [by rewrite Hin, str_app_assoc|].
      intros o Ho. by rewrite Hout, lookup_insert_ne. }
  destruct (Hrun 0 (<[timestr := ""]> files) "") as (r & Hr & Hf & Hin & Hout);
    [lia|lia|by rewrite lookup_insert_eq|].
  exists r. split; [done|]. split; [done|]. split; [by rewrite Hin, str_app_nil|].
  intros o Ho. by rewrite Hout, lookup_insert_ne.
Qed.

(** Once a recorder has rotated, it rotates after every product, for its count is never
    reset; and when that happens within the second in which its file was opened, the file is
    opened again under its own name and emptied, with the line just written to it. *)
Theorem rotated_file_erased timestr g l r :
  lr_filebasename r = "" → lr_log_file r = Some timestr → can_open timestr = true →
  NUM_LOGS_BEFORE_ROTATE <= lr_num_logs r + 1 < 2147483648 →
  ∃ r', record_logs can_open gmtime_text timestr (g :: l) r = Some r' ∧
    lr_files r' !! timestr = Some "" ∧ lr_log_file r' = Some timestr ∧
    NUM_LOGS_BEFORE_ROTATE <= lr_num_logs r' + 1.
Proof.
  destruct r as [base k file files]. cbn. intros -> -> Hopen Hk. unfold update. cbn.
  rewrite decide_True by lia. cbn. unfold update. cbn. rewrite decide_True by lia.
  unfold rotateLogs, getNewFilename. cbn. rewrite decide_True by (cbn; lia). cbn.
  unfold open_log_file. rewrite str_app_nil, Hopen. eexists. split; [done|]. unfold update. cbn.
  rewrite lookup_insert_eq. split; [done|]. split; [done|]. lia.
Qed.
End recorder.

(** ** From the sink to the recorder *)

Section publishing.
Context {W : Type} `{NodeEnvironment W}.
Context `{Protobuf GravityDataProductPB, Protobuf GravityConfigParamPB,
  Protobuf ServiceDirectoryRegistrationPB, Protobuf ServiceDirectoryUnregistrationPB,
  Protobuf ServiceDirectoryResponsePB}.
Context `{Protobuf GravityLogMessagePB, !ProtobufLaw GravityLogMessagePB}.

(** What a publication makes of a data product. *)
Lemma publish_result g f t n (w : W) r g' n' w' :
  gn_initialized n = true → publish g f t n w = Some ((r, g'), n', w') →
  r = SUCCESS ∧ ∃ regTime, g' = setRegistrationTime regTime
    (if isRelayedDataproduct g then g
     else setDomain (gn_myDomain n) (setComponentId (gn_componentID n)
       (setTimestamp (if decide (t = 0) then (env_time w).1 else t) g))).
Proof.
  intros Hi E. unfold publish in E. apply bind_inv in E as (b & n1 & w1 & [= <- <- <-] & E).
  rewrite Hi in E. cbn [negb] in E. apply bind_inv in E as (g1 & n1 & w1 & E1 & E).
  apply bind_inv in E as (regTime & n2 & w2 & _ & E).
  apply bind_inv in E as (u & n3 & w3 & _ & E). apply bind_inv in E as (u1 & n4 & w4 & _ & E).
  apply bind_inv in E as (u2 & n5 & w5 & _ & [= <- <- <- <-]). split; [done|]. exists regTime. f_equal.
  destruct (isRelayedDataproduct g); [by injection E1 as <- _ _|].
  apply bind_inv in E1 as (ts & n6 & w6 & E6 & E1).
  assert (Hts : ts = (if decide (t = 0) then (env_time w).1 else t) ∧ n6 = n).
  { revert E6. case_decide; [|by intros [= <- <- <-]]. unfold ask. destruct (env_time w).
    by intros [= <- <- <-]. }
  destruct Hts as [-> ->]. apply bind_inv in E1 as (n7 & n8 & w8 & [= <- <- <-] & [= <- <- <-]). done.
Qed.

Lemma checkInit_quiet init n (w : W) b n' w' :
  checkInit init n w = Some (b, n', w') → init = true → n' = n ∧ b = true ∧ w' = w.
Proof. intros E ->. by injection E as <- <- <-. Qed.

(** A message of the log: its level, its text and the time of the node's clock. *)
Record LogEntry := mkLogEntry { le_level : string; le_text : string; le_time : Z }.

Definition entry_line (gmtime_text : Z → string) (domain : string) (e : LogEntry) : string :=
  "[" +:+ domain +:+ " " +:+ le_level e +:+ " " +:+ gmtime_text (le_time e / 1000000) +:+ "] "
    +:+ le_text e +:+ String (Ascii.ascii_of_nat 10) "".

(** Messages that an application logs, one after the other, and what the sink publishes. *)
Inductive logged : list LogEntry → GravityNode → W → list GravityDataProduct → GravityNode → W → Prop :=
| logged_nil n w : logged [] n w [] n w
| logged_cons level text entries n w dp n1 w1 dps n2 w2 :
    sink_it_ level text true n w = Some ((true, Some dp), n1, w1) →
    logged entries n1 w1 dps n2 w2 →
    logged (mkLogEntry level text (env_time w).1 :: entries) n w (dp :: dps) n2 w2.

(** What a publication of the sink reads like for the recorder. *)
Lemma sink_line gmtime_text level formatted n (w : W) b dp n' w' :
  gn_initialized n = true → sink_it_ level formatted true n w = Some ((b, Some dp), n', w') →
  recorded_line gmtime_text dp = entry_line gmtime_text (gn_myDomain n) (mkLogEntry level formatted (env_time w).1) ∧
  gn_initialized n' = true ∧ gn_myDomain n' = gn_myDomain n.
Proof.
  intros Hi E. unfold sink_it_ in E.
  apply bind_inv in E as (i & n1 & w1 & (-> & -> & ->)%checkInit_quiet & E); [|done].
  apply bind_inv in E as ([r g'] & n2 & w2 & Ep & [= <- <- <- <-]).
  pose proof (quietly_publish _ _ _ _ _ _ _ _ Ep) as Hq.
  apply publish_result in Ep as (_ & regTime & ->); [|done].
  change (isRelayedDataproduct (log_product level formatted)) with false. cbv iota.
  rewrite decide_True by done.
  split; [|by rewrite (quiet_initialized _ _ Hq), (quiet_myDomain _ _ Hq)].
  unfold recorded_line, populateMessage, log_product, setData, setData_bytes, getDomain, getGravityTimestamp.
  cbn. by rewrite parse_serialize.
Qed.

Section recording.
Context `{!ProtobufLaw GravityDataProductPB}.

(** A call of the recorder for a message that arrives, perhaps with others behind it. *)
Definition arrives_first (call : string * list GravityDataProduct) (dp : GravityDataProduct) : Prop :=
  ∃ now rest, call.2 = setReceivedTimestamp now (GravityDataProduct_from_bytes (serializeToArray dp)) :: rest.

Lemma recorded_line_arrived gmtime_text now dp :
  recorded_line gmtime_text (setReceivedTimestamp now (GravityDataProduct_from_bytes (serializeToArray dp))) =
  recorded_line gmtime_text dp.
Proof. unfold GravityDataProduct_from_bytes, serializeToArray. by rewrite parse_serialize. Qed.

Lemma arrived_batches gmtime_text entries n (w : W) dps n' w' calls :
  gn_initialized n = true → logged entries n w dps n' w' → Forall2 arrives_first calls dps →
  batch_lines gmtime_text calls = foldr String.append "" (entry_line gmtime_text (gn_myDomain n) <$> entries) ∧
  batch_counts calls = Z.of_nat (length entries).
Proof.
  intros Hi HL. revert calls Hi. induction HL as [n w|level text entries n w dp n1 w1 dps n2 w2 E HL IH];
    intros calls Hi HF; inversion HF as [|[timestr batch] ? calls' ? (now & rest & Hb) HF']; subst; [done|].
  apply (sink_line gmtime_text) in E as (El & Hi1 & Hd1); [|done].
  destruct (IH calls' Hi1 HF') as [IH1 IH2]. cbn in Hb. subst batch.
  cbn [batch_lines batch_counts batch_line batch_count length fmap list_fmap foldr].
  rewrite recorded_line_arrived, El. split; [by rewrite IH1, Hd1|]. rewrite IH2. lia.
Qed.

(** C39. The log messages of an application end in the recorder's file: one line each, in order,
    with the domain of the node that logged it, its level, its time and its text.  That holds
    up to the 12344th message of a recorder, for its file is rotated with the next one, and
    for messages that arrive each as the first of its batch: the recorder writes no other
    product of a batch. *)
Theorem log_messages_recorded can_open gmtime_text entries n (w : W) dps n' w' calls
    filebasename timestr files :
  gn_initialized n = true → logged entries n w dps n' w' → Forall2 arrives_first calls dps →
  can_open timestr = true → Z.of_nat (length entries) < NUM_LOGS_BEFORE_ROTATE →
  ∃ r, (r ← new_LogRecorder can_open filebasename timestr files;
        record_all can_open gmtime_text calls r) = Some r ∧
    lr_log_file r = Some timestr ∧
    lr_files r !! timestr =
      Some (foldr String.append "" (entry_line gmtime_text (gn_myDomain n) <$> entries)).
Proof.
  intros Hi HL HF Ho Hn. destruct (arrived_batches gmtime_text _ _ _ _ _ _ _ Hi HL HF) as [Hlines Hcount].
  destruct (recorder_before_rotation can_open gmtime_text calls filebasename timestr files)
    as (r & Hr & Hopen & Hfile & _); [done|by rewrite Hcount|].
  exists r. split; [exact Hr|]. split; [exact Hopen|]. by rewrite Hfile, Hlines.
Qed.
End recording.

(** The sink asks to register its product at every message until that succeeds, and then
    never again. *)
Theorem sink_registers_once level formatted init n (w : W) b dp n' w' :
  sink_it_ level formatted init n w = Some ((b, dp), n', w') →
  (b = true ↔ is_Some dp) ∧ (init = true → b = true) ∧
  (init = false → gn_initialized n = false → b = false ∧ n' = n ∧ w' = w).
Proof.
  intros E. unfold sink_it_ in E. apply bind_inv in E as (i & n1 & w1 & E1 & E).
  split; [|split].
  - destruct i; [apply bind_inv in E as ([r g'] & n2 & w2 & _ & [= <- <- <- <-])|injection E as <- <- <- <-].
    + split; [by eexists|done].
    + split; [done|by intros []].
  - intros ->. apply checkInit_quiet in E1 as (-> & -> & ->); [|done].
    by apply bind_inv in E as ([r g'] & n2 & w2 & _ & [= <- <- <- <-]).
  - intros -> Hi. unfold checkInit, registerDataProductInternal, when_initialized in E1.
    apply bind_inv in E1 as (ret & n3 & w3 & E3 & E1).
    apply bind_inv in E3 as (b3 & n4 & w4 & [= <- <- <-] & E3). rewrite Hi in E3. cbn [negb] in E3.
    injection E3 as <- <- <-. injection E1 as <- <- <-. by injection E as <- <- <- <-.
Qed.

(** ** The relay *)

(** A relayed product goes out as it came in but for the flag that says it is relayed and the
    relay's own registration time: its data, domain, component and time stamps are those of
    its origin. *)
Theorem relay_keeps_origin gs n (w : W) gs' n' w' :
  gn_initialized n = true → relay_filled gs n w = Some (gs', n', w') →
  Forall2 (λ g g', ∃ regTime, g' = setRegistrationTime regTime (setIsRelayedDataproduct true g)) gs gs'.
Proof.
  revert n w gs' n' w'. induction gs as [|g gs IH]; intros n w gs' n' w' Hi E.
  { by injection E as <- <- <-. }
  cbn [relay_filled] in E. apply bind_inv in E as ([r g'] & n1 & w1 & Ep & E).
  apply bind_inv in E as (rest & n2 & w2 & Er & [= <- <- <-]).
  pose proof (quietly_publish _ _ _ _ _ _ _ _ Ep) as Hq.
  apply publish_result in Ep as (_ & regTime & ->); [|done]. constructor.
  - exists regTime. done.
  - apply IH in Er; [done|]. by rewrite (quiet_initialized _ _ Hq).
Qed.
End publishing.

(** The main loop of the relay leaves with the lock: a second signal while it cleans up, as
    one that arrives between its [Lock] and [Unlock], waits for ever in the handler. *)
Lemma second_signal_blocks r r1 r2 :
  rl_relayLock r = 1%nat → handler r = Some r1 → main_turn r1 = Some (true, r2) → handler r2 = None.
Proof.
  intros Hl. unfold handler, main_turn. rewrite Hl. intros [= <-]. cbn. by intros [= <-].
Qed.
Lemma second_signal_blocks_witness : handler (mkRelayLoop true 0) = None.
Proof. by apply (second_signal_blocks new_RelayLoop (mkRelayLoop true 1)). Defined.

(** ** Runs *)

Section witnesses.

#[local] Instance recorder_environment : NodeEnvironment unit := demo_environment "tcp://h:1".
#[local] Existing Instances demo_node_config demo_node_registration
  demo_node_unregistration demo_node_response.
#[local] Instance recorder_gdp : Protobuf GravityDataProductPB :=
  quoted_protobuf empty_GravityDataProductPB gdp_to gdp_of "GravityDataProductPB".
#[local] Instance recorder_gdp_law : ProtobufLaw GravityDataProductPB := quoted_protobuf_law _ _ _ gdp_of_to _.

#[local] Instance GravityLogMessagePB_eq_dec : EqDecision GravityLogMessagePB.
Proof. solve_decision. Defined.
#[local] Program Instance GravityLogMessagePB_countable : Countable GravityLogMessagePB :=
  inj_countable' (λ m, (lm_level m, lm_message m)) (λ '(l, t), mkGravityLogMessagePB l t) _.
Next Obligation. by intros []. Qed.
#[local] Instance demo_log_codec : Protobuf GravityLogMessagePB :=
  countable_protobuf (mkGravityLogMessagePB None None) "GravityLogMessagePB".
#[local] Instance demo_log_law : ProtobufLaw GravityLogMessagePB := countable_protobuf_law _ _.

Definition demo_sink : bool * option GravityDataProduct * GravityNode :=
  match sink_it_ "warning" "late" true demo_node () with
  | Some (x, n, _) => (x, n) | None => (false, None, demo_node) end.
Definition demo_logged : GravityDataProduct := default (new_GravityDataProduct "") demo_sink.1.2.

Lemma demo_sink_run :
  sink_it_ "warning" "late" true demo_node () = Some ((true, Some demo_logged), demo_sink.2, ()).
Proof. reflexivity. Qed.

Lemma log_messages_recorded_witness :
  ∃ r, (r ← new_LogRecorder (λ _, true) "MyBase" "now" ∅;
        record_all (λ _, true) (λ _, "noon") [("later", [setReceivedTimestamp 9 demo_logged; demo_logged])] r) = Some r ∧
    lr_files r !! "now" = Some ("[D warning noon] late" +:+ String (Ascii.ascii_of_nat 10) "").
Proof.
  destruct (log_messages_recorded (λ _, true) (λ _, "noon") [mkLogEntry "warning" "late" 5000000] demo_node ()
    [demo_logged] demo_sink.2 () [("later", [setReceivedTimestamp 9 demo_logged; demo_logged])]
    "MyBase" "now" ∅) as (r & Hr & _ & Hf).
  - reflexivity.
  - exact (logged_cons "warning" "late" [] demo_node () demo_logged demo_sink.2 () [] demo_sink.2 ()
      demo_sink_run (logged_nil _ _)).
  - constructor; [|constructor]. exists 9, [demo_logged]. unfold GravityDataProduct_from_bytes, serializeToArray.
    cbn [snd]. by rewrite parse_serialize.
  - reflexivity.
  - by vm_compute.
  - exists r. split; [exact Hr|]. rewrite Hf. reflexivity.
Defined.

Lemma sink_registers_once_witness : true = true ↔ is_Some (Some demo_logged).
Proof.
  apply (sink_registers_once "warning" "late" true demo_node () true (Some demo_logged) demo_sink.2 ()
    demo_sink_run).
Defined.

Lemma rotated_file_erased_witness :
  ∃ r', record_logs (λ _, true) (λ _, "noon") "now" [demo_logged]
      (mkLogRecorder "" 12344 (Some "now") {["now" := "kept"]}) = Some r' ∧
    lr_files r' !! "now" = Some "" ∧ lr_log_file r' = Some "now" ∧
    NUM_LOGS_BEFORE_ROTATE <= lr_num_logs r' + 1.
Proof. by apply rotated_file_erased. Defined.

Definition demo_relayed : list GravityDataProduct * GravityNode :=
  match relay_filled [new_GravityDataProduct "A"] demo_node () with
  | Some (gs, n, _) => (gs, n) | None => ([], demo_node) end.
Lemma relay_keeps_origin_witness :
  Forall2 (λ g g', ∃ regTime, g' = setRegistrationTime regTime (setIsRelayedDataproduct true g))
    [new_GravityDataProduct "A"] demo_relayed.1.
Proof.
  apply (relay_keeps_origin [new_GravityDataProduct "A"] demo_node () demo_relayed.1 demo_relayed.2 ());
    [reflexivity|vm_compute; reflexivity].
Defined.
End witnesses.
