(* ===== verification/ServiceDirectoryStart.v ===== *)
(** * The service directory: starting up
    (src/src/components/cpp/ServiceDirectory/ServiceDirectory.cpp, [start] before its loop)

    The directory is a node too.  From the settings of that node come its url, which it binds,
    and what the broadcaster, the receiver and the synchronizer are started with; a thread
    then registers the directory's own products with itself. *)

From S2P Require Import Prelude.
From S2P Require Import Messages.
From S2P Require Import CommUtil.
From S2P Require Import Utility.
From S2P Require Import GravityDataProduct.
From S2P Require Import Config.
From S2P Require Import ServiceDirectory.
From S2P Require Import ReturnCodes.
From S2P Require Import GravityHeartbeat.
From S2P Require Import GravityNode.
From S2P Require Import GravityNodeAPI.
From S2P Require Import GravityNodeInit.
#[local] Open Scope gravity_scope.
#[local] Open Scope Z_scope.

Import GravityReturnCodes.
Import GravityTransportTypes.

Definition DEFAULT_BROADCAST_RATE_SEC : Z := 10.

(** What the directory runs with: the url it is bound to; the message to the broadcaster, if
    it is started; the message to the receiver and the url for the synchronizer, if there are
    domains to follow. *)
Record DirectoryThreads := mkDirectoryThreads {
  dt_sdURL : string;
  dt_domain : string;
  dt_broadcaster : option (list frame);
  dt_receiver : option (list frame * string);
}.

(** [zmq_bind] on the socket for requests *)
Section start.
Variable zmq_bind : string → bool.

(** Another url to try when the first one cannot be bound. *)
Definition fallback_url (sdURL : string) : option string :=
  if String.prefix "tcp://" sdURL then
    Some ("tcp://*:" +:+ str_drop (match rfind ":" sdURL with Some pos => S pos | None => 0 end) sdURL)
  else None.

Definition bind_directory (sdURL : string) : option string :=
  if zmq_bind sdURL then Some sdURL
  else newURL ← fallback_url sdURL; if zmq_bind newURL then Some newURL else None.

Context {W : Type} `{NodeEnvironment W, InitEnvironment W}.
Context `{Protobuf GravityDataProductPB, Protobuf GravityConfigParamPB,
  Protobuf ServiceDirectoryRegistrationPB, Protobuf ServiceDirectoryUnregistrationPB,
  Protobuf ServiceDirectoryResponsePB, Protobuf ComponentLookupRequestPB,
  Protobuf ComponentDataLookupResponsePB, Protobuf ComponentServiceLookupResponsePB,
  Protobuf PublisherInfoPB, Protobuf ConfigRequestPB, Protobuf ConfigeResponsePB}.

(** The url of the settings; the replacement of "localhost" ends, for what replaces it does
    not contain it. *)
Definition directory_url : node W string :=
  sdURL ← getStringParam "ServiceDirectoryUrl" "tcp://*:5555";
  mret (default sdURL (replaceAll "localhost" "127.0.0.1" (String.length sdURL) sdURL)).

Definition read_configuration : node W (SDConfig * Z) :=
  domain ← getStringParam "Domain" "";
  broadcastEnabled ← getBoolParam "BroadcastEnabled" (bool_decide (domain ≠ ""));
  broadcastPort ← getIntParam "ServiceDirectoryBroadcastPort" DEFAULT_BROADCAST_PORT;
  knownDomainCSV ← getStringParam "DomainSyncList" "";
  mret (sd_configure domain (Some broadcastEnabled) knownDomainCSV, u32 broadcastPort).

(** [None] is the exit of the process without a url to bind. *)
Definition start_threads : node W (option DirectoryThreads) :=
  originalSDURL ← directory_url;
  '(config, broadcastPort) ← read_configuration;
  match bind_directory originalSDURL with
  | None => mret None
  | Some sdURL =>
      broadcaster ←
        (if cfg_broadcastEnabled config then
           broadcastIP ← getStringParam "ServiceDirectoryBroadcastIP" "";
           broadcastRate ← getIntParam "ServiceDirectoryBroadcastRate" DEFAULT_BROADCAST_RATE_SEC;
           mret (Some (sendBroadcasterParameters (cfg_domain config) originalSDURL broadcastIP
             broadcastPort (u32 broadcastRate)))
         else mret None);
      mret (Some (mkDirectoryThreads sdURL (cfg_domain config) broadcaster
        (if decide (0 < cfg_numDomains config) then
           Some (sendReceiverParameters (cfg_domain config) sdURL broadcastPort
             (cfg_numDomains config) (cfg_knownDomainCSV config), sdURL)
         else None)))
  end.

Definition start_directory : node W (option DirectoryThreads) :=
  init "ServiceDirectory";;
  start_threads.

(** The thread that registers the directory's products, while the directory serves. *)
Definition registration (provider : Z) : node W unit :=
  registerDataProduct REGISTERED_PUBLISHERS_DPID TCP (Some true);;
  registerDataProduct DOMAIN_DETAILS_DPID TCP None;;
  registerService DIRECTORY_SERVICE_DPID TCP provider;;
  registerDataProduct DOMAIN_UPDATE_DPID TCP None;;
  mret ().
End start.
