(* ===== verification/ServiceDirectoryStartProofs.v ===== *)
(** * Properties of the directory's start *)

From Stdlib Require Import Ascii.
From S2P Require Import Prelude.
From S2P Require Import Messages.
From S2P Require Import CommUtil.
From S2P Require Import Utility.
From S2P Require Import GravityDataProduct.
From S2P Require Import ServiceDirectory.
From S2P Require Import ServiceDirectoryUDP.
From S2P Require Import ReturnCodes.
From S2P Require Import GravityHeartbeat.
From S2P Require Import GravityNode.
From S2P Require Import GravityNodeAPI.
From S2P Require Import GravityNodeProofs.
From S2P Require Import GravityNodeInit.
From S2P Require Import GravityNodeInitSettings.
From S2P Require Import ServiceDirectoryStart.
#[local] Open Scope gravity_scope.
#[local] Open Scope Z_scope.

Import GravityReturnCodes.
Import GravityTransportTypes.

Section start.
Variable zmq_bind : string → bool.
Context {W : Type} `{NodeEnvironment W, InitEnvironment W}.
Context `{Protobuf GravityDataProductPB, Protobuf GravityConfigParamPB,
  Protobuf ServiceDirectoryRegistrationPB, Protobuf ServiceDirectoryResponsePB}.

(** The directory is bound to the first of two urls that can be: the url of its settings, or
    all interfaces with the same port. *)
Lemma bind_directory_spec sdURL bound :
  bind_directory zmq_bind sdURL = Some bound →
  zmq_bind bound = true ∧ (bound = sdURL ∨ zmq_bind sdURL = false ∧ fallback_url sdURL = Some bound).
Proof.
  unfold bind_directory. destruct (zmq_bind sdURL) eqn:Hb; [intros [= <-]; auto|].
  destruct (fallback_url sdURL) as [u|]; [|done]. cbn. destruct (zmq_bind u) eqn:Hu; [|done].
  intros [= <-]. auto.
Qed.

Lemma directory_url_spec n (w : W) sdURL n' w' :
  directory_url n w = Some (sdURL, n', w') → String.index 0 "localhost" sdURL = None.
Proof.
  unfold directory_url. intros (url & n1 & w1 & _ & [= <- _ _])%bind_inv.
  destruct (replaceAll_terminates "localhost" "127.0.0.1" "l"%char url (String.length url)) as (t & -> & Ht);
    [vm_compute; lia| |done].
  clear. induction url as [|c url IH]; cbn; [lia|]. repeat case_match; lia.
Qed.

Lemma broadcaster_parameters b domain url ip port rate :
  is_u32 port → is_u32 rate →
  receiveBroadcastParameters b (tail (sendBroadcasterParameters domain url ip port rate)) =
    Some (b <| ub_domainName := domain |> <| ub_url := url |> <| ub_broadcastIP := ip |>
            <| ub_port := port |> <| ub_broadcastRate := rate |>, []).
Proof.
  intros Hp Hr. unfold receiveBroadcastParameters, sendBroadcasterParameters, read_bind. cbn [tail].
  cbn [readStringMessage]. rewrite !read_uint32_sent. unfold u32, is_u32 in *. by rewrite !Z.mod_small.
Qed.

(** A directory that starts is bound to a url that can be bound; the broadcaster, if there is
    one, announces the url of the settings, and the receiver and the synchronizer, if there
    are any, have the url it is bound to.  An invalid domain counts as none and is not
    broadcast. *)
Theorem directory_started n (w : W) t n' w' :
  start_threads zmq_bind n w = Some (Some t, n', w') →
  ∃ originalSDURL, bind_directory zmq_bind originalSDURL = Some (dt_sdURL t) ∧
    zmq_bind (dt_sdURL t) = true ∧ String.index 0 "localhost" originalSDURL = None ∧
    validateDomainName (dt_domain t) = true ∧
    (∀ frames b, dt_broadcaster t = Some frames → ∃ b',
      receiveBroadcastParameters b (tail frames) = Some (b', []) ∧
      ub_url b' = originalSDURL ∧ ub_domainName b' = dt_domain t) ∧
    (∀ frames url, dt_receiver t = Some (frames, url) → url = dt_sdURL t).
Proof.
  unfold start_threads. intros (originalSDURL & n1 & w1 & Hurl%directory_url_spec & E)%bind_inv.
  apply bind_inv in E as ([config port] & n2 & w2 & Ec & E).
  destruct (bind_directory zmq_bind originalSDURL) as [sdURL|] eqn:Hb; [|done].
  apply bind_inv in E as (broadcaster & n3 & w3 & Eb & [= <- <- <-]). cbn.
  exists originalSDURL. split; [done|]. destruct (bind_directory_spec _ _ Hb) as [Hbound _].
  split; [done|]. split; [done|].
  unfold read_configuration in Ec. apply bind_inv in Ec as (domain & n4 & w4 & _ & Ec).
  apply bind_inv in Ec as (enabled & n5 & w5 & _ & Ec). apply bind_inv in Ec as (p & n6 & w6 & _ & Ec).
  apply bind_inv in Ec as (csv & n7 & w7 & _ & [= <- <- <- <-]). split; [|split].
  - unfold sd_configure. destruct (validateDomainName domain) eqn:Hv; cbn; by destruct (_ <? 0)%Z.
  - intros frames b ->. destruct (cfg_broadcastEnabled _); [|done].
    apply bind_inv in Eb as (ip & n8 & w8 & _ & Eb). apply bind_inv in Eb as (rate & n9 & w9 & _ & [= <- _ _]).
    rewrite broadcaster_parameters by (unfold u32, is_u32, u32_max; apply Z.mod_pos_bound; lia).
    eexists. split; [done|]. done.
  - intros frames url. case_decide; [|done]. by intros [= _ <-].
Qed.

(** Only the directory may register the data products of the directory: any other initialized
    node is refused, without a message to anyone, whatever the transport. *)
Theorem reserved_ids_refused i t c n (w : W) :
  gn_initialized n = true → gn_componentID n ≠ "ServiceDirectory" →
  i ∈ serviceDirectory_ReservedDataProductIDs n →
  registerDataProduct i t c n w = Some (RESERVED_DATA_PRODUCT_ID, n, w).
Proof.
  intros Hi Hc Hr. unfold registerDataProduct, registerDataProductInternal, when_initialized.
  unfold mbind, node_bind, gets, id, mret, node_ret. rewrite Hi. cbn [negb].
  rewrite decide_True by (by left). done.
Qed.
End start.

(** ** Runs *)

Section witnesses.
#[local] Existing Instances init_node_environment init_environment.
#[local] Existing Instances demo_node_gdp demo_node_config demo_node_registration demo_node_response.

(** The url of the settings cannot be bound, its port on all interfaces can. *)
Definition demo_bind (url : string) : bool := bool_decide (url = "tcp://*:5555").
Definition demo_directory : GravityNode := new_GravityNode <| gn_initialized := true |>
  <| gn_componentID := "C" |>
  <| gn_parser := Some {[ "servicedirectoryurl" := "tcp://localhost:5555"; "domain" := "D";
                          "domainsynclist" := "E,F" ]} |>.
Definition demo_threads : DirectoryThreads :=
  match start_threads demo_bind demo_directory init_world with
  | Some (Some t, _, _) => t
  | _ => mkDirectoryThreads "" "" None None
  end.

Lemma directory_starts :
  match start_threads demo_bind demo_directory init_world with
  | Some (Some t, n, w) => (dt_sdURL t, n, w) = ("tcp://*:5555", demo_directory, init_world)
  | _ => False
  end.
Proof. vm_compute. reflexivity. Qed.

Lemma directory_started_witness :
  match start_threads demo_bind demo_directory init_world with
  | Some (Some t, n, w) => demo_bind (dt_sdURL t) = true ∧ validateDomainName (dt_domain t) = true
  | _ => False
  end.
Proof.
  pose proof directory_starts as D.
  destruct (start_threads demo_bind demo_directory init_world) as [[[[t|] n] w]|] eqn:E; [|exact D|exact D].
  destruct (directory_started demo_bind demo_directory init_world t n w E)
    as (u & _ & Hb & _ & Hd & _). split; assumption.
Defined.

Lemma reserved_ids_refused_witness :
  registerDataProduct REGISTERED_PUBLISHERS_DPID TCP None demo_directory init_world =
    Some (RESERVED_DATA_PRODUCT_ID, demo_directory, init_world).
Proof. apply reserved_ids_refused; [reflexivity|discriminate|cbn; set_solver]. Defined.
End witnesses.
