(* ===== verification/ServiceDirectoryRetries.v ===== *)
(** * The registry of the Service Directory under repeated requests

    A client that gets no answer sends its request again, so that the directory may serve the
    same registration several times.  [recorded] and [unrecorded] say what a request has done
    to the registry whether it was served once or more often. *)

From S2P Require Import Prelude.
From S2P Require Import Messages.
From S2P Require Import CommUtil.
From S2P Require Import GravityDataProduct.
From S2P Require Import ServiceDirectory.
From S2P Require Import ServiceDirectoryRegistry.
From S2P Require Import ServiceDirectoryProofs.
From S2P Require Import ServiceDirectoryRequests.
#[local] Open Scope gravity_scope.
#[local] Open Scope Z_scope.

Implicit Types st : ServiceDirectory.

(** ** Lists of publishers *)

(** One publisher of the product is listed at the url, with that registration time. *)
Definition listed st (dom id url : string) (secs : Z) : Prop :=
  ∃ info, base.filter (has_url url) (publishers_of st dom id) = [info] ∧
    num (pi_registration_time info) = secs.

Lemma other_urls_drop url l : other_urls url (drop_url url l) = other_urls url l.
Proof.
  unfold drop_url. destruct (list_find (has_url url) l) as [[i p]|] eqn:Hf; [|done].
  apply list_find_Some in Hf as (Hi & Hu & _).
  apply list_elem_of_split_length in Hi as (l1 & l2 & -> & ->). rewrite delete_middle. unfold other_urls.
  rewrite !filter_app, filter_cons. by rewrite (decide_False (P := ¬ has_url url p)) by tauto.
Qed.

Lemma filter_other u url l : u ≠ url → base.filter (has_url u) (other_urls url l) = base.filter (has_url u) l.
Proof.
  intros Hne. unfold other_urls. rewrite list_filter_filter. apply list_filter_iff. intros p.
  unfold has_url. naive_solver.
Qed.

Lemma listed_others st st' dom id u url secs :
  u ≠ url → other_urls url (publishers_of st' dom id) = other_urls url (publishers_of st dom id) →
  listed st dom id u secs → listed st' dom id u secs.
Proof.
  intros Hne Ho (info & Hf & Ht). exists info. split; [|done].
  by rewrite <- (filter_other u url), Ho, filter_other.
Qed.

(** ** Time stamps *)

Lemma purge_instances id url st u :
  instance_of (purgeObsoletePublishers id url st) u = instance_of st u ∨
  u = url ∧ instance_of (purgeObsoletePublishers id url st) u = 0.
Proof.
  unfold purgeObsoletePublishers. cbn zeta. set (st0 := st <| sd_dataProductMap ::= _ |>).
  change (instance_of st u) with (instance_of st0 u). clearbody st0.
  generalize (kv_items (dpMap_of st0 (sd_domain st))).*1. intros keys.
  revert st0. induction keys as [|key keys IH]; intros s; cbn; [by left|].
  destruct (purge_step_services id url key s) as (_ & _ & Hi & Hu).
  destruct (IH (purge_step id url key s)) as [E|[-> E]]; [|by right].
  destruct (decide (u = url)) as [->|Hne]; [|left; by rewrite E, Hi].
  rewrite E, Hu. case_decide; auto.
Qed.

Section registration.
Variables (dom : string) (registration : ServiceDirectoryRegistrationPB).
Let id := str (rg_id registration).
Let url := str (rg_url registration).
Let timestamp := num (rg_timestamp registration).

Lemma register_data_instances st :
  let st' := (register_data dom registration st).1 in
  (∀ d, sMap_of st' d = sMap_of st d) ∧
  (∀ u, u ≠ url → instance_of st' u = instance_of st u) ∧
  (instance_of st' url = timestamp ∨ instance_of st' url = 0).
Proof.
  unfold register_data. fold id url timestamp.
  set (st0 := if decide (id = REGISTERED_PUBLISHERS_DPID) then _ else st).
  set (st1 := (set_dpMap dom _ st0) <| sd_registrationInstanceMap ::= _ |>).
  assert (H1 : (∀ d, sMap_of st1 d = sMap_of st d) ∧
    (∀ u, u ≠ url → instance_of st1 u = instance_of st u) ∧ instance_of st1 url = timestamp).
  { unfold st1, instance_of. split_and!.
    - intros d. unfold st0. by case_decide.
    - intros u Hu. cbn. rewrite idx_insert, decide_False by done. unfold st0. by case_decide.
    - cbn. by rewrite idx_insert, decide_True. }
  clearbody st1. destruct H1 as (S1 & I1 & U1). cbn zeta. generalize (publishers_of st0 dom id).
  clear st0. intros urls.
  assert (Hend : ∀ s s', services_kept s s' →
    (∀ d, sMap_of s d = sMap_of st d) ∧ (∀ u, u ≠ url → instance_of s u = instance_of st u) ∧
    (instance_of s url = timestamp ∨ instance_of s url = 0) →
    (∀ d, sMap_of s' d = sMap_of st d) ∧ (∀ u, u ≠ url → instance_of s' u = instance_of st u) ∧
    (instance_of s' url = timestamp ∨ instance_of s' url = 0)).
  { intros s s' [_ Hs Hi _] (A & B & C). split_and!; intros; rewrite ?Hs, ?Hi; auto. }
  assert (Hchanged : ∀ st2, services_kept st1 st2 →
    let st3 := purgeObsoletePublishers id url (publishers_changed id dom st2) in
    let st4 := if decide (dom = sd_domain st3 ∧ id ≠ REGISTERED_PUBLISHERS_DPID)
      then updateProductLocations id url timestamp ADD DATA st3 else st3 in
    (∀ d, sMap_of st4 d = sMap_of st d) ∧ (∀ u, u ≠ url → instance_of st4 u = instance_of st u) ∧
    (instance_of st4 url = timestamp ∨ instance_of st4 url = 0)).
  { intros st2 K2 st3 st4. apply (Hend st3).
    { unfold st4. goal_decide; [apply services_kept_updateProductLocations|done]. }
    destruct (transitivity K2 (services_kept_publishers_changed id dom st2)) as [_ Hs Hi _].
    destruct (purge_services id url (publishers_changed id dom st2)) as (_ & Ps & Pi & _).
    split_and!.
    - intros d. unfold st3. by rewrite Ps, Hs.
    - intros u Hu. unfold st3. by rewrite Pi, Hi, I1.
    - destruct (purge_instances id url (publishers_changed id dom st2) url) as [E|[_ E]]; fold st3 in E;
        [left; by rewrite E, Hi|by right]. }
  destruct (list_find (has_url url) urls) as [[i info]|].
  - destruct (decide _); cbn [fst].
    + apply (Hend st1); [|by auto]. goal_decide; [apply services_kept_updateProductLocations|done].
    + apply Hchanged. by split.
  - apply Hchanged. by split.
Qed.
Lemma register_service_instances st :
  let st' := register_service dom registration st in
  sMap_of st' dom = <[id := url]> (sMap_of st dom) ∧
  (∀ u, u ≠ url → instance_of st' u = instance_of st u) ∧ instance_of st' url = timestamp.
Proof.
  unfold register_service. fold id url timestamp. cbn zeta.
  match goal with |- context [purgeObsoletePublishers id url ?s] => set (st0 := s) end.
  destruct (purge_services id url st0) as (_ & Hs1 & Hi1 & _).
  set (st1 := purgeObsoletePublishers id url st0) in *.
  set (st2 := st1 <| sd_registrationInstanceMap ::= insert url timestamp |>).
  set (st3 := if decide (dom = sd_domain st2) then _ else st2).
  assert (Hk : services_kept st2 st3).
  { subst st3. goal_decide; [apply services_kept_updateProductLocations|done]. }
  destruct Hk as [_ Hs Hi _]. rewrite Hs. change (sMap_of st2 dom) with (sMap_of st1 dom).
  rewrite Hs1. unfold sMap_of at 1, st0. cbn. rewrite idx_insert, decide_True by done.
  split_and!; [done| |].
  - intros u Hu. rewrite Hi. unfold instance_of, st2. cbn. rewrite idx_insert, decide_False by done.
    by apply Hi1.
  - rewrite Hi. unfold instance_of, st2. cbn. by rewrite idx_insert, decide_True.
Qed.
End registration.

(** Looking after the pending updates changes no registration. *)
Lemma process_pending_same st :
  let st' := process_pending st in
  sd_domain st' = sd_domain st ∧ (∀ d k, publishers_of st' d k = publishers_of st d k) ∧
  (∀ d, sMap_of st' d = sMap_of st d) ∧ (∀ u, instance_of st' u = instance_of st u).
Proof.
  unfold process_pending. destruct (_ && _); [|done]. generalize (set_items (sd_registerUpdatesToSend st)).
  intros ids. destruct (publish_pending_spec st ids) as (Hd & _ & Hp & _). split_and!; [done|done|..].
  - intros d. change (sMap_of (publish_pending st ids) d = sMap_of st d). clear. unfold publish_pending.
    revert st. induction ids as [|i ids IH]; intros st; cbn; [done|]. by rewrite IH.
  - intros u. change (instance_of (publish_pending st ids) u = instance_of st u). clear.
    unfold publish_pending. revert st. induction ids as [|i ids IH]; intros st; cbn; [done|]. by rewrite IH.
Qed.

(** ** A registration, served once or more often *)

Section recorded.
Variables (domain : string) (registration : ServiceDirectoryRegistrationPB).
Let id := str (rg_id registration).
Let url := str (rg_url registration).
Let timestamp := num (rg_timestamp registration).
Let type := default DATA (rg_type registration).

Record recorded st st' : Prop := {
  rc_reachable : sd_reachable domain st';
  rc_others d k : other_urls url (publishers_of st' d k) = other_urls url (publishers_of st d k);
  rc_instances u : u ≠ url → instance_of st' u = instance_of st u;
  rc_time : instance_of st' url <= timestamp;
  rc_services k : sMap_of st' domain !! k =
    if decide (type = SERVICE ∧ k = id) then Some url else sMap_of st domain !! k;
  rc_entry : match type with
    | DATA => listed st' domain id url (regTimeSecs timestamp)
    | SERVICE => instance_of st' url = timestamp
    end;
}.

Lemma recorded_again st st1 st2 : recorded st st1 → recorded st1 st2 → recorded st st2.
Proof.
  intros [] []. split; [done| | |done| |done].
  - intros d k. congruence.
  - intros u Hu. by rewrite rc_instances1, rc_instances0.
  - intros k. rewrite rc_services1, rc_services0. by destruct (decide _).
Qed.

Lemma registered_others st d k :
  other_urls url (registered_publishers domain registration st d k) = other_urls url (publishers_of st d k) ∨
  (d = domain ∧ k = id).
Proof.
  unfold registered_publishers. destruct (upsert _ _); [|by left].
  case_decide; [by right|left]. case_decide; [apply other_urls_drop|done].
Qed.

Lemma accepted_time st :
  is_Some (rg_timestamp registration) → instance_of st url <= timestamp →
  registration_accepted registration st = true.
Proof.
  intros [t Ht] Hi. unfold registration_accepted. fold url. unfold timestamp in Hi.
  rewrite Ht in Hi |- *. unfold instance_of, idx in Hi.
  destruct (sd_registrationInstanceMap st !! url); [|done]. cbn in Hi.
  apply negb_true_iff, Z.ltb_ge. lia.
Qed.

Lemma sd_reachable_domain st : sd_reachable domain st → sd_domain st = domain.
Proof.
  induction 1 as [|e st Hr IH]; [done|]. rewrite <- IH. destruct e; cbn [sd_step].
  - destruct (process_pending_same (handleLookup lookupRequest st).2) as (-> & _). apply quiet_lookup.
  - destruct (process_pending_same (handleRegister registration0 st).2) as (-> & _).
    unfold handleRegister. destruct (registration_accepted _ _); [|done].
    destruct (default DATA (rg_type registration0)); [|apply register_service_spec].
    pose proof (register_data_spec (request_domain (rg_domain registration0) st) registration0 st) as Hs.
    destruct (register_data _ _ st) as [s []]; apply Hs.
  - destruct (process_pending_same (handleUnregister unregistration st).2) as (-> & _).
    unfold handleUnregister. destruct (default DATA (ur_type unregistration)).
    + pose proof (unregister_data_spec (request_domain (ur_domain unregistration) st) unregistration st) as Hs.
      destruct (unregister_data _ _ st) as [s b]. apply Hs.
    + pose proof (unregister_service_quiet (request_domain (ur_domain unregistration) st) unregistration st) as Hq.
      destruct (unregister_service _ _ st) as [s b]. apply Hq.
  - apply process_pending_same.
  - apply quiet_getProviders.
  - destruct (process_domain_command frames st) as [[st' rest]|] eqn:Hc; [|done].
    by eapply quiet_domain_command.
Qed.

(** The registration is of the directory's own domain, is not older than what the directory
    knows of the url, and has a time stamp that the clock can have. *)
Hypothesis own_domain : rg_domain registration = None.
Hypothesis stamped : is_Some (rg_timestamp registration).
Hypothesis after_epoch : 0 <= timestamp.

Lemma register_recorded st :
  sd_reachable domain st → instance_of st url <= timestamp →
  recorded st (sd_step (Register registration) st).
Proof.
  intros Hr Hi. pose proof (sd_reachable_domain _ Hr) as Hd.
  assert (Hdist : NoDup (urls_of (publishers_of st domain id))) by apply (ok_distinct _ (sd_reachable_ok _ _ Hr)).
  assert (Hr' : sd_reachable domain (sd_step (Register registration) st)) by by constructor.
  cbn [sd_step] in *. unfold handleRegister in *. rewrite accepted_time in * by done.
  rewrite own_domain in *. cbn [request_domain] in *. rewrite Hd in *. fold type in Hr' |- *.
  assert (Hc : type = DATA ∨ type = SERVICE) by (unfold type; destruct (default DATA _); auto).
  destruct Hc as [Ht|Ht]; rewrite Ht in Hr' |- *.
  - pose proof (register_data_spec domain registration st) as Hs.
    destruct (register_data_instances domain registration st) as (S1 & I1 & U1).
    destruct (register_data domain registration st) as [st1 dup]. destruct Hs as (_ & _ & Hp & _).
    cbn [fst] in *. replace ((_, st1).2) with st1 in * by by destruct dup.
    destruct (upsert_spec registration (publishers_of st domain id) Hdist) as [(info & Hf & Htm) Ho].
    assert (He : publishers_of st1 domain id =
      default (publishers_of st domain id) (upsert registration (publishers_of st domain id))).
    { rewrite Hp. apply registered_publishers_same. }
    destruct (process_pending_same st1) as (_ & P2 & S2 & I2).
    split; [done|..].
    + intros d k. rewrite P2. destruct (registered_others st d k) as [E|[-> ->]]; [by rewrite Hp|].
      by rewrite He.
    + intros u Hu. by rewrite I2, I1.
    + rewrite I2. fold url timestamp in U1. lia.
    + intros k. rewrite S2, S1, decide_False; [done|]. rewrite Ht. by intros [? _].
    + rewrite Ht. exists info. rewrite P2, He. done.
  - pose proof (register_service_spec domain registration st) as (_ & _ & Hp & _).
    destruct (register_service_instances domain registration st) as (S1 & I1 & U1).
    cbn [snd] in *. set (st1 := register_service domain registration st) in *.
    destruct (process_pending_same st1) as (_ & P2 & S2 & I2).
    split; [done|..].
    + intros d k. rewrite P2, Hp. case_decide; [apply other_urls_drop|done].
    + intros u Hu. by rewrite I2, I1.
    + rewrite I2. fold url timestamp in U1. lia.
    + intros k. rewrite S2, S1. fold id url. case_decide as Hk.
      * destruct Hk as [_ ->]. apply lookup_insert_eq.
      * apply lookup_insert_ne. intros <-. by apply Hk.
    + rewrite Ht, I2. exact U1.
Qed.
End recorded.

(** ** An unregistration of a data product *)

Section unrecorded.
Variables (domain : string) (unregistration : ServiceDirectoryUnregistrationPB).
Let id := str (ur_id unregistration).
Let registration_of := is_registration (str (ur_url unregistration)) (num (ur_registration_time unregistration)).

Record unrecorded st st' : Prop := {
  ur_reachable : sd_reachable domain st';
  ur_gone : publishers_of st' domain id = base.filter (λ p, ¬ registration_of p) (publishers_of st domain id);
  ur_others d k : (d, k) ≠ (domain, id) → publishers_of st' d k = publishers_of st d k;
}.

Lemma unrecorded_again st st1 st2 : unrecorded st st1 → unrecorded st1 st2 → unrecorded st st2.
Proof.
  intros [_ G1 O1] [R2 G2 O2]. split; [done| |].
  - rewrite G2, G1, list_filter_filter. apply list_filter_iff. tauto.
  - intros d k Hne. by rewrite O2, O1.
Qed.

Hypothesis own_domain : ur_domain unregistration = None.
Hypothesis of_data : default DATA (ur_type unregistration) = DATA.

Lemma unregister_unrecorded st :
  sd_reachable domain st → unrecorded st (sd_step (Unregister unregistration) st).
Proof.
  intros Hr. pose proof (sd_reachable_domain _ _ Hr) as Hd.
  assert (Hr' : sd_reachable domain (sd_step (Unregister unregistration) st)) by by constructor.
  cbn [sd_step] in *. unfold handleUnregister in *. rewrite own_domain, of_data in *. cbn [request_domain] in *.
  rewrite Hd in *. pose proof (unregister_data_spec domain unregistration st) as Hs.
  destruct (unregister_data domain unregistration st) as [st1 found]. destruct Hs as (_ & _ & Hp & _).
  cbn [snd] in *. destruct (process_pending_same st1) as (_ & P2 & _). split; [done|..].
  - rewrite P2, Hp. unfold unregistered_publishers. rewrite decide_True by done.
    apply delete_registration. apply (ok_distinct _ (sd_reachable_ok _ _ Hr)).
  - intros d k Hne. rewrite P2, Hp. unfold unregistered_publishers.
    rewrite decide_False; [done|]. intros [-> ->]. by apply Hne.
Qed.
End unrecorded.

(** Once the one publisher at a url is unregistered, the url is listed no more. *)
Lemma unrecorded_url domain unregistration st st' :
  let id := str (ur_id unregistration) in
  let url := str (ur_url unregistration) in
  listed st domain id url (num (ur_registration_time unregistration)) →
  unrecorded domain unregistration st st' →
  base.filter (has_url url) (publishers_of st' domain id) = [] ∧
  other_urls url (publishers_of st' domain id) = other_urls url (publishers_of st domain id).
Proof.
  intros id url (info & Hf & Ht) [_ Hg _]. fold id in Hg. rewrite Hg. unfold other_urls.
  rewrite !list_filter_filter. split.
  - apply list_filter_none, Forall_forall. intros p Hp [Hu Hn]. apply Hn.
    assert (Hin : p ∈ base.filter (has_url url) (publishers_of st domain id)) by by apply list_elem_of_filter.
    rewrite Hf in Hin. apply list_elem_of_singleton in Hin as ->. by split.
  - apply list_filter_iff. intros p. unfold is_registration, has_url. fold url. tauto.
Qed.
