(* ===== verification/ServiceDirectorySpec.v ===== *)
(** * The Service Directory as a registry

    What the directory promises to its clients, without the maps it keeps, the loops over them,
    the updates that wait until they can be published and the entries that lookups leave
    behind: who publishes a product, at which url a service is, and since when.  Serving the
    bytes of a request is a step of that registry, with its answer. *)

From S2P Require Import Prelude.
From S2P Require Import Messages.
From S2P Require Import CommUtil.
From S2P Require Import GravityDataProduct.
From S2P Require Import MessageCodecs.
From S2P Require Import ServiceDirectory.
From S2P Require Import ServiceDirectoryRegistry.
From S2P Require Import ServiceDirectoryProofs.
From S2P Require Import ServiceDirectoryRequests.
From S2P Require Import ServiceDirectoryRetries.
#[local] Open Scope gravity_scope.
#[local] Open Scope Z_scope.

Implicit Types st : ServiceDirectory.

(** ** The registry *)

(** By domain and name; the time of a url is 0 when none is known. *)
Record Registry := mkRegistry {
  ab_domain : string;
  ab_publishers : string → string → list PublisherInfoPB;
  ab_services : string → string → option string;
  ab_times : string → Z;
}.

Record unchanged (a a' : Registry) : Prop := {
  sa_domain : ab_domain a' = ab_domain a;
  sa_publishers d k : ab_publishers a' d k = ab_publishers a d k;
  sa_services d k : ab_services a' d k = ab_services a d k;
  sa_times u : ab_times a' u = ab_times a u;
}.

Definition empty_registry (domain : string) : Registry :=
  mkRegistry domain (λ _ _, []) (λ _ _, None) (λ _, 0).

(** A registration is heard unless it has no time or the registry knows a later one. *)
Definition heard (r : ServiceDirectoryRegistrationPB) (a : Registry) : Prop :=
  match rg_timestamp r with
  | Some timestamp => ab_times a (str (rg_url r)) <= timestamp
  | None => False
  end.

(** The publishers of a product with one that registers: none twice, one that is there
    already stays at its place with its new time, a new one comes last. *)
Definition registered_list (r : ServiceDirectoryRegistrationPB) (l : list PublisherInfoPB)
    : list PublisherInfoPB :=
  let url := str (rg_url r) in
  let secs := regTimeSecs (num (rg_timestamp r)) in
  if decide (Exists (is_registration url secs) l) then l
  else if decide (Exists (has_url url) l) then
    (λ info, if decide (has_url url info) then refresh_info r secs info else info) <$> l
  else l ++ [new_info r secs].

(** A registration that is heard.  A url is that of one product of the registry's own domain:
    the others lose it, and if there was one, the time of the url is lost with it. *)
Definition registered (r : ServiceDirectoryRegistrationPB) (a a' : Registry) : Prop :=
  let dom := default (ab_domain a) (rg_domain r) in
  let id := str (rg_id r) in
  let url := str (rg_url r) in
  let timestamp := num (rg_timestamp r) in
  let elsewhere := ∃ k, k ≠ id ∧ Exists (has_url url) (ab_publishers a (ab_domain a) k) in
  ab_domain a' = ab_domain a ∧ (∀ u, u ≠ url → ab_times a' u = ab_times a u) ∧
  match default DATA (rg_type r) with
  | DATA =>
      let again := Exists (is_registration url (regTimeSecs timestamp)) (ab_publishers a dom id) in
      (∀ d k, ab_publishers a' d k =
        if decide (d = dom ∧ k = id) then registered_list r (ab_publishers a dom id)
        else if decide (¬ again ∧ d = ab_domain a ∧ k ≠ id)
          then other_urls url (ab_publishers a d k)
        else ab_publishers a d k) ∧
      (∀ d k, ab_services a' d k = ab_services a d k) ∧
      (¬ again ∧ elsewhere → ab_times a' url = 0) ∧
      (again ∨ ¬ elsewhere → ab_times a' url = timestamp)
  | SERVICE =>
      (∀ d k, ab_publishers a' d k =
        if decide (d = ab_domain a ∧ k ≠ id) then other_urls url (ab_publishers a d k)
        else ab_publishers a d k) ∧
      (∀ d k, ab_services a' d k = if decide (d = dom ∧ k = id) then Some url else ab_services a d k) ∧
      ab_times a' url = timestamp
  end.

(** An unregistration names the time of the registration it takes back.  The time 0 may be
    that of a url whose time is not known. *)
Definition unregistered (u : ServiceDirectoryUnregistrationPB) (found : bool) (a a' : Registry) : Prop :=
  let dom := default (ab_domain a) (ur_domain u) in
  let id := str (ur_id u) in
  let url := str (ur_url u) in
  let secs := num (ur_registration_time u) in
  ab_domain a' = ab_domain a ∧
  (∀ v, ab_times a' v = if decide (found = true ∧ v = url) then 0 else ab_times a v) ∧
  match default DATA (ur_type u) with
  | DATA =>
      (found = true ↔ Exists (is_registration url secs) (ab_publishers a dom id)) ∧
      (∀ d k, ab_publishers a' d k =
        if decide (d = dom ∧ k = id)
        then base.filter (λ p, ¬ is_registration url secs p) (ab_publishers a d k)
        else ab_publishers a d k) ∧
      (∀ d k, ab_services a' d k = ab_services a d k)
  | SERVICE =>
      let known := is_Some (ab_services a dom id) ∧ regTimeSecs (ab_times a url) = secs in
      (found = true → known) ∧ (found = false → ¬ known ∨ ab_times a url = 0) ∧
      (∀ d k, ab_publishers a' d k = ab_publishers a d k) ∧
      (∀ d k, ab_services a' d k =
        if decide (found = true ∧ d = dom ∧ k = id) then None else ab_services a d k)
  end.

(** What a lookup is told. *)
Definition looked_up (lookup : ComponentLookupRequestPB) (a : Registry) : LookupResponse :=
  let id := str (lr_lookupID lookup) in
  let dom := if decide (str (lr_domain_id lookup) = "") then ab_domain a
    else str (lr_domain_id lookup) in
  match default DATA (lr_type lookup) with
  | DATA => DataLookup (mkComponentDataLookupResponsePB id (ab_publishers a dom id) dom)
  | SERVICE =>
      ServiceLookup match ab_services a dom id with
        | Some url =>
            mkComponentServiceLookupResponsePB id url dom (Some (regTimeSecs (ab_times a url)))
        | None => mkComponentServiceLookupResponsePB id "" dom None
        end
  end.

Section registry.
Context `{Protobuf ComponentLookupRequestPB, Protobuf ServiceDirectoryRegistrationPB,
  Protobuf ServiceDirectoryUnregistrationPB, Protobuf ServiceDirectoryResponsePB,
  Protobuf ComponentDataLookupResponsePB, Protobuf ComponentServiceLookupResponsePB}.

Definition reply {M} `{Protobuf M} (message : M) : GravityDataProduct :=
  setData message (new_GravityDataProduct "DataProductRegistrationResponse").

(** A request, its answer and what it does. *)
Definition registry_step (req response : GravityDataProduct) (a a' : Registry) : Prop :=
  if decide (getDataProductID req = "ComponentLookupRequest") then
    response = match looked_up (populateMessage req).1 a with
      | DataLookup message => reply message | ServiceLookup message => reply message end ∧
    unchanged a a'
  else if decide (getDataProductID req = "RegistrationRequest") then
    let r : ServiceDirectoryRegistrationPB := (populateMessage req).1 in
    response = reply (mkServiceDirectoryResponsePB (str (rg_id r)) SUCCESS) ∧
    (heard r a → registered r a a') ∧ (¬ heard r a → unchanged a a')
  else if decide (getDataProductID req = "UnregistrationRequest") then
    let u : ServiceDirectoryUnregistrationPB := (populateMessage req).1 in
    ∃ found, response = reply (mkServiceDirectoryResponsePB (str (ur_id u))
        (if (found : bool) then SUCCESS else NOT_REGISTERED)) ∧ unregistered u found a a'
  else
    response = (let g := new_GravityDataProduct "DataProductRegistrationResponse" in
      if decide (getDataProductID req = "GetDomain") then setData_bytes (ab_domain a) g else g) ∧
    unchanged a a'.

Inductive registry_run : list GravityDataProduct → list GravityDataProduct → Registry → Registry → Prop :=
| run_done a : registry_run [] [] a a
| run_step req response reqs responses a a1 a2 :
    registry_step req response a a1 → registry_run reqs responses a1 a2 →
    registry_run (req :: reqs) (response :: responses) a a2.

(** The directory's main loop, on the requests as they come. *)
Fixpoint serve_all (reqs : list GravityDataProduct) st : list GravityDataProduct * ServiceDirectory :=
  match reqs with
  | [] => ([], st)
  | req :: reqs =>
      let '(response, st) := serve req st in
      let '(responses, st) := serve_all reqs st in (response :: responses, st)
  end.

(** The time stamp of a registration is an unsigned number. *)
Definition unsigned_time (req : GravityDataProduct) : Prop :=
  getDataProductID req = "RegistrationRequest" →
  0 <= num (rg_timestamp (populateMessage (M:=ServiceDirectoryRegistrationPB) req).1).
End registry.

(** ** The lists of publishers *)

Lemma drop_url_other url l : NoDup (urls_of l) → drop_url url l = other_urls url l.
Proof.
  intros Hnd. rewrite <- (other_urls_drop url l). symmetry. apply other_urls_id.
  by apply drop_url_gone.
Qed.

Lemma exists_url url l : Exists (has_url url) l ↔ url ∈ urls_of l.
Proof.
  rewrite Exists_exists. unfold urls_of. rewrite list_elem_of_fmap. unfold has_url. split.
  - intros (p & Hp & <-). by exists p.
  - intros (p & -> & Hp). by exists p.
Qed.

Section upserted.
Variables (r : ServiceDirectoryRegistrationPB) (l : list PublisherInfoPB).
Let url := str (rg_url r).
Let secs := regTimeSecs (num (rg_timestamp r)).
Hypothesis distinct : NoDup (urls_of l).

Lemma renew_others l' :
  url ∉ urls_of l' →
  (λ info, if decide (has_url url info) then refresh_info r secs info else info) <$> l' = l'.
Proof.
  intros Hn. etrans; [|apply list_fmap_id]. apply list_fmap_ext. intros i p Hp.
  rewrite decide_False; [done|]. intros Hu. apply Hn. apply exists_url, Exists_exists.
  exists p. split; [by eapply list_elem_of_lookup_2|done].
Qed.

Lemma upsert_registered_list :
  default l (upsert r l) = registered_list r l ∧
  (upsert r l = None ↔ Exists (is_registration url secs) l).
Proof.
  unfold upsert, registered_list. fold url secs.
  destruct (list_find (has_url url) l) as [[i p]|] eqn:Hf.
  - apply list_find_Some in Hf as (Hi & Hu & _).
    destruct (split_at_url url l i p distinct Hi Hu) as (l1 & l2 & -> & -> & H1 & H2).
    assert (He : Exists (is_registration url secs) (l1 ++ p :: l2) ↔ num (pi_registration_time p) = secs).
    { rewrite Exists_app, Exists_cons. split.
      - intros [Hx|[[_ ?]|Hx]]; [|done|]; exfalso; [apply H1|apply H2]; apply exists_url;
          (eapply Exists_impl; [exact Hx|by intros ? []]).
      - intros Ht. right. left. by split. }
    destruct (decide (num (pi_registration_time p) = secs)) as [Ht|Ht].
    + split; [|by rewrite He]. cbn. by rewrite decide_True by by rewrite He.
    + split; [|rewrite He; split; [done|tauto]]. rewrite decide_False by by rewrite He.
      rewrite decide_True by (apply Exists_app; right; by left). cbn.
      rewrite insert_app_r_alt, Nat.sub_diag by done. cbn [insert list_insert].
      rewrite fmap_app, fmap_cons, !renew_others by done. by rewrite decide_True.
  - apply list_find_urls in Hf.
    assert (He : ¬ Exists (is_registration url secs) l).
    { intros Hx. apply Hf, exists_url. eapply Exists_impl; [exact Hx|by intros ? []]. }
    split; [|split; [done|tauto]]. rewrite !decide_False; [done| |done]. by rewrite exists_url.
Qed.
End upserted.

(** ** The time of a url *)

(** A url that no other product lists keeps its time. *)
Lemma purge_unlisted id url st :
  (∀ k, k ≠ id → url ∉ urls_of (publishers_of st (sd_domain st) k)) →
  instance_of (purgeObsoletePublishers id url st) url = instance_of st url.
Proof.
  unfold purgeObsoletePublishers. cbn zeta. set (st0 := st <| sd_dataProductMap ::= _ |>).
  pose proof (quiet_touch_dpMap (sd_domain st) st) as Hq. fold st0 in Hq.
  intros Hn. change (instance_of st url) with (instance_of st0 url).
  assert (Hn0 : ∀ k, k ≠ id → url ∉ urls_of (publishers_of st0 (sd_domain st0) k)).
  { intros k Hk. rewrite (quiet_publishers _ _ Hq). change (sd_domain st0) with (sd_domain st). by apply Hn. }
  generalize (kv_items (dpMap_of st0 (sd_domain st))).*1. clearbody st0. clear Hq Hn.
  intros keys. revert st0 Hn0. induction keys as [|key keys IH]; intros s Hs; cbn [foldl]; [done|].
  destruct (purge_step_services id url key s) as (Hd & _ & _ & Hu).
  destruct (purge_step_spec id url key s) as (_ & _ & Hp & _ & _).
  rewrite IH.
  - rewrite Hu, decide_False; [done|]. intros [Hk Hin]. by apply (Hs key).
  - intros k Hk. rewrite Hd, Hp. goal_decide; [|by apply Hs].
    intros Hin%elem_of_drop_url. by apply (Hs k).
Qed.

(** ** A registration *)

Section registration.
Variables (dom : string) (r : ServiceDirectoryRegistrationPB).
Let id := str (rg_id r).
Let url := str (rg_url r).
Let timestamp := num (rg_timestamp r).
Let secs := regTimeSecs timestamp.

Definition elsewhere st : Prop :=
  ∃ k, k ≠ id ∧ Exists (has_url url) (publishers_of st (sd_domain st) k).

(** The time of the url after the list of its product has changed. *)
Lemma changed_time l st st1 :
  sd_domain st1 = sd_domain st → (∀ d k, publishers_of st1 d k = publishers_of st d k) →
  instance_of st1 url = timestamp →
  let st2 := set_dpMap dom (<[id := l]> (dpMap_of st1 dom)) st1 in
  let st3 := st2 <| sd_urlToComponentMap ::= insert url (str (rg_component_id r)) |> in
  let st4 := purgeObsoletePublishers id url (publishers_changed id dom st3) in
  (elsewhere st → instance_of st4 url = 0) ∧ (¬ elsewhere st → instance_of st4 url = timestamp).
Proof.
  intros Hd Hp Ht st2 st3 st4.
  set (st3' := publishers_changed id dom st3) in *.
  assert (Hd3 : sd_domain st3' = sd_domain st).
  { unfold st3'. rewrite publishers_changed_domain. exact Hd. }
  assert (Hp3 : ∀ k, k ≠ id → publishers_of st3' (sd_domain st) k = publishers_of st (sd_domain st) k).
  { intros k Hk. unfold st3'. rewrite publishers_changed_publishers.
    change (publishers_of st3 (sd_domain st) k) with (publishers_of st2 (sd_domain st) k).
    unfold st2. rewrite publishers_set, Hp, decide_False; [done|]. by intros [_ ?]. }
  assert (Ht3 : instance_of st3' url = timestamp).
  { unfold st3'. rewrite (sk_instances _ _ (services_kept_publishers_changed id dom st3)). exact Ht. }
  split.
  - intros (k & Hk & Hl%exists_url). apply purge_services. exists k.
    by rewrite Hd3, Hp3.
  - intros Hn. unfold st4. rewrite purge_unlisted; [done|]. intros k Hk. rewrite Hd3, Hp3 by done.
    intros Hl%exists_url. apply Hn. by exists k.
Qed.

Lemma register_data_time st :
  let st' := (register_data dom r st).1 in
  let again := Exists (is_registration url secs) (publishers_of st dom id) in
  NoDup (urls_of (publishers_of st dom id)) →
  (¬ again ∧ elsewhere st → instance_of st' url = 0) ∧
  (again ∨ ¬ elsewhere st → instance_of st' url = timestamp).
Proof.
  intros st' again Hnd. pose proof (proj2 (upsert_registered_list r _ Hnd)) as Hu.
  fold url timestamp secs in Hu. unfold again. rewrite <- Hu. clear Hu.
  unfold st', register_data, upsert. fold id url timestamp secs. clear st' again.
  set (st0 := if decide (id = REGISTERED_PUBLISHERS_DPID) then _ else st).
  assert (Hp0 : ∀ d k, publishers_of st0 d k = publishers_of st d k) by (intros; unfold st0; by case_decide).
  set (st1 := (set_dpMap dom _ st0) <| sd_registrationInstanceMap ::= _ |>).
  assert (Hd1 : sd_domain st1 = sd_domain st) by (unfold st1, st0; by case_decide).
  assert (Hp1 : ∀ d k, publishers_of st1 d k = publishers_of st d k).
  { intros d k. unfold st1. rewrite (quiet_publishers _ _ (quiet_instances (insert url timestamp) _)).
    by rewrite (quiet_publishers _ _ (quiet_set_same dom id st0)). }
  assert (Ht1 : instance_of st1 url = timestamp).
  { unfold instance_of, st1. cbn. by rewrite idx_insert, decide_True. }
  cbn zeta. rewrite Hp0. pose proof (λ l, changed_time l st st1 Hd1 Hp1 Ht1) as Hc. cbn zeta in Hc.
  assert (Hend : ∀ s, instance_of (if decide (dom = sd_domain s ∧ id ≠ REGISTERED_PUBLISHERS_DPID)
    then updateProductLocations id url timestamp ADD DATA s else s) url = instance_of s url).
  { intros s. goal_decide; [|done]. apply sk_instances, services_kept_updateProductLocations. }
  clearbody st1 st0.
  destruct (list_find (has_url url) (publishers_of st dom id)) as [[i info]|].
  - destruct (decide (num (pi_registration_time info) = secs)); cbn [fst].
    + split; [by intros [[] _]|]. intros _. goal_decide; [|done].
      by rewrite (sk_instances _ _ (services_kept_updateProductLocations _ _ _ _ _ _)).
    + destruct (Hc (<[i := refresh_info r secs info]> (publishers_of st dom id))) as [H1 H2].
      split; rewrite Hend; [by intros [_ ?]; auto|intros [?|?]; [done|auto]].
  - cbn [fst]. destruct (Hc (publishers_of st dom id ++ [new_info r secs])) as [H1 H2].
    split; rewrite Hend; [by intros [_ ?]; auto|intros [?|?]; [done|auto]].
Qed.
End registration.

(** A service of another domain is left alone. *)
Lemma register_service_other dom r st d :
  d ≠ dom → sMap_of (register_service dom r st) d = sMap_of st d.
Proof.
  intros Hne. unfold register_service. cbn zeta.
  match goal with |- context [purgeObsoletePublishers ?i ?u ?s] => set (st0 := s);
    destruct (purge_services i u st0) as (_ & Hs1 & _) end.
  set (st1 := purgeObsoletePublishers _ _ st0) in *.
  assert (H1 : sMap_of st1 d = sMap_of st d).
  { rewrite Hs1. unfold sMap_of, st0. cbn. by rewrite idx_insert, decide_False. }
  goal_decide; [|exact H1].
  by rewrite (sk_services _ _ (services_kept_updateProductLocations _ _ _ _ _ _)).
Qed.

(** ** The handlers *)

Definition registry_of st : Registry :=
  mkRegistry (sd_domain st) (publishers_of st) (λ d k, sMap_of st d !! k) (instance_of st).

Lemma registered_unchanged r a a1 a2 : registered r a a1 → unchanged a1 a2 → registered r a a2.
Proof.
  intros (Hd & Ht & Hr) [D P S T]. split; [by rewrite D|]. split; [intros u Hu; rewrite T; by apply Ht|].
  destruct (default DATA (rg_type r)).
  - destruct Hr as (Hp & Hs & Hg & Hk). split_and!; intros; rewrite ?P, ?S, ?T; auto.
  - destruct Hr as (Hp & Hs & Hk). split_and!; intros; rewrite ?P, ?S, ?T; auto.
Qed.

Lemma unregistered_unchanged u found a a1 a2 :
  unregistered u found a a1 → unchanged a1 a2 → unregistered u found a a2.
Proof.
  intros (Hd & Ht & Hr) [D P S T]. split; [by rewrite D|]. split; [intros v; rewrite T; apply Ht|].
  destruct (default DATA (ur_type u)).
  - destruct Hr as (Hf & Hp & Hs). split_and!; [done|..]; intros; rewrite ?P, ?S; auto.
  - destruct Hr as (Hf & Hn & Hp & Hs). split_and!; [done|done|..]; intros; rewrite ?P, ?S; auto.
Qed.

Lemma pending_unchanged st : unchanged (registry_of st) (registry_of (process_pending st)).
Proof.
  destruct (process_pending_same st) as (D & P & S & T). split; [exact D|exact P| |exact T].
  intros d k. cbn. by rewrite S.
Qed.

Lemma request_domain_default o st : request_domain o st = default (sd_domain st) o.
Proof. by destruct o. Qed.

Section handlers.
Variables (domain : string) (st : ServiceDirectory).
Hypothesis reachable : sd_reachable domain st.

Lemma distinct_urls d k : NoDup (urls_of (publishers_of st d k)).
Proof. apply (ok_distinct _ (sd_reachable_ok _ _ reachable)). Qed.

Lemma heard_accepted r :
  0 <= num (rg_timestamp r) → heard r (registry_of st) ↔ registration_accepted r st = true.
Proof.
  unfold heard, registration_accepted. cbn [ab_times registry_of]. unfold instance_of, idx.
  destruct (rg_timestamp r) as [t|]; [|done]. cbn. intros Ht.
  destruct (sd_registrationInstanceMap st !! _) as [known|]; cbn.
  - rewrite negb_true_iff, Z.ltb_ge. done.
  - done.
Qed.

Lemma register_data_refined r :
  default DATA (rg_type r) = DATA →
  registered r (registry_of st)
    (registry_of (register_data (request_domain (rg_domain r) st) r st).1).
Proof.
  intros Ht. rewrite request_domain_default. set (dom := default _ _).
  pose proof (register_data_spec dom r st) as Hs.
  destruct (register_data_instances dom r st) as (S1 & I1 & _).
  destruct (register_data_time dom r st (distinct_urls _ _)) as [T1 T2].
  destruct (upsert_registered_list r _ (distinct_urls dom (str (rg_id r)))) as [L1 L2].
  destruct (register_data dom r st) as [st' dup]. destruct Hs as (Hd & _ & Hp & _).
  cbn [fst] in *. unfold registered. rewrite Ht. cbn [registry_of ab_domain ab_publishers ab_services ab_times].
  fold dom. split_and!; [exact Hd|exact I1| | |exact T1|exact T2].
  - intros d k. rewrite Hp, <- L1. unfold registered_publishers.
    set (again := Exists _ (publishers_of st dom (str (rg_id r)))) in *.
    destruct (upsert r _) as [l|] eqn:Hl.
    + assert (Hn : ¬ again) by by rewrite <- L2. cbn [default from_option].
      repeat case_decide; try tauto; try done; apply drop_url_other, distinct_urls.
    + assert (Ha : again) by by apply L2. cbn. repeat case_decide; try tauto; try done.
      by match goal with H : _ ∧ _ |- _ => destruct H as [-> ->] end.
  - intros d k. by rewrite S1.
Qed.

Lemma register_service_refined r :
  default DATA (rg_type r) = SERVICE →
  registered r (registry_of st)
    (registry_of (register_service (request_domain (rg_domain r) st) r st)).
Proof.
  intros Ht. rewrite request_domain_default. set (dom := default _ _).
  destruct (register_service_spec dom r st) as (Hd & _ & Hp & _).
  destruct (register_service_instances dom r st) as (S1 & I1 & U1).
  pose proof (register_service_other dom r st) as So.
  unfold registered. rewrite Ht. cbn [registry_of ab_domain ab_publishers ab_services ab_times].
  fold dom. split_and!; [exact Hd|exact I1| | |exact U1].
  - intros d k. rewrite Hp. case_decide; [|done]. apply drop_url_other, distinct_urls.
  - intros d k. destruct (decide (d = dom)) as [->|Hne].
    + rewrite S1. destruct (decide (k = str (rg_id r))) as [->|Hk].
      * by rewrite decide_True, lookup_insert_eq.
      * by rewrite decide_False, lookup_insert_ne by naive_solver.
    + by rewrite decide_False, So by naive_solver.
Qed.

Lemma register_refined r :
  0 <= num (rg_timestamp r) →
  (handleRegister r st).1 = mkServiceDirectoryResponsePB (str (rg_id r)) SUCCESS ∧
  (heard r (registry_of st) → registered r (registry_of st) (registry_of (handleRegister r st).2)) ∧
  (¬ heard r (registry_of st) → unchanged (registry_of st) (registry_of (handleRegister r st).2)).
Proof.
  intros Hpos. rewrite (heard_accepted r Hpos). unfold handleRegister.
  destruct (registration_accepted r st).
  - destruct (default DATA (rg_type r)) eqn:Ht.
    + pose proof (register_data_refined r Ht) as Hr.
      destruct (register_data _ r st) as [st' dup]. by destruct dup.
    + pose proof (register_service_refined r Ht) as Hr. done.
  - split; [done|]. split; [done|]. by split.
Qed.

Lemma unregister_data_times dom u :
  let '(st', found) := unregister_data dom u st in
  (∀ d, sMap_of st' d = sMap_of st d) ∧
  ∀ v, instance_of st' v =
    if decide (found = true ∧ v = str (ur_url u)) then 0 else instance_of st v.
Proof.
  unfold unregister_data. cbn zeta. set (st0 := set_dpMap dom _ st).
  assert (K0 : services_kept st st0) by by split.
  destruct (list_find _ _) as [[i p]|].
  2:{ split; [apply K0|]. intros v. rewrite decide_False by (by intros []). apply K0. }
  match goal with |- context [publishers_changed ?i ?d ?s] => set (st1 := publishers_changed i d s) end.
  assert (K1 : services_kept st st1).
  { etrans; [exact K0|]. etrans; [|apply services_kept_publishers_changed]. by split. }
  set (st2 := if decide (dom = sd_domain st1) then _ else st1).
  assert (K2 : services_kept st st2).
  { etrans; [exact K1|]. unfold st2. goal_decide; [|done].
    etrans; [apply (services_kept_touch_instance (str (ur_url u)))|apply services_kept_updateProductLocations]. }
  split; [apply K2|]. intros v. unfold instance_of at 1. cbn. rewrite idx_delete.
  destruct (decide (str (ur_url u) = v)) as [<-|Hne].
  - by rewrite decide_True.
  - rewrite decide_False by (by intros [_ ->]). apply K2.
Qed.

Lemma unregister_service_refined dom u :
  let '(st', found) := unregister_service dom u st in
  let url := str (ur_url u) in
  let known := is_Some (sMap_of st dom !! str (ur_id u)) ∧
    regTimeSecs (instance_of st url) = num (ur_registration_time u) in
  (∀ v, instance_of st' v = if decide (found = true ∧ v = url) then 0 else instance_of st v) ∧
  (found = true → known) ∧ (found = false → ¬ known ∨ instance_of st url = 0) ∧
  (∀ d k, sMap_of st' d !! k =
    if decide (found = true ∧ d = dom ∧ k = str (ur_id u)) then None else sMap_of st d !! k).
Proof.
  unfold unregister_service. cbn zeta. set (st0 := st <| sd_serviceMap ::= _ |>).
  assert (K0 : services_kept st st0).
  { split; try done. intros d. unfold sMap_of, st0. cbn. rewrite idx_insert. by case_decide; subst. }
  assert (Hnone : (∀ v, instance_of st0 v = if decide (false = true ∧ v = str (ur_url u)) then 0 else instance_of st v) ∧
    ∀ d k, sMap_of st0 d !! k = if decide (false = true ∧ d = dom ∧ k = str (ur_id u)) then None else sMap_of st d !! k).
  { split; intros; (rewrite decide_False by (by intros [])); by rewrite ?(sk_instances _ _ K0), ?(sk_services _ _ K0). }
  destruct Hnone as [N1 N2].
  change (sd_registrationInstanceMap st0) with (sd_registrationInstanceMap st).
  destruct (sMap_of st dom !! str (ur_id u)) as [url|] eqn:Hs.
  2:{ split_and!; [done|done| |done]. intros _. left. by intros [[] _]. }
  destruct (sd_registrationInstanceMap st !! str (ur_url u)) as [known|] eqn:Hi.
  2:{ split_and!; [done|done| |done]. intros _. right. unfold instance_of, idx. by rewrite Hi. }
  assert (Ek : instance_of st (str (ur_url u)) = known) by (unfold instance_of, idx; by rewrite Hi).
  rewrite Ek. destruct (decide (regTimeSecs known = _)) as [Ht|Ht].
  2:{ split_and!; [done|done| |done]. intros _. left. by intros [_ ?]. }
  set (st1 := st0 <| sd_serviceMap ::= _ |>).
  set (st2 := if decide (dom = sd_domain st1) then _ else st1).
  assert (K : services_kept st1 st2).
  { unfold st2. goal_decide; [apply services_kept_updateProductLocations|done]. }
  split_and!; [| |done|].
  - intros v. unfold instance_of at 1. cbn. rewrite idx_delete.
    destruct (decide (str (ur_url u) = v)) as [<-|Hne]; [by rewrite decide_True|].
    rewrite decide_False by (by intros [_ ->]). apply K.
  - intros _. split; [by eexists|done].
  - intros d k. change (sMap_of st2 d !! k =
      if decide (true = true ∧ d = dom ∧ k = str (ur_id u)) then None else sMap_of st d !! k).
    rewrite (sk_services _ _ K).
    change (sMap_of st1 d) with (idx ∅ d (<[dom := delete (str (ur_id u)) (sMap_of st dom)]>
      (<[dom := sMap_of st dom]> (sd_serviceMap st)))).
    rewrite !idx_insert. destruct (decide (dom = d)) as [<-|Hne].
    + destruct (decide (k = str (ur_id u))) as [->|Hk].
      * by rewrite decide_True, lookup_delete_eq.
      * by rewrite decide_False, lookup_delete_ne by naive_solver.
    + by rewrite decide_False by naive_solver.
Qed.

Lemma unregister_refined u :
  ∃ found : bool, (handleUnregister u st).1 = mkServiceDirectoryResponsePB (str (ur_id u))
      (if found then SUCCESS else NOT_REGISTERED) ∧
    unregistered u found (registry_of st) (registry_of (handleUnregister u st).2).
Proof.
  unfold handleUnregister. rewrite request_domain_default.
  set (dom := default (sd_domain st) (ur_domain u)).
  unfold unregistered. cbn [registry_of ab_domain ab_publishers ab_services ab_times]. fold dom.
  destruct (default DATA (ur_type u)).
  - pose proof (unregister_data_spec dom u st) as Hs. pose proof (unregister_data_times dom u) as Ht.
    destruct (unregister_data dom u st) as [st' found]. destruct Hs as (Hd & _ & Hp & Hf & _), Ht as [Hs Ht].
    exists found. cbn. split; [done|]. split_and!; [exact Hd|exact Ht|..].
    + by rewrite Hf, bool_decide_eq_true.
    + intros d k. rewrite Hp. unfold unregistered_publishers. cbn zeta. goal_decide; [|done].
      apply delete_registration, distinct_urls.
    + intros d k. by rewrite Hs.
  - pose proof (unregister_service_quiet dom u st) as Hq. pose proof (unregister_service_refined dom u) as Hs.
    destruct (unregister_service dom u st) as [st' found]. destruct Hs as (Ht & Hf & Hn & Hs).
    exists found. cbn in *. split; [done|]. split_and!; [apply Hq|exact Ht|exact Hf|exact Hn| |exact Hs].
    apply Hq.
Qed.

Lemma lookup_refined lookup :
  (handleLookup lookup st).1 = looked_up lookup (registry_of st) ∧
  unchanged (registry_of st) (registry_of (handleLookup lookup st).2).
Proof.
  split.
  - unfold looked_up. cbn [registry_of ab_domain ab_publishers ab_services ab_times].
    destruct (default DATA (lr_type lookup)) eqn:Ht.
    + by rewrite data_lookup_spec.
    + rewrite service_lookup_spec by done. cbn zeta. by unfold lookup_domain.
  - pose proof (quiet_lookup lookup st) as Hq.
    assert (Hk : services_kept st (handleLookup lookup st).2).
    { unfold handleLookup. cbn zeta. destruct (default DATA (lr_type lookup)); [by split|].
      destruct (sd_serviceMap st !! _) as [sMap|]; [|done].
      destruct (sMap !! _); [apply services_kept_touch_instance|done]. }
    split; [apply Hq|apply Hq| |apply Hk]. intros d k. cbn. by rewrite (sk_services _ _ Hk).
Qed.
End handlers.

(** ** The main loop *)

Section refinement.
Context `{Protobuf ComponentLookupRequestPB, Protobuf ServiceDirectoryRegistrationPB,
  Protobuf ServiceDirectoryUnregistrationPB, Protobuf ServiceDirectoryResponsePB,
  Protobuf ComponentDataLookupResponsePB, Protobuf ComponentServiceLookupResponsePB}.

#[local] Instance unchanged_preorder : PreOrder unchanged.
Proof. split; [by split|]. intros a1 a2 a3 [] []. split; intros; etrans; eauto. Qed.

Lemma serve_reachable domain req st : sd_reachable domain st → sd_reachable domain (serve req st).2.
Proof.
  intros Hr. unfold serve, request.
  repeat match goal with |- context [decide (getDataProductID req = ?s)] =>
    destruct (decide (getDataProductID req = s)) end.
  - pose proof (sd_reach_step domain (Lookup (populateMessage req).1) st Hr) as Hr'. cbn [sd_step] in Hr'.
    by destruct (handleLookup _ st) as [[] ?].
  - pose proof (sd_reach_step domain (Register (populateMessage req).1) st Hr) as Hr'. cbn [sd_step] in Hr'.
    by destruct (handleRegister _ st).
  - pose proof (sd_reach_step domain (Unregister (populateMessage req).1) st Hr) as Hr'. cbn [sd_step] in Hr'.
    by destruct (handleUnregister _ st).
  - apply (sd_reach_step domain OtherRequest st Hr).
  - apply (sd_reach_step domain OtherRequest st Hr).
Qed.

Lemma serve_step domain req st :
  sd_reachable domain st → unsigned_time req →
  registry_step req (serve req st).1 (registry_of st) (registry_of (serve req st).2).
Proof.
  intros Hr Hu. unfold serve, request, registry_step, unsigned_time in *.
  repeat match goal with |- context [decide (getDataProductID req = ?s)] =>
    destruct (decide (getDataProductID req = s)) end.
  - destruct (lookup_refined st (populateMessage req).1) as [<- HU].
    destruct (handleLookup _ st) as [[] st']; (split; [done|]); (etrans; [exact HU|apply pending_unchanged]).
  - destruct (register_refined domain st Hr (populateMessage req).1 (Hu e)) as (Ha & HR & HU).
    destruct (handleRegister _ st) as [sdr st']. cbn [fst snd] in *. subst sdr. split; [done|]. split.
    + intros Hh. eapply registered_unchanged; [by apply HR|apply pending_unchanged].
    + intros Hh. etrans; [by apply HU|apply pending_unchanged].
  - destruct (unregister_refined domain st Hr (populateMessage req).1) as (found & Ha & HR).
    destruct (handleUnregister _ st) as [sdr st']. cbn [fst snd] in *. subst sdr. exists found.
    split; [done|]. eapply unregistered_unchanged; [exact HR|apply pending_unchanged].
  - split; [done|apply pending_unchanged].
  - split; [done|apply pending_unchanged].
Qed.

(** C9. Whatever bytes clients send, in whatever order, the directory answers them as a registry
    does that starts empty: who publishes a product in a domain, at which url a service is and
    since when, as far as registrations that were heard and unregistrations say.  Its answers
    are those of the registry, and what it knows in the end is what the registry knows; the
    maps it keeps, the updates that wait, and what lookups leave behind do not show. *)
Theorem serve_refines_registry domain reqs :
  Forall unsigned_time reqs →
  let '(responses, st) := serve_all reqs (initial_ServiceDirectory domain) in
  registry_run reqs responses (empty_registry domain) (registry_of st).
Proof.
  change (empty_registry domain) with (registry_of (initial_ServiceDirectory domain)).
  pose proof (sd_reach_init domain) as Hr. revert Hr. generalize (initial_ServiceDirectory domain).
  induction reqs as [|req reqs IH]; intros st Hr Hu; cbn [serve_all]; [constructor|].
  apply Forall_cons in Hu as [Hu1 Hu].
  pose proof (serve_step domain req st Hr Hu1) as Hs. pose proof (serve_reachable domain req st Hr) as Hr1.
  destruct (serve req st) as [response st1]. cbn [fst snd] in *. specialize (IH st1 Hr1 Hu).
  destruct (serve_all reqs st1) as [responses st2]. by econstructor.
Qed.
End refinement.

(** ** A run: a registration, a stale one, a lookup, an unregistration *)

Section witnesses.
#[local] Instance spec_registration : Protobuf ServiceDirectoryRegistrationPB :=
  quoted_protobuf (mkServiceDirectoryRegistrationPB None None None None None None None None)
    registration_to registration_of "".
#[local] Instance spec_unregistration : Protobuf ServiceDirectoryUnregistrationPB :=
  quoted_protobuf (mkServiceDirectoryUnregistrationPB None None None None None)
    unregistration_to unregistration_of "".
#[local] Instance spec_lookup : Protobuf ComponentLookupRequestPB :=
  quoted_protobuf (mkComponentLookupRequestPB None None None) lookup_to lookup_of "".
#[local] Instance spec_data_response : Protobuf ComponentDataLookupResponsePB :=
  quoted_protobuf (mkComponentDataLookupResponsePB "" [] "") data_lookup_to data_lookup_of "".
#[local] Instance spec_service_response : Protobuf ComponentServiceLookupResponsePB :=
  quoted_protobuf (mkComponentServiceLookupResponsePB "" "" "" None) service_lookup_to service_lookup_of "".
#[local] Instance spec_response : Protobuf ServiceDirectoryResponsePB :=
  quoted_protobuf (mkServiceDirectoryResponsePB "" SUCCESS)
    (λ r, [sr_id r; if decide (sr_returnCode r = SUCCESS) then "ok" else "no"]) (λ _, None) "".

Definition spec_requests : list GravityDataProduct :=
  [setData (demo_registration "A" "tcp://h:1" 5000000) (new_GravityDataProduct "RegistrationRequest");
   setData (demo_registration "B" "tcp://h:1" 4000000) (new_GravityDataProduct "RegistrationRequest");
   setData (demo_lookup "A") (new_GravityDataProduct "ComponentLookupRequest");
   setData (mkServiceDirectoryUnregistrationPB (Some "A") (Some "tcp://h:1") None None (Some 5))
     (new_GravityDataProduct "UnregistrationRequest");
   new_GravityDataProduct "GetDomain"].

Lemma serve_refines_registry_witness :
  ∃ responses a, registry_run spec_requests responses (empty_registry "Dom") a ∧
    length responses = 5%nat ∧ ab_publishers a "Dom" "A" = [].
Proof.
  assert (Hu : Forall unsigned_time spec_requests).
  { unfold spec_requests. repeat (apply Forall_cons; split); [..|by constructor]; intros Hid;
      first [discriminate Hid | vm_compute; discriminate]. }
  pose proof (serve_refines_registry "Dom" spec_requests Hu) as R.
  destruct (serve_all spec_requests (initial_ServiceDirectory "Dom")) as [responses st] eqn:E.
  exists responses, (registry_of st). split; [exact R|].
  apply (f_equal (λ x, (length x.1, publishers_of x.2 "Dom" "A"))) in E. cbv beta in E.
  assert (E' : (5%nat, []) = (length responses, publishers_of st "Dom" "A")) by (etrans; [|exact E]; by vm_compute).
  injection E' as E1 E2. by split.
Defined.
End witnesses.
