(* ===== verification/GravityNodeDirectory.v ===== *)
(** * The node and the directory together

    The operations of the node against the directory's handlers, over a network that may lose
    requests and answers: a request that is sent again may be served again.  What a node
    registers the others find, until it is unregistered; what a restarted directory has
    forgotten it is told again. *)

From S2P Require Import Prelude.
From S2P Require Import Messages.
From S2P Require Import CommUtil.
From S2P Require Import GravityDataProduct.
From S2P Require Import MessageCodecs.
From S2P Require Import ServiceDirectory.
From S2P Require Import ServiceDirectoryRegistry.
From S2P Require Import ServiceDirectoryProofs.
From S2P Require Import ServiceDirectoryRequests.
From S2P Require Import ServiceDirectoryRetries.
From S2P Require Import ReturnCodes.
From S2P Require Import GravityHeartbeat.
From S2P Require Import GravityNode.
From S2P Require Import GravityNodeAPI.
From S2P Require Import GravityNodeProofs.
From S2P Require Import GravityNodeComponents.
#[local] Open Scope gravity_scope.
#[local] Open Scope Z_scope.

Import GravityReturnCodes.

#[local] Hint Resolve quietly_registration_time_of quietly_getIP quietly_publish quietly_getStringParam
  quietly_getIntParam quietly_send_requests quietly_sendRequestToServiceDirectory
  quietly_send_registration quietly_send_unregistration quietly_transport_endpoint
  quietly_port_frames : node_quiet.

Section network.
Context {W : Type} `{E0 : NodeEnvironment W}.
Context `{ProtobufLaw GravityDataProductPB, Protobuf GravityConfigParamPB,
  ProtobufLaw ServiceDirectoryRegistrationPB, ProtobufLaw ServiceDirectoryUnregistrationPB,
  Protobuf ServiceDirectoryResponsePB, ProtobufLaw ComponentLookupRequestPB,
  ProtobufLaw ComponentDataLookupResponsePB, Protobuf ComponentServiceLookupResponsePB,
  Protobuf PublisherInfoPB}.

(** The url of the directory, and whether it got a request that was not answered in time. *)
Variable sdURL : string.
Variable reached : W → bool.

(** The environment says whether and when an answer comes; its contents are the directory's,
    which serves the bytes it gets. *)
Definition exchange_with_directory (url : string) (request : GravityDataProduct) (timeout : Z)
    (w : W * ServiceDirectory) : (PollOutcome * bool) * (W * ServiceDirectory) :=
  let '((outcome, interrupted), w1) := env_exchange url request timeout w.1 in
  if decide (url = sdURL) then
    let '(response, st) := serve (GravityDataProduct_from_bytes (serializeToArray request)) w.2 in
    match outcome with
    | PollReply _ => ((PollReply (serializeToArray response), interrupted), (w1, st))
    | _ => ((outcome, interrupted), (w1, if reached w.1 then st else w.2))
    end
  else ((outcome, interrupted), (w1, w.2)).

#[local] Instance node_with_directory : NodeEnvironment (W * ServiceDirectory) :=
  with_component exchange_with_directory (λ _ _ st, st) reply_beside.

Abbreviation world := (W * ServiceDirectory)%type.
Implicit Types w : world.

(** ** Operations without a request to the directory *)

Abbreviation unasked := (leaves (W:=world) (X:=ServiceDirectory) snd).

Lemma unasked_receive l : unasked (receive l).
Proof.
  apply leaves_receive. intros w f w'. cbn. unfold reply_beside.
  destruct (env_receive l w.1) as [[f1 w1]|]; [|done]. by intros [= _ <-].
Qed.
Lemma time_unasked (w : world) : (env_time w).2.2 = w.2.
Proof. cbn. unfold beside. by destruct (env_time w.1). Qed.
Lemma publish_unasked frames (w : world) : (env_send publishManagerPublishSWL frames w).2 = w.2.
Proof. done. Qed.
Hint Resolve unasked_receive time_unasked publish_unasked : node_leaves.
Lemma sleep_unasked t (w : world) : (env_sleep t w).2 = w.2.
Proof. done. Qed.

Ltac unasked_step :=
  match goal with
  | |- leaves _ (ask env_time) => apply leaves_ask, time_unasked
  | |- leaves _ (tell _) => apply leaves_tell; done
  | |- leaves _ (send _ _) => apply leaves_send; done
  | |- leaves _ _ => leaves_step
  end.
Ltac unasked_solve := repeat unasked_step.

Lemma unasked_transport_endpoint t i : unasked (transport_endpoint t i).
Proof. unasked_solve. Qed.
Lemma unasked_port_frames t : unasked (port_frames t).
Proof. unasked_solve. Qed.

(** ** A request to the directory *)

(** [once] is what serving the request once does to the directory, [answer] what the answer
    says: then that is also what the whole exchange does, unless no request got through. *)
Section exchange.
Variables (request : GravityDataProduct) (once : ServiceDirectory → ServiceDirectory → Prop)
  (answer : ServiceDirectory → GravityDataProduct → Prop) (st0 : ServiceDirectory).
Hypothesis served_first : once st0 (serve request st0).2 ∧ answer st0 (serve request st0).1.
Hypothesis served_again : ∀ st, once st0 st →
  once st0 (serve request st).2 ∧ answer st0 (serve request st).1.

Definition before st : Prop := st = st0 ∨ once st0 st.

Lemma received : GravityDataProduct_from_bytes (serializeToArray request) = request.
Proof. unfold GravityDataProduct_from_bytes, serializeToArray. by rewrite parse_serialize. Qed.

Lemma request_served timeout response n w ret response' n' w' :
  before w.2 →
  sendRequestToServiceProvider sdURL request response timeout n w = Some ((ret, response'), n', w') →
  before w'.2 ∧ (ret = SUCCESS → once st0 w'.2 ∧ ∃ g, response' = GravityDataProduct_from_bytes (serializeToArray g) ∧ answer st0 g).
Proof.
  intros Hb ([outcome s_interrupted] & n1 & w1 & E1 & E)%bind_inv.
  assert (Hs : once st0 (serve request w.2).2 ∧ answer st0 (serve request w.2).1).
  { destruct Hb as [->|Ho]; [apply served_first|by apply served_again]. }
  unfold ask in E1. cbn [env_exchange node_with_directory with_component] in E1. unfold exchange_with_directory in E1.
  rewrite received in E1. destruct (env_exchange sdURL request timeout w.1) as [[o i] w2].
  rewrite decide_True in E1 by done. destruct (serve request w.2) as [g st].
  destruct Hs as [Ho Ha]. cbn [fst snd] in *.
  assert (Hl : ∀ b : bool, before (if b then st else w.2)) by (intros []; [by right|done]).
  destruct o as [[]| |bytes|]; injection E1 as <- <- <- <-; injection E as <- <- <- <-; cbn [fst snd].
  1-3,5: split; [done|by destruct i].
  split; [by right|]. intros _. split; [done|]. by exists g.
Qed.

Definition answered st (r : GravityReturnCode * GravityDataProduct) : Prop :=
  before st ∧ (r.1 = SUCCESS → once st0 st ∧
    ∃ g, r.2 = GravityDataProduct_from_bytes (serializeToArray g) ∧ answer st0 g).

Lemma requests_served timeout k ret response n w r n' w' :
  answered w.2 (ret, response) →
  send_requests sdURL request timeout k ret response n w = Some (r, n', w') → answered w'.2 r.
Proof.
  revert ret response n w. induction k as [|k IH]; intros ret response n w Hb E; cbn [send_requests] in E.
  { by injection E as <- <- <-. }
  destruct (decide _); [|by injection E as <- <- <-].
  apply bind_inv in E as ([ret1 response1] & n1 & w1 & E1 & E).
  apply request_served in E1; [|by destruct Hb]. by eapply IH in E.
Qed.

Lemma directory_request response n w ret response' n' w' :
  network_url (gn_serviceDirectoryNode n) = sdURL → w.2 = st0 →
  sendRequestToServiceDirectory request response n w = Some ((ret, response'), n', w') →
  answered w'.2 (ret, response').
Proof.
  intros Hu Hw (u & n1 & w1 & (k & _ & -> & ->)%Lock_inv & E)%bind_inv.
  apply bind_inv in E as (sd & n1 & w1 & [= <- <- <-] & E).
  apply bind_inv in E as (r & n2 & w2 & E2 & E).
  apply bind_inv in E as (u' & n3 & w3 & [= <- <- <-] & [= <- <- <-]).
  change (network_url _) with (network_url (gn_serviceDirectoryNode n)) in E2. rewrite Hu in E2.
  unfold sendRequestsToServiceProvider in E2. apply requests_served in E2; [done|].
  split; [by left|done].
Qed.
End exchange.

(** ** Registering *)

(** Nothing a client can see has changed. *)
Record same_registry domain st st' : Prop := {
  sr_reachable : sd_reachable domain st';
  sr_publishers d k : publishers_of st' d k = publishers_of st d k;
  sr_services d : sMap_of st' d = sMap_of st d;
  sr_instances u : instance_of st' u = instance_of st u;
}.

Lemma same_registry_trans domain st1 st2 st3 :
  same_registry domain st1 st2 → same_registry domain st2 st3 → same_registry domain st1 st3.
Proof. intros [] []. split; [done|..]; intros; etrans; eauto. Qed.

(** What serving a registration does, once or more often: one that is not older than what the
    directory knows of its url is recorded, another one changes nothing. *)
Definition effect (domain : string) (r : ServiceDirectoryRegistrationPB) st st' : Prop :=
  if decide (instance_of st (str (rg_url r)) <= num (rg_timestamp r))
  then recorded domain r st st' else same_registry domain st st'.

Lemma effect_reachable domain r st st' : effect domain r st st' → sd_reachable domain st'.
Proof. unfold effect. case_decide; [apply rc_reachable|apply sr_reachable]. Qed.

Lemma effect_again domain r st st1 st2 :
  effect domain r st st1 → effect domain r st1 st2 → effect domain r st st2.
Proof.
  unfold effect. destruct (decide _) as [Hi|Hi].
  - intros HE. rewrite decide_True by apply (rc_time _ _ _ _ HE). by apply recorded_again.
  - intros HE. rewrite decide_False by by rewrite (sr_instances _ _ _ HE). by apply same_registry_trans.
Qed.

Lemma registration_served domain r st :
  rg_domain r = None → is_Some (rg_timestamp r) → 0 <= num (rg_timestamp r) →
  sd_reachable domain st →
  effect domain r st (serve (setData r (new_GravityDataProduct "RegistrationRequest")) st).2.
Proof.
  intros Hd Ht Hpos Hr. unfold serve, request. cbn [getDataProductID].
  change (getDataProductID _) with "RegistrationRequest". repeat (rewrite decide_False by done).
  rewrite decide_True by done. rewrite (proj1 (setData_populateMessage r _)). cbn [fst]. unfold effect.
  case_decide as Hi.
  - pose proof (register_recorded domain r Hd Ht Hpos st Hr Hi) as HR. cbn [sd_step] in HR.
    by destruct (handleRegister r st).
  - assert (E : (handleRegister r st).2 = st).
    { assert (Ha : registration_accepted r st = false); [|unfold handleRegister; by rewrite Ha].
      unfold registration_accepted. destruct Ht as [t Ht]. rewrite Ht in Hi, Hpos |- *. cbn in Hi, Hpos.
      unfold instance_of, idx in Hi. destruct (sd_registrationInstanceMap st !! _) as [known|]; cbn in Hi; [|lia].
      apply negb_false_iff, Z.ltb_lt. lia. }
    destruct (handleRegister r st) as [sdr st1]. cbn in E |- *. subst st1.
    destruct (process_pending_same st) as (_ & P & S & I). split; [|done..|done].
    by apply (sd_reach_step domain OtherRequest).
Qed.

(** Whatever was lost on the way: a request for a registration that succeeds has had its
    effect, and one that fails may have had it. *)
Lemma effect_requested domain r response n w ret response' n' w' :
  rg_domain r = None → is_Some (rg_timestamp r) → 0 <= num (rg_timestamp r) →
  network_url (gn_serviceDirectoryNode n) = sdURL → sd_reachable domain w.2 →
  sendRequestToServiceDirectory (setData r (new_GravityDataProduct "RegistrationRequest")) response n w
    = Some ((ret, response'), n', w') →
  (w'.2 = w.2 ∨ effect domain r w.2 w'.2) ∧ (ret = SUCCESS → effect domain r w.2 w'.2).
Proof.
  intros Hd Ht Hpos Hu Hr E.
  destruct (directory_request (setData r (new_GravityDataProduct "RegistrationRequest"))
    (effect domain r) (λ _ _, True) w.2) with (5 := E) as [Hb Hs]; [|..|done|done|].
  - split; [by apply registration_served|done].
  - intros st HR. split; [|done]. eapply effect_again; [exact HR|].
    apply registration_served; [done..|by eapply effect_reachable].
  - split; [done|]. intros ->. by apply Hs.
Qed.

Lemma registration_requested domain r response n w ret response' n' w' :
  rg_domain r = None → is_Some (rg_timestamp r) → 0 <= num (rg_timestamp r) →
  network_url (gn_serviceDirectoryNode n) = sdURL →
  sd_reachable domain w.2 → instance_of w.2 (str (rg_url r)) <= num (rg_timestamp r) →
  sendRequestToServiceDirectory (setData r (new_GravityDataProduct "RegistrationRequest")) response n w
    = Some ((ret, response'), n', w') →
  (w'.2 = w.2 ∨ recorded domain r w.2 w'.2) ∧ (ret = SUCCESS → recorded domain r w.2 w'.2).
Proof.
  intros Hd Ht Hpos Hu Hr Hi E. apply (effect_requested domain) in E; [|done..].
  unfold effect in E. by rewrite decide_True in E.
Qed.

(** What a registration of a data product tells the directory. *)
Definition product_registration (i url c : string) (timestamp : Z) (isRelay : bool) (ip : option string)
    : ServiceDirectoryRegistrationPB :=
  mkServiceDirectoryRegistrationPB (Some i) (Some url) (Some DATA) (Some c) None (Some timestamp)
    (Some isRelay) ip.

(** The node's clock shows no time before one the directory knows, and none after 2106. *)
Definition clock_fits st : Prop :=
  ∀ (w : W) url, instance_of st url <= (env_time w).1 ∧ 0 <= (env_time w).1 < u32_max * 1000000.

Lemma time_asked n w ts n' w' : ask env_time n w = Some (ts, n', w') → n' = n ∧ w'.2 = w.2 ∧ ts = (env_time w.1).1.
Proof.
  unfold ask. cbn. unfold beside. destruct (env_time w.1). by intros [= <- <- <-].
Qed.

(** The part of a registration that talks to the directory. *)
Lemma registration_sent domain i url c timestamp isRelay (localOnly : bool) n w n' w' :
  network_url (gn_serviceDirectoryNode n) = sdURL → sd_reachable domain w.2 →
  0 <= timestamp → instance_of w.2 url <= timestamp →
  (if decide (url = "") then mret NO_PORTS_AVAILABLE
   else if decide (nn_ipAddress (gn_serviceDirectoryNode n) ≠ "") then
     ip ← (if localOnly then (ip ← getIP; mret (Some ip)) else mret None);
     send_registration (product_registration i url c timestamp isRelay ip)
   else mret NO_SERVICE_DIRECTORY) n w = Some (SUCCESS, n', w') →
  quiet n n' ∧ nn_ipAddress (gn_serviceDirectoryNode n) ≠ "" ∧
  ∃ ip, recorded domain (product_registration i url c timestamp isRelay ip) w.2 w'.2.
Proof.
  intros Hu Hr Hpos Hi E. destruct (decide _) as [?|Hne]; [by injection E|].
  destruct (decide _) as [Hip|?]; [|by injection E].
  apply bind_inv in E as (ip & n1 & w1 & E1 & E).
  assert (Q1 : quiet n n1).
  { revert E1. match goal with |- ?m n w = _ → _ => assert (Hm : quietly m) by quiet_solve end. apply Hm. }
  assert (D1 : w1.2 = w.2).
  { revert E1. match goal with |- ?m n w = _ → _ => assert (Hm : unasked m) by unasked_solve end. apply Hm. }
  split; [etrans; [exact Q1|by eapply quietly_send_registration]|]. split; [done|]. exists ip.
  unfold send_registration in E. apply bind_inv in E as ([ret g] & n2 & w2 & E2 & E).
  destruct (decide (ret = SUCCESS)) as [->|]; [|by injection E]. injection E as _ <- <-.
  rewrite <- D1. eapply registration_requested in E2 as [_ HR]; [by apply HR|done|by eexists|done| | |].
  - by rewrite (quiet_serviceDirectoryNode _ _ Q1).
  - by rewrite D1.
  - by rewrite D1.
Qed.

Lemma registered_recorded domain i t cache isRelay localOnly reserved n w n' w' :
  gn_publishMap n !! i = None → network_url (gn_serviceDirectoryNode n) = sdURL →
  sd_reachable domain w.2 → clock_fits w.2 →
  registerDataProductInternal i t cache isRelay localOnly reserved n w = Some (SUCCESS, n', w') →
  ∃ url timestamp ip,
    gn_publishMap n' !! i = Some url ∧
    idx 0 i (gn_dataRegistrationTimeMap n') = regTimeSecs timestamp ∧
    gn_serviceDirectoryNode n' = gn_serviceDirectoryNode n ∧
    nn_ipAddress (gn_serviceDirectoryNode n) ≠ "" ∧
    recorded domain (product_registration i url (gn_componentID n) timestamp isRelay ip) w.2 w'.2.
Proof.
  intros Hnew Hu Hr Hclock E. unfold registerDataProductInternal, when_initialized in E.
  apply bind_inv in E as (b & n1 & w1 & [= <- <- <-] & E).
  destruct (gn_initialized n) eqn:Hi; cbn [negb] in E; [|by injection E].
  apply bind_inv in E as (x & n1 & w1 & [= <- <- <-] & E). unfold id in E.
  destruct (decide _); [by injection E|].
  apply bind_inv in E as (u & n1 & w1 & (k & _ & -> & ->)%Lock_inv & E).
  rewrite Hnew, decide_False in E by (intros []; done).
  apply bind_inv in E as ([tr ep] & n2 & w2 & E2 & E).
  pose proof (unasked_transport_endpoint _ _ _ _ _ _ _ E2) as D2. apply quietly_transport_endpoint in E2.
  apply bind_inv in E as (ts & n3 & w3 & (-> & D3 & Hts)%time_asked & E).
  apply bind_inv in E as (ps & n4 & w4 & E4 & E).
  pose proof (unasked_port_frames _ _ _ _ _ _ E4) as D4. apply quietly_port_frames in E4.
  apply bind_inv in E as (v & n5 & w5 & [= <- <- <-] & E).
  apply bind_inv in E as (url & n6 & w6 & E6 & E).
  pose proof (unasked_receive _ _ _ _ _ _ E6) as D6. apply quietly_receive in E6.
  apply bind_inv in E as (x & n7 & w7 & [= <- <- <-] & E). unfold id in E.
  apply bind_inv in E as (ret & n8 & w8 & E8 & E).
  assert (Q6 : quiet n n6) by (etrans; [|exact E6]; etrans; [|exact E4]; etrans; [|exact E2]; by split).
  assert (D : w6.2 = w.2) by (rewrite D6; cbn; congruence).
  destruct (Hclock w2.1 url) as [Hi1 Hi2]. rewrite <- Hts in *.
  apply bind_inv in E as (y & n9 & w9 & E9 & E).
  apply bind_inv in E as (z & n10 & w10 & [= <- <- <-] & [= -> <- <-]).
  rewrite decide_True in E9 by done. injection E9 as <- <- <-.
  apply (registration_sent domain) in E8 as (Q8 & Hip & ip & HR);
    [|by rewrite (quiet_serviceDirectoryNode _ _ Q6)|by rewrite D|lia|by rewrite D].
  exists url, ts, ip. rewrite <- D. cbn. split_and!.
  - by rewrite lookup_insert_eq.
  - rewrite idx_insert, decide_True by done. unfold epoch_seconds, regTimeSecs. apply u32_id.
    unfold is_u32, u32_max in *. split; [apply Z.div_pos; lia|apply Z.div_lt_upper_bound; lia].
  - by rewrite (quiet_serviceDirectoryNode _ _ Q8), (quiet_serviceDirectoryNode _ _ Q6).
  - by rewrite (quiet_serviceDirectoryNode _ _ Q6) in Hip.
  - rewrite (quiet_componentID _ _ Q6) in HR. exact HR.
Qed.

(** ** Looking up *)

Definition lookup_in (domain dom : string) : string := if decide (dom = "") then domain else dom.

Lemma lookup_served domain i dom st :
  sd_reachable domain st →
  let '(g, st') := serve (node_lookup_request i dom DATA) st in
  same_registry domain st st' ∧
  (populateMessage g).1 =
    mkComponentDataLookupResponsePB i (publishers_of st (lookup_in domain dom) i) (lookup_in domain dom).
Proof.
  intros Hr. pose proof (sd_reach_step domain (Lookup (mkComponentLookupRequestPB (Some i) (Some DATA) (Some dom))) st Hr) as Hr'.
  cbn [sd_step] in Hr'. unfold serve, request.
  change (getDataProductID _) with "ComponentLookupRequest". rewrite decide_True by done.
  unfold node_lookup_request. rewrite (proj1 (setData_populateMessage _ _)). cbn [fst].
  set (lookup := mkComponentLookupRequestPB _ _ _) in *.
  pose proof (data_lookup_spec lookup st eq_refl) as HL. pose proof (quiet_lookup lookup st) as Hq.
  assert (Hs : (∀ d, sMap_of (handleLookup lookup st).2 d = sMap_of st d) ∧
    ∀ u, instance_of (handleLookup lookup st).2 u = instance_of st u) by done.
  destruct (handleLookup lookup st) as [response st1]. cbn [fst snd] in *. rewrite HL.
  destruct (process_pending_same st1) as (_ & P & S & I). destruct Hs as [S1 I1]. split; [split; [done|..]|].
  - intros d k. by rewrite P, (quiet_publishers _ _ Hq).
  - intros d. by rewrite S.
  - intros u. by rewrite I.
  - rewrite (proj1 (setData_populateMessage _ _)). cbn. unfold lookup_domain. cbn.
    by rewrite (sd_reachable_domain _ _ Hr).
Qed.

Lemma lookup_answered domain i dom urls n w ret l n' w' :
  network_url (gn_serviceDirectoryNode n) = sdURL → sd_reachable domain w.2 →
  ServiceDirectoryDataProductLookup i dom urls n w = Some ((ret, l), n', w') →
  same_registry domain w.2 w'.2 ∧
  (ret = SUCCESS → l = urls ++ publishers_of w.2 (lookup_in domain dom) i).
Proof.
  intros Hu Hr ([ret1 g] & n1 & w1 & E1 & E)%bind_inv.
  set (answer := λ st g, (populateMessage g).1 =
    mkComponentDataLookupResponsePB i (publishers_of st (lookup_in domain dom) i) (lookup_in domain dom)).
  apply (directory_request _ (same_registry domain) answer w.2) in E1; [|..|done|done].
  - destruct E1 as [Hb Hs]. destruct (decide (ret1 = SUCCESS)) as [->|Hne].
    + injection E as <- <- <- <-. destruct (Hs eq_refl) as (HS & g' & Hg & Ha). cbn [snd] in Hg.
      split; [done|]. intros _. rewrite Hg. unfold GravityDataProduct_from_bytes, serializeToArray.
      rewrite parse_serialize. cbn [fst]. by rewrite Ha.
    + injection E as <- <- <- <-. by destruct Hb as [->|HS].
  - pose proof (lookup_served domain i dom w.2 Hr) as Hs. by destruct (serve _ w.2).
  - intros st HS. pose proof (lookup_served domain i dom st (sr_reachable _ _ _ HS)) as Hs.
    destruct (serve _ st) as [g' st']. destruct Hs as (HS2 & Ha). cbn [fst snd].
    split; [by eapply same_registry_trans|]. unfold answer. by rewrite Ha, (sr_publishers _ _ _ HS).
Qed.

(** ** Unregistering *)

Lemma unregistration_served domain r st :
  ur_domain r = None → default DATA (ur_type r) = DATA → sd_reachable domain st →
  unrecorded domain r st (serve (setData r (new_GravityDataProduct "UnregistrationRequest")) st).2.
Proof.
  intros Hd Ht Hr. unfold serve, request. change (getDataProductID _) with "UnregistrationRequest".
  repeat (rewrite decide_False by done). rewrite decide_True by done.
  rewrite (proj1 (setData_populateMessage r _)). cbn [fst].
  pose proof (unregister_unrecorded domain r Hd Ht st Hr) as HU. cbn [sd_step] in HU.
  by destruct (handleUnregister r st).
Qed.

Definition product_unregistration (i url : string) (secs : Z) : ServiceDirectoryUnregistrationPB :=
  mkServiceDirectoryUnregistrationPB (Some i) (Some url) (Some DATA) None (Some secs).

Lemma unregistration_sent domain r n w n' w' :
  network_url (gn_serviceDirectoryNode n) = sdURL → sd_reachable domain w.2 →
  ur_domain r = None → default DATA (ur_type r) = DATA →
  send_unregistration r n w = Some (SUCCESS, n', w') → unrecorded domain r w.2 w'.2.
Proof.
  intros Hu Hr Hd Ht ([ret g] & n1 & w1 & E1 & E)%bind_inv.
  apply (directory_request _ (unrecorded domain r) (λ _ _, True) w.2) in E1; [|..|done|done].
  - destruct (decide (ret = SUCCESS)) as [->|]; [|by injection E]. injection E as _ <- <-. by apply E1.
  - split; [by apply unregistration_served|done].
  - intros st HU. split; [|done]. eapply unrecorded_again; [exact HU|].
    apply unregistration_served; [done|done|apply HU].
Qed.

Lemma unregistered_unrecorded domain i url n w n' w' :
  gn_publishMap n !! i = Some url → network_url (gn_serviceDirectoryNode n) = sdURL →
  nn_ipAddress (gn_serviceDirectoryNode n) ≠ "" → sd_reachable domain w.2 →
  unregisterDataProduct i n w = Some (SUCCESS, n', w') →
  unrecorded domain (product_unregistration i url (idx 0 i (gn_dataRegistrationTimeMap n))) w.2 w'.2.
Proof.
  intros Hurl Hu Hip Hr E. unfold unregisterDataProduct, when_initialized in E.
  apply bind_inv in E as (b & n1 & w1 & [= <- <- <-] & E). destruct (negb _); [by injection E|].
  apply bind_inv in E as (u & n1 & w1 & (k & _ & -> & ->)%Lock_inv & E).
  apply bind_inv in E as (x & n2 & w2 & [= <- <- <-] & E). unfold id in E.
  change (gn_publishMap (set_semaphore publishManagerRequestSWL k n)) with (gn_publishMap n) in E.
  rewrite Hurl in E. apply bind_inv in E as (ret & n3 & w3 & E3 & E).
  apply bind_inv in E as (u' & n4 & w4 & [= <- <- <-] & [= -> <- <-]).
  apply bind_inv in E3 as (v & n5 & w5 & [= <- <- <-] & E).
  apply bind_inv in E as (v & n6 & w6 & E6 & E).
  pose proof (unasked_receive _ _ _ _ _ _ E6) as D6. apply quietly_receive in E6.
  apply bind_inv in E as (v' & n7 & w7 & [= <- <- <-] & E).
  apply bind_inv in E as (secs & n8 & w8 & E8 & E).
  apply bind_inv in E8 as (y & n9 & w9 & [= <- <- <-] & E8).
  apply bind_inv in E8 as (v'' & n10 & w10 & [= <- <- <-] & [= <- <- <-]).
  apply bind_inv in E as (v3 & n11 & w11 & [= <- <- <-] & E).
  pose proof (quiet_registration_time _ _ E6 i) as Ht. cbn in Ht, D6.
  pose proof (quiet_serviceDirectoryNode _ _ E6) as Hsd. cbn in Hsd.
  rewrite decide_True in E by done.
  apply (unregistration_sent domain) in E; [|cbn; by rewrite Hsd|cbn; by rewrite D6|done|done].
  cbn in E. by rewrite Ht, D6 in E.
Qed.

(** ** The life of a data product *)

(** C4. What a node registers, another one finds: once, at the url it is published at, with the
    registration time its publications carry, next to the other publishers; until it is
    unregistered, and then the others are still there.  The network may lose requests or
    answers, so that the directory serves some of them several times. *)
Theorem product_life domain i t cache isRelay localOnly reserved dom n w n1 w1 m l m1 w2 n2 w3 l' m2 w4 :
  network_url (gn_serviceDirectoryNode n) = sdURL → network_url (gn_serviceDirectoryNode m) = sdURL →
  gn_publishMap n !! i = None → sd_reachable domain w.2 → clock_fits w.2 → dom = "" ∨ dom = domain →
  registerDataProductInternal i t cache isRelay localOnly reserved n w = Some (SUCCESS, n1, w1) →
  ServiceDirectoryDataProductLookup i dom [] m w1 = Some ((SUCCESS, l), m1, w2) →
  unregisterDataProduct i n1 w2 = Some (SUCCESS, n2, w3) →
  ServiceDirectoryDataProductLookup i dom [] m1 w3 = Some ((SUCCESS, l'), m2, w4) →
  ∃ url, gn_publishMap n1 !! i = Some url ∧
    (∃ info, base.filter (has_url url) l = [info] ∧
      num (pi_registration_time info) = idx 0 i (gn_dataRegistrationTimeMap n1)) ∧
    other_urls url l = other_urls url (publishers_of w.2 domain i) ∧
    l' = other_urls url l.
Proof.
  intros Hu Hm Hnew Hr Hclock Hdom E1 E2 E3 E4.
  apply (registered_recorded domain) in E1 as (url & ts & ip & Hurl & Htime & Hsd & Hip & HR); [|done..].
  pose proof (rc_reachable _ _ _ _ HR) as Hr1. pose proof (rc_entry _ _ _ _ HR) as Hlisted. cbn in Hlisted.
  pose proof (quietly_ServiceDirectoryDataProductLookup _ _ _ _ _ _ _ _ E2) as Q2.
  eapply lookup_answered in E2 as ([Hr2 Hp2 _ _] & Hl); [|done..]. specialize (Hl eq_refl). cbn in Hl.
  apply (unregistered_unrecorded domain i url) in E3 as HU; [|done|by rewrite Hsd|by rewrite Hsd|done].
  assert (Hlisted2 : listed w2.2 domain i url (idx 0 i (gn_dataRegistrationTimeMap n1))).
  { unfold listed. by rewrite Hp2, Htime. }
  pose proof (unrecorded_url domain (product_unregistration i url _) _ _ Hlisted2 HU) as [Hgone Hothers].
  cbn in Hgone, Hothers.
  eapply lookup_answered in E4 as (_ & Hl');
    [|by rewrite (quiet_serviceDirectoryNode _ _ Q2)|apply HU]. specialize (Hl' eq_refl). cbn in Hl'.
  assert (Hin : lookup_in domain dom = domain) by (unfold lookup_in; by destruct Hdom as [->| ->]; goal_decide).
  rewrite Hin in Hl, Hl'.
  exists url. rewrite Hl. split_and!; [done|by rewrite Htime|apply (rc_others _ _ _ _ HR)|].
  rewrite <- (Hp2 domain i), <- Hothers, <- Hl'. symmetry. apply list_filter_all, Forall_forall.
  intros p Hp Hpu. assert (Hf : p ∈ base.filter (has_url url) l') by by apply list_elem_of_filter.
  rewrite Hl', Hgone in Hf. by apply not_elem_of_nil in Hf.
Qed.

(** ** A restarted directory *)

(** What registering again depends on. *)
Record same_names (n n' : GravityNode) : Prop := {
  sn_directory : gn_serviceDirectoryNode n' = gn_serviceDirectoryNode n;
  sn_publishMap : gn_publishMap n' = gn_publishMap n;
  sn_serviceMap : gn_serviceMap n' = gn_serviceMap n;
  sn_subscriptions : gn_subscriptionList n' = gn_subscriptionList n;
  sn_instance u : idx 0 u (gn_urlInstanceMap n') = idx 0 u (gn_urlInstanceMap n);
}.
#[local] Instance same_names_preorder : PreOrder same_names.
Proof. split; [by split|]. intros n1 n2 n3 [] []. split; intros; etrans; eauto. Qed.

Lemma same_names_quiet n n' : quiet n n' → same_names n n'.
Proof. intros []. split; [done..|]. intros u. by f_equal. Qed.

(** What [reregister] tells the directory of an entry of the maps of publishers and services. *)
Definition entry_registration (c : string) (type : RegistrationType) (entry : string * string) (ts : Z)
    : ServiceDirectoryRegistrationPB :=
  mkServiceDirectoryRegistrationPB (Some entry.1) (Some entry.2) (Some type) (Some c) None (Some ts) None None.

Definition entry_known (domain : string) (type : RegistrationType) (entry : string * string) (ts : Z) st : Prop :=
  match type with
  | DATA => listed st domain entry.1 entry.2 (regTimeSecs ts)
  | SERVICE => sMap_of st domain !! entry.1 = Some entry.2 ∧ instance_of st entry.2 = ts
  end.

(** What the directory knows of an entry is what it knew. *)
Definition entry_same (domain : string) (type : RegistrationType) (entry : string * string) st st' : Prop :=
  instance_of st' entry.2 = instance_of st entry.2 ∧
  match type with
  | DATA => base.filter (has_url entry.2) (publishers_of st' domain entry.1) =
      base.filter (has_url entry.2) (publishers_of st domain entry.1)
  | SERVICE => sMap_of st' domain !! entry.1 = sMap_of st domain !! entry.1
  end.

(** An entry is known again, unless the directory knew a later registration of its url. *)
Definition registered_again (domain : string) (type : RegistrationType) (entry : string * string) (ts : Z) st st' : Prop :=
  if decide (instance_of st entry.2 <= ts) then entry_known domain type entry ts st'
  else entry_same domain type entry st st'.

Lemma entry_same_trans domain type entry st1 st2 st3 :
  entry_same domain type entry st1 st2 → entry_same domain type entry st2 st3 →
  entry_same domain type entry st1 st3.
Proof. intros [I1 E1] [I2 E2]. split; [congruence|]. destruct type; congruence. Qed.

Lemma entry_same_registry domain type entry st st' :
  same_registry domain st st' → entry_same domain type entry st st'.
Proof. intros [_ P S I]. split; [apply I|]. destruct type; [by rewrite P|by rewrite S]. Qed.

Lemma registered_again_then domain type entry ts st st1 st2 :
  registered_again domain type entry ts st st1 → entry_same domain type entry st1 st2 →
  registered_again domain type entry ts st st2.
Proof.
  unfold registered_again. case_decide; [|apply entry_same_trans]. intros Hk [Hi He].
  unfold entry_known, listed in *. destruct type; [by rewrite He|by rewrite He, Hi].
Qed.

Lemma then_registered_again domain type entry ts st st1 st2 :
  entry_same domain type entry st st1 → registered_again domain type entry ts st1 st2 →
  registered_again domain type entry ts st st2.
Proof.
  intros Hs. unfold registered_again. rewrite (proj1 Hs). case_decide; [done|]. by apply entry_same_trans.
Qed.

Lemma entry_registered_again domain c type entry ts st st' :
  effect domain (entry_registration c type entry ts) st st' → registered_again domain type entry ts st st'.
Proof.
  unfold effect, registered_again. change (num (rg_timestamp (entry_registration c type entry ts))) with ts.
  change (str (rg_url (entry_registration c type entry ts))) with entry.2. case_decide as Hi.
  - intros HR. pose proof (rc_entry _ _ _ _ HR) as He. cbn in He. unfold entry_known. destruct type; [done|].
    split; [|done]. rewrite (rc_services _ _ _ _ HR). by rewrite decide_True.
  - apply entry_same_registry.
Qed.

(** Registering another entry does not concern it. *)
Lemma entry_kept domain c type entry ts type' entry' st st' :
  effect domain (entry_registration c type entry ts) st st' →
  entry'.2 ≠ entry.2 → (type = SERVICE → type' = SERVICE → entry'.1 ≠ entry.1) →
  entry_same domain type' entry' st st'.
Proof.
  unfold effect. case_decide; [|intros; by apply entry_same_registry]. intros HR Hu Hi.
  split; [by apply (rc_instances _ _ _ _ HR)|]. destruct type'.
  - pose proof (rc_others _ _ _ _ HR domain entry'.1) as Ho. cbn in Ho.
    by rewrite <- (filter_other _ _ _ Hu), Ho, filter_other.
  - rewrite (rc_services _ _ _ _ HR), decide_False; [done|]. cbn. intros [? ?]. by apply Hi.
Qed.

Lemma reregister_once domain r n w ret n' w' :
  rg_domain r = None → is_Some (rg_timestamp r) → 0 <= num (rg_timestamp r) →
  network_url (gn_serviceDirectoryNode n) = sdURL → sd_reachable domain w.2 →
  ('(ret, _) ← sendRequestToServiceDirectory (setData r (new_GravityDataProduct "RegistrationRequest"))
     (new_GravityDataProduct "RegistrationResponse"); mret ret) n w = Some (ret, n', w') →
  quiet n n' ∧ (w'.2 = w.2 ∨ effect domain r w.2 w'.2) ∧ (ret = SUCCESS → effect domain r w.2 w'.2).
Proof.
  intros Hd Ht Hpos Hu Hr ([ret1 g] & n1 & w1 & E1 & [= <- <- <-])%bind_inv.
  split; [by eapply quietly_sendRequestToServiceDirectory|].
  by eapply effect_requested.
Qed.

Lemma resend_effect domain r k ret n w n' w' st0 :
  rg_domain r = None → is_Some (rg_timestamp r) → 0 <= num (rg_timestamp r) →
  network_url (gn_serviceDirectoryNode n) = sdURL → sd_reachable domain st0 →
  (w.2 = st0 ∨ effect domain r st0 w.2) → (ret = SUCCESS → effect domain r st0 w.2) →
  resend ('(ret, _) ← sendRequestToServiceDirectory (setData r (new_GravityDataProduct "RegistrationRequest"))
    (new_GravityDataProduct "RegistrationResponse"); mret ret) k ret n w = Some (SUCCESS, n', w') →
  quiet n n' ∧ effect domain r st0 w'.2.
Proof.
  intros Hd Ht Hpos Hu Hr. revert ret n w Hu.
  induction k as [|k IH]; intros ret n w Hu Hb Hs E; cbn [resend] in E.
  { injection E as -> <- <-. split; [done|by apply Hs]. }
  destruct (decide _) as [->|Hne]; [injection E as <- <-; split; [done|by apply Hs]|].
  apply bind_inv in E as (ret1 & n1 & w1 & E1 & E).
  apply (reregister_once domain) in E1 as (Q & Hb1 & Hs1);
    [|done..|destruct Hb as [->|Hb]; [done|by eapply effect_reachable]].
  destruct (IH ret1 n1 w1) as [Q2 HR]; [by rewrite (quiet_serviceDirectoryNode _ _ Q)|..|exact E|].
  - destruct Hb as [Hb|Hb]; [by rewrite Hb in Hb1|]. destruct Hb1 as [->|Hb1]; [by right|].
    right. by eapply effect_again.
  - intros Hr1. specialize (Hs1 Hr1). destruct Hb as [Hb|Hb]; [by rewrite Hb in Hs1|].
    by eapply effect_again.
  - split; [by etrans|done].
Qed.

Lemma reregister_effect domain c type entry n w n' w' :
  let ts := idx 0 entry.2 (gn_urlInstanceMap n) in
  network_url (gn_serviceDirectoryNode n) = sdURL → sd_reachable domain w.2 → 0 <= ts →
  reregister c type entry n w = Some (SUCCESS, n', w') →
  same_names n n' ∧ effect domain (entry_registration c type entry ts) w.2 w'.2.
Proof.
  intros ts Hu Hr Hpos (t & n1 & w1 & E1 & E)%bind_inv.
  assert (K : same_names n n1 ∧ w1 = w ∧ t = ts).
  { apply bind_inv in E1 as (m & n2 & w2 & [= <- <- <-] & E1).
    apply bind_inv in E1 as (u & n2 & w2 & [= <- <- <-] & [= <- <- <-]).
    split_and!; [|done|done]. split; try done. intros u'. cbn. unfold update. cbn. apply idx_touch_idx. }
  destruct K as (S1 & -> & ->). apply bind_inv in E as (ret & n2 & w2 & E2 & E).
  change (mkServiceDirectoryRegistrationPB _ _ _ _ _ _ _ _) with (entry_registration c type entry ts) in E, E2.
  apply (reregister_once domain) in E2 as (Q & Hb & Hs);
    [|done|by eexists|done|by rewrite (sn_directory _ _ S1)|done].
  apply (resend_effect domain) with (st0 := w.2) in E as (Q2 & HR);
    [|done|by eexists|done|by rewrite (quiet_serviceDirectoryNode _ _ Q), (sn_directory _ _ S1)|done..].
  split; [|done]. etrans; [exact S1|]. apply same_names_quiet. by etrans.
Qed.

(** One failure is enough for the whole to fail. *)
Lemma reregister_all_code c type entries ret n w n' w' :
  reregister_all c type entries ret n w = Some (SUCCESS, n', w') → ret = SUCCESS.
Proof.
  revert ret n w. induction entries as [|e entries IH]; intros ret n w E; cbn [reregister_all] in E.
  { by injection E as -> _ _. }
  apply bind_inv in E as (r & n1 & w1 & _ & E). apply IH in E. by destruct (decide (r = SUCCESS)).
Qed.

(** All entries of one kind: what [reregister_all] needs and what it leaves. *)
Lemma reregister_all_again domain c type entries ret n w n' w' :
  let ts := λ u, idx 0 u (gn_urlInstanceMap n) in
  network_url (gn_serviceDirectoryNode n) = sdURL → sd_reachable domain w.2 →
  NoDup entries.*1 → NoDup entries.*2 → Forall (λ e, 0 <= ts e.2) entries →
  reregister_all c type entries ret n w = Some (SUCCESS, n', w') →
  ret = SUCCESS ∧ same_names n n' ∧ sd_reachable domain w'.2 ∧
  Forall (λ e, registered_again domain type e (ts e.2) w.2 w'.2) entries ∧
  ∀ type' e, e.2 ∉ entries.*2 → (type = SERVICE → type' = SERVICE → e.1 ∉ entries.*1) →
    entry_same domain type' e w.2 w'.2.
Proof.
  intros ts. revert ret n w ts. induction entries as [|e entries IH]; intros ret n w ts Hu Hr Hid Hurl Hts E;
    cbn [reregister_all] in E.
  { injection E as -> <- <-. split_and!; [done|done|done|constructor|]. intros type' e _ _. split; [done|].
    by destruct type'. }
  apply bind_inv in E as (r & n1 & w1 & E1 & E).
  apply NoDup_cons in Hid as [Hid1 Hid]. apply NoDup_cons in Hurl as [Hurl1 Hurl].
  apply Forall_cons in Hts as [Hpos Hts]. cbn [fst snd] in *.
  assert (K : r = SUCCESS ∧ ret = SUCCESS).
  { apply reregister_all_code in E. by destruct (decide (r = SUCCESS)). }
  destruct K as [-> ->]. rewrite decide_True in E by done.
  apply (reregister_effect domain) in E1 as [S1 HR]; [|done..]. fold ts in HR.
  apply IH in E as (_ & S2 & Hr2 & Hk & Hkeep);
    [|by rewrite (sn_directory _ _ S1)|by eapply effect_reachable|done|done|].
  2:{ eapply Forall_impl; [exact Hts|]. intros e' He'. by rewrite (sn_instance _ _ S1). }
  split_and!; [done|by etrans|done| |].
  - apply Forall_cons. split.
    + eapply registered_again_then; [by eapply entry_registered_again|]. by apply Hkeep.
    + rewrite Forall_forall in Hk |- *. intros e' He'. specialize (Hk e' He'). cbv beta zeta in Hk.
      rewrite (sn_instance _ _ S1) in Hk. eapply then_registered_again; [|exact Hk].
      eapply entry_kept; [exact HR| |].
      * intros Heq. apply Hurl1. rewrite <- Heq. apply list_elem_of_fmap. by exists e'.
      * intros _ _ Heq. apply Hid1. rewrite <- Heq. apply list_elem_of_fmap. by exists e'.
  - intros type' e' [He1 He2]%not_elem_of_cons Hid'. eapply entry_same_trans; [|apply Hkeep; [done|]].
    + eapply entry_kept; [exact HR|done|].
      intros T1 T2. specialize (Hid' T1 T2). by apply not_elem_of_cons in Hid' as [? _].
    + intros T1 T2. specialize (Hid' T1 T2). by apply not_elem_of_cons in Hid' as [_ ?].
Qed.

(** An operation that only looks things up in the directory. *)
Definition only_looks {A} (domain : string) (op : node world A) : Prop :=
  ∀ n w x n' w', network_url (gn_serviceDirectoryNode n) = sdURL → sd_reachable domain w.2 →
    op n w = Some (x, n', w') →
    same_registry domain w.2 w'.2 ∧ gn_serviceDirectoryNode n' = gn_serviceDirectoryNode n.

Lemma same_registry_refl domain st : sd_reachable domain st → same_registry domain st st.
Proof. by split. Qed.

Lemma only_looks_bind {A B} domain (op : node world A) (k : A → node world B) :
  only_looks domain op → (∀ x, only_looks domain (k x)) → only_looks domain (op ≫= k).
Proof.
  intros Ho Hk n w y n' w' Hu Hr (x & n1 & w1 & E1 & E2)%bind_inv.
  apply Ho in E1 as [R1 U1]; [|done..].
  apply Hk in E2 as [R2 U2]; [|by rewrite U1|apply R1]. split; [by eapply same_registry_trans|congruence].
Qed.

Lemma only_looks_unasked {A} domain (op : node world A) : unasked op → quietly op → only_looks domain op.
Proof.
  intros Ho Hq n w x n' w' Hu Hr E. pose proof (quiet_serviceDirectoryNode _ _ (Hq _ _ _ _ _ E)).
  apply Ho in E. split; [rewrite E; by apply same_registry_refl|done].
Qed.

Ltac looks_done := apply only_looks_unasked; [unasked_solve|quiet_solve].

Lemma only_looks_lookup domain i dom l : only_looks domain (ServiceDirectoryDataProductLookup i dom l).
Proof.
  intros n w [ret l'] n' w' Hu Hr E.
  pose proof (quiet_serviceDirectoryNode _ _ (quietly_ServiceDirectoryDataProductLookup _ _ _ _ _ _ _ _ E)).
  by eapply lookup_answered in E as [? _].
Qed.

Lemma only_looks_registered domain k found : only_looks domain (lookup_registered_publishers k found).
Proof.
  assert (Hret : ∀ x : GravityReturnCode * list PublisherInfoPB, only_looks domain (mret (M:=node world) x)).
  { intros x. apply only_looks_unasked; [apply leaves_ret|apply quietly_ret]. }
  revert found. induction k as [|k IH]; intros found; cbn [lookup_registered_publishers];
    [destruct found; apply Hret|].
  destruct found as [|p found]; [|apply Hret].
  apply only_looks_bind; [looks_done|intros n].
  apply only_looks_bind; [apply only_looks_lookup|intros [ret found]].
  destruct (decide _); [apply Hret|].
  apply only_looks_bind; [|intros _; apply IH].
  looks_done.
Qed.

Lemma only_looks_subscribe domain i s f d b : only_looks domain (subscribeInternal i s f d b).
Proof.
  unfold subscribeInternal, when_initialized.
  apply only_looks_bind; [looks_done|intros []]; cbn [negb].
  2:{ looks_done. }
  apply only_looks_bind; [looks_done|intros n].
  apply only_looks_bind; [apply only_looks_lookup|intros [ret l]].
  destruct (decide _); [looks_done|].
  apply only_looks_bind; [apply only_looks_registered|intros [ret2 found]].
  destruct (decide _); [looks_done|].
  destruct found as [|info found]; [looks_done|].
  destruct (decide _); [looks_done|].
  apply only_looks_bind; [looks_done|intros _].
  intros m w x m' w' Hu Hr (u & m1 & w1 & [= <- <- <-] & [= <- <- <-])%bind_inv.
  split; [by apply same_registry_refl|done].
Qed.

Lemma only_looks_resubscribe_all domain ds : only_looks domain (resubscribe_all ds).
Proof.
  induction ds as [|d ds IH]; cbn [resubscribe_all];
    [looks_done|].
  apply only_looks_bind; [|intros _; exact IH]. unfold resubscribe.
  apply only_looks_bind; [apply only_looks_subscribe|].
  generalize 3%nat. intros k. induction k as [|k IHk]; intros ret; cbn [resend];
    [looks_done|].
  destruct (decide _); [looks_done|].
  apply only_looks_bind; [apply only_looks_subscribe|exact IHk].
Qed.

Lemma directory_moved url sd n w x n' w' :
  parse_url url = Some sd → updateServiceDirectoryUrl url n w = Some (x, n', w') →
  same_names (n <| gn_serviceDirectoryNode := sd |>) n' ∧ w'.2 = w.2.
Proof.
  intros Hp (u & n1 & w1 & (k & _ & -> & ->)%Lock_inv & E)%bind_inv. rewrite Hp in E.
  apply bind_inv in E as (u1 & n2 & w2 & [= <- <- <-] & E).
  assert (Hq : quiet (set_semaphore serviceDirectoryLock k n <| gn_serviceDirectoryNode := sd |>) n').
  { revert E. match goal with |- ?m ?a w = _ → _ => assert (Hm : quietly m) by (cbv zeta; quiet_solve) end. apply Hm. }
  split; [apply same_names_quiet in Hq; etrans; [|exact Hq]; by split|].
  revert E. match goal with |- ?m ?a w = _ → _ => assert (Hm : unasked m) by (cbv zeta; unasked_solve) end. apply Hm.
Qed.

(** The three parts of a run of [ServiceDirectoryReregister] with success. *)
Lemma reregister_phases c url sd n w n' w' :
  parse_url url = Some sd → ServiceDirectoryReregister c url n w = Some (SUCCESS, n', w') →
  ∃ m1 w1 n1 w2 m2 n2 w3 m3 x n3,
    same_names (n <| gn_serviceDirectoryNode := sd |>) m1 ∧ w1.2 = w.2 ∧
    reregister_all c DATA (kv_items (gn_publishMap m1)) SUCCESS m1 w1 = Some (SUCCESS, n1, w2) ∧
    same_names n1 m2 ∧
    reregister_all c SERVICE (kv_items (gn_serviceMap m2)) SUCCESS m2 w2 = Some (SUCCESS, n2, w3) ∧
    same_names n2 m3 ∧ resubscribe_all (gn_subscriptionList m3) m3 w3 = Some (x, n3, w').
Proof.
  intros Hp (x1 & n1 & w1 & E1 & E)%bind_inv. apply (directory_moved url sd) in E1 as [S1 D1]; [|done].
  apply bind_inv in E as (x2 & n2 & w2 & (k & _ & -> & ->)%Lock_inv & E).
  apply bind_inv in E as (x3 & n3 & w3 & [= <- <- <-] & E). unfold id in E.
  apply bind_inv in E as (r1 & n4 & w4 & E4 & E).
  apply bind_inv in E as (x5 & n5 & w5 & [= <- <- <-] & E).
  apply bind_inv in E as (x6 & n6 & w6 & (k' & _ & -> & ->)%Lock_inv & E).
  apply bind_inv in E as (x7 & n7 & w7 & [= <- <- <-] & E). unfold id in E.
  apply bind_inv in E as (r2 & n8 & w8 & E8 & E).
  apply bind_inv in E as (x9 & n9 & w9 & [= <- <- <-] & E).
  apply bind_inv in E as (x10 & n10 & w10 & (k'' & _ & -> & ->)%Lock_inv & E).
  apply bind_inv in E as (x11 & n11 & w11 & [= <- <- <-] & E). unfold id in E.
  apply bind_inv in E as (x12 & n12 & w12 & E12 & E).
  apply bind_inv in E as (x13 & n13 & w13 & [= <- <- <-] & [= -> <- <-]).
  assert (r1 = SUCCESS) as -> by by eapply reregister_all_code.
  do 10 eexists. split_and!; [|exact D1|exact E4| |exact E8| |exact E12]; [|by split..].
  etrans; [exact S1|by split].
Qed.

(** C5. When a node registers again with success, as it does when its directory has restarted, the
    directory lists every data product and every service of the node, whatever it knew before
    and however often requests had to be repeated: at the url it has and with the registration
    time it had.  The only exception is a url of which the directory knows a later
    registration already: there it keeps what it knows.  The urls of the node's publishers and
    services are taken to be distinct. *)
Theorem restart_restores_registry domain c url sd n w n' w' :
  let ts := λ u, idx 0 u (gn_urlInstanceMap n) in
  let entries := kv_items (gn_publishMap n) ++ kv_items (gn_serviceMap n) in
  parse_url url = Some sd → network_url sd = sdURL → sd_reachable domain w.2 →
  NoDup entries.*2 → Forall (λ e, 0 <= ts e.2) entries →
  ServiceDirectoryReregister c url n w = Some (SUCCESS, n', w') →
  (∀ i u, gn_publishMap n !! i = Some u → registered_again domain DATA (i, u) (ts u) w.2 w'.2) ∧
  (∀ i u, gn_serviceMap n !! i = Some u → registered_again domain SERVICE (i, u) (ts u) w.2 w'.2).
Proof.
  intros ts entries Hp Hu Hr Hnd Hts E.
  apply (reregister_phases c url sd) in E
    as (m1 & w1 & n1 & w2 & m2 & n2 & w3 & m3 & x & n3 & T1 & D1 & E4 & Q2 & E8 & Q3 & E12); [|done].
  unfold entries in Hnd, Hts. rewrite fmap_app in Hnd. apply NoDup_app in Hnd as (Hnd1 & Hdis & Hnd2).
  apply Forall_app in Hts as [Hts1 Hts2].
  rewrite (sn_publishMap _ _ T1) in E4. cbn in E4.
  apply (reregister_all_again domain) in E4 as (_ & S4 & Hr4 & Hk4 & Hs4);
    [|by rewrite (sn_directory _ _ T1)|by rewrite D1|apply NoDup_kv_items_keys|done|].
  2:{ eapply Forall_impl; [exact Hts1|]. intros e He. by rewrite (sn_instance _ _ T1). }
  assert (T2 : same_names (n <| gn_serviceDirectoryNode := sd |>) m2).
  { etrans; [exact T1|]. by etrans. }
  rewrite (sn_serviceMap _ _ T2) in E8. cbn in E8.
  apply (reregister_all_again domain) in E8 as (_ & S8 & Hr8 & Hk8 & Hs8);
    [|by rewrite (sn_directory _ _ T2)|done|apply NoDup_kv_items_keys|done|].
  2:{ eapply Forall_impl; [exact Hts2|]. intros e He. by rewrite (sn_instance _ _ T2). }
  assert (T3 : same_names (n <| gn_serviceDirectoryNode := sd |>) m3).
  { etrans; [exact T2|]. by etrans. }
  apply (only_looks_resubscribe_all domain) in E12 as [HS _];
    [|by rewrite (sn_directory _ _ T3)|done].
  rewrite !Forall_forall in Hk4. rewrite !Forall_forall in Hk8. rewrite <- D1. split; intros i u Hi.
  - assert (Hin : (i, u) ∈ kv_items (gn_publishMap n)) by by apply elem_of_kv_items.
    specialize (Hk4 _ Hin). cbv beta zeta in Hk4. rewrite (sn_instance _ _ T1) in Hk4.
    eapply registered_again_then; [|by apply entry_same_registry]. eapply registered_again_then; [exact Hk4|].
    apply Hs8; [|done]. apply Hdis, list_elem_of_fmap. by exists (i, u).
  - assert (Hin : (i, u) ∈ kv_items (gn_serviceMap n)) by by apply elem_of_kv_items.
    specialize (Hk8 _ Hin). cbv beta zeta in Hk8. rewrite (sn_instance _ _ T2) in Hk8.
    eapply registered_again_then; [|by apply entry_same_registry]. eapply then_registered_again; [|exact Hk8].
    apply Hs4; [|done]. intros Hd. apply (Hdis u Hd). apply list_elem_of_fmap. by exists (i, u).
Qed.
End network.

(** ** Runs *)

Section witnesses.

(** Every other request to the directory is answered too late, but is served. *)
#[local] Instance lossy_environment : NodeEnvironment nat := {|
  env_time w := (5000000, w);
  env_send _ _ w := w;
  env_receive _ w := Some ("tcp://p:1", w);
  env_exchange _ _ _ w := (if Nat.even w then (PollExpired, false) else (PollReply "", false), S w);
  env_local_address _ _ := "10.0.0.2";
  env_resolve host := host;
  env_sleep _ w := w;
  env_start_heartbeat _ w := w;
  env_stop_heartbeat w := w;
  env_start_heartbeat_listener w := w;
  env_register_hbSub := 1;
  env_unregister_hbSub := 2;
  env_tolower c := c;
|}.

#[local] Instance net_gdp : Protobuf GravityDataProductPB :=
  quoted_protobuf empty_GravityDataProductPB gdp_to gdp_of "GravityDataProductPB".
#[local] Instance net_gdp_law : ProtobufLaw GravityDataProductPB := quoted_protobuf_law _ _ _ gdp_of_to _.
#[local] Instance net_registration : Protobuf ServiceDirectoryRegistrationPB :=
  quoted_protobuf (mkServiceDirectoryRegistrationPB None None None None None None None None)
    registration_to registration_of "".
#[local] Instance net_registration_law : ProtobufLaw ServiceDirectoryRegistrationPB :=
  quoted_protobuf_law _ _ _ registration_of_to _.
#[local] Instance net_unregistration : Protobuf ServiceDirectoryUnregistrationPB :=
  quoted_protobuf (mkServiceDirectoryUnregistrationPB None None None None None)
    unregistration_to unregistration_of "".
#[local] Instance net_unregistration_law : ProtobufLaw ServiceDirectoryUnregistrationPB :=
  quoted_protobuf_law _ _ _ unregistration_of_to _.
#[local] Instance net_lookup : Protobuf ComponentLookupRequestPB :=
  quoted_protobuf (mkComponentLookupRequestPB None None None) lookup_to lookup_of "".
#[local] Instance net_lookup_law : ProtobufLaw ComponentLookupRequestPB :=
  quoted_protobuf_law _ _ _ lookup_of_to _.
#[local] Instance net_lookup_response : Protobuf ComponentDataLookupResponsePB :=
  quoted_protobuf (mkComponentDataLookupResponsePB "" [] "") data_lookup_to data_lookup_of "".
#[local] Instance net_lookup_response_law : ProtobufLaw ComponentDataLookupResponsePB :=
  quoted_protobuf_law _ _ _ data_lookup_of_to _.
#[local] Existing Instances demo_node_config demo_node_response demo_node_service.
#[local] Instance net_publisher : Protobuf PublisherInfoPB := constant_protobuf empty_PublisherInfoPB.
#[local] Instance net_map : Protobuf ServiceDirectoryMapPB := constant_protobuf empty_ServiceDirectoryMapPB.

#[local] Instance lossy_network : NodeEnvironment (nat * ServiceDirectory) :=
  node_with_directory "tcp://10.0.0.1:5555" (λ _, true).

Definition network_start : nat * ServiceDirectory := (O, initial_ServiceDirectory "D").

Definition from_run {A} (r : option (A * GravityNode * (nat * ServiceDirectory)))
    : GravityNode * (nat * ServiceDirectory) :=
  match r with Some (_, n, w) => (n, w) | None => (demo_node, network_start) end.

(** A relay registers a product; another node looks it up; the relay unregisters it. *)
Definition register_run :=
  registerDataProductInternal "P" GravityTransportTypes.TCP false true false false demo_node network_start.
Definition registered := from_run register_run.
Definition lookup_run n w := ServiceDirectoryDataProductLookup "P" "" [] n w.
Definition found := from_run (lookup_run demo_node registered.2).
Definition unregister_run := unregisterDataProduct "P" registered.1 found.2.
Definition gone := from_run unregister_run.
Definition seen n w : list PublisherInfoPB :=
  match lookup_run n w with Some ((_, l), _, _) => l | None => [] end.

Lemma fresh_directory_clock st : sd_registrationInstanceMap st = ∅ → clock_fits st (E0:=lossy_environment).
Proof.
  intros He w url. unfold instance_of. rewrite He. unfold idx. rewrite lookup_empty. cbn.
  unfold u32_max. lia.
Qed.

Lemma product_life_witness :
  length (seen demo_node registered.2) = 1%nat ∧ seen found.1 gone.2 = [].
Proof.
  destruct (product_life "tcp://10.0.0.1:5555" (λ _ : nat, true) "D" "P" GravityTransportTypes.TCP
    false true false false "" demo_node network_start registered.1 registered.2
    demo_node (seen demo_node registered.2) found.1 found.2 gone.1 gone.2 (seen found.1 gone.2)
    (from_run (lookup_run found.1 gone.2)).1 (from_run (lookup_run found.1 gone.2)).2)
    as (url & Hurl & (info & Hf & Ht) & Ho & Hl).
  - reflexivity.
  - reflexivity.
  - reflexivity.
  - apply sd_reach_init.
  - by apply fresh_directory_clock.
  - by left.
  - vm_compute. reflexivity.
  - vm_compute. reflexivity.
  - vm_compute. reflexivity.
  - vm_compute. reflexivity.
  - assert (url = "tcp://p:1") as -> by (vm_compute in Hurl; by injection Hurl as <-).
    split; [by vm_compute|]. rewrite Hl. by vm_compute.
Defined.

(** The directory restarts, without what it knew, and the relay registers again. *)
Definition restart_run :=
  ServiceDirectoryReregister "C" "tcp://10.0.0.1:5555" registered.1 (O, initial_ServiceDirectory "D").
Definition restarted := from_run restart_run.

Lemma restart_restores_registry_witness : listed restarted.2.2 "D" "P" "tcp://p:1" 5.
Proof.
  apply (proj1 (restart_restores_registry "tcp://10.0.0.1:5555" (λ _ : nat, true) "D" "C"
    "tcp://10.0.0.1:5555" (mkNetworkNode "tcp" "10.0.0.1" 5555) registered.1
    (O, initial_ServiceDirectory "D") restarted.1 restarted.2 ltac:(by vm_compute) ltac:(by vm_compute)
    (sd_reach_init "D") ltac:(vm_compute; apply NoDup_singleton)
    ltac:(vm_compute; repeat constructor; discriminate) ltac:(by vm_compute)) "P" "tcp://p:1").
  by vm_compute.
Defined.

(** A registration that is renewed says nothing of a relay: to its subscribers the product of
    the relay is one like any other afterwards. *)
Lemma renewed_relay_plain :
  pi_isRelay <$> publishers_of registered.2.2 "D" "P" = [Some true] ∧
  pi_isRelay <$> publishers_of restarted.2.2 "D" "P" = [None].
Proof. by vm_compute. Qed.
End witnesses.
