(* ===== verification/GravityNodeSubscribing.v ===== *)
(** * Subscribing: the node, its subscription manager and the directory

    The publishers that the directory lists when a node subscribes are those that its
    subscription manager connects to.  The environment of the node has the manager, and over
    it the directory, which is asked over a network that may lose requests and answers. *)

From S2P Require Import Prelude.
From S2P Require Import Messages.
From S2P Require Import CommUtil.
From S2P Require Import GravityDataProduct.
From S2P Require Import MessageCodecs.
From S2P Require Import ServiceDirectory.
From S2P Require Import ReturnCodes.
From S2P Require Import GravityHeartbeat.
From S2P Require Import GravityNode.
From S2P Require Import GravityNodeAPI.
From S2P Require Import GravityNodeProofs.
From S2P Require Import GravityNodeComponents.
From S2P Require Import GravityNodeSubscriptions.
From S2P Require Import ServiceDirectoryProofs.
From S2P Require Import GravityNodeDirectory.
#[local] Open Scope gravity_scope.
#[local] Open Scope Z_scope.

Import GravityReturnCodes.

Section subscribing.
Context {W : Type} `{E0 : NodeEnvironment W}.
Context `{ProtobufLaw GravityDataProductPB, Protobuf GravityConfigParamPB,
  ProtobufLaw ServiceDirectoryRegistrationPB, ProtobufLaw ServiceDirectoryUnregistrationPB,
  Protobuf ServiceDirectoryResponsePB, ProtobufLaw ComponentLookupRequestPB,
  ProtobufLaw ComponentDataLookupResponsePB, Protobuf ComponentServiceLookupResponsePB,
  ProtobufLaw PublisherInfoPB}.

(** The address of the next object the manager allocates, the url of the directory, and
    whether it got a request that was not answered in time. *)
Variable address : SM.SubscriptionManager → Z.
Variable sdURL : string.
Variable reached : W * SM.SubscriptionManager → bool.

#[local] Instance managed_node : NodeEnvironment (W * SM.SubscriptionManager) := node_with_manager address.
#[local] Instance subscribing_node : NodeEnvironment (W * SM.SubscriptionManager * ServiceDirectory) :=
  node_with_directory sdURL reached.

Abbreviation world := (W * SM.SubscriptionManager * ServiceDirectory)%type.
Implicit Types w : world.

(** Requests to the directory leave the manager alone. *)
Lemma requests_leave_manager url g t w : (env_exchange url g t w).2.1.2 = w.1.2.
Proof.
  cbn. unfold exchange_with_directory. cbn. unfold exchange_beside, beside.
  destruct (env_exchange url g t w.1.1) as [[o i] w1]. cbn.
  destruct (decide (url = sdURL)); [|done]. destruct (serve _ w.2). by destruct o.
Qed.

(** The wait for the publisher of the directory's updates ends with what the directory lists. *)
Lemma updates_publisher_found domain k n w ret l n' w' :
  network_url (gn_serviceDirectoryNode n) = sdURL → sd_reachable domain w.2 →
  lookup_registered_publishers k [] n w = Some ((ret, l), n', w') →
  quiet n n' ∧ same_registry domain w.2 w'.2 ∧
  (ret = SUCCESS → l ≠ [] →
    l = publishers_of w.2 (lookup_in domain (gn_myDomain n)) REGISTERED_PUBLISHERS_DPID).
Proof.
  revert n w. induction k as [|k IH]; intros n w Hu Hr E; cbn [lookup_registered_publishers] in E.
  { injection E as <- <- <- <-. split; [done|]. split; [by apply same_registry_refl|done]. }
  apply bind_inv in E as (n0 & n1 & w1 & [= <- <- <-] & E). unfold Datatypes.id in E.
  apply bind_inv in E as ([ret1 found] & n2 & w2 & E2 & E).
  pose proof (quietly_ServiceDirectoryDataProductLookup _ _ _ _ _ _ _ _ E2) as Q2.
  apply (lookup_answered sdURL reached domain) in E2 as [S2 Hl]; [|done..]. cbn [app] in Hl.
  destruct (decide (ret1 ≠ SUCCESS)) as [Hne|Hs%dec_stable].
  { injection E as <- <- <- <-. split; [done|]. split; [done|]. intros; congruence. }
  specialize (Hl Hs). apply bind_inv in E as (x & n3 & w3 & E3 & E).
  assert (K : n3 = n2 ∧ w3.2 = w2.2).
  { destruct found as [|? [|? ?]]; [|by injection E3 as _ <- <-|];
      (destruct (decide _); injection E3 as _ <- <-; done). }
  destruct K as [-> D3]. destruct found as [|info found].
  - apply IH in E as (Q & S3 & Hf);
      [|by rewrite (quiet_serviceDirectoryNode _ _ Q2)|rewrite D3; apply S2].
    rewrite D3 in S3, Hf. split; [by etrans|]. split; [by eapply same_registry_trans|].
    intros Hret Hne. rewrite (Hf Hret Hne), (quiet_myDomain _ _ Q2). apply (sr_publishers _ _ _ S2).
  - assert (E' : Some ((SUCCESS, info :: found), n2, w3) = Some ((ret, l), n', w')) by by destruct k.
    injection E' as <- <- <- <-. rewrite D3. done.
Qed.

(** C20. A subscription that succeeds is one of the node's manager: for the product, filter and
    domain that are meant, for exactly the publishers that the directory lists there at the
    time, and for the url at which the directory publishes its updates.  One that fails leaves
    the manager as it was.  Neither changes what the directory knows. *)
Theorem subscribe_reaches_manager domain i subscriber filter dom receive n w ret n' w' :
  let publishers := publishers_of w.2 (lookup_in domain (meant_domain n dom)) i in
  network_url (gn_serviceDirectoryNode n) = sdURL → sd_reachable domain w.2 → is_u64 subscriber →
  Z.of_nat (length publishers) < u32_max →
  subscribe i subscriber filter dom receive n w = Some (ret, n', w') →
  same_registry domain w.2 w'.2 ∧
  if decide (ret = SUCCESS) then
    ∃ info url,
      head (publishers_of w.2 (lookup_in domain (gn_myDomain n)) REGISTERED_PUBLISHERS_DPID) = Some info ∧
      pi_url info = Some url ∧
      w'.1.2 = SM.addSubscription (SM.mkSubscribeRequest i
        (default (gn_defaultReceiveLastSentDataproduct n) receive) publishers filter
        (meant_domain n dom) url subscriber) w.1.2
  else w'.1.2 = w.1.2.
Proof.
  intros publishers Hu Hr Hp Hlen E. unfold subscribe in E.
  apply bind_inv in E as (u & n1 & w1 & (k & Hk & -> & ->)%Lock_inv & E).
  apply bind_inv in E as (n0 & n1 & w1 & [= <- <- <-] & E). unfold Datatypes.id in E.
  apply bind_inv in E as (r & n2 & w2 & ES & E).
  apply bind_inv in E as (u' & n3 & w3 & [= <- <- <-] & [= <- <- <-]).
  unfold subscribeInternal, when_initialized in ES.
  apply bind_inv in ES as (b & n3 & w3 & [= <- <- <-] & ES).
  destruct (negb _).
  { injection ES as <- <- <-. split; [by apply same_registry_refl|done]. }
  apply bind_inv in ES as (n0 & n3 & w3 & [= <- <- <-] & ES). unfold Datatypes.id in ES.
  apply bind_inv in ES as ([ret1 infos] & n3 & w3 & E1 & ES).
  pose proof (leaves_ServiceDirectoryDataProductLookup (λ w : world, w.1.2) requests_leave_manager
    _ _ _ _ _ _ _ _ E1) as M1.
  pose proof (quietly_ServiceDirectoryDataProductLookup _ _ _ _ _ _ _ _ E1) as Q1.
  apply (lookup_answered sdURL reached domain) in E1 as [S1 Hl]; [|done..].
  destruct (decide (ret1 ≠ SUCCESS)) as [Hne|Hs%dec_stable].
  { injection ES as <- <- <-. split; [done|]. by rewrite decide_False. }
  specialize (Hl Hs). cbn [app] in Hl.
  apply bind_inv in ES as ([ret2 found] & n4 & w4 & E2 & ES).
  pose proof (leaves_lookup_registered_publishers (λ w : world, w.1.2) requests_leave_manager
    (λ _ _, eq_refl) _ _ _ _ _ _ _ E2) as M2. cbv beta in M1, M2.
  apply (updates_publisher_found domain) in E2 as (Q2 & S2 & Hf);
    [|by rewrite (quiet_serviceDirectoryNode _ _ Q1)|apply S1].
  assert (S12 : same_registry domain w.2 w4.2) by by eapply same_registry_trans.
  destruct (decide (ret2 ≠ SUCCESS)) as [Hne|Hs2%dec_stable].
  { injection ES as <- <- <-. split; [done|]. rewrite decide_False by done. congruence. }
  destruct found as [|info found].
  { injection ES as <- <- <-. split; [done|]. rewrite decide_False by done. congruence. }
  destruct (decide (pi_url info = None)) as [Hnone|Hurl].
  { injection ES as <- <- <-. split; [done|]. rewrite decide_False by done. congruence. }
  apply bind_inv in ES as (u1 & na & wa & [= _ <- <-] & ES).
  apply bind_inv in ES as (u2 & nb & wb & [= <- <- <-] & [= <- <- <-]).
  split; [exact S12|]. rewrite decide_True by done.
  specialize (Hf Hs2 ltac:(done)). rewrite (sr_publishers _ _ _ S1), (quiet_myDomain _ _ Q1) in Hf.
  change (gn_myDomain (set_semaphore _ _ n)) with (gn_myDomain n) in *.
  destruct (pi_url info) as [url|] eqn:Eu; [|done]. exists info, url.
  split; [by rewrite <- Hf|]. split; [done|]. cbn [fst snd env_send subscribing_node].
  subst infos. fold publishers.
  destruct (subscription_commands_read w.1.2 (address w.1.2) i
    (default (gn_defaultReceiveLastSentDataproduct n) receive) publishers filter
    (meant_domain n dom) url subscriber 0) as [Es _]; [done..|].
  unfold manager_receives. rewrite M2, M1.
  exact (f_equal (λ o, match o with Some (m, _) => m | None => w.1.2 end) Es).
Qed.
End subscribing.

(** ** A run: a directory with a publisher of the product *)

Section witnesses.
#[local] Instance sub_environment : NodeEnvironment unit := GravityNodeProofs.demo_environment "".
#[local] Instance sub_gdp : Protobuf GravityDataProductPB :=
  quoted_protobuf empty_GravityDataProductPB gdp_to gdp_of "GravityDataProductPB".
#[local] Instance sub_gdp_law : ProtobufLaw GravityDataProductPB := quoted_protobuf_law _ _ _ gdp_of_to _.
#[local] Instance sub_registration : Protobuf ServiceDirectoryRegistrationPB :=
  quoted_protobuf (mkServiceDirectoryRegistrationPB None None None None None None None None)
    registration_to registration_of "".
#[local] Instance sub_registration_law : ProtobufLaw ServiceDirectoryRegistrationPB :=
  quoted_protobuf_law _ _ _ registration_of_to _.
#[local] Instance sub_unregistration : Protobuf ServiceDirectoryUnregistrationPB :=
  quoted_protobuf (mkServiceDirectoryUnregistrationPB None None None None None)
    unregistration_to unregistration_of "".
#[local] Instance sub_unregistration_law : ProtobufLaw ServiceDirectoryUnregistrationPB :=
  quoted_protobuf_law _ _ _ unregistration_of_to _.
#[local] Instance sub_lookup : Protobuf ComponentLookupRequestPB :=
  quoted_protobuf (mkComponentLookupRequestPB None None None) lookup_to lookup_of "".
#[local] Instance sub_lookup_law : ProtobufLaw ComponentLookupRequestPB :=
  quoted_protobuf_law _ _ _ lookup_of_to _.
#[local] Instance sub_lookup_response : Protobuf ComponentDataLookupResponsePB :=
  quoted_protobuf (mkComponentDataLookupResponsePB "" [] "") data_lookup_to data_lookup_of "".
#[local] Instance sub_lookup_response_law : ProtobufLaw ComponentDataLookupResponsePB :=
  quoted_protobuf_law _ _ _ data_lookup_of_to _.
#[local] Instance sub_publisher : Protobuf PublisherInfoPB :=
  quoted_protobuf empty_PublisherInfoPB publisher_to publisher_of "".
#[local] Instance sub_publisher_law : ProtobufLaw PublisherInfoPB :=
  quoted_protobuf_law _ _ _ publisher_of_to _.
#[local] Existing Instances GravityNodeProofs.demo_node_response GravityNodeProofs.demo_node_service.

Definition sub_address (m : SM.SubscriptionManager) : Z := 100.
Definition sub_world : unit * SM.SubscriptionManager * ServiceDirectory :=
  ((), SM.initial_SubscriptionManager (λ _, 0), demo_state).
Definition sub_node : GravityNode := GravityNodeProofs.demo_node <| gn_myDomain := "Dom" |>.

Definition sub_run :=
  subscribe (W := unit * SM.SubscriptionManager * ServiceDirectory)
    (H := subscribing_node sub_address "tcp://10.0.0.1:5555" (λ _, true)) "B" 7 "" "" (Some true)
    sub_node sub_world.
Definition sub_done := match sub_run with Some (_, n, w) => (n, w) | None => (sub_node, sub_world) end.

Lemma subscribe_reaches_manager_witness :
  ∃ info, pi_url info = Some "tcp://h:1" ∧
    sub_done.2.1.2 = SM.addSubscription
      (SM.mkSubscribeRequest "B" true [info] "" "Dom" "tcp://sd:1" 7) sub_world.1.2.
Proof.
  assert (E : sub_run = Some (SUCCESS, sub_done.1, sub_done.2)) by by vm_compute.
  destruct (subscribe_reaches_manager sub_address "tcp://10.0.0.1:5555" (λ _, true) "Dom" "B" 7 "" ""
    (Some true) sub_node sub_world SUCCESS sub_done.1 sub_done.2) as [_ Hs];
    [by vm_compute|exact demo_reachable|apply (bool_decide_unpack _); by vm_compute|by vm_compute|exact E|].
  rewrite decide_True in Hs by done. destruct Hs as (info & url & Hh & Hu & Hs).
  assert (Hurl : url = "tcp://sd:1").
  { apply (f_equal (λ o, o ≫= pi_url)) in Hh. cbn [mbind option_bind] in Hh. rewrite Hu in Hh.
    assert (E' : Some "tcp://sd:1" = Some url) by (etrans; [|exact Hh]; by vm_compute). by injection E'. }
  subst url.
  assert (Hl : publishers_of sub_world.2 (lookup_in "Dom" (meant_domain sub_node "")) "B" =
    [default empty_PublisherInfoPB (head (publishers_of demo_state "Dom" "B"))]) by by vm_compute.
  rewrite Hl in Hs. eexists. split; [|exact Hs]. by vm_compute.
Defined.
End witnesses.
