(* ===== verification/GravityNodePublications.v ===== *)
(** * From the publisher to its subscribers

    A node publishes through its publish manager; ZeroMQ hands what is published on a socket
    to the sockets that subscribed to it; a subscription manager delivers.  The three together:
    what an application publishes is what the subscribers get. *)

From S2P Require Import Prelude.
From S2P Require Import Messages.
From S2P Require Import CommUtil.
From S2P Require Import GravityDataProduct.
From S2P Require Import GravityMetrics.
From S2P Require Import ReturnCodes.
From S2P Require Import MessageCodecs.
From S2P Require Import GravitySubscriptionManager.
From S2P Require Import GravitySubscriptionManagerProofs.
From S2P Require Import GravitySubscriptionManagerDelivery.
From S2P Require GravityPublishManager.
From S2P Require GravityPublishManagerProofs.
From S2P Require Import GravityHeartbeat.
From S2P Require Import GravityNode.
From S2P Require Import GravityNodeProofs.
From S2P Require Import GravityNodeComponents.
#[local] Open Scope gravity_scope.
#[local] Open Scope Z_scope.

Import GravityReturnCodes.

Module PM := GravityPublishManager.
Module PMP := GravityPublishManagerProofs.

(** ** The network

    A subscribed socket gets the messages of the publisher's socket whose text starts with its
    filter, in the order they were sent.  It may lose some. *)

Section channel.
Variables (socket : Z) (filter : string).

Definition passes (m : Z * string * string) : Prop :=
  m.1.1 = socket ∧ String.prefix filter m.1.2 = true.
#[global] Instance passes_dec m : Decision (passes m).
Proof. unfold passes. apply _. Defined.

Definition forwarded (published : list (Z * string * string)) : list (frame * frame) :=
  (λ m, (m.1.2, m.2)) <$> base.filter passes published.

Lemma forwarded_app l l' : forwarded (l ++ l') = forwarded l ++ forwarded l'.
Proof. unfold forwarded. by rewrite filter_app, fmap_app. Qed.
End channel.

(** ** The node with its publish manager *)

Section publications.
Context {W : Type} `{E0 : NodeEnvironment W}.
Context `{ProtobufLaw GravityDataProductPB}.

(** A message for publication is served at once; one that cannot be read changes nothing. *)
Definition manager_publishes (l : NodeSocket) (frames : list frame) (p : PM.PublishManager)
    : PM.PublishManager :=
  if decide (l = publishManagerPublishSWL) then
    match PM.publish_message frames true p with Some (p', _) => p' | None => p end
  else p.

#[local] Instance node_with_publisher : NodeEnvironment (W * PM.PublishManager) :=
  with_component exchange_beside manager_publishes reply_beside.

Abbreviation world := (W * PM.PublishManager)%type.
Implicit Types w : world.

(** What an application publishes: products with a filter text and a time stamp (0 for now);
    and the products as they were sent. *)
Abbreviation publication := (GravityDataProduct * string * Z)%type.

Fixpoint publish_all (pubs : list publication) : node world (list (GravityDataProduct * string)) :=
  match pubs with
  | [] => mret []
  | (g, filterText, timestamp) :: pubs =>
      '(_, sent) ← publish g filterText timestamp;
      rest ← publish_all pubs;
      mret ((sent, filterText) :: rest)
  end.

Lemma publish_message_read i ts f bytes p :
  PM.publish_message [sendStringMessage "publish"; sendStringMessage i; sendUint64Message ts;
    sendStringMessage f; bytes] true p = Some (PM.publish_request i (u64 ts) f bytes p, true).
Proof.
  unfold PM.publish_message, PM.read_publish, read_bind.
  cbn -[PM.publish_request readUint64Message sendUint64Message].
  rewrite read_uint64_sent. done.
Qed.

Lemma send_publication frames n w x n' w' :
  send publishManagerPublishSWL frames n w = Some (x, n', w') →
  w'.2 = manager_publishes publishManagerPublishSWL frames w.2.
Proof. by intros [= _ _ <-]. Qed.

(** A product as the application gave it and as it was sent: the node adds who it comes from
    and when it was registered. *)
Record sent_by (n : GravityNode) (g g' : GravityDataProduct) : Prop := {
  sb_id : getDataProductID g' = getDataProductID g;
  sb_payload : gdp_data g' = gdp_data g;
  sb_cached : isCachedDataproduct g' = isCachedDataproduct g;
  sb_relayed : isRelayedDataproduct g' = isRelayedDataproduct g;
  sb_registration :
    getRegistrationTime g' = idx 0 (getDataProductID g) (gn_dataRegistrationTimeMap n);
  sb_origin : isRelayedDataproduct g = false →
    getDomain g' = gn_myDomain n ∧ getComponentId g' = gn_componentID n;
}.

Lemma sent_by_quiet n n' g g' : quiet n n' → sent_by n' g g' → sent_by n g g'.
Proof.
  intros Q []. split; [done..| |].
  - by rewrite <- (quiet_registration_time _ _ Q).
  - by rewrite <- (quiet_myDomain _ _ Q), <- (quiet_componentID _ _ Q).
Qed.

Lemma publish_sent g f t n w r g' n' w' :
  gn_initialized n = true → publish g f t n w = Some ((r, g'), n', w') →
  sent_by n g g' ∧
  w'.2 = PM.publish_request (getDataProductID g) (u64 (getGravityTimestamp g')) f
    (serializeToArray g') w.2.
Proof.
  intros Hi E. pose proof (publish_registration_time _ _ _ _ _ _ _ _ _ Hi E) as [_ Hreg].
  unfold publish in E. apply bind_inv in E as (b & n1 & w1 & [= <- <- <-] & E).
  rewrite Hi in E. cbn [negb] in E. apply bind_inv in E as (g1 & n1 & w1 & E1 & E).
  assert (Hw : w1.2 = w.2 ∧ getDataProductID g1 = getDataProductID g ∧ gdp_data g1 = gdp_data g ∧
    isCachedDataproduct g1 = isCachedDataproduct g ∧ isRelayedDataproduct g1 = isRelayedDataproduct g ∧
    (isRelayedDataproduct g = false →
      getDomain g1 = gn_myDomain n ∧ getComponentId g1 = gn_componentID n)).
  { destruct (isRelayedDataproduct g) eqn:Er; [by injection E1 as <- _ <-|].
    apply bind_inv in E1 as (ts & n2 & w2 & E2 & E1).
    assert (n2 = n ∧ w2.2 = w.2) as [-> Hw].
    { revert E2. case_decide; [|by intros [= _ <- <-]]. unfold ask. cbn. unfold beside.
      destruct (env_time w.1). by intros [= _ <- <-]. }
    apply bind_inv in E1 as (n3 & n4 & w3 & [= <- <- <-] & [= <- <- <-]). done. }
  destruct Hw as (Hw & Hid & Hdata & Hcac & Hrel & Hfrom).
  apply bind_inv in E as (regTime & n2 & w2 & E2 & E).
  apply bind_inv in E2 as (n3 & n4 & w3 & [= <- <- <-] & E2).
  apply bind_inv in E2 as (u & n3 & w3 & [= <- <- <-] & [= <- <- <-]).
  apply bind_inv in E as (u1 & n3 & w3 & (k & _ & -> & ->)%Lock_inv & E).
  apply bind_inv in E as (u2 & n4 & w4 & E4 & E).
  apply bind_inv in E as (u3 & n5 & w5 & [= <- <- <-] & [= <- <- <- <-]).
  split; [by split|].
  apply send_publication in E4. rewrite E4, Hw. unfold manager_publishes.
  rewrite decide_True by done. by rewrite publish_message_read.
Qed.

(** ** What the manager puts on its sockets *)

Lemma publish_request_published i ts f bytes p :
  PM.pm_published (PM.publish_request i ts f bytes p) = PM.pm_published p ++
    match PM.details_by_id i p with Some (socket, _) => [(socket, f, bytes)] | None => [] end.
Proof.
  unfold PM.publish_request. destruct (PM.details_by_id i p) as [[socket d]|]; [|by rewrite app_nil_r].
  destruct (PM.pd_cacheLastValue d), (PM.pm_metricsEnabled _); done.
Qed.

Lemma publish_request_socket i ts f bytes p j :
  PMP.publish_ok p → fst <$> PM.details_by_id j (PM.publish_request i ts f bytes p) =
    fst <$> PM.details_by_id j p.
Proof.
  intros Hok. rewrite PMP.details_publish_request by done.
  by destruct (PM.details_by_id j p) as [[socket d]|].
Qed.

(** The products of one name whose text passes a filter, and their messages. *)
Definition chosen (i filter : string) (m : GravityDataProduct * string) : Prop :=
  getDataProductID m.1 = i ∧ String.prefix filter m.2 = true.
#[global] Instance chosen_dec i filter m : Decision (chosen i filter m).
Proof. unfold chosen. apply _. Defined.

Definition message (m : GravityDataProduct * string) : frame * frame := (m.2, serializeToArray m.1).

Lemma product_message m : product (message m) = m.1.
Proof.
  unfold product, message, GravityDataProduct_from_bytes, serializeToArray. cbn.
  by rewrite parse_serialize.
Qed.

Lemma forwarded_publication socket filter i ts g f p :
  PMP.publish_ok p → fst <$> PM.details_by_id i p = Some socket →
  ∃ new, PM.pm_published (PM.publish_request (getDataProductID g) ts f (serializeToArray g) p) =
      PM.pm_published p ++ new ∧
    forwarded socket filter new = message <$> base.filter (chosen i filter) [(g, f)].
Proof.
  intros Hok Hi. rewrite publish_request_published. eexists. split; [done|].
  destruct (PM.details_by_id i p) as [[s d]|] eqn:Ei; [|done]. injection Hi as ->.
  unfold forwarded. rewrite (filter_cons _ (g, f)).
  destruct (decide (chosen i filter (g, f))) as [[Hid Hp]|Hn].
  - cbn in Hid, Hp. rewrite Hid, Ei. rewrite filter_cons, decide_True by done. done.
  - destruct (PM.details_by_id (getDataProductID g) p) as [[s' d']|] eqn:Eg; [|done].
    rewrite filter_cons, decide_False; [done|]. intros [Hs Hp]. cbn in Hs, Hp. subst s'.
    apply Hn. split; [|done]. by eapply PMP.details_by_id_inj.
Qed.

(** Whatever else is published in between: the products of a name go to its socket, in
    order, as they were sent, with the registration time of the node. *)
Lemma publish_all_forwarded i socket filter pubs n w sent n' w' :
  gn_initialized n = true → PMP.publish_ok w.2 → fst <$> PM.details_by_id i w.2 = Some socket →
  publish_all pubs n w = Some (sent, n', w') →
  (∃ new, PM.pm_published w'.2 = PM.pm_published w.2 ++ new ∧
    forwarded socket filter new = message <$> base.filter (chosen i filter) sent) ∧
  Forall2 (λ m m', m'.2 = m.1.2 ∧ sent_by n m.1.1 m'.1) pubs sent.
Proof.
  revert n w sent n' w'. induction pubs as [|[[g f] t] pubs IH]; intros n w sent n' w' Hi Hok Hd E.
  { injection E as <- <- <-. split; [|constructor]. exists []. by rewrite app_nil_r. }
  cbn [publish_all] in E. apply bind_inv in E as ([r g'] & n1 & w1 & E1 & E).
  apply bind_inv in E as (rest & n2 & w2 & E2 & [= <- <- <-]).
  pose proof (quietly_publish _ _ _ _ _ _ _ _ E1) as Q.
  apply publish_sent in E1 as (Hby & Hw); [|done].
  destruct (forwarded_publication socket filter i (u64 (getGravityTimestamp g')) g' f w.2 Hok Hd)
    as (new & F1 & F2). rewrite (sb_id _ _ _ Hby), <- Hw in F1.
  apply IH in E2 as ((more & G1 & G2) & G3).
  2: by rewrite (quiet_initialized _ _ Q).
  2: rewrite Hw; by apply PMP.publish_ok_request.
  2: rewrite Hw; by rewrite publish_request_socket.
  split.
  - exists (new ++ more). rewrite G1, F1, <- app_assoc. split; [done|].
    rewrite forwarded_app, F2, G2, <- fmap_app, <- filter_app. done.
  - constructor; [done|]. eapply Forall2_impl; [exact G3|]. intros [[g1 f1] t1] [g2 f2].
    intros [-> Hs]. split; [done|]. by eapply sent_by_quiet.
Qed.

(** ** Delivery *)

Context `{Protobuf ServiceDirectoryUnregistrationPB, Protobuf ComponentDataLookupResponsePB,
  Protobuf PublisherInfoPB}.

(** Each later than the one before, and than the last. *)
Definition later (last : option GravityDataProduct) (sent : list (GravityDataProduct * string)) : Prop :=
  StronglySorted (λ m m', getGravityTimestamp m.1 < getGravityTimestamp m'.1) sent ∧
  ∀ h m, last = Some h → m ∈ sent → getGravityTimestamp h < getGravityTimestamp m.1.

Lemma later_newer last sent arrived :
  arrived `sublist_of` sent → later last sent → newer last (message <$> arrived).
Proof.
  intros Ha [Hs Hl]. apply (StronglySorted_sublist _ _ _ Ha) in Hs. split.
  - eapply StronglySorted_fmap; [|exact Hs]. intros m m'. by rewrite !product_message.
  - intros h m' Hh (m & -> & Hm)%list_elem_of_fmap. rewrite product_message.
    apply Hl; [done|]. by eapply elem_of_sublist.
Qed.

(** C6. The products a node publishes reach the subscribers of a socket that is connected to
    their publisher: those messages that arrive are delivered in one call, each once, in the
    order of their publication, with the data they were given, from this node; whatever else
    the node publishes in between, provided that the time stamps of the product increase. *)
Theorem published_products_delivered i psocket filter pubs n w sent n' w' s s' b socket id msgs address :
  gn_initialized n = true → PMP.publish_ok w.2 → fst <$> PM.details_by_id i w.2 = Some psocket →
  publish_all pubs n w = Some (sent, n', w') →
  Forall (λ m, isRelayedDataproduct m.1.1 = false ∧ isCachedDataproduct m.1.1 = false) pubs →
  subscription_reachable s → su_subscriptionSocketMap s !! socket = Some id →
  su_socketVerificationMap s !! socket = Some (idx 0 i (gn_dataRegistrationTimeMap n)) →
  msgs `sublist_of` forwarded psocket filter
    (drop (length (PM.pm_published w.2)) (PM.pm_published w'.2)) →
  later (idx None socket (su_lastCachedValueMap s)) (base.filter (chosen i filter) sent) →
  subscription_turn (PollReady None address None {[socket := msgs]}) s = Some (s', b) →
  Forall2 (λ m m', m'.2 = m.1.2 ∧ sent_by n m.1.1 m'.1) pubs sent ∧
  ∃ arrived ps, arrived `sublist_of` base.filter (chosen i filter) sent ∧ msgs = message <$> arrived ∧
    Forall2 (λ m g, ∃ now, g = setReceivedTimestamp now m.1) arrived ps ∧
    su_outputs s' = su_outputs (calculateTimeout s) ++ fills id ps s.
Proof.
  intros Hi Hok Hd E Hplain Hr Hs Hv Hmsgs Hnew Et.
  apply (publish_all_forwarded i psocket filter) in E as ((new & E1 & E2) & HF); [|done..].
  split; [exact HF|]. rewrite E1, drop_app_length, E2 in Hmsgs.
  apply sublist_fmap_inv in Hmsgs as (arrived & Ha & ->).
  assert (Hsent : ∀ m, m ∈ arrived → getRegistrationTime m.1 = idx 0 i (gn_dataRegistrationTimeMap n) ∧
    isRelayedDataproduct m.1 = false ∧ isCachedDataproduct m.1 = false).
  { intros m Hm. eapply elem_of_sublist in Hm; [|exact Ha].
    apply list_elem_of_filter in Hm as [[<- _] Hm].
    apply list_elem_of_lookup in Hm as [k Hk].
    destruct (Forall2_lookup_r _ _ _ _ _ HF Hk) as (pub & Hp & _ & Hby).
    apply list_elem_of_lookup_2 in Hp. rewrite Forall_forall in Hplain.
    destruct (Hplain _ Hp). rewrite (sb_registration _ _ _ Hby), (sb_relayed _ _ _ Hby),
      (sb_cached _ _ _ Hby), (sb_id _ _ _ Hby). done. }
  destruct (data_turn _ _ _ _ _ _ _ Hr Hs Et) as (url & Hturn).
  pose proof (network_calculateTimeout s) as En. injection En as _ _ _ E4 E5 _ _ _.
  destruct (read_messages_newer id socket url (idx 0 i (gn_dataRegistrationTimeMap n))
    (message <$> arrived) (calculateTimeout s)) as (ps & s2 & Hread & Es & HD).
  - by rewrite E4.
  - apply Forall_fmap, Forall_forall. intros m Hm. unfold compose, fresh. rewrite product_message.
    apply Hsent, Hm.
  - apply Forall_fmap, Forall_forall. intros m Hm. unfold compose, original.
    rewrite product_message.
    apply Hsent, Hm.
  - rewrite E5. by apply (later_newer _ (base.filter (chosen i filter) sent)).
  - destruct (Hturn _ _ Hread Es) as (T1 & _ & _). exists arrived, ps. split_and!; [done|done| |done].
    apply Forall2_fmap_l in HD. eapply Forall2_impl; [exact HD|]. intros m g (now & ->).
    exists now. by rewrite product_message.
Qed.
End publications.

(** ** A concrete run *)

Section witnesses.

(** Nothing but the clock, which stands still. *)
#[local] Instance quiet_environment : NodeEnvironment unit := {|
  env_time w := (5000000, w);
  env_send _ _ w := w;
  env_receive _ w := None;
  env_exchange _ _ _ w := ((PollExpired, false), w);
  env_local_address _ _ := "10.0.0.2";
  env_resolve host := host;
  env_sleep _ w := w;
  env_start_heartbeat _ w := w;
  env_stop_heartbeat w := w;
  env_start_heartbeat_listener w := w;
  env_register_hbSub := 1;
  env_unregister_hbSub := 2;
  env_tolower c := c;
|}.

#[local] Instance run_gdp : Protobuf GravityDataProductPB :=
  quoted_protobuf empty_GravityDataProductPB gdp_to gdp_of "GravityDataProductPB".
#[local] Instance run_gdp_law : ProtobufLaw GravityDataProductPB := quoted_protobuf_law _ _ _ gdp_of_to _.
#[local] Instance run_unregistration : Protobuf ServiceDirectoryUnregistrationPB :=
  quoted_protobuf (mkServiceDirectoryUnregistrationPB None None None None None)
    unregistration_to unregistration_of "".
#[local] Instance run_lookup : Protobuf ComponentDataLookupResponsePB :=
  quoted_protobuf (mkComponentDataLookupResponsePB "" [] "") data_lookup_to data_lookup_of "".
#[local] Instance run_publisher : Protobuf PublisherInfoPB :=
  quoted_protobuf empty_PublisherInfoPB publisher_to publisher_of "PublisherInfoPB".

(** The publisher of ["P"] and ["Q"]. *)
Definition run_node : GravityNode :=
  demo_node <| gn_dataRegistrationTimeMap := {["P" := 5; "Q" := 6]} |>.
Definition run_register (i : string) : PM.RegisterRequest :=
  PM.mkRegisterRequest i false "tcp" 5000 5001 "p".
Definition run_manager : PM.PublishManager :=
  PM.registerDataProduct (λ _, true) (Some 8) (run_register "Q")
    (PM.registerDataProduct (λ _, true) (Some 7) (run_register "P") PM.initial_PublishManager).

Definition fruit (i data text : string) (t : Z) : GravityDataProduct * string * Z :=
  (setData_bytes data (new_GravityDataProduct i), text, t).
Definition run_publications : list (GravityDataProduct * string * Z) :=
  [fruit "P" "1" "apple" 10; fruit "Q" "2" "apple" 11; fruit "P" "3" "banana" 12; fruit "P" "4" "avocado" 13].
Definition run_all := publish_all run_publications run_node ((), run_manager).
Definition run_sent : list (GravityDataProduct * string) :=
  match run_all with Some (sent, _, _) => sent | None => [] end.
Definition run_end : GravityNode * (unit * PM.PublishManager) :=
  match run_all with Some (_, n, w) => (n, w) | None => (run_node, ((), run_manager)) end.

(** A subscriber of ["P"] for texts that start with an a. *)
Definition run_turn (poll : PollResult) (s : SubscriptionManager) : SubscriptionManager :=
  match subscription_turn poll s with Some (s', _) => s' | None => s end.
Definition run_subscribe : PollResult :=
  PollReady (Some [sendStringMessage "subscribe"; sendStringMessage "P"; sendIntMessage 0;
    sendUint32Message 1; serialize (mkPublisherInfoPB (Some "tcp://p:5000") None None None (Some 5));
    sendStringMessage "a"; sendStringMessage "D"; sendStringMessage "tcp://sd"; le_bytes 8 77]) 100 None ∅.
Definition run_subscriber : SubscriptionManager :=
  run_turn run_subscribe (initial_SubscriptionManager (λ _, 5000000)).
Definition run_received : list (frame * frame) :=
  forwarded 7 "a" (PM.pm_published run_end.2.2).
Definition run_delivered : SubscriptionManager :=
  run_turn (PollReady None 100 None {[4 := run_received]}) run_subscriber.

Definition filled (o : SubscriptionOutput) : list (option string) :=
  match o with SubscriptionFilled _ ps => gdp_data <$> ps | _ => [] end.

Example run_data : su_outputs run_delivered ≫= filled = [Some "1"; Some "4"].
Proof. by vm_compute. Qed.

Lemma run_manager_ok : PMP.publish_ok run_manager.
Proof. apply PMP.publish_ok_register; [|done]. apply PMP.publish_ok_register; [|done]. apply PMP.initial_publish_ok. Qed.

Lemma published_products_delivered_witness :
  ∃ arrived ps, run_received = message <$> arrived ∧ arrived = base.filter (chosen "P" "a") run_sent ∧
    length ps = 2%nat ∧ Forall2 (λ m g, ∃ now, g = setReceivedTimestamp now m.1) arrived ps ∧
    su_outputs run_delivered = su_outputs (calculateTimeout run_subscriber) ++
      [SubscriptionFilled 77 ps].
Proof.
  destruct (published_products_delivered "P" 7 "a" run_publications run_node ((), run_manager)
    run_sent run_end.1 run_end.2 run_subscriber run_delivered true 4 0 run_received 100)
    as (_ & arrived & ps & Ha & E & HF & Ho).
  - reflexivity.
  - exact run_manager_ok.
  - vm_compute. reflexivity.
  - vm_compute. reflexivity.
  - repeat constructor.
  - eapply (reach_turn run_subscribe); [apply reach_initial|]. vm_compute. reflexivity.
  - vm_compute. reflexivity.
  - vm_compute. reflexivity.
  - change (drop _ _) with (PM.pm_published run_end.2.2). done.
  - split.
    + vm_compute. repeat constructor.
    + intros h m Hh. vm_compute in Hh. discriminate.
  - vm_compute. reflexivity.
  - assert (Hl : length arrived = length (base.filter (chosen "P" "a") run_sent)).
    { rewrite <- (length_fmap message arrived), <- E. vm_compute. reflexivity. }
    assert (arrived = base.filter (chosen "P" "a") run_sent) as ->
      by (apply sublist_full; [done|by rewrite Hl]).
    exists (base.filter (chosen "P" "a") run_sent), ps.
    assert (Hp : length ps = 2%nat) by by rewrite <- (Forall2_length _ _ _ HF).
    split_and!; [exact E|done|exact Hp|exact HF|]. rewrite Ho. unfold fills.
    by rewrite decide_False by by destruct ps.
Defined.
End witnesses.
