(* ===== verification/GravityNodeServices.v ===== *)
(** * A service, from its registration to the answer

    A node with its service manager, a node with its request manager, and the directory that
    both talk to over a network that may lose requests and answers: a service that one node
    registers answers the requests of the other. *)

From S2P Require Import Prelude.
From S2P Require Import Messages.
From S2P Require Import CommUtil.
From S2P Require Import GravityDataProduct.
From S2P Require Import MessageCodecs.
From S2P Require Import ReturnCodes.
From S2P Require Import ServiceDirectory.
From S2P Require Import ServiceDirectoryRegistry.
From S2P Require Import ServiceDirectoryProofs.
From S2P Require Import ServiceDirectoryRequests.
From S2P Require Import ServiceDirectoryRetries.
From S2P Require Import GravityHeartbeat.
From S2P Require Import GravityNode.
From S2P Require Import GravityNodeAPI.
From S2P Require Import GravityNodeProofs.
From S2P Require Import GravityNodeComponents.
From S2P Require Import GravityNodeDirectory.
From S2P Require GravityRequests.
From S2P Require GravityRequestsProofs.
#[local] Open Scope gravity_scope.
#[local] Open Scope Z_scope.

Import GravityReturnCodes.

Module RQ := GravityRequests.
Module RQP := GravityRequestsProofs.

Section services.
Context {W : Type} `{E0 : NodeEnvironment W}.
Context `{ProtobufLaw GravityDataProductPB, Protobuf GravityConfigParamPB,
  ProtobufLaw ServiceDirectoryRegistrationPB, ProtobufLaw ServiceDirectoryUnregistrationPB,
  Protobuf ServiceDirectoryResponsePB, ProtobufLaw ComponentLookupRequestPB,
  ProtobufLaw ComponentDataLookupResponsePB, ProtobufLaw ComponentServiceLookupResponsePB,
  Protobuf PublisherInfoPB}.

(** The url of the directory. *)
Variable sdURL : string.

(** ** Looking a service up *)

Lemma quietly_service_lookup {W'} `{NodeEnvironment W'} i d :
  quietly (ServiceDirectoryServiceLookup (W:=W') i d).
Proof. unfold ServiceDirectoryServiceLookup. quiet_solve. apply quietly_sendRequestToServiceDirectory. Qed.

Section lookup.
Context {V : Type} `{NodeEnvironment V}.
Variable reached : V → bool.
#[local] Instance looking_node : NodeEnvironment (V * ServiceDirectory) :=
  node_with_directory sdURL reached.

Definition service_answer (i dom domain : string) (st : ServiceDirectory) (g : GravityDataProduct)
    : Prop :=
  (populateMessage g).1 =
    match sMap_of st (lookup_in domain dom) !! i with
    | Some url => mkComponentServiceLookupResponsePB i url (lookup_in domain dom)
        (Some (regTimeSecs (instance_of st url)))
    | None => mkComponentServiceLookupResponsePB i "" (lookup_in domain dom) None
    end.

Lemma service_lookup_served domain i dom st :
  sd_reachable domain st →
  same_registry domain st (serve (node_lookup_request i dom SERVICE) st).2 ∧
  service_answer i dom domain st (serve (node_lookup_request i dom SERVICE) st).1.
Proof.
  intros Hr. pose proof (sd_reach_step domain (Lookup (mkComponentLookupRequestPB (Some i)
    (Some SERVICE) (Some dom))) st Hr) as Hr'. cbn [sd_step] in Hr'.
  unfold serve, request. change (getDataProductID _) with "ComponentLookupRequest".
  rewrite decide_True by done.
  unfold node_lookup_request. rewrite (proj1 (setData_populateMessage _ _)). cbn [fst].
  set (lookup := mkComponentLookupRequestPB _ _ _) in *.
  pose proof (service_lookup_spec lookup st eq_refl) as HL. pose proof (quiet_lookup lookup st) as Hq.
  assert (Hs : services_kept st (handleLookup lookup st).2).
  { unfold handleLookup. cbn. destruct (sd_serviceMap st !! _) as [sMap|]; [|done].
    destruct (sMap !! i); [apply services_kept_touch_instance|done]. }
  destruct (handleLookup lookup st) as [response st1]. cbn [fst snd] in *. rewrite HL.
  destruct (process_pending_same st1) as (_ & P & S & I). destruct Hs as [_ S1 I1 _].
  split; [split; [done|..]|].
  - intros d k. by rewrite P, (quiet_publishers _ _ Hq).
  - intros d. by rewrite S.
  - intros u. by rewrite I.
  - unfold service_answer. cbn [fst]. rewrite (proj1 (setData_populateMessage (M:=ComponentServiceLookupResponsePB) _ _)).
    cbn. unfold lookup_domain. cbn.
    rewrite (sd_reachable_domain _ _ Hr). unfold lookup_in. by destruct (sMap_of _ _ !! i).
Qed.

Lemma service_lookup_answered domain i dom n w url time n' w' :
  network_url (gn_serviceDirectoryNode n) = sdURL → sd_reachable domain w.2 →
  ServiceDirectoryServiceLookup i dom n w = Some ((SUCCESS, url, time), n', w') →
  same_registry domain w.2 w'.2 ∧ url ≠ "" ∧
  sMap_of w.2 (lookup_in domain dom) !! i = Some url ∧ time = regTimeSecs (instance_of w.2 url).
Proof.
  intros Hu Hr ([ret1 g] & n1 & w1 & E1 & E)%bind_inv.
  apply (directory_request sdURL reached _ (same_registry domain) (service_answer i dom domain) w.2) in E1;
    [|..|done|done].
  - destruct E1 as [Hb Hs]. destruct (decide (ret1 = SUCCESS)) as [->|Hne]; [|by injection E].
    destruct (Hs eq_refl) as (HS & g' & Hg & Ha). cbn [snd] in Hg. unfold service_answer in Ha.
    rewrite Hg in E. unfold GravityDataProduct_from_bytes, serializeToArray in E.
    rewrite parse_serialize in E. cbn [fst] in E. rewrite Ha in E.
    destruct (sMap_of w.2 (lookup_in domain dom) !! i) as [u|] eqn:Eu; cbn in E; [|by injection E].
    destruct (decide (u = "")) as [->|Hne]; [by injection E|].
    rewrite decide_True in E by done. by injection E as <- <- <- <-.
  - by apply service_lookup_served.
  - intros st HS. destruct (service_lookup_served domain i dom st (sr_reachable _ _ _ HS)) as [HS2 Ha].
    split; [by eapply same_registry_trans|]. unfold service_answer in *.
    rewrite Ha, (sr_services _ _ _ HS). destruct (sMap_of w.2 _ !! i); [|done].
    by rewrite (sr_instances _ _ _ HS).
Qed.
End lookup.

(** ** The node that serves *)

Section server.
Variables (zmq_bind : string → bool) (serverSocket : Z) (reached : W * RQ.ServiceManager → bool).

(** Commands are served at once; the reply is the manager's last one. *)
Definition manager_serves (l : NodeSocket) (frames : list frame) (s : RQ.ServiceManager)
    : RQ.ServiceManager :=
  if decide (l = serviceManagerSWL) then
    match RQ.service_command zmq_bind serverSocket frames s with Some (s', _) => s' | None => s end
  else s.
Definition manager_replies (l : NodeSocket) (w : W * RQ.ServiceManager)
    : option (frame * (W * RQ.ServiceManager)) :=
  if decide (l = serviceManagerSWL) then url ← last (RQ.sm_nodeReplies w.2); Some (url, w)
  else reply_beside l w.

Definition node_with_services : NodeEnvironment (W * RQ.ServiceManager) :=
  with_component exchange_beside manager_serves manager_replies.
#[local] Existing Instance node_with_services.
#[local] Instance serving_node : NodeEnvironment (W * RQ.ServiceManager * ServiceDirectory) :=
  node_with_directory sdURL reached.

Abbreviation server_world := (W * RQ.ServiceManager * ServiceDirectory)%type.
Abbreviation the_manager := (λ w : server_world, w.1.2).

(** What is sent of the ports goes with the transport. *)
Definition service_ports (tr : string) (ports : list frame) : Prop :=
  (tr = "tcp" ∧ ∃ a b, ports = [sendIntMessage a; sendIntMessage b]) ∨ (tr ≠ "tcp" ∧ ports = []).

Lemma register_command_read i tr ports ep secs server s :
  service_ports tr ports → is_u64 server →
  ∃ q, RQ.ns_serviceID q = i ∧ RQ.ns_registrationTime q = u32 secs ∧ RQ.ns_server q = server ∧
    RQ.service_command zmq_bind serverSocket
      ([sendStringMessage "register"; sendStringMessage i; sendStringMessage tr] ++ ports ++
       [sendStringMessage ep; sendUint32Message secs; pointer_frame server]) s =
    Some (RQ.addService zmq_bind serverSocket q s, true).
Proof.
  intros Hports Hs. unfold RQ.service_command, RQ.read_service, read_bind, pointer_frame.
  change (le_bytes 8 server) with (sendUint64Message server).
  destruct Hports as [(-> & a & b & ->)|[Ht ->]];
    cbn -[RQ.addService readUint64Message sendUint64Message readUint32Message sendUint32Message
      readIntMessage sendIntMessage decide].
  - rewrite !(decide_True (P := _ = _)) by done. unfold read_bind.
    rewrite !read_int_sent. cbn -[RQ.addService readUint64Message sendUint64Message readUint32Message
      sendUint32Message]. rewrite read_uint32_sent, read_uint64_sent, u64_id by done.
    eexists. split_and!; [..|reflexivity]; done.
  - rewrite (decide_True (P := "register" = _)) by done.
    change (sendStringMessage tr) with tr. rewrite (decide_False (P := tr = "tcp")) by done. unfold read_ret at 1.
    cbn -[RQ.addService readUint64Message sendUint64Message readUint32Message
      sendUint32Message]. rewrite read_uint32_sent, read_uint64_sent, u64_id by done.
    eexists. split_and!; [..|reflexivity]; done.
Qed.

(** A manager that has the service at its url; none when the reply was empty. *)
Definition serving (i url : string) (secs server : Z) (s0 s : RQ.ServiceManager) : Prop :=
  RQ.sm_domain s = RQ.sm_domain s0 ∧ RQ.sm_componentID s = RQ.sm_componentID s0 ∧
  (url ≠ "" → RQ.serviceMapBySocket s !! serverSocket = Some (RQ.mkServiceDetails i url serverSocket server) ∧
    RQ.registered_time i s = secs).

Lemma addService_serving q s :
  ∃ url, last (RQ.sm_nodeReplies (RQ.addService zmq_bind serverSocket q s)) = Some url ∧
    serving (RQ.ns_serviceID q) url (RQ.ns_registrationTime q) (RQ.ns_server q) s
      (RQ.addService zmq_bind serverSocket q s).
Proof.
  unfold RQ.addService, serving. destruct (RQ.bind_service _ _ _ _ _) as [url|].
  - exists url. cbn. rewrite last_snoc, lookup_insert_eq. split_and!; [done..|]. intros _. split; [done|].
    unfold RQ.registered_time. cbn. by rewrite idx_insert, decide_True.
  - exists "". cbn. by rewrite last_snoc.
Qed.

(** What is done before the command leaves the manager alone. *)
Lemma time_of_manager (w : server_world) : (env_time w).2.1.2 = w.1.2.
Proof. cbn. unfold beside. cbn. unfold beside. by destruct (env_time w.1.1). Qed.
Lemma publish_of_manager frames (w : server_world) :
  (env_send publishManagerPublishSWL frames w).1.2 = w.1.2.
Proof. cbn. unfold manager_serves. by rewrite decide_False. Qed.
Lemma exchange_of_manager url g t (w : server_world) : (env_exchange url g t w).2.1.2 = w.1.2.
Proof.
  cbn. unfold exchange_with_directory. cbn. unfold exchange_beside, beside.
  destruct (env_exchange url g t w.1.1) as [[o i] w1]. cbn.
  destruct (decide (url = sdURL)); [|done]. destruct (serve _ w.2). by destruct o.
Qed.

Lemma transport_ports t i n (w : server_world) tr ep n1 w1 ports n2 w2 n3 w3 :
  transport_endpoint t i n w = Some ((tr, ep), n1, w1) →
  port_frames t n2 w2 = Some (ports, n3, w3) → service_ports tr ports.
Proof.
  intros E1 E2. unfold port_frames in E2. destruct (decide (t = GravityTransportTypes.TCP)) as [->|Hne].
  - apply bind_inv in E1 as (ip & n4 & w4 & _ & [= <- _ _ _]).
    apply bind_inv in E2 as (a & n5 & w5 & _ & E2). apply bind_inv in E2 as (b & n6 & w6 & _ & [= <- _ _]).
    left. split; [done|]. by exists a, b.
  - injection E2 as <- _ _. right. split; [|done]. by destruct t; try done; injection E1 as <- _ _ _.
Qed.

Definition service_registration (i url c : string) (timestamp : Z) : ServiceDirectoryRegistrationPB :=
  mkServiceDirectoryRegistrationPB (Some i) (Some url) (Some SERVICE) (Some c) None (Some timestamp)
    None None.

Lemma registration_of_service domain i url c timestamp n (w : server_world) n' w' :
  network_url (gn_serviceDirectoryNode n) = sdURL → sd_reachable domain w.2 →
  0 <= timestamp → instance_of w.2 url <= timestamp →
  send_registration (service_registration i url c timestamp) n w = Some (SUCCESS, n', w') →
  recorded domain (service_registration i url c timestamp) w.2 w'.2 ∧ w'.1.2 = w.1.2.
Proof.
  intros Hu Hr Hpos Hi E.
  split; [|exact (leaves_send_registration the_manager exchange_of_manager _ _ _ _ _ _ E)].
  apply bind_inv in E as ([ret g] & n2 & w2 & E2 & E).
  destruct (decide (ret = SUCCESS)) as [->|]; [|by injection E]. injection E as _ <- <-.
  eapply (registration_requested sdURL reached) in E2 as [_ HR];
    [by apply HR|done|by eexists|done..].
Qed.

Lemma receive_from_manager frames n (w : server_world) url n' w' :
  let sent : server_world := (env_send serviceManagerSWL frames w) in
  receive serviceManagerSWL n sent = Some (url, n', w') →
  n' = n ∧
  last (RQ.sm_nodeReplies match RQ.service_command zmq_bind serverSocket frames w.1.2 with
    | Some (s, _) => s | None => w.1.2 end) = Some url ∧
  w'.1.2 = match RQ.service_command zmq_bind serverSocket frames w.1.2 with
    | Some (s, _) => s | None => w.1.2 end ∧ w'.2 = w.2.
Proof.
  cbv zeta. unfold receive. cbn. unfold reply_beside. cbn. unfold manager_replies, manager_serves.
  rewrite decide_True by done. cbn.
  destruct (last _) as [u|]; [|done]. cbn. by intros [= <- <- <-].
Qed.

(** A service that is registered with success: the manager serves it at the url and with the
    time that the directory knows. *)
Lemma service_registered domain i t server n (w : server_world) n' w' :
  gn_serviceMap n !! i = None → network_url (gn_serviceDirectoryNode n) = sdURL →
  nn_ipAddress (gn_serviceDirectoryNode n) ≠ "" → sd_reachable domain w.2 → is_u64 server →
  clock_fits (E0 := node_with_services) w.2 →
  registerService i t server n w = Some (SUCCESS, n', w') →
  ∃ url timestamp, recorded domain (service_registration i url (gn_componentID n) timestamp) w.2 w'.2 ∧
    is_u32 (regTimeSecs timestamp) ∧ serving i url (regTimeSecs timestamp) server w.1.2 w'.1.2.
Proof.
  intros Hnew Hu Hip Hr Hserver Hclock E. unfold registerService, when_initialized in E.
  apply bind_inv in E as (b & n1 & w1 & [= <- <- <-] & E).
  destruct (gn_initialized n) eqn:Hi; cbn [negb] in E; [|by injection E].
  apply bind_inv in E as (u & n1 & w1 & (k & _ & -> & ->)%Lock_inv & E).
  apply bind_inv in E as (x & n1 & w1 & [= <- <- <-] & E). unfold id in E.
  change (gn_serviceMap (set_semaphore _ _ n)) with (gn_serviceMap n) in E.
  rewrite Hnew, decide_False in E by (intros []; done).
  apply bind_inv in E as ([tr ep] & n2 & w2 & E2 & E).
  pose proof (unasked_transport_endpoint sdURL reached _ _ _ _ _ _ _ E2) as D2.
  pose proof (leaves_transport_endpoint the_manager _ _ _ _ _ _ _ E2) as M2.
  pose proof (quietly_transport_endpoint _ _ _ _ _ _ _ E2) as Q2.
  apply bind_inv in E as (ts & n3 & w3 & E3 & E).
  pose proof (leaves_ask the_manager _ time_of_manager _ _ _ _ _ E3) as M3.
  apply (time_asked sdURL reached) in E3 as (-> & D3 & Hts).
  apply bind_inv in E as (ports & n4 & w4 & E4 & E).
  pose proof (unasked_port_frames sdURL reached _ _ _ _ _ _ E4) as D4.
  pose proof (leaves_port_frames the_manager time_of_manager publish_of_manager _ _ _ _ _ _ E4) as M4.
  pose proof (quietly_port_frames _ _ _ _ _ _ E4) as Q4.
  pose proof (transport_ports _ _ _ _ _ _ _ _ _ _ _ _ _ E2 E4) as Hports.
  apply bind_inv in E as (v & n5 & w5 & [= <- <- <-] & E).
  destruct (register_command_read i tr ports ep (epoch_seconds ts) server w4.1.2)
    as (q & Qi & Qt & Qs & Hcmd); [done|done|].
  destruct (addService_serving q w4.1.2) as (url0 & Hlast & Hserving).
  apply bind_inv in E as (url & n6 & w6 & E6 & E).
  apply receive_from_manager in E6 as (-> & Hurl & M6 & D6).
  cbn [app fst snd] in Hcmd, Hurl, M6, D6. rewrite Hcmd in Hurl, M6. rewrite Hlast in Hurl. injection Hurl as ->.
  assert (Q : quiet n n4) by (etrans; [|exact Q4]; etrans; [|exact Q2]; by split).
  apply bind_inv in E as (x & n7 & w7 & [= <- <- <-] & E). unfold id in E.
  apply bind_inv in E as (ret & n8 & w8 & E8 & E).
  rewrite decide_True in E8 by by rewrite (quiet_serviceDirectoryNode _ _ Q).
  apply bind_inv in E as (y & n9 & w9 & E9 & E).
  apply bind_inv in E as (z & n10 & w10 & [= <- <- <-] & [= -> <- <-]).
  rewrite decide_False in E9 by (intros Hne; by apply Hne). injection E9 as <- <- <-.
  assert (D : w6.2 = w.2) by congruence. destruct (Hclock w2.1 url) as [Hc1 Hc2]. rewrite <- Hts in *.
  apply (registration_of_service domain) in E8 as [HR M8];
    [|by rewrite (quiet_serviceDirectoryNode _ _ Q)|by rewrite D|lia|by rewrite D].
  exists url, ts. rewrite D, (quiet_componentID _ _ Q) in HR. split; [exact HR|].
  assert (Hsecs : is_u32 (regTimeSecs ts)).
  { unfold is_u32, u32_max, regTimeSecs in *. split; [apply Z.div_pos; lia|apply Z.div_lt_upper_bound; lia]. }
  split; [done|]. rewrite M8, M6, <- M2, <- M3, <- M4.
  assert (Et : RQ.ns_registrationTime q = regTimeSecs ts).
  { rewrite Qt. unfold epoch_seconds. change (ts / 1000000) with (regTimeSecs ts). by rewrite !(u32_id (regTimeSecs ts)) by done. }
  by rewrite Qi, Et, Qs in Hserving.
Qed.
End server.

(** ** The node that asks *)

Section client.
Context {V : Type} `{EV : NodeEnvironment V}.
Variables (e : RQ.RequestEvents) (reached : V * RQ.RequestManager → bool).

Definition manager_asks (l : NodeSocket) (frames : list frame) (r : RQ.RequestManager)
    : RQ.RequestManager :=
  if decide (l = requestManagerSWL) then
    match RQ.node_command e frames r with Some (r', _) => r' | None => r end
  else r.

Definition node_with_requests : NodeEnvironment (V * RQ.RequestManager) :=
  with_component exchange_beside manager_asks reply_beside.
#[local] Existing Instance node_with_requests.
#[local] Instance asking_node : NodeEnvironment (V * RQ.RequestManager * ServiceDirectory) :=
  node_with_directory sdURL reached.

Abbreviation client_world := (V * RQ.RequestManager * ServiceDirectory)%type.

(** The product of a request as the node sends it. *)
Definition request_product (n : GravityNode) (g : GravityDataProduct) : GravityDataProduct :=
  setDomain (gn_myDomain n) (setComponentId (gn_componentID n) g).

Lemma request_command_read i url rid timeout secs bytes requestor r :
  is_s32 timeout → is_u32 secs → is_u64 requestor →
  RQ.node_command e [sendStringMessage "request"; sendStringMessage i; sendStringMessage url;
    sendStringMessage rid; sendIntMessage timeout; sendUint32Message secs; bytes;
    pointer_frame requestor] r =
  Some (RQ.processRequest (RQ.re_reqSocket e) (RQ.re_now e)
    (RQ.mkNewRequest i url rid timeout secs bytes requestor) r, true).
Proof.
  intros Ht Hs Hr. unfold RQ.node_command, RQ.read_request, read_bind, pointer_frame.
  change (le_bytes 8 requestor) with (sendUint64Message requestor).
  cbn -[RQ.processRequest readUint64Message sendUint64Message readUint32Message sendUint32Message
    readIntMessage sendIntMessage].
  rewrite read_int_sent. cbv beta iota. rewrite read_uint32_sent. cbv beta iota. cbn [readStringMessage].
  rewrite read_uint64_sent. cbv beta iota. by rewrite s32_id, u32_id, u64_id.
Qed.

Lemma request_of_manager url g t (w : client_world) : (env_exchange url g t w).2.1.2 = w.1.2.
Proof.
  cbn. unfold exchange_with_directory. cbn. unfold exchange_beside, beside.
  destruct (env_exchange url g t w.1.1) as [[o i] w1]. cbn.
  destruct (decide (url = sdURL)); [|done]. destruct (serve _ w.2). by destruct o.
Qed.

(** A request that the node accepts reaches its request manager with the url and the
    registration time of the directory. *)
Lemma service_requested domain i g requestor rid timeout dom n (w : client_world) n' w' :
  network_url (gn_serviceDirectoryNode n) = sdURL → sd_reachable domain w.2 →
  is_s32 timeout → is_u64 requestor →
  (∀ url, sMap_of w.2 (lookup_in domain dom) !! i = Some url → is_u32 (regTimeSecs (instance_of w.2 url))) →
  request_service i g requestor rid timeout dom n w = Some (SUCCESS, n', w') →
  ∃ url, url ≠ "" ∧ sMap_of w.2 (lookup_in domain dom) !! i = Some url ∧
    w'.1.2 = RQ.processRequest (RQ.re_reqSocket e) (RQ.re_now e)
      (RQ.mkNewRequest i url rid timeout (regTimeSecs (instance_of w.2 url))
        (serializeToArray (request_product n g)) requestor) w.1.2.
Proof.
  intros Hu Hr Ht Hp Hsecs E. unfold request_service, when_initialized in E.
  apply bind_inv in E as (b & n1 & w1 & [= <- <- <-] & E).
  destruct (gn_initialized n) eqn:Hi; cbn [negb] in E; [|by injection E].
  apply bind_inv in E as ([[ret url] time] & n1 & w1 & E1 & E).
  destruct (decide (ret ≠ SUCCESS)) as [Hne|Hs%dec_stable]; [by injection E as ->|subst ret].
  pose proof (leaves_ServiceDirectoryServiceLookup (λ w : client_world, w.1.2) request_of_manager
    _ _ _ _ _ _ _ E1) as M1.
  pose proof (quietly_service_lookup _ _ _ _ _ _ _ E1) as Q1.
  apply (service_lookup_answered reached domain) in E1 as (_ & Hne & Hurl & ->); [|done..].
  exists url. split; [done|]. split; [done|].
  unfold request_url, when_initialized in E.
  apply bind_inv in E as (b & n2 & w2 & [= <- <- <-] & E).
  rewrite (quiet_initialized _ _ Q1), Hi in E. cbn [negb] in E.
  apply bind_inv in E as (u & n2 & w2 & (k & _ & -> & ->)%Lock_inv & E).
  apply bind_inv in E as (x & n2 & w2 & [= <- <- <-] & E). unfold id in E.
  apply bind_inv in E as (v & n3 & w3 & E3 & E).
  apply bind_inv in E as (z & n4 & w4 & [= <- <- <-] & [= <- <-]).
  injection E3 as _ _ <-. cbn [fst snd]. unfold manager_asks. rewrite decide_True by done.
  rewrite M1. change (gn_myDomain (set_semaphore _ _ n1)) with (gn_myDomain n1).
  change (gn_componentID (set_semaphore _ _ n1)) with (gn_componentID n1).
  rewrite (quiet_myDomain _ _ Q1), (quiet_componentID _ _ Q1).
  rewrite request_command_read by auto. done.
Qed.
End client.

(** ** The answer *)

Section answer.
Context {V : Type} `{EV : NodeEnvironment V}.
Variables (zmq_bind : string → bool) (serverSocket : Z) (server_reached : W * RQ.ServiceManager → bool).
Variables (e : RQ.RequestEvents) (client_reached : V * RQ.RequestManager → bool).

(** The two nodes, each with its manager and the directory. *)
Abbreviation register_at_server i t server n w :=
  (registerService (W := W * RQ.ServiceManager * ServiceDirectory)
    (H := serving_node zmq_bind serverSocket server_reached) i t server n w).
Abbreviation request_at_client i g requestor rid timeout dom m v :=
  (request_service (W := V * RQ.RequestManager * ServiceDirectory)
    (H := asking_node e client_reached) i g requestor rid timeout dom m v).

(** C7. A service that a node registers answers the requests that other nodes make for it: the
    request goes to the url the service is bound to; the provider is asked, once, with the
    product of the request and where it comes from; the requestor gets its answer, with
    where it comes from, and no notice of a stale registration is sent.  The network between
    the nodes and the directory may lose requests and answers. *)
Theorem registered_service_answers domain i t server n w n' w' g requestor rid timeout dom m v m' v'
    (provide : Z → string → GravityDataProduct → GravityDataProduct) future :
  gn_serviceMap n !! i = None →
  network_url (gn_serviceDirectoryNode n) = sdURL → network_url (gn_serviceDirectoryNode m) = sdURL →
  nn_ipAddress (gn_serviceDirectoryNode n) ≠ "" → dom = "" ∨ dom = domain →
  sd_reachable domain w.2 →
  clock_fits (E0 := node_with_services zmq_bind serverSocket) w.2 →
  is_u64 server → is_s32 timeout → is_u64 requestor →
  (∀ g, isFutureResponse (provide server i g) = false) →
  register_at_server i t server n w = Some (SUCCESS, n', w') →
  v.2 = w'.2 → request_at_client i g requestor rid timeout dom m v = Some (SUCCESS, m', v') →
  ∃ T url s r,
    let asked := setRegistrationTime T (request_product m g) in
    let answer := setRegistrationTime T (setDomain (RQ.sm_domain w.1.2)
      (setComponentId (RQ.sm_componentID w.1.2) (provide server i asked))) in
    RQ.serviceMapBySocket w'.1.2 !! serverSocket = Some (RQ.mkServiceDetails i url serverSocket server) ∧
    RQ.rm_out v'.1.2 = RQ.rm_out v.1.2 ++ [RQ.SentRequest (RQ.re_reqSocket e) url (serializeToArray asked)] ∧
    RQ.service_message provide serverSocket (serializeToArray asked) w'.1.2 = Some s ∧
    RQ.sm_responses s = RQ.sm_responses w'.1.2 ++ [(serverSocket, serializeToArray answer)] ∧
    RQ.process_response (RQ.re_reqSocket e) future (serializeToArray answer) v'.1.2 = RQ.Done (r, []) ∧
    RQ.rm_out r = RQ.rm_out v'.1.2 ++ [RQ.RequestFilled requestor i rid answer].
Proof.
  intros Hnew Hn Hm Hip Hdom Hr Hclock Hserver Htime Hrequestor Hprovide E1 Ev E2.
  apply (service_registered zmq_bind serverSocket server_reached domain) in E1
    as (url & ts & HR & Hsecs & Hd & Hc & Hserving); [|done..].
  pose proof (rc_services _ _ _ _ HR i) as Hs. rewrite decide_True in Hs by done. cbn in Hs.
  pose proof (rc_entry _ _ _ _ HR) as Hi. cbn in Hi.
  assert (Hin : lookup_in domain dom = domain) by (unfold lookup_in; by destruct Hdom as [->| ->]; goal_decide).
  apply (service_requested e client_reached domain) in E2 as (url' & Hne & Hurl & Hv);
    [|done|rewrite Ev; apply HR|done..|].
  2: { rewrite Hin, Ev. intros u Hu. rewrite Hs in Hu. injection Hu as <-. by rewrite Hi. }
  rewrite Hin, Ev, Hs in Hurl. injection Hurl as <-. destruct (Hserving Hne) as [Hsocket HT].
  rewrite Ev, Hi in Hv.
  destruct (RQP.request_answered provide (RQ.mkNewRequest i url rid timeout (regTimeSecs ts)
    (serializeToArray (request_product m g)) requestor) (RQ.re_reqSocket e) (RQ.re_now e) future
    v.1.2 serverSocket _ w'.1.2 Hsocket Hprovide) as (s & r & A1 & A2 & A3 & A4 & _ & A6).
  cbn [RQ.svc_serviceID RQ.svc_server RQ.nr_regTime RQ.nr_url RQ.nr_dataProduct RQ.nr_requestor
    RQ.nr_serviceID RQ.nr_requestID] in *.
  rewrite HT in *. rewrite decide_False in A3, A4, A6 by tauto. rewrite decide_True in A6 by done.
  assert (Hparse : ∀ g, GravityDataProduct_from_bytes (serializeToArray g) = g).
  { intros g'. unfold GravityDataProduct_from_bytes, serializeToArray. by rewrite parse_serialize. }
  rewrite Hparse in *.
  rewrite Hd, Hc in A3, A4, A6. rewrite <- Hv in A1, A4, A6.
  exists (regTimeSecs ts), url, s, r. cbn zeta. by split_and!.
Qed.
End answer.
End services.

(** ** A concrete run *)

Section witnesses.

#[local] Existing Instances lossy_environment net_gdp net_gdp_law net_registration net_registration_law
  net_unregistration net_unregistration_law net_lookup net_lookup_law net_lookup_response
  net_lookup_response_law net_publisher demo_node_config demo_node_response net_map.
#[local] Instance net_service_response : Protobuf ComponentServiceLookupResponsePB :=
  quoted_protobuf (mkComponentServiceLookupResponsePB "" "" "" None) service_lookup_to service_lookup_of "".
#[local] Instance net_service_response_law : ProtobufLaw ComponentServiceLookupResponsePB :=
  quoted_protobuf_law _ _ _ service_lookup_of_to _.

Definition any_bind (url : string) : bool := true.
Definition run_events : RQ.RequestEvents :=
  RQ.mkRequestEvents (λ _, 0) None None None (λ _, None) 5000000 9 (λ s, s) any_bind 0 RQ.PollReady.

Definition run_services : RQ.ServiceManager :=
  RQ.mkServiceManager ∅ ∅ ∅ [] "D" "Server" [] [].
Definition server_start : nat * RQ.ServiceManager * ServiceDirectory :=
  ((O, run_services), initial_ServiceDirectory "D").

Definition register_service_run :=
  registerService (W := nat * RQ.ServiceManager * ServiceDirectory)
    (H := serving_node "tcp://10.0.0.1:5555" any_bind 6 (λ _, true))
    "S" GravityTransportTypes.TCP 33 demo_node server_start.
Definition served : GravityNode * (nat * RQ.ServiceManager * ServiceDirectory) :=
  match register_service_run with Some (_, n, w) => (n, w) | None => (demo_node, server_start) end.

Definition client_start : nat * RQ.RequestManager * ServiceDirectory :=
  ((O, RQ.initial_RequestManager), served.2.2).
Definition question : GravityDataProduct := setData_bytes "?" (new_GravityDataProduct "Q").
Definition request_run :=
  request_service (W := nat * RQ.RequestManager * ServiceDirectory)
    (H := asking_node "tcp://10.0.0.1:5555" run_events (λ _, true))
    "S" question 44 "r1" 1000 "" demo_node client_start.
Definition asked_of : GravityNode * (nat * RQ.RequestManager * ServiceDirectory) :=
  match request_run with Some (_, n, w) => (n, w) | None => (demo_node, client_start) end.

(** The provider adds an exclamation mark. *)
Definition exclaim (server : Z) (i : string) (g : GravityDataProduct) : GravityDataProduct :=
  setData_bytes (str (gdp_data g) +:+ "!") (new_GravityDataProduct i).

Example service_runs :
  fst <$> (fst <$> register_service_run) = Some SUCCESS ∧ fst <$> (fst <$> request_run) = Some SUCCESS.
Proof. by vm_compute. Qed.

Lemma fresh_clock (st : ServiceDirectory) : sd_registrationInstanceMap st = ∅ →
  clock_fits (E0 := node_with_services any_bind 6) st.
Proof.
  intros He w url. unfold instance_of. rewrite He. unfold idx. rewrite lookup_empty. cbn.
  unfold u32_max. lia.
Qed.

Lemma registered_service_answers_witness :
  ∃ answer r, gdp_data answer = Some "?!" ∧ getComponentId answer = "Server" ∧
    RQ.process_response 9 0 (serializeToArray answer) asked_of.2.1.2 = RQ.Done (r, []) ∧
    RQ.rm_out r = RQ.rm_out asked_of.2.1.2 ++ [RQ.RequestFilled 44 "S" "r1" answer].
Proof.
  destruct (registered_service_answers "tcp://10.0.0.1:5555" any_bind 6 (λ _, true) run_events (λ _, true)
    "D" "S" GravityTransportTypes.TCP 33 demo_node server_start served.1 served.2 question 44 "r1" 1000 ""
    demo_node client_start asked_of.1 asked_of.2 exclaim 0) as (T & url & s & r & HA).
  - by vm_compute.
  - by vm_compute.
  - by vm_compute.
  - by vm_compute.
  - by left.
  - apply sd_reach_init.
  - by apply fresh_clock.
  - apply (bool_decide_unpack _). by vm_compute.
  - apply (bool_decide_unpack _). by vm_compute.
  - apply (bool_decide_unpack _). by vm_compute.
  - done.
  - by vm_compute.
  - by vm_compute.
  - by vm_compute.
  - destruct HA as (_ & _ & _ & _ & A4 & A6). eexists _, r. split_and!; [|  |exact A4|exact A6].
    + by vm_compute.
    + by vm_compute.
Defined.
End witnesses.
