(* ===== verification/Signals.v ===== *)
(** * Signals during the start of a node
    (src/src/api/cpp/GravityNode.cpp: the static functions before the class, and their uses in
    [init] and [sendRequestToServiceProvider])

    While a node waits for its managers it catches two signals; a signal caught is raised again
    once the application's handlers are back.  A process has a disposition per signal; a null
    pointer in [previousHandlerAbrt] is [SIG_DFL].  The handlers of the application are
    numbers. *)

From S2P Require Import Prelude.
#[local] Open Scope gravity_scope.

Inductive Signal := SIGINT | SIGABRT | SIGTERM.
#[export] Instance Signal_eq_dec : EqDecision Signal.
Proof. solve_decision. Defined.

Inductive SignalHandler :=
| SIG_DFL
| Application (handler : nat)
| NodeHandler.
#[export] Instance SignalHandler_eq_dec : EqDecision SignalHandler.
Proof. solve_decision. Defined.

Record Signals := mkSignals {
  sg_handler : Signal → SignalHandler;
  s_interrupted : option Signal;
  previousHandlerAbrt : SignalHandler;
  previousHandlerInt : SignalHandler;
  (* the handlers of the application that ran *)
  sg_called : list (nat * Signal);
}.
#[export] Instance eta_Signals : Eta Signals := λ s,
  mkSignals (sg_handler s) (s_interrupted s) (previousHandlerAbrt s) (previousHandlerInt s) (sg_called s).

Implicit Types s : Signals.

(** [signal(sig, h)]; what it returns is [sg_handler] before. *)
Definition signal (sig : Signal) (h : SignalHandler) s : Signals :=
  s <| sg_handler ::= λ f x, if decide (x = sig) then h else f x |>.

Definition s_restore_signals s : Signals :=
  signal SIGINT (previousHandlerInt s) (signal SIGABRT (previousHandlerAbrt s) s).

Definition s_signal_handler (signal_value : Signal) s : Signals :=
  s_restore_signals (s <| s_interrupted := Some signal_value |>).

Definition s_catch_signals s : Signals :=
  let s := signal SIGABRT NodeHandler (s <| previousHandlerAbrt := sg_handler s SIGABRT |>) in
  signal SIGINT NodeHandler (s <| previousHandlerInt := sg_handler s SIGINT |>).

(** A signal arrives, or is raised; [None]: the process ends. *)
Definition deliver_signal (sig : Signal) s : option Signals :=
  match sg_handler s sig with
  | SIG_DFL => None
  | Application h => Some (s <| sg_called ::= λ l, l ++ [(h, sig)] |>)
  | NodeHandler => Some (s_signal_handler sig s)
  end.

(** [if (s_interrupted) raise(s_interrupted)], at the end of the start and of every request;
    the flag is not reset. *)
Definition raise_interrupted s : option Signals :=
  match s_interrupted s with Some sig => deliver_signal sig s | None => Some s end.

(** The start: the signals that arrive while the node waits, the next ones only once the one
    before is handled. *)
Fixpoint deliver_signals (sigs : list Signal) s : option Signals :=
  match sigs with
  | [] => Some s
  | sig :: sigs => s ← deliver_signal sig s; deliver_signals sigs s
  end.
Definition wait_with_signals (sigs : list Signal) s : option Signals :=
  s ← deliver_signals sigs (s_catch_signals s); raise_interrupted (s_restore_signals s).

(** ** Properties *)

(** The same dispositions. *)
Definition handlers_of s s' : Prop := ∀ sig, sg_handler s' sig = sg_handler s sig.

Lemma signal_spec sig h s x :
  sg_handler (signal sig h s) x = if decide (x = sig) then h else sg_handler s x.
Proof. done. Qed.

Lemma catch_spec s :
  (∀ sig, sg_handler (s_catch_signals s) sig =
    if decide (sig = SIGTERM) then sg_handler s sig else NodeHandler) ∧
  previousHandlerAbrt (s_catch_signals s) = sg_handler s SIGABRT ∧
  previousHandlerInt (s_catch_signals s) = sg_handler s SIGINT ∧
  s_interrupted (s_catch_signals s) = s_interrupted s ∧ sg_called (s_catch_signals s) = sg_called s.
Proof. split_and!; [by intros []|done..]. Qed.

Lemma restore_spec s s0 :
  previousHandlerAbrt s = sg_handler s0 SIGABRT → previousHandlerInt s = sg_handler s0 SIGINT →
  sg_handler s SIGTERM = sg_handler s0 SIGTERM → handlers_of s0 (s_restore_signals s).
Proof. intros Ha Hi Ht []; cbn; unfold update; cbn; done. Qed.

(** Without a signal the start leaves the application's handlers as they were. *)
Lemma undisturbed_start s :
  s_interrupted s = None →
  ∃ s', wait_with_signals [] s = Some s' ∧ handlers_of s s' ∧ sg_called s' = sg_called s.
Proof.
  intros Hi. unfold wait_with_signals. cbn [deliver_signals mbind option_bind].
  destruct (catch_spec s) as (Hh & Ha & Hp & Hs & Hc).
  unfold raise_interrupted. change (s_interrupted (s_restore_signals (s_catch_signals s))) with (s_interrupted s).
  rewrite Hi. eexists. split; [done|]. split; [by apply restore_spec|done].
Qed.

Lemma start_with_signal sig s :
  sig ≠ SIGTERM → sg_handler s sig ≠ NodeHandler →
  match wait_with_signals [sig] s with
  | None => sg_handler s sig = SIG_DFL
  | Some s' => handlers_of s s' ∧ s_interrupted s' = Some sig ∧
      ∃ h, sg_handler s sig = Application h ∧ sg_called s' = sg_called s ++ [(h, sig)]
  end.
Proof.
  intros Hsig Hn. unfold wait_with_signals. cbn [deliver_signals].
  destruct (catch_spec s) as (Hh & Ha & Hp & Hs & Hc). unfold deliver_signal at 1.
  rewrite Hh, decide_False by done. cbn [mbind option_bind deliver_signals].
  set (s1 := s_restore_signals (s_signal_handler sig (s_catch_signals s))).
  assert (H1 : handlers_of s s1) by by apply restore_spec.
  unfold raise_interrupted, deliver_signal. change (s_interrupted s1) with (Some sig). cbv iota.
  rewrite (H1 sig). destruct (sg_handler s sig) as [|h|] eqn:E; [done| |done].
  split; [exact H1|]. split; [done|]. exists h. split; [done|]. done.
Qed.

(** C29. A signal that the node catches while it starts is not lost: the handlers of the
    application are back, and its handler of that signal runs, once, or the process ends as
    it would have. *)
Theorem caught_signal_raised sig s :
  sig ≠ SIGTERM → sg_handler s sig ≠ NodeHandler →
  match wait_with_signals [sig] s with
  | None => sg_handler s sig = SIG_DFL
  | Some s' => handlers_of s s' ∧ s_interrupted s' = Some sig ∧
      ∃ h, sg_handler s sig = Application h ∧ sg_called s' = sg_called s ++ [(h, sig)]
  end.
Proof. apply start_with_signal. Qed.

(** The flag stays: after a start that was interrupted and went on, every request to a service
    raises the signal again, although none has arrived. *)
Theorem interruption_stays sig h s n :
  sig ≠ SIGTERM → sg_handler s sig = Application h →
  ∃ s' s'', wait_with_signals [sig] s = Some s' ∧
    Nat.iter n (λ o, o ≫= raise_interrupted) (Some s') = Some s'' ∧
    sg_called s'' = sg_called s ++ replicate (S n) (h, sig).
Proof.
  intros Hsig Hh. assert (Hn : sg_handler s sig ≠ NodeHandler) by by rewrite Hh.
  pose proof (start_with_signal sig s Hsig Hn) as Hc.
  destruct (wait_with_signals [sig] s) as [s'|]; [|congruence].
  destruct Hc as (Hs & Hi & h' & E & Hc). rewrite Hh in E. injection E as <-.
  exists s'.
  assert (Hiter : ∃ s'', Nat.iter n (λ o, o ≫= raise_interrupted) (Some s') = Some s'' ∧
    handlers_of s s'' ∧ s_interrupted s'' = Some sig ∧ sg_called s'' = sg_called s ++ replicate (S n) (h, sig)).
  { induction n as [|n (s2 & E2 & Hs2 & Hi2 & Hc2)]; [by exists s'|]. cbn [Nat.iter nat_rect].
    change (nat_rect _ _ _ n) with (Nat.iter n (λ o, o ≫= raise_interrupted) (Some s')). rewrite E2.
    cbn [mbind option_bind]. unfold raise_interrupted at 1. rewrite Hi2. unfold deliver_signal.
    rewrite (Hs2 sig), Hh. eexists. split; [done|]. split; [exact Hs2|]. split; [done|]. cbn.
    rewrite Hc2, <- app_assoc. f_equal. change ((h, sig) :: replicate n (h, sig) ++ [(h, sig)]) with
      (replicate (S n) (h, sig) ++ [(h, sig)]).
    by rewrite <- replicate_S_end. }
  destruct Hiter as (s'' & E2 & _ & _ & Hc2). by exists s''.
Qed.

(** The comment of [init] says that SIGTERM is caught, and not SIGABRT: it is the other way
    round. *)
Lemma sigterm_not_caught s :
  sg_handler (s_catch_signals s) SIGTERM = sg_handler s SIGTERM ∧
  sg_handler (s_catch_signals s) SIGABRT = NodeHandler.
Proof. done. Qed.

(** Two starts at the same time: the second remembers the node's own handler as the
    application's.  When both are over the node's handler is in place for ever, and a signal
    neither ends the process nor reaches the application. *)
Lemma nested_starts_lose_handlers s sig n :
  sig ≠ SIGTERM →
  let s' := s_restore_signals (s_restore_signals (s_catch_signals (s_catch_signals s))) in
  sg_handler s' sig = NodeHandler ∧
  ∃ s'', deliver_signals (replicate n sig) s' = Some s'' ∧ sg_called s'' = sg_called s.
Proof.
  intros Hsig s'.
  assert (Hstart : (∀ x, x ≠ SIGTERM → sg_handler s' x = NodeHandler) ∧
    previousHandlerAbrt s' = NodeHandler ∧ previousHandlerInt s' = NodeHandler ∧ sg_called s' = sg_called s)
    by (split_and!; [by intros []|done..]).
  split; [by apply Hstart|]. clearbody s'. revert s' Hstart.
  induction n as [|n IH]; intros s1 (Hh & Ha & Hi & Hc); [by exists s1|]. cbn [replicate deliver_signals].
  unfold deliver_signal at 1. rewrite Hh by done. cbn [mbind option_bind]. apply IH.
  split_and!; [|done..]. intros [] Hx; cbn; unfold update; cbn; done.
Qed.

Lemma caught_signal_raised_witness :
  match wait_with_signals [SIGINT] (mkSignals (λ _, Application 3) None SIG_DFL SIG_DFL []) with
  | None => False
  | Some s' => sg_called s' = [(3, SIGINT)]
  end.
Proof.
  pose proof (caught_signal_raised SIGINT (mkSignals (λ _, Application 3) None SIG_DFL SIG_DFL [])
    ltac:(discriminate) ltac:(discriminate)) as Hc.
  destruct (wait_with_signals _ _) as [s'|]; [|discriminate].
  destruct Hc as (_ & _ & h & [= <-] & Hc). exact Hc.
Defined.

Lemma interruption_stays_witness :
  ∃ s' s'', wait_with_signals [SIGINT] (mkSignals (λ _, Application 3) None SIG_DFL SIG_DFL []) = Some s' ∧
    Nat.iter 2 (λ o, o ≫= raise_interrupted) (Some s') = Some s'' ∧
    sg_called s'' = replicate 3 (3, SIGINT).
Proof.
  destruct (interruption_stays SIGINT 3 (mkSignals (λ _, Application 3) None SIG_DFL SIG_DFL []) 2)
    as (s' & s'' & E1 & E2 & Hc); [discriminate|reflexivity|]. by exists s', s''.
Defined.
