(* ===== verification/DomainDataKey.v ===== *)
(** * DomainDataKey: the key of the subscriptions
    (src/src/api/cpp/DomainDataKey.cpp)

    The subscription manager's map is keyed by these objects; its model uses pairs.  The
    comparisons of the class are those of the pairs, so that the map finds and orders its
    entries as [kv_items] does. *)

From S2P Require Import Prelude.
#[local] Open Scope gravity_scope.

Record DomainDataKey := mkDomainDataKey {
  ddk_domain : string;
  ddk_dataProductID : string;
}.

#[export] Instance DomainDataKey_eq_dec : EqDecision DomainDataKey.
Proof. solve_decision. Defined.

(** [<] of [std::string]. *)
Definition string_lt (a b : string) : bool := bool_decide (key_le a b) && bool_decide (a ≠ b).

Definition operator_lt (k right : DomainDataKey) : bool :=
  if decide (ddk_domain k = ddk_domain right)
  then string_lt (ddk_dataProductID k) (ddk_dataProductID right)
  else string_lt (ddk_domain k) (ddk_domain right).
Definition operator_eq (k right : DomainDataKey) : bool :=
  negb (operator_lt k right) && negb (operator_lt right k).
Definition operator_gt (k right : DomainDataKey) : bool :=
  negb (operator_lt k right || operator_eq k right).
Definition operator_ne (k right : DomainDataKey) : bool := negb (operator_eq k right).

(** The key as a pair. *)
Definition key_pair (k : DomainDataKey) : string * string := (ddk_domain k, ddk_dataProductID k).

Lemma key_pair_inj k k' : key_pair k = key_pair k' → k = k'.
Proof. destruct k, k'. by intros [= -> ->]. Qed.

Lemma string_lt_spec a b : string_lt a b = true ↔ key_le a b ∧ a ≠ b.
Proof. unfold string_lt. by rewrite andb_true_iff, !bool_decide_eq_true. Qed.

Lemma operator_lt_spec k k' :
  operator_lt k k' = true ↔ key_le (key_pair k) (key_pair k') ∧ key_pair k ≠ key_pair k'.
Proof.
  assert (Hle : key_le (key_pair k) (key_pair k') ↔
    if decide (ddk_domain k = ddk_domain k') then key_le (ddk_dataProductID k) (ddk_dataProductID k')
    else key_le (ddk_domain k) (ddk_domain k')) by done.
  rewrite Hle. unfold operator_lt, key_pair. destruct (decide (ddk_domain k = ddk_domain k')) as [E|Hne].
  - pose proof (string_lt_spec (ddk_dataProductID k) (ddk_dataProductID k')) as ->. rewrite E.
    split; intros [? Hn]; (split; [done|]); [by intros [= ?]|congruence].
  - pose proof (string_lt_spec (ddk_domain k) (ddk_domain k')) as ->.
    split; intros [? Hn]; (split; [done|]); [by intros [= ? ?]|done].
Qed.

(** [==] is equality of both parts. *)
Lemma operator_eq_spec k k' : operator_eq k k' = true ↔ k = k'.
Proof.
  unfold operator_eq. rewrite andb_true_iff, !negb_true_iff, <- !not_true_iff_false, !operator_lt_spec.
  split; [|intros ->; tauto]. intros [H1 H2].
  destruct (decide (key_pair k = key_pair k')) as [?|Hne]; [by apply key_pair_inj|].
  destruct (total key_le (key_pair k) (key_pair k')); [|apply not_eq_sym in Hne]; tauto.
Qed.

(** The comparisons order the keys as the pairs of domain and data product: [<] is a strict
    total order, the one that the iteration over the map of subscriptions follows; [==] holds
    of equal keys alone, and [>] and [!=] are the converse and the complement. *)
Theorem domain_data_key_ordered k k' :
  (operator_lt k k' = true ↔ key_le (key_pair k) (key_pair k') ∧ k ≠ k') ∧
  (operator_eq k k' = true ↔ k = k') ∧ operator_gt k k' = operator_lt k' k ∧
  operator_ne k k' = bool_decide (k ≠ k' ) ∧
  (operator_lt k k' = true ∨ k = k' ∨ operator_lt k' k = true) ∧
  (∀ k'', operator_lt k k' = true → operator_lt k' k'' = true → operator_lt k k'' = true).
Proof.
  assert (Hlt : ∀ a b, operator_lt a b = true ↔ key_le (key_pair a) (key_pair b) ∧ a ≠ b).
  { intros a b. rewrite operator_lt_spec. split; intros [? Hn]; (split; [done|]); [congruence|].
    intros ?%key_pair_inj. done. }
  assert (Htotal : operator_lt k k' = true ∨ k = k' ∨ operator_lt k' k = true).
  { destruct (decide (k = k')) as [?|Hne]; [by right; left|].
    destruct (total key_le (key_pair k) (key_pair k')); [left|right; right]; apply Hlt; auto. }
  split_and!; [apply Hlt|apply operator_eq_spec| | |exact Htotal|].
  - unfold operator_gt. apply eq_true_iff_eq. rewrite negb_true_iff, <- not_true_iff_false, orb_true_iff,
      operator_eq_spec. destruct Htotal as [Hl|[->|Hl]].
    + split; [tauto|]. rewrite Hlt in Hl |- *. intros [Hl' Hn]. destruct Hl as [Hl Hn'].
      destruct Hn. apply key_pair_inj. by apply (anti_symm key_le).
    + split; [tauto|]. intros [_ ?]%Hlt. done.
    + split; [done|]. intros _ [Hl'| ->]; [|apply Hlt in Hl as [_ ?]; done].
      rewrite Hlt in Hl, Hl'. destruct Hl as [Hl Hn], Hl' as [Hl' _].
      destruct Hn. apply key_pair_inj. by apply (anti_symm key_le).
  - unfold operator_ne. apply eq_true_iff_eq. rewrite negb_true_iff, <- not_true_iff_false, operator_eq_spec.
    by rewrite bool_decide_eq_true.
  - intros k'' [L1 N1]%Hlt [L2 N2]%Hlt. apply Hlt. split; [by etrans|]. intros <-.
    apply N1, key_pair_inj. by apply (anti_symm key_le).
Qed.
