(* ===== verification/ProductHeap.v ===== *)
(** * Data products as objects that share messages

    Elsewhere a data product is a value.  Here it is what it is in C++: an object that holds a
    shared pointer to its message, null after the default constructor; copies of the object
    share the message.  A heap holds the messages and the memory that [malloc] returned.  A
    null dereference, an access outside of a block and a read of memory that nothing was
    written to have no result.  The bindings for other languages work on such products: this
    file has the heap, and the node's operations on the products of a heap. *)

From Stdlib Require Import Ascii.
From S2P Require Import Prelude.
From S2P Require Import Messages.
From S2P Require Import CommUtil.
From S2P Require Import GravityDataProduct.
From S2P Require Import ReturnCodes.
From S2P Require Import GravityNode.
From S2P Require Import GravityNodeAPI.
#[local] Open Scope gravity_scope.

Import GravityReturnCodes.

(** The object: its [gravityDataProductPB]. *)
Definition product := option nat.

Record BridgeHeap := mkBridgeHeap {
  bh_messages : gmap nat GravityDataProductPB;
  bh_blocks : gmap nat (list (option ascii));
}.
#[export] Instance eta_BridgeHeap : Eta BridgeHeap := λ h,
  mkBridgeHeap (bh_messages h) (bh_blocks h).

Definition bridge (A : Type) : Type := BridgeHeap → option (A * BridgeHeap).
#[export] Instance bridge_ret : MRet bridge := λ A a h, Some (a, h).
#[export] Instance bridge_bind : MBind bridge := λ A B k m h,
  match m h with Some (a, h) => k a h | None => None end.
#[export] Instance bridge_fmap : FMap bridge := λ A B f m h,
  match m h with Some (a, h) => Some (f a, h) | None => None end.

(** [new GravityDataProductPB()], and the object that owns it. *)
Definition new_message (m : GravityDataProductPB) : bridge product := λ h,
  let a := fresh (dom (bh_messages h)) in Some (Some a, h <| bh_messages ::= insert a m |>).

(** [gravityDataProductPB->...] *)
Definition read_message {A} (gdp : product) (f : GravityDataProductPB → A) : bridge A := λ h,
  a ← gdp; m ← bh_messages h !! a; Some (f m, h).
Definition change_message (gdp : product) (f : GravityDataProductPB → GravityDataProductPB)
    : bridge unit := λ h,
  a ← gdp; m ← bh_messages h !! a; Some (tt, h <| bh_messages ::= insert a (f m) |>).

(** [size] bytes from a pointer to [array]. *)
Definition array_bytes (array : string) (size : Z) : bridge string := λ h,
  if decide (0 ≤ size ≤ Z.of_nat (String.length array))%Z
  then Some (String.substring 0 (Z.to_nat size) array, h) else None.

(** [malloc], the byte at an offset, writing to the front of a block, [free]. *)
Definition malloc (size : Z) : bridge nat := λ h,
  if decide (0 ≤ size)%Z then
    let p := fresh (dom (bh_blocks h)) in
    Some (p, h <| bh_blocks ::= insert p (replicate (Z.to_nat size) None) |>)
  else None.
Definition load (p offset : nat) : bridge ascii := λ h,
  b ← bh_blocks h !! p; c ← b !! offset; c ← c; Some (c, h).
Definition store (p : nat) (bytes : string) : bridge unit := λ h,
  b ← bh_blocks h !! p;
  if decide (String.length bytes ≤ length b) then
    Some (tt, h <| bh_blocks ::=
      insert p ((Some <$> String.list_ascii_of_string bytes) ++ drop (String.length bytes) b) |>)
  else None.
Definition free (p : nat) : bridge unit := λ h,
  _ ← bh_blocks h !! p; Some (tt, h <| bh_blocks ::= delete p |>).

Section heap.
Implicit Types (h : BridgeHeap) (a : nat) (m : GravityDataProductPB).

(** The message of a product. *)
Definition view h (gdp : product) : option GravityDataProductPB := a ← gdp; bh_messages h !! a.

Lemma read_message_spec {A} h gdp m (f : _ → A) :
  view h gdp = Some m → read_message gdp f h = Some (f m, h).
Proof. unfold view, read_message. destruct gdp as [a|]; [|done]. cbn. by intros ->. Qed.

Lemma change_message_spec h a m f :
  view h (Some a) = Some m →
  change_message (Some a) f h = Some (tt, h <| bh_messages ::= insert a (f m) |>).
Proof. unfold view, change_message. cbn. by intros ->. Qed.

Lemma new_message_spec h m :
  ∃ a, new_message m h = Some (Some a, h <| bh_messages ::= insert a m |>) ∧ bh_messages h !! a = None.
Proof. eexists. split; [done|]. apply not_elem_of_dom, is_fresh. Qed.
End heap.

(** ** The node and a heap *)

(** A call that works on the heap of products and on the node. *)
Definition shared (W A : Type) : Type :=
  BridgeHeap → GravityNode → W → option (A * BridgeHeap * GravityNode * W).
#[export] Instance shared_ret W : MRet (shared W) := λ _ x h n w, Some (x, h, n, w).
#[export] Instance shared_bind W : MBind (shared W) := λ _ _ k m h n w,
  match m h n w with Some (x, h, n, w) => k x h n w | None => None end.

Section operations.
Context {W : Type} `{NodeEnvironment W}.
Context `{Protobuf GravityDataProductPB, Protobuf GravityConfigParamPB,
  Protobuf ComponentLookupRequestPB, Protobuf ComponentServiceLookupResponsePB}.

Definition gn {A} (op : node W A) : shared W A := λ h n w,
  match op n w with Some (x, n, w) => Some (x, h, n, w) | None => None end.
Definition heap {A} (op : bridge A) : shared W A := λ h n w,
  match op h with Some (x, h) => Some (x, h, n, w) | None => None end.

(** A call looks at the message of a product only when it gets that far: a null pointer is
    followed, and has no result, where the node sets the fields. *)
Definition message (gdp : product) : shared W GravityDataProduct := λ h n w,
  Some (default empty_GravityDataProductPB (view h gdp), h, n, w).
Definition set_message (gdp : product) (m : GravityDataProduct) : shared W unit :=
  heap (change_message gdp (λ _, m)).

(** [publish]: the node sets the fields of the caller's product. *)
Definition publish_product (gdp : product) (filterText : string) (timestamp : Z)
    : shared W GravityReturnCode :=
  m ← message gdp; r ← gn (publish m filterText timestamp);
  (if decide (r.1 = SUCCESS) then set_message gdp r.2 else mret tt) ≫= λ _, mret r.1.

(** The two [request]: the node sets component and domain of the request.  The response of
    the synchronous one is a new object. *)
Definition set_origin (gdp : product) (m : GravityDataProduct) : shared W unit := λ h n w,
  set_message gdp (setDomain (gn_myDomain n) (setComponentId (gn_componentID n) m)) h n w.
Definition request_with_product (serviceID : string) (dataProduct : product) (requestor : Z)
    (requestID : string) (timeout_milliseconds : Z) (domain : string) : shared W GravityReturnCode :=
  m ← message dataProduct;
  ret ← gn (request_service serviceID m requestor requestID timeout_milliseconds domain);
  (if decide (ret = SUCCESS) then set_origin dataProduct m else mret tt) ≫= λ _, mret ret.
Definition new_product (m : option GravityDataProduct) : shared W product :=
  match m with Some r => heap (new_message r) | None => mret None end.
Definition request_product_sync (serviceID : string) (request : product) (timeout_milliseconds : Z)
    (domain : string) : shared W product :=
  m ← message request;
  initialized ← gn (gets gn_initialized);
  (if initialized : bool then set_origin request m else mret tt) ≫= λ _,
  response ← gn (request_sync serviceID m timeout_milliseconds domain); new_product response.
End operations.
