(* ===== verification/RustGravityDataProduct.v ===== *)
(** * Data products as Rust programs see them
    (src/src/api/rust/bridge/RustGravityDataProduct.cpp, RustFutureResponse.cpp,
    RustGravitySubscriber.cpp)

    The functions of the bridge, on the heap of ProductHeap.v, and what Rust programs may rely
    on: their products are values of their own, unless they are copies. *)

From Stdlib Require Import Ascii.
From S2P Require Import Prelude.
From S2P Require Import Messages.
From S2P Require Import GravityDataProduct.
From S2P Require Import MessageCodecs.
From S2P Require Import Utility.
From S2P Require Import ProductHeap.
#[local] Open Scope gravity_scope.

(** ** RustGravityDataProduct.cpp *)

(** The three [newGravityDataProduct]. *)
Definition newGravityDataProduct_default : bridge product := mret None.
Definition newGravityDataProduct (dataProductId : string) : bridge product :=
  new_message (new_GravityDataProduct dataProductId).

Section bridge_functions.
Context `{Protobuf GravityDataProductPB}.

Definition newGravityDataProduct_bytes (arrayPtr : string) (size : Z) : bridge product :=
  array ← array_bytes arrayPtr size; new_message (GravityDataProduct_from_bytes array).

Definition rustGetGravityTimestamp gdp : bridge Z := read_message gdp getGravityTimestamp.
Definition rustGetReceivedTimestamp gdp : bridge Z := read_message gdp getReceivedTimestamp.
Definition rustGetDataProductID gdp : bridge string := read_message gdp getDataProductID.
Definition rustSetSoftwareVersion gdp (softwareVersion : string) : bridge unit :=
  change_message gdp (setSoftwareVersion softwareVersion).
Definition rustGetSoftwareVersion gdp : bridge string := read_message gdp getSoftwareVersion.
Definition rustSetData gdp (data : string) (size : Z) : bridge unit :=
  bytes ← array_bytes data size; change_message gdp (setData_bytes bytes).
Definition rustSetDataProto gdp (data : string) (size : Z) (dataType : string) : bridge unit :=
  rustSetData gdp data size ≫= λ _, change_message gdp (setProtocol "protobuf2") ≫= λ _,
  change_message gdp (setTypeName dataType).

(** [memcpy] out of [c_str()] to the new block. *)
Definition rustGetData gdp : bridge nat :=
  size ← read_message gdp getDataSize;
  data ← malloc (size + 1);
  bytes ← read_message gdp (λ g, if decide (0 ≤ size)%Z then getData (Z.to_nat size) g else None);
  match bytes with
  | Some bytes => store data bytes ≫= λ _, mret data
  | None => λ _, None
  end.

Definition rustGetDataSize gdp : bridge Z := read_message gdp getDataSize.
Definition rustGetSize gdp : bridge Z := read_message gdp getSize.
Definition rustParseFromArray gdp (arrayPtr : string) (size : Z) : bridge unit :=
  array ← array_bytes arrayPtr size;
  change_message gdp (λ _, GravityDataProduct_from_bytes array).

(** The loop that reads [n] bytes from [p]; that of [data()] in gravity_data_product.rs is the
    same. *)
Fixpoint load_bytes (p it n : nat) : bridge string :=
  match n with
  | O => mret ""
  | S n => c ← load p it; rest ← load_bytes p (S it) n; mret (String c rest)
  end.

Definition rustSerializeToArray gdp : bridge string :=
  size ← read_message gdp getSize;
  ptr ← malloc (size + 1);
  bytes ← read_message gdp serializeToArray;
  store ptr bytes ≫= λ _, ret ← load_bytes ptr 0 (Z.to_nat size); free ptr ≫= λ _, mret ret.

Definition rustGDPGetComponentID gdp : bridge string := read_message gdp getComponentId.
Definition rustIsFutureResponse gdp : bridge bool := read_message gdp isFutureResponse.
Definition rustIsCachedDataProduct gdp : bridge bool := read_message gdp isCachedDataproduct.
Definition rustSetIsCachedDataProduct gdp (cached : bool) : bridge unit :=
  change_message gdp (setIsCachedDataproduct cached).
Definition rustGetFutureSocketURL gdp : bridge string := read_message gdp getFutureSocketUrl.
(** The parameter is a [uint32_t]. *)
Definition rustSetTimestamp gdp (ts : Z) : bridge unit := change_message gdp (setTimestamp (u32 ts)).
Definition rustSetReceivedTimestamp gdp (ts : Z) : bridge unit :=
  change_message gdp (setReceivedTimestamp (u32 ts)).
Definition rustSetComponentId gdp (componentId : string) : bridge unit :=
  change_message gdp (setComponentId componentId).
Definition rustSetDomain gdp (domain : string) : bridge unit := change_message gdp (setDomain domain).
Definition rustIsRelayedDataProduct gdp : bridge bool := read_message gdp isRelayedDataproduct.
Definition rustSetIsRelayedDataProduct gdp (relayed : bool) : bridge unit :=
  change_message gdp (setIsRelayedDataproduct relayed).
Definition rustSetProtocol gdp (protocol : string) : bridge unit :=
  change_message gdp (setProtocol protocol).
Definition rustGetProtocol gdp : bridge string := read_message gdp getProtocol.
Definition rustSetTypeName gdp (dataType : string) : bridge unit :=
  change_message gdp (setTypeName dataType).
Definition rustGetTypeName gdp : bridge string := read_message gdp getTypeName.
Definition rustGetRegistrationTime gdp : bridge Z := read_message gdp getRegistrationTime.
Definition rustSetRegistrationTime gdp (ts : Z) : bridge unit :=
  change_message gdp (setRegistrationTime (u32 ts)).

(** The copy constructor of the class copies its shared pointer. *)
Definition copyGravityDataProduct (gdp : product) : bridge product := mret gdp.
Definition copyGravityDataProductShared (gdp : product) : bridge product := mret gdp.

Definition rustFree (data : nat) : bridge unit := free data.

(** [data()] of gravity_data_product.rs *)
Definition data gdp : bridge string :=
  pointer ← rustGetData gdp; size ← rustGetDataSize gdp;
  bytes_buf ← load_bytes pointer 0 (Z.to_nat size); rustFree pointer ≫= λ _, mret bytes_buf.

(** ** RustFutureResponse.cpp *)

Definition rustNewFutureResponse (arrayPtr : string) (size : Z) : bridge product :=
  newGravityDataProduct_bytes arrayPtr size.
Definition rustSetResponse (fr response : product) : bridge unit :=
  bytes ← read_message response serializeToArray; change_message fr (setData_bytes bytes).

(** ** RustGravitySubscriber.cpp *)

(** The products that the function of the Rust program is called with. *)
Fixpoint subscription_copies (dataProducts : list product) : bridge (list product) :=
  match dataProducts with
  | [] => mret []
  | i :: rest => to_add ← copyGravityDataProduct i; v ← subscription_copies rest; mret (to_add :: v)
  end.
Definition RustSubscriber_subscriptionFilled (func : list product → bridge unit)
    (dataProducts : list product) : bridge unit :=
  v ← subscription_copies dataProducts; func v.
End bridge_functions.

(** ** What a Rust program does with its products *)

(** The methods that change a product, with the slices as gravity_data_product.rs passes
    them. *)
Inductive ProductCall :=
| SetSoftwareVersion (softwareVersion : string)
| SetData (bytes : string)
| SetDataProto (bytes dataType : string)
| ParseFromArray (array : string)
| SetIsCachedDataProduct (cached : bool)
| SetTimestamp (ts : Z)
| SetReceivedTimestamp (ts : Z)
| SetComponentId (componentId : string)
| SetDomain (domain : string)
| SetIsRelayedDataProduct (relayed : bool)
| SetProtocol (protocol : string)
| SetTypeName (dataType : string)
| SetRegistrationTime (ts : Z).

Inductive RustCall :=
| New
| WithId (data_product_id : string)
| WithArray (array : string)
| Change (i : nat) (c : ProductCall)
| Data (i : nat)
| SerializeToArray (i : nat).

Section programs.
Context `{Protobuf GravityDataProductPB}.

(** [len() as i32] *)
Definition slice_size (bytes : string) : Z := s32 (Z.of_nat (String.length bytes)).

Definition call_product (gdp : product) (c : ProductCall) : bridge unit :=
  match c with
  | SetSoftwareVersion v => rustSetSoftwareVersion gdp v
  | SetData bytes => rustSetData gdp bytes (slice_size bytes)
  | SetDataProto bytes dataType => rustSetDataProto gdp bytes (slice_size bytes) dataType
  | ParseFromArray array => rustParseFromArray gdp array (slice_size array)
  | SetIsCachedDataProduct cached => rustSetIsCachedDataProduct gdp cached
  | SetTimestamp ts => rustSetTimestamp gdp ts
  | SetReceivedTimestamp ts => rustSetReceivedTimestamp gdp ts
  | SetComponentId componentId => rustSetComponentId gdp componentId
  | SetDomain domain => rustSetDomain gdp domain
  | SetIsRelayedDataProduct relayed => rustSetIsRelayedDataProduct gdp relayed
  | SetProtocol protocol => rustSetProtocol gdp protocol
  | SetTypeName dataType => rustSetTypeName gdp dataType
  | SetRegistrationTime ts => rustSetRegistrationTime gdp ts
  end.

(** The products that the program has made, in that order, and the bytes it has read. *)
Definition program (P : Type) : Type := list P * list string.

Definition run_call (c : RustCall) (w : program product) : bridge (program product) :=
  let '(gdps, out) := w in
  let nth i := match gdps !! i with Some gdp => gdp | None => None end in
  match c with
  | New => gdp ← newGravityDataProduct_default; mret (gdps ++ [gdp], out)
  | WithId i => gdp ← newGravityDataProduct i; mret (gdps ++ [gdp], out)
  | WithArray array =>
      gdp ← newGravityDataProduct_bytes array (slice_size array); mret (gdps ++ [gdp], out)
  | Change i c => call_product (nth i) c ≫= λ _, mret (gdps, out)
  | Data i => bytes ← data (nth i); mret (gdps, out ++ [bytes])
  | SerializeToArray i => bytes ← rustSerializeToArray (nth i); mret (gdps, out ++ [bytes])
  end.
Fixpoint run_program (cs : list RustCall) (w : program product) : bridge (program product) :=
  match cs with [] => mret w | c :: cs => w ← run_call c w; run_program cs w end.

(** The specification: products are values, none of which depends on another. *)
Definition call_value (c : ProductCall) : GravityDataProduct → GravityDataProduct :=
  match c with
  | SetSoftwareVersion v => setSoftwareVersion v
  | SetData bytes => setData_bytes bytes
  | SetDataProto bytes dataType =>
      λ g, setTypeName dataType (setProtocol "protobuf2" (setData_bytes bytes g))
  | ParseFromArray array => λ _, GravityDataProduct_from_bytes array
  | SetIsCachedDataProduct cached => setIsCachedDataproduct cached
  | SetTimestamp ts => setTimestamp (u32 ts)
  | SetReceivedTimestamp ts => setReceivedTimestamp (u32 ts)
  | SetComponentId componentId => setComponentId componentId
  | SetDomain domain => setDomain domain
  | SetIsRelayedDataProduct relayed => setIsRelayedDataproduct relayed
  | SetProtocol protocol => setProtocol protocol
  | SetTypeName dataType => setTypeName dataType
  | SetRegistrationTime ts => setRegistrationTime (u32 ts)
  end.

Definition slice_of (c : RustCall) : string :=
  match c with
  | WithArray array | Change _ (ParseFromArray array) => array
  | Change _ (SetData bytes) | Change _ (SetDataProto bytes _) => bytes
  | _ => ""
  end.

(** A program ends with a result, stops at a call that follows a null pointer, as every method
    of a product of [New] does, or comes to bytes that an [int] cannot count. *)
Inductive value_run (A : Type) :=
| Ends (x : A)
| Stops
| Uncounted.
#[global] Arguments Ends {A} x.
#[global] Arguments Stops {A}.
#[global] Arguments Uncounted {A}.

Definition counted (bytes : string) : option string :=
  if decide (Z.of_nat (String.length bytes) < 2147483648)%Z then Some bytes else None.
Definition with_counted {A} (bytes : string) (r : value_run A) : value_run A :=
  match counted bytes with Some _ => r | None => Uncounted end.
Definition with_product {A} (gs : list (option GravityDataProduct)) (i : nat)
    (r : GravityDataProduct → value_run A) : value_run A :=
  match mjoin (gs !! i) with Some g => r g | None => Stops end.

Definition value_call (c : RustCall) (w : program (option GravityDataProduct))
    : value_run (program (option GravityDataProduct)) :=
  let '(gs, out) := w in
  with_counted (slice_of c)
    match c with
    | New => Ends (gs ++ [None], out)
    | WithId i => Ends (gs ++ [Some (new_GravityDataProduct i)], out)
    | WithArray array => Ends (gs ++ [Some (GravityDataProduct_from_bytes array)], out)
    | Change i c => with_product gs i (λ g, Ends (<[i := Some (call_value c g)]> gs, out))
    | Data i => with_product gs i (λ g,
        with_counted (str (gdp_data g)) (Ends (gs, out ++ [str (gdp_data g)])))
    | SerializeToArray i => with_product gs i (λ g,
        with_counted (serializeToArray g) (Ends (gs, out ++ [serializeToArray g])))
    end.
Fixpoint value_program (cs : list RustCall) (w : program (option GravityDataProduct)) :=
  match cs with
  | [] => Ends w
  | c :: cs =>
      match value_call c w with Ends w => value_program cs w | Stops => Stops | Uncounted => Uncounted end
  end.
End programs.

(** ** Lemmas about the heap *)

Section heap.
Context `{Protobuf GravityDataProductPB}.
Implicit Types (h : BridgeHeap) (a : nat) (m : GravityDataProductPB).

Lemma array_bytes_spec h s :
  (Z.of_nat (String.length s) < 2147483648)%Z → array_bytes s (slice_size s) h = Some (s, h).
Proof.
  intros Hs. unfold slice_size, array_bytes. rewrite s32_id by (unfold is_s32; lia).
  rewrite decide_True by lia. by rewrite substring_full by lia.
Qed.

Lemma counted_spec s s' : counted s = Some s' → s' = s ∧ (Z.of_nat (String.length s) < 2147483648)%Z.
Proof. unfold counted. case_decide; [|done]. by intros [= <-]. Qed.

(** The bytes of a block that begins with [s]. *)
Lemma read_bytes_spec h p s rest it n :
  bh_blocks h !! p = Some ((Some <$> String.list_ascii_of_string s) ++ rest) →
  it + n = String.length s →
  load_bytes p it n h =
    Some (String.string_of_list_ascii (drop it (String.list_ascii_of_string s)), h).
Proof.
  intros Hp. assert (Hlen : length (String.list_ascii_of_string s) = String.length s)
    by (clear; induction s; cbn; congruence).
  revert it. induction n as [|n IH]; intros it Hn; cbn [load_bytes].
  - by rewrite drop_ge by lia.
  - destruct (lookup_lt_is_Some_2 (String.list_ascii_of_string s) it) as [c Hc]; [lia|].
    assert (Hload : load p it h = Some (c, h)).
    { unfold load. rewrite Hp. cbn [mbind option_bind]. rewrite lookup_app_l by (rewrite length_fmap; lia).
      by rewrite list_lookup_fmap, Hc. }
    unfold mbind, bridge_bind. rewrite Hload, IH by lia. cbn.
    by rewrite (drop_S _ _ _ Hc).
Qed.

(** A block that is filled, read and freed leaves the heap as it was. *)
Lemma block_read h s :
  (Z.of_nat (String.length s) < 2147483648)%Z →
  ∃ p h', malloc (Z.of_nat (String.length s) + 1) h = Some (p, h') ∧ bh_messages h' = bh_messages h ∧
    ∃ h'', store p s h' = Some (tt, h'') ∧ bh_messages h'' = bh_messages h ∧
      load_bytes p 0 (String.length s) h'' = Some (s, h'') ∧ free p h'' = Some (tt, h).
Proof.
  intros Hs. unfold malloc. rewrite decide_True by lia. do 2 eexists. split; [done|]. split; [done|].
  set (p := fresh (dom (bh_blocks h))).
  assert (Hp : bh_blocks h !! p = None) by apply not_elem_of_dom, is_fresh.
  unfold store. cbn. rewrite lookup_insert_eq. cbn. rewrite length_replicate.
  replace (Z.to_nat (Z.of_nat (String.length s) + 1)) with (S (String.length s)) by lia.
  rewrite decide_True by lia. eexists. split; [done|]. split; [done|]. split.
  - rewrite read_bytes_spec with (s := s) (rest := drop (String.length s) (replicate (S (String.length s)) None));
      [|cbn; by rewrite lookup_insert_eq|done].
    by rewrite drop_0, String.string_of_list_ascii_of_string.
  - unfold free. cbn. rewrite lookup_insert_eq. cbn. destruct h as [ms bs]. cbn in *.
    unfold update. cbn. by rewrite !delete_insert_eq, delete_id.
Qed.

Lemma rustSerializeToArray_spec h gdp m :
  view h gdp = Some m → (Z.of_nat (String.length (serialize m)) < 2147483648)%Z →
  rustSerializeToArray gdp h = Some (serialize m, h).
Proof.
  intros Hm Hs. unfold rustSerializeToArray, mbind, bridge_bind.
  rewrite (read_message_spec _ _ _ _ Hm). unfold getSize. rewrite s32_id by (unfold is_s32; lia).
  destruct (block_read h _ Hs) as (p & h' & -> & Hh' & h'' & Hst & Hh'' & Hr & Hf).
  assert (Hm' : view h' gdp = Some m) by (unfold view in *; by rewrite Hh').
  rewrite (read_message_spec _ _ _ _ Hm'). unfold serializeToArray. rewrite Hst, Nat2Z.id, Hr, Hf. done.
Qed.

Lemma data_spec h gdp m :
  view h gdp = Some m → (Z.of_nat (String.length (str (gdp_data m))) < 2147483648)%Z →
  data gdp h = Some (str (gdp_data m), h).
Proof.
  intros Hm Hs. unfold data, rustGetData, rustGetDataSize, rustFree, mbind, bridge_bind.
  rewrite (read_message_spec _ _ _ _ Hm), getDataSize_small by done.
  destruct (block_read h _ Hs) as (p & h' & -> & Hh' & h'' & Hst & Hh'' & Hr & Hf).
  assert (Hm' : view h' gdp = Some m) by (unfold view in *; by rewrite Hh').
  assert (Hm'' : view h'' gdp = Some m) by (unfold view in *; by rewrite Hh'').
  rewrite (read_message_spec _ _ _ _ Hm'), decide_True by lia. rewrite Nat2Z.id.
  unfold getData. rewrite decide_True by (rewrite str_length_app; lia).
  assert (Hpre : String.substring 0 (String.length (str (gdp_data m)))
    (str (gdp_data m) +:+ String Ascii.zero EmptyString) = str (gdp_data m)).
  { generalize (str (gdp_data m)). intros x. induction x as [|c x IH]; [done|].
    change (String c (String.substring 0 (String.length x) (x +:+ String Ascii.zero EmptyString)) = String c x).
    by rewrite IH. }
  rewrite Hpre, Hst. cbv iota beta. unfold mret, bridge_ret.
  rewrite (read_message_spec _ _ _ _ Hm''), getDataSize_small, Nat2Z.id by done.
  rewrite Hr. unfold mret. by rewrite Hf.
Qed.

(** A method that changes a product is its function of the value. *)
Lemma call_product_spec c h a m :
  view h (Some a) = Some m → is_Some (counted (slice_of (Change 0 c))) →
  call_product (Some a) c h = Some (tt, h <| bh_messages ::= insert a (call_value c m) |>).
Proof.
  intros Hm [s Hc]. assert (Hs := proj2 (counted_spec _ _ Hc)). clear Hc s.
  destruct c; cbn in Hs |- *; try exact (change_message_spec h a m _ Hm);
    unfold rustSetData, rustSetDataProto, rustParseFromArray, mbind, bridge_bind;
    unfold rustSetData, mbind, bridge_bind; rewrite (array_bytes_spec h _ Hs);
    rewrite (change_message_spec h a m _ Hm); try done.
  erewrite change_message_spec by (unfold view; cbn; by rewrite lookup_insert_eq).
  erewrite change_message_spec by (unfold view; cbn; by rewrite lookup_insert_eq).
  destruct h as [ms bs]. unfold update. cbn. by rewrite !insert_insert_eq.
Qed.

End heap.

(** ** Products as values *)

Section values.
Context `{Protobuf GravityDataProductPB}.
Implicit Types (h : BridgeHeap) (gdps : list product) (gs : list (option GravityDataProductPB)).

(** Every product has a message of its own, or none. *)
Record represents h gdps gs : Prop := {
  rep_views : gs = view h <$> gdps;
  rep_messages a : Some a ∈ gdps → is_Some (bh_messages h !! a);
  rep_apart i j a : gdps !! i = Some (Some a) → gdps !! j = Some (Some a) → i = j;
}.

Lemma represents_value h gdps gs i m :
  represents h gdps gs → mjoin (gs !! i) = Some m →
  ∃ a, gdps !! i = Some (Some a) ∧ view h (Some a) = Some m.
Proof.
  intros R. rewrite (rep_views _ _ _ R), list_lookup_fmap.
  destruct (gdps !! i) as [[a|]|]; [|done..]. intros E. by exists a.
Qed.

Lemma represents_default h gdps gs : represents h gdps gs → represents h (gdps ++ [None]) (gs ++ [None]).
Proof.
  intros [-> Hm Hap]. split.
  - by rewrite fmap_app.
  - intros a [Ha|Ha%list_elem_of_singleton]%elem_of_app; [by apply Hm|done].
  - intros i j a [Hi|[_ Hi]]%lookup_app_Some [Hj|[_ Hj]]%lookup_app_Some.
    + by apply (Hap i j a).
    + by apply list_lookup_singleton_Some in Hj as [_ ?].
    + by apply list_lookup_singleton_Some in Hi as [_ ?].
    + by apply list_lookup_singleton_Some in Hj as [_ ?].
Qed.

Lemma view_other h gdps gs a m :
  represents h gdps gs → Some a ∉ gdps →
  view (h <| bh_messages ::= insert a m |>) <$> gdps = view h <$> gdps.
Proof.
  intros R Ha. apply list_fmap_ext. intros _ [b|] Hb%list_elem_of_lookup_2; [|done].
  unfold view. cbn. rewrite lookup_insert_ne; [done|]. by intros ->.
Qed.

Lemma represents_new_product h gdps gs m :
  represents h gdps gs →
  ∃ gdp h', new_message m h = Some (gdp, h') ∧ represents h' (gdps ++ [gdp]) (gs ++ [Some m]) ∧
    bh_blocks h' = bh_blocks h.
Proof.
  intros R. pose proof R as [Hv Hm Hap]. do 2 eexists. split; [done|]. split; [|done].
  set (a := fresh (dom (bh_messages h))).
  assert (Ha : bh_messages h !! a = None) by apply not_elem_of_dom, is_fresh.
  assert (Hnew : Some a ∉ gdps) by (intros Hin; apply Hm in Hin as [? E]; congruence). split.
  - rewrite fmap_app, (view_other _ _ _ _ _ R Hnew), <- Hv. f_equal. cbn. unfold view. cbn.
    by rewrite lookup_insert_eq.
  - intros b [Hb|[= ->]%list_elem_of_singleton]%elem_of_app; cbn.
    + apply lookup_insert_is_Some'. right. by apply Hm.
    + by rewrite lookup_insert_eq.
  - intros i j b [Hi|[Hi Hi']]%lookup_app_Some [Hj|[Hj Hj']]%lookup_app_Some;
      try (apply list_lookup_singleton_Some in Hi' as [Ei [= <-]]);
      try (apply list_lookup_singleton_Some in Hj' as [Ej [= <-]]).
    + by apply (Hap i j b).
    + destruct Hnew. by apply list_elem_of_lookup_2 in Hi.
    + destruct Hnew. by apply list_elem_of_lookup_2 in Hj.
    + apply list_lookup_singleton_Some in Hj' as [Ej _]. lia.
Qed.

Lemma represents_change h gdps gs i a m :
  represents h gdps gs → gdps !! i = Some (Some a) →
  represents (h <| bh_messages ::= insert a m |>) gdps (<[i := Some m]> gs).
Proof.
  intros [-> Hm Hap] Hi. split; [|intros b Hb; apply lookup_insert_is_Some'; right; by apply Hm|done].
  apply list_eq. intros j. rewrite list_lookup_fmap. destruct (decide (i = j)) as [<-|Hne].
  - rewrite list_lookup_insert_eq by (rewrite length_fmap; by apply lookup_lt_Some in Hi).
    unfold product in *. rewrite Hi. unfold view. cbn. by rewrite lookup_insert_eq.
  - rewrite list_lookup_insert_ne, list_lookup_fmap by done. destruct (gdps !! j) as [[b|]|] eqn:Hj; [|done..].
    unfold view. cbn. rewrite lookup_insert_ne; [done|]. intros ->. by destruct Hne; apply (Hap i j b).
Qed.

(** A product made by the default constructor cannot be used: every method of the class
    follows the null pointer. *)
Lemma default_product_unusable c h :
  call_product None c h = None ∧ data None h = None ∧ rustSerializeToArray None h = None ∧
  rustGetDataProductID None h = None.
Proof.
  split_and!; [|done..]. destruct c; try done; cbn; unfold rustSetDataProto, rustSetData,
    rustParseFromArray, mbind, bridge_bind; try unfold rustSetData, mbind, bridge_bind;
    by destruct (array_bytes _ _ h) as [[??]|].
Qed.

Lemma represents_null h gdps gs i :
  represents h gdps gs → mjoin (gs !! i) = None →
  match gdps !! i with Some gdp => gdp | None => None end = None.
Proof.
  intros [-> Hm _]. rewrite list_lookup_fmap. destruct (gdps !! i) as [[a|]|] eqn:Hi; [|done..].
  cbn. apply list_elem_of_lookup_2 in Hi. apply Hm in Hi as [g Hg]. unfold view. cbn. by rewrite Hg.
Qed.

(** What a program does, against what it would do to values. *)
Definition agrees (h : BridgeHeap) (r : value_run (program (option GravityDataProduct)))
    (run : option (program product * BridgeHeap)) : Prop :=
  match r with
  | Ends (gs', out') => ∃ gdps' h', run = Some ((gdps', out'), h') ∧
      represents h' gdps' gs' ∧ bh_blocks h' = bh_blocks h
  | Stops => run = None
  | Uncounted => True
  end.

Lemma agrees_counted h bytes r run :
  ((Z.of_nat (String.length bytes) < 2147483648)%Z → agrees h r run) →
  agrees h (with_counted bytes r) run.
Proof. intros Hr. unfold with_counted, counted. case_decide; [by apply Hr|done]. Qed.

Lemma run_call_value c h gdps gs out :
  represents h gdps gs → agrees h (value_call c (gs, out)) (run_call c (gdps, out) h).
Proof.
  intros R. unfold value_call. apply agrees_counted. intros Hs.
  unfold run_call, mbind, bridge_bind, with_product. destruct c as [|i|array|i c|i|i]; cbn [slice_of] in Hs.
  - exists (gdps ++ [None]), h. split; [done|]. split; [by apply represents_default|done].
  - destruct (represents_new_product h gdps gs (new_GravityDataProduct i) R) as (gdp & h' & E' & R' & Hb).
    exists (gdps ++ [gdp]), h'. unfold newGravityDataProduct. by rewrite E'.
  - unfold newGravityDataProduct_bytes, mbind, bridge_bind. rewrite (array_bytes_spec h _ Hs).
    destruct (represents_new_product h gdps gs (GravityDataProduct_from_bytes array) R) as (gdp & h' & E' & R' & Hb).
    exists (gdps ++ [gdp]), h'. by rewrite E'.
  - destruct (mjoin (gs !! i)) as [g|] eqn:Hg; cbn [agrees].
    + destruct (represents_value _ _ _ _ _ R Hg) as (a & Ha & Hv). rewrite Ha.
      assert (Hs' : is_Some (counted (slice_of (Change 0 c)))).
      { unfold counted. rewrite decide_True by exact Hs. by eexists. }
      rewrite (call_product_spec c h a g Hv Hs').
      do 2 eexists. split; [done|]. split; [by apply represents_change|done].
    + rewrite (represents_null _ _ _ _ R Hg). by rewrite (proj1 (default_product_unusable c h)).
  - destruct (mjoin (gs !! i)) as [g|] eqn:Hg; cbn [agrees].
    + apply agrees_counted. intros Hd.
      destruct (represents_value _ _ _ _ _ R Hg) as (a & Ha & Hv). rewrite Ha, (data_spec h _ g Hv Hd).
      by exists gdps, h.
    + by rewrite (represents_null _ _ _ _ R Hg).
  - destruct (mjoin (gs !! i)) as [g|] eqn:Hg; cbn [agrees].
    + apply agrees_counted. intros Hd.
      destruct (represents_value _ _ _ _ _ R Hg) as (a & Ha & Hv).
      rewrite Ha, (rustSerializeToArray_spec h _ g Hv Hd). by exists gdps, h.
    + by rewrite (represents_null _ _ _ _ R Hg).
Qed.

(** C37. Data products are values.  A Rust program that makes products, changes them, reads their
    bytes and serializes them reads the bytes and ends with the contents that it would have if
    its products were values that do not depend on one another, and all the memory that the
    bridge allocated on the way is free again.  It stops at a call exactly when that is a
    method of a product made with [new()], which is a null pointer.  Nothing is said once a
    slice, or what a product holds, has 2^31 bytes or more, which the bridge counts with an
    [int]. *)
Theorem rust_products_are_values cs h gdps gs out :
  represents h gdps gs →
  match value_program cs (gs, out) with
  | Ends (gs', out') => ∃ gdps' h', run_program cs (gdps, out) h = Some ((gdps', out'), h') ∧
      represents h' gdps' gs' ∧ bh_blocks h' = bh_blocks h
  | Stops => run_program cs (gdps, out) h = None
  | Uncounted => True
  end.
Proof.
  intros R. change (agrees h (value_program cs (gs, out)) (run_program cs (gdps, out) h)).
  revert h gdps gs out R. induction cs as [|c cs IH]; intros h gdps gs out R; cbn [value_program run_program].
  { by exists gdps, h. }
  pose proof (run_call_value c h gdps gs out R) as Rc. unfold mbind, bridge_bind.
  destruct (value_call c (gs, out)) as [[gs1 out1]| |]; cbn [agrees] in Rc |- *; [|by rewrite Rc|done].
  destruct Rc as (gdps1 & h1 & -> & R1 & Hb1). specialize (IH h1 gdps1 gs1 out1 R1).
  destruct (value_program cs (gs1, out1)) as [[gs' out']| |]; cbn [agrees] in IH |- *; [|done..].
  destruct IH as (gdps' & h' & -> & R' & Hb'). exists gdps', h'. rewrite Hb'. by split_and!.
Qed.

(** No call sets a time stamp of today: a Rust program cannot give a product a time after
    4294967295 microseconds. *)
Lemma rust_timestamp_small ts h a m h' :
  view h (Some a) = Some m → call_product (Some a) (SetTimestamp ts) h = Some (tt, h') →
  rustGetGravityTimestamp (Some a) h' = Some (u32 ts, h').
Proof.
  intros Hm E. unfold call_product, rustSetTimestamp in E. rewrite (change_message_spec h a m _ Hm) in E.
  injection E as <-. apply read_message_spec with (m := setTimestamp (u32 ts) m).
  unfold view. cbn. by rewrite lookup_insert_eq.
Qed.

Lemma subscription_copies_spec gdps h : subscription_copies gdps h = Some (gdps, h).
Proof.
  induction gdps as [|gdp gdps IH]; [done|]. cbn [subscription_copies]. unfold mbind, bridge_bind.
  cbn. by rewrite IH.
Qed.

(** What the Rust programs get as products of their own are not: a subscriber that changes
    one changes it for the subscriber that is called next. *)
Theorem rust_subscribers_share c h a m dataProducts (func : list product → bridge unit) :
  view h (Some a) = Some m → is_Some (counted (slice_of (Change 0 c))) →
  let first_func v := match v with gdp :: _ => call_product gdp c | [] => mret tt end in
  ∃ h', RustSubscriber_subscriptionFilled first_func (Some a :: dataProducts) h = Some (tt, h') ∧
    view h' (Some a) = Some (call_value c m) ∧
    RustSubscriber_subscriptionFilled func (Some a :: dataProducts) h' = func (Some a :: dataProducts) h'.
Proof.
  intros Hm Hc first_func. unfold RustSubscriber_subscriptionFilled, mbind, bridge_bind.
  rewrite subscription_copies_spec. cbn [first_func]. rewrite (call_product_spec c h a m Hm Hc).
  eexists. split; [done|]. split; [unfold view; cbn; by rewrite lookup_insert_eq|].
  by rewrite subscription_copies_spec.
Qed.
End values.

(** ** Concrete programs *)

Section witnesses.
#[local] Instance rust_gdp : Protobuf GravityDataProductPB :=
  quoted_protobuf empty_GravityDataProductPB gdp_to gdp_of "GravityDataProductPB".

Definition empty_heap : BridgeHeap := mkBridgeHeap ∅ ∅.
Definition rust_program : list RustCall :=
  [WithId "A"; Change 0 (SetDataProto "abc" "T"); WithId "B"; Change 1 (SetData "xyz");
   Change 0 (SetDomain "D"); Data 0; SerializeToArray 1; New; Data 1].

Lemma represents_nothing : represents empty_heap [] [].
Proof. split; [done|by intros a ?%elem_of_nil|done]. Qed.

Lemma rust_products_are_values_witness :
  (∃ gdps h bytes, run_program rust_program ([], []) empty_heap =
      Some ((gdps, ["abc"; bytes; "xyz"]), h) ∧ bh_blocks h = ∅ ∧
    view h <$> gdps =
      [Some (setDomain "D" (setTypeName "T" (setProtocol "protobuf2" (setData_bytes "abc"
         (new_GravityDataProduct "A"))))); Some (setData_bytes "xyz" (new_GravityDataProduct "B")); None]) ∧
  run_program [WithId "A"; New; Data 1; Data 0] ([], []) empty_heap = None.
Proof.
  split; [|exact (rust_products_are_values [WithId "A"; New; Data 1; Data 0] empty_heap [] [] []
    represents_nothing)].
  pose proof (rust_products_are_values rust_program empty_heap [] [] [] represents_nothing) as P.
  assert (E : value_program rust_program ([], []) = Ends
    ([Some (setDomain "D" (setTypeName "T" (setProtocol "protobuf2" (setData_bytes "abc"
       (new_GravityDataProduct "A"))))); Some (setData_bytes "xyz" (new_GravityDataProduct "B")); None],
     ["abc"; serialize (setData_bytes "xyz" (new_GravityDataProduct "B")); "xyz"])) by by vm_compute.
  rewrite E in P. destruct P as (gdps & h & Er & R & Hb).
  exists gdps, h, (serialize (setData_bytes "xyz" (new_GravityDataProduct "B"))).
  split; [exact Er|]. split; [exact Hb|]. symmetry. apply R.
Defined.

Lemma rust_subscribers_share_witness :
  ∃ h', RustSubscriber_subscriptionFilled
      (λ v, match v with gdp :: _ => call_product gdp (SetData "x") | [] => mret tt end) [Some 0]
      (mkBridgeHeap {[0 := setData_bytes "abc" (new_GravityDataProduct "A")]} ∅) = Some (tt, h') ∧
    view h' (Some 0) = Some (setData_bytes "x" (new_GravityDataProduct "A")).
Proof.
  destruct (rust_subscribers_share (SetData "x")
    (mkBridgeHeap {[0 := setData_bytes "abc" (new_GravityDataProduct "A")]} ∅) 0
    (setData_bytes "abc" (new_GravityDataProduct "A")) [] (λ _, mret tt))
    as (h' & E & Hv & _); [by vm_compute|by eexists|].
  exists h'. by split.
Defined.
End witnesses.
