(* ===== verification/RustGravityNode.v ===== *)
(** * The node as Rust programs see it
    (src/src/api/rust/bridge/RustGravityNode.cpp, RustGravityRequestor.cpp,
    RustGravityServiceProvider.cpp, RustGravityHeartbeatListener.cpp,
    RustGravitySubscriptionMonitor.cpp)

    The functions of the bridge call the node with the messages of the products they are given;
    the node sets fields of a product that it publishes or sends with a request, and the
    program's product is that product. *)

From S2P Require Import Prelude.
From S2P Require Import Messages.
From S2P Require Import CommUtil.
From S2P Require Import GravityDataProduct.
From S2P Require Import MessageCodecs.
From S2P Require Import ReturnCodes.
From S2P Require Import GravityHeartbeat.
From S2P Require Import GravityNode.
From S2P Require Import GravityNodeAPI.
From S2P Require Import GravityNodeProofs.
From S2P Require Import Config.
From S2P Require Import GravityNodeInit.
From S2P Require Import ProductHeap.
From S2P Require Import RustGravityDataProduct.
#[local] Open Scope gravity_scope.

Import GravityReturnCodes.

Section operations.
Context {W : Type} `{NodeEnvironment W, InitEnvironment W}.
Context `{Protobuf GravityDataProductPB, Protobuf GravityConfigParamPB,
  Protobuf ServiceDirectoryRegistrationPB, Protobuf ServiceDirectoryUnregistrationPB,
  Protobuf ServiceDirectoryResponsePB, Protobuf ComponentLookupRequestPB,
  Protobuf ComponentDataLookupResponsePB, Protobuf ComponentServiceLookupResponsePB,
  Protobuf PublisherInfoPB, Protobuf ConfigRequestPB, Protobuf ConfigeResponsePB}.

(** ** The constructors and initialization *)

Definition newGravityNode : GravityNode := new_GravityNode.
Definition newGravityNodeId (listener cache receive : bool) (componentId : string) (w : W)
    : option (GravityReturnCode * GravityNode * W) :=
  construct_GravityNode listener cache receive componentId w.
Definition rustInit (componentID : string) : shared W GravityReturnCode := gn (init componentID).
Definition rustInit_file : shared W GravityReturnCode := gn init_from_file.

(** ** Publications and subscriptions *)

Definition rustSubscribe (dataProductID : string) (subscriber : Z) : shared W GravityReturnCode :=
  gn (subscribe dataProductID subscriber "" "" None).
Definition rustSubscribe_filter (dataProductID : string) (subscriber : Z) (filter : string) :=
  gn (subscribe dataProductID subscriber filter "" None).
Definition rustSubscribe_domain (dataProductID : string) (subscriber : Z) (filter domain : string) :=
  gn (subscribe dataProductID subscriber filter domain None).
Definition rustSubscribe_cache (dataProductID : string) (subscriber : Z) (filter domain : string)
    (recieveLastCachedValue : bool) :=
  gn (subscribe dataProductID subscriber filter domain (Some recieveLastCachedValue)).
Definition rustUnsubscribe (dataProductID : string) (subscriber : Z) : shared W GravityReturnCode :=
  gn (unsubscribe dataProductID subscriber "" "").

Definition rustPublishTimestamp (gdp : product) (filterText : string) (timestamp : Z)
    : shared W GravityReturnCode := publish_product gdp filterText timestamp.
Definition rustPublishFilter (gdp : product) (filterText : string) : shared W GravityReturnCode :=
  rustPublishTimestamp gdp filterText 0.
Definition rustPublish (gdp : product) : shared W GravityReturnCode := rustPublishTimestamp gdp "" 0.
Definition rustSubscribersExist (dataProductID : string) : shared W (GravityReturnCode * bool) :=
  gn (subscribersExist dataProductID).

(** ** Requests *)

Definition rustRequestAsyncDomain (serviceID : string) (dataProduct : product) (requestor : Z)
    (requestID : string) (timeout_milliseconds : Z) (domain : string) : shared W GravityReturnCode :=
  request_with_product serviceID dataProduct requestor requestID timeout_milliseconds domain.
Definition rustRequestAsyncTimeout serviceID dataProduct requestor requestID timeout_milliseconds :=
  rustRequestAsyncDomain serviceID dataProduct requestor requestID timeout_milliseconds "".
Definition rustRequestAsyncRequestID serviceID dataProduct requestor requestID :=
  rustRequestAsyncTimeout serviceID dataProduct requestor requestID (-1).
Definition rustRequestAsync serviceID dataProduct requestor :=
  rustRequestAsyncRequestID serviceID dataProduct requestor "".

(** A null pointer is [None]. *)
Definition rustRequestSyncDomain (serviceID : string) (request : product) (timeout_milliseconds : Z)
    (domain : string) : shared W product :=
  request_product_sync serviceID request timeout_milliseconds domain.
Definition rustRequestSyncTimeout serviceID request timeout_milliseconds :=
  rustRequestSyncDomain serviceID request timeout_milliseconds "".
Definition rustRequestSync serviceID request := rustRequestSyncTimeout serviceID request (-1).

(** ** Heartbeats, settings, registrations *)

Definition rustStartHeartbeat (interval_in_microseconds : Z) : shared W GravityReturnCode :=
  gn (startHeartbeat interval_in_microseconds).
Definition rustStopHeartbeat : shared W GravityReturnCode := gn stopHeartbeat.
Definition rustGetStringParam (key default_value : string) : shared W string :=
  gn (getStringParam key default_value).
Definition rustGetIntParam (key : string) (default_value : Z) : shared W Z :=
  gn (getIntParam key default_value).
Definition rustGetBoolParam (key : string) (default_value : bool) : shared W bool :=
  gn (getBoolParam key default_value).
Definition rustGetComponentID : shared W string := gn (gets gn_componentID).
Definition rustRegisterDataProduct (dataProductID : string) (transportType : GravityTransportTypes.Types) :=
  gn (registerDataProduct dataProductID transportType None).
Definition rustRegisterDataProduct_cache (dataProductID : string)
    (transportType : GravityTransportTypes.Types) (cacheLastValue : bool) :=
  gn (registerDataProduct dataProductID transportType (Some cacheLastValue)).
Definition rustUnregisterDataProduct (dataProductID : string) := gn (unregisterDataProduct dataProductID).
Definition rustRegisterService (serviceID : string) (transportType : GravityTransportTypes.Types)
    (server : Z) := gn (registerService serviceID transportType server).
Definition rustUnregisterService (serviceID : string) := gn (unregisterService serviceID).
Definition rustRegisterHeartbeatListenerDomain (componentID : string) (interval_in_microseconds listener : Z)
    (domain : string) := gn (registerHeartbeatListener componentID interval_in_microseconds listener domain).
Definition rustRegisterHeartbeatListener componentID interval_in_microseconds listener :=
  rustRegisterHeartbeatListenerDomain componentID interval_in_microseconds listener "".
Definition rustUnregisterHeartbeatListenerDomain (componentID domain : string) :=
  gn (unregisterHeartbeatListener componentID domain).
Definition rustUnregisterHeartbeatListener componentID :=
  rustUnregisterHeartbeatListenerDomain componentID "".
Definition rustRegisterRelayCache (dataProductID : string) (subscriber : Z) (localOnly : bool)
    (transportType : GravityTransportTypes.Types) (cacheLastValue : bool) :=
  gn (registerRelay dataProductID subscriber localOnly transportType cacheLastValue).
Definition rustRegisterRelay dataProductID subscriber localOnly transportType :=
  rustRegisterRelayCache dataProductID subscriber localOnly transportType false.
Definition rustUnregisterRelay (dataProductID : string) (subscriber : Z) :=
  gn (unregisterRelay dataProductID subscriber).
Definition rustGetCodeString (c : GravityReturnCode) : string := getCodeString c.
Definition rustGetIP : shared W string := gn getIP.
Definition rustGetDomain : shared W string := gn (gets gn_myDomain).

(** ** Future responses and monitors *)

Definition rustCreateFutureResponse : shared W product :=
  response ← gn createFutureResponse; new_product response.
Definition rustSendFutureResponse (futureResponse : product) : shared W Z :=
  m ← heap (read_message futureResponse id); gn (sendFutureResponse m).
Definition rustSetSubscriptionTimeoutMonitorDomain (dataProductID : string) (monitor milliSecondTimeout : Z)
    (filter domain : string) :=
  gn (setSubscriptionTimeoutMonitor dataProductID monitor milliSecondTimeout filter domain).
Definition rustSetSubscriptionTimeoutMonitorFilter dataProductID monitor milliSecondTimeout filter :=
  rustSetSubscriptionTimeoutMonitorDomain dataProductID monitor milliSecondTimeout filter "".
Definition rustSetSubscriptionTimeoutMonitor dataProductID monitor milliSecondTimeout :=
  rustSetSubscriptionTimeoutMonitorFilter dataProductID monitor milliSecondTimeout "".
Definition rustClearSubscriptionTimeoutMonitorDomain (dataProductID : string) (monitor : Z)
    (filter domain : string) :=
  gn (clearSubscriptionTimeoutMonitor dataProductID monitor filter domain).
Definition rustClearSubscriptionTimeoutMonitorFilter dataProductID monitor filter :=
  rustClearSubscriptionTimeoutMonitorDomain dataProductID monitor filter "".
Definition rustClearSubscriptionTimeoutMonitor dataProductID monitor :=
  rustClearSubscriptionTimeoutMonitorFilter dataProductID monitor "".
End operations.

(** ** The objects that the node calls back.  A function of the Rust program is called with
    the pointer to the Rust object that the C++ object holds. *)

Section callbacks.
Context {R : Type}.

Record RustRequestor := mkRustRequestor {
  rq_filled : string → string → product → Z → R;
  rq_timeout : string → string → Z → R;
  requestorPtr : Z;
}.
Definition RustRequestor_requestFilled (r : RustRequestor) (serviceID requestID : string)
    (response : product) : R := rq_filled r serviceID requestID response (requestorPtr r).
Definition RustRequestor_requestTimeout (r : RustRequestor) (serviceID requestID : string) : R :=
  rq_timeout r serviceID requestID (requestorPtr r).

Record RustServiceProvider := mkRustServiceProvider {
  sp_func : string → product → Z → R;
  servicePtr : Z;
}.
Definition RustServiceProvider_request (s : RustServiceProvider) (serviceID : string)
    (dataProduct : product) : R := sp_func s serviceID dataProduct (servicePtr s).

(** The functions of a listener return the interval that its reference holds afterwards. *)
Record RustHeartbeatListener := mkRustHeartbeatListener {
  hl_missed : string → Z → Z → Z → Z;
  hl_received : string → Z → Z → Z;
  listenerPtr : Z;
}.
Definition RustHeartbeatListener_MissedHeartbeat (l : RustHeartbeatListener) (componentID : string)
    (microsecond_to_last_heartbeat interval_in_microseconds : Z) : Z :=
  hl_missed l componentID microsecond_to_last_heartbeat interval_in_microseconds (listenerPtr l).
Definition RustHeartbeatListener_ReceivedHeartbeat (l : RustHeartbeatListener) (componentID : string)
    (interval_in_microseconds : Z) : Z :=
  hl_received l componentID interval_in_microseconds (listenerPtr l).

Record RustSubscriptionMonitor := mkRustSubscriptionMonitor {
  sm_func : string → Z → string → string → Z → R;
  monitorPtr : Z;
}.
Definition RustSubscriptionMonitor_subscriptionTimeout (m : RustSubscriptionMonitor)
    (dataProductID : string) (millisecondsSinceLast : Z) (filter domain : string) : R :=
  sm_func m dataProductID millisecondsSinceLast filter domain (monitorPtr m).
End callbacks.

(** ** From a Rust publisher to a Rust subscriber *)

Section data_delivered.
Context {W : Type} `{NodeEnvironment W, ProtobufLaw GravityDataProductPB}.

Definition set_and_publish (gdp : product) (bytes dataType filterText : string) (timestamp : Z)
    : shared W GravityReturnCode :=
  heap (rustSetDataProto gdp bytes (slice_size bytes) dataType) ≫= λ _,
  rustPublishTimestamp gdp filterText timestamp.

(** What a node makes of a product that it publishes. *)
Definition published (n : GravityNode) (timestamp now : Z) (g : GravityDataProduct) : GravityDataProduct :=
  setRegistrationTime (idx 0%Z (getDataProductID g) (gn_dataRegistrationTimeMap n))
    (if isRelayedDataproduct g then g
     else setDomain (gn_myDomain n) (setComponentId (gn_componentID n)
       (setTimestamp (if decide (timestamp = 0%Z) then now else timestamp) g))).

Lemma publish_run g filterText timestamp n (w : W) :
  gn_initialized n = true → gn_semaphore n publishManagerPublishSWL ≠ 0 →
  let sent := published n timestamp (env_time w).1 g in
  ∃ n' w1, publish g filterText timestamp n w = Some ((SUCCESS, sent), n',
      env_send publishManagerPublishSWL
        [sendStringMessage "publish"; sendStringMessage (getDataProductID g);
         sendUint64Message (getGravityTimestamp sent); sendStringMessage filterText;
         serializeToArray sent] w1).
Proof.
  intros Hi Hl. destruct (gn_semaphore n publishManagerPublishSWL) as [|k] eqn:Hk; [done|].
  assert (Hlock : ∀ f (w1 : W), Lock publishManagerPublishSWL (n <| gn_dataRegistrationTimeMap ::= f |>) w1 =
    Some (tt, set_semaphore publishManagerPublishSWL k (n <| gn_dataRegistrationTimeMap ::= f |>), w1))
    by (intros f w1; unfold Lock; change (gn_semaphore (n <| gn_dataRegistrationTimeMap ::= f |>)
      publishManagerPublishSWL) with (gn_semaphore n publishManagerPublishSWL); by rewrite Hk).
  unfold publish, mbind, node_bind, gets, published. rewrite Hi. cbn [negb].
  destruct (isRelayedDataproduct g) eqn:Hr.
  - unfold registration_time_of, mbind, node_bind, gets, modify, mret, node_ret, id. rewrite Hlock.
    do 2 eexists. reflexivity.
  - assert (Htime : ∃ w1, (if decide (timestamp = 0%Z) then ask env_time else mret timestamp) n w =
      Some (if decide (timestamp = 0%Z) then (env_time w).1 else timestamp, n, w1)).
    { case_decide; [|by eexists]. unfold ask. destruct (env_time w) as [t w1]. by eexists. }
    destruct Htime as (w1 & ->). cbn [mret node_ret gets id].
    unfold registration_time_of, mbind, node_bind, gets, modify, mret, node_ret, id. rewrite Hlock.
    do 2 eexists. reflexivity.
Qed.

(** C36. From a Rust publisher to a Rust subscriber.  Publishing sends one message, with the
    product's name, time and filter text; the product sent is the publisher's own, with its
    bytes and their type, and, unless it is marked as relayed, with the node's name and domain
    and the time that was asked for, or the present one.  The subscriber's function is called
    with a product of which it reads those bytes, that type, that time and that origin,
    whenever the message arrives. *)
Theorem rust_data_delivered bytes dataType filterText timestamp h a m n (w : W) :
  gn_initialized n = true → gn_semaphore n publishManagerPublishSWL ≠ 0 →
  view h (Some a) = Some m → (Z.of_nat (String.length bytes) < 2147483648)%Z →
  let sent := published n timestamp (env_time w).1
    (setTypeName dataType (setProtocol "protobuf2" (setData_bytes bytes m))) in
  let message := serializeToArray sent in
  (∃ h' n' w1, set_and_publish (Some a) bytes dataType filterText timestamp h n w =
      Some (SUCCESS, h', n', env_send publishManagerPublishSWL
        [sendStringMessage "publish"; sendStringMessage (getDataProductID m);
         sendUint64Message (getGravityTimestamp sent); sendStringMessage filterText; message] w1) ∧
    view h' (Some a) = Some sent) ∧
  (∀ now h2 (func : list product → bridge unit), ∃ gdp h3,
    new_message (setReceivedTimestamp now (GravityDataProduct_from_bytes message)) h2 = Some (gdp, h3) ∧
    RustSubscriber_subscriptionFilled func [gdp] h3 = func [gdp] h3 ∧
    data gdp h3 = Some (bytes, h3) ∧ rustGetTypeName gdp h3 = Some (dataType, h3) ∧
    (isRelayedDataproduct m = false →
      rustGetGravityTimestamp gdp h3 =
        Some (if decide (timestamp = 0%Z) then (env_time w).1 else timestamp, h3) ∧
      rustGDPGetComponentID gdp h3 = Some (gn_componentID n, h3) ∧
      read_message gdp getDomain h3 = Some (gn_myDomain n, h3))).
Proof.
  intros Hi Hl Hm Hs. set (m1 := setTypeName dataType (setProtocol "protobuf2" (setData_bytes bytes m))).
  intros sent message. split.
  - destruct (publish_run m1 filterText timestamp n w Hi Hl) as (n' & w1 & E). fold sent in E.
    assert (Hc : is_Some (counted (slice_of (Change 0 (SetDataProto bytes dataType)))))
      by (cbn; unfold counted; rewrite decide_True by done; by eexists).
    pose proof (call_product_spec (SetDataProto bytes dataType) h a m Hm Hc) as E1.
    change (rustSetDataProto (Some a) bytes (slice_size bytes) dataType h =
      Some (tt, h <| bh_messages ::= insert a m1 |>)) in E1.
    unfold set_and_publish, rustPublishTimestamp, publish_product, mbind, shared_bind. unfold heap at 1. rewrite E1.
    unfold ProductHeap.message, gn. set (h1 := h <| bh_messages ::= insert a m1 |>) in *.
    assert (Hv : view h1 (Some a) = Some m1) by (unfold view; cbn; by rewrite lookup_insert_eq).
    rewrite Hv. cbn [default from_option id]. rewrite E. cbn [fst snd]. rewrite decide_True by done.
    unfold set_message, heap. rewrite (change_message_spec h1 a m1 _ Hv).
    do 3 eexists. split; [reflexivity|]. unfold view. cbn. by rewrite lookup_insert_eq.
  - intros now h2 func. do 2 eexists. split; [reflexivity|].
    set (g := setReceivedTimestamp now (GravityDataProduct_from_bytes message)).
    assert (Hg : g = setReceivedTimestamp now sent).
    { unfold g, message, GravityDataProduct_from_bytes, serializeToArray. by rewrite parse_serialize. }
    set (p := fresh _). set (h3 := h2 <| bh_messages ::= _ |>).
    assert (Hv3 : view h3 (Some p) = Some g) by (unfold view; cbn; by rewrite lookup_insert_eq).
    assert (Hdata : gdp_data g = Some bytes ∧ getTypeName g = dataType).
    { rewrite Hg. unfold sent, published. by destruct (isRelayedDataproduct m1). }
    destruct Hdata as [Hg1 Hg2]. split_and!.
    + unfold RustSubscriber_subscriptionFilled, mbind, bridge_bind. by rewrite subscription_copies_spec.
    + rewrite (data_spec h3 _ g Hv3) by by rewrite Hg1. by rewrite Hg1.
    + unfold rustGetTypeName. by rewrite (read_message_spec h3 _ g getTypeName Hv3), Hg2.
    + intros Hr. unfold rustGetGravityTimestamp, rustGDPGetComponentID.
      rewrite !(read_message_spec h3 _ g _ Hv3), Hg. unfold sent, published.
      change (isRelayedDataproduct m1) with (isRelayedDataproduct m). by rewrite Hr.
Qed.
End data_delivered.

Section witnesses.
#[local] Existing Instance demo_environment.
#[local] Instance rust_node_gdp : Protobuf GravityDataProductPB :=
  quoted_protobuf empty_GravityDataProductPB gdp_to gdp_of "GravityDataProductPB".
#[local] Instance rust_node_gdp_law : ProtobufLaw GravityDataProductPB :=
  quoted_protobuf_law _ _ _ gdp_of_to _.
#[local] Instance rust_environment : NodeEnvironment unit := demo_environment "".

Definition rust_heap : BridgeHeap := mkBridgeHeap {[0 := new_GravityDataProduct "A"]} ∅.
Definition rust_node : GravityNode :=
  new_GravityNode <| gn_initialized := true |> <| gn_componentID := "P" |> <| gn_myDomain := "D" |>.

Lemma rust_data_delivered_witness :
  ∃ bytes : string, ∀ h2 (func : list product → bridge unit), ∃ gdp h3,
    new_message (setReceivedTimestamp 9 (GravityDataProduct_from_bytes bytes)) h2 = Some (gdp, h3) ∧
    RustSubscriber_subscriptionFilled func [gdp] h3 = func [gdp] h3 ∧
    data gdp h3 = Some ("abc", h3) ∧ rustGetTypeName gdp h3 = Some ("T", h3) ∧
    rustGetGravityTimestamp gdp h3 = Some (7%Z, h3) ∧ rustGDPGetComponentID gdp h3 = Some ("P", h3) ∧
    read_message gdp getDomain h3 = Some ("D", h3).
Proof.
  destruct (rust_data_delivered "abc" "T" "" 7 rust_heap 0 (new_GravityDataProduct "A") rust_node tt)
    as [_ Hs]; [reflexivity|discriminate|by vm_compute|vm_compute; reflexivity|].
  eexists. intros h2 func. destruct (Hs 9%Z h2 func) as (gdp & h3 & E & Hc & Hd & Ht & Ho).
  exists gdp, h3. destruct (Ho eq_refl) as (H1 & H2 & H3). by split_and!.
Defined.
End witnesses.
