(* ===== verification/DotNetWrapper.v ===== *)
(** * The wrapper for .NET
    (src/src/api/DotNet/gravity_plugin/src/gravity_wrapper.cpp)

    Managed code holds addresses: of structures that own a data product, a subscriber, a
    requestor or a service provider.  The wrapper's state is what is at those addresses; an
    access to an address where nothing is (any more) has no result.  The node keeps the
    addresses of the objects behind the structures, which are deleted with them.  A managed
    function is a number, and calls to it are recorded; the mutexes protect one assignment or
    one call each. *)

From stdpp Require Import pretty.
From S2P Require Import Prelude.
From S2P Require Import Messages.
From S2P Require Import CommUtil.
From S2P Require Import GravityDataProduct.
From S2P Require Import MessageCodecs.
From S2P Require Import ReturnCodes.
From S2P Require Import GravityHeartbeat.
From S2P Require Import GravityNode.
From S2P Require Import GravityNodeAPI.
From S2P Require Import GravityNodeProofs.
From S2P Require Import GravityNodeComponents.
From S2P Require Import Config.
From S2P Require Import GravityNodeInit.
From S2P Require Import GravityNodeInitProofs.
From S2P Require Import ProductHeap.
From S2P Require Import GravityNodeSubscriptions.
#[local] Open Scope gravity_scope.

Import GravityReturnCodes.

(** The calls of managed functions; a data product is given as the address of a structure. *)
Inductive ManagedCall :=
| OnDebug (cb : Z) (message : string)
| OnSubscriptionFilled (cb : Z) (gi_dps : list Z)
| OnRequestFilled (cb : Z) (serviceId requestId : string) (gi_dp : Z)
| OnServiceRequest (cb : Z) (serviceId : string) (gi_dp : Z).

Record Wrapper := mkWrapper {
  wr_heap : BridgeHeap;
  (* [gravityinterop_dataproduct]: its [dp] *)
  wr_dataproducts : gmap Z product;
  (* [SimpleGravitySubscriber], [SimpleGravityRequestor], [SimpleGravityServiceProvider]: their
     callbacks, null at first *)
  wr_subscribers : gmap Z (option Z);
  wr_requestors : gmap Z (option Z);
  wr_providers : gmap Z (option Z);
  g_gi_onDebugCb : option Z;
  wr_calls : list ManagedCall;
}.
#[export] Instance eta_Wrapper : Eta Wrapper := λ s,
  mkWrapper (wr_heap s) (wr_dataproducts s) (wr_subscribers s) (wr_requestors s) (wr_providers s)
    (g_gi_onDebugCb s) (wr_calls s).

Implicit Types s : Wrapper.

Definition new_address {A} (m : gmap Z A) : Z := fresh (dom m).

Definition called (c : ManagedCall) s : Wrapper := s <| wr_calls ::= λ l, l ++ [c] |>.

(** [args] and [name] are never null. *)
Definition LogDebug (name args : string) s : Wrapper :=
  match g_gi_onDebugCb s with
  | Some cb => called (OnDebug cb (": GravityInterop: " +:+ name +:+ ": " +:+ args)) s
  | None => s
  end.
Definition LogError (what name args : string) s : Wrapper :=
  match g_gi_onDebugCb s with
  | Some cb => called (OnDebug cb (": GravityInterop: " +:+ name +:+ ": " +:+ args +:+ ": " +:+ what)) s
  | None => s
  end.

(** [new gravityinterop_dataproduct{...}] *)
Definition new_dataproduct (dp : product) s : Z * Wrapper :=
  let gi_dp := new_address (wr_dataproducts s) in
  (gi_dp, s <| wr_dataproducts ::= insert gi_dp dp |>).

(** ** The objects that the node calls *)

(** [make_shared<GravityDataProduct>(dataProduct)] shares the message of the node's product.
    The managed function may itself call the wrapper, and returns an address. *)
Definition SimpleGravityServiceProvider_request
    (managed : Z → string → Z → Wrapper → option (Z * Wrapper))
    (sp : Z) (serviceID : string) (dataProduct : product) s : option (product * Wrapper) :=
  m_onRequest ← wr_providers s !! sp;
  let s := LogDebug "request" "Gravity request" s in
  match m_onRequest with
  | Some cb =>
      let '(arg, s) := new_dataproduct dataProduct s in
      '(gi_dp, s) ← managed cb serviceID arg (called (OnServiceRequest cb serviceID arg) s);
      dp ← wr_dataproducts s !! gi_dp; Some (dp, s)
  | None => Some (None, s)
  end.

Definition SimpleGravityRequestor_requestFilled (requestor : Z) (serviceId requestId : string)
    (gdp : product) s : option Wrapper :=
  m_onFilled ← wr_requestors s !! requestor;
  let s := LogDebug "requestFilled" "Responded" s in
  match m_onFilled with
  | Some cb =>
      let '(gi_dp, s) := new_dataproduct gdp s in
      Some (called (OnRequestFilled cb serviceId requestId gi_dp) s)
  | None => Some s
  end.

(** The setters of the callbacks, for an object that exists. *)
Definition setProviderCallback (sp : Z) (onRequest : option Z) s : Wrapper :=
  s <| wr_providers ::= insert sp onRequest |>.
Definition setRequestorCallback (requestor : Z) (onFilled : option Z) s : Wrapper :=
  s <| wr_requestors ::= insert requestor onFilled |>.
Definition setSubscriberCallback (subscriber : Z) (onFilled : option Z) s : Wrapper :=
  s <| wr_subscribers ::= insert subscriber onFilled |>.

Fixpoint new_dataproducts (dataProducts : list product) s : list Z * Wrapper :=
  match dataProducts with
  | [] => ([], s)
  | dp :: rest =>
      let '(gi_dp, s) := new_dataproduct dp s in
      let '(gi_dps, s) := new_dataproducts rest s in (gi_dp :: gi_dps, s)
  end.

(** [&gi_dps[0]] of an empty vector has no meaning. *)
Definition SimpleGravitySubscriber_subscriptionFilled (subscriber : Z) (dataProducts : list product) s
    : option Wrapper :=
  m_onFilled ← wr_subscribers s !! subscriber;
  let s := LogDebug "subscriptionFilled" ("count: " +:+ pretty (length dataProducts)) s in
  match m_onFilled with
  | Some cb =>
      let '(gi_dps, s) := new_dataproducts dataProducts s in
      if decide (gi_dps = []) then None else Some (called (OnSubscriptionFilled cb gi_dps) s)
  | None => Some s
  end.

(** ** The exported functions *)

Definition dotnet (W A : Type) : Type :=
  Wrapper → GravityNode → W → option (A * Wrapper * GravityNode * W).
#[export] Instance dotnet_ret W : MRet (dotnet W) := λ _ x s n w, Some (x, s, n, w).
#[export] Instance dotnet_bind W : MBind (dotnet W) := λ _ _ k m s n w,
  match m s n w with Some (x, s, n, w) => k x s n w | None => None end.

Section exported.
Context {W : Type} `{NodeEnvironment W, InitEnvironment W}.
Context `{Protobuf GravityDataProductPB, Protobuf GravityConfigParamPB,
  Protobuf ServiceDirectoryRegistrationPB, Protobuf ServiceDirectoryUnregistrationPB,
  Protobuf ServiceDirectoryResponsePB, Protobuf ComponentLookupRequestPB,
  Protobuf ComponentDataLookupResponsePB, Protobuf ComponentServiceLookupResponsePB,
  Protobuf PublisherInfoPB, Protobuf ConfigRequestPB, Protobuf ConfigeResponsePB}.

(** Access to an address, a step of the wrapper, of its heap, and of heap and node. *)
Definition at_address {A} (stored : Wrapper → gmap Z A) (a : Z) : dotnet W A := λ s n w,
  x ← stored s !! a; Some (x, s, n, w).
Definition crash {A} : dotnet W A := λ s n w, None.
Definition wrapper (f : Wrapper → Wrapper) : dotnet W unit := λ s n w, Some (tt, f s, n, w).
Definition on_products {A} (op : shared W A) : dotnet W A := λ s n w,
  match op (wr_heap s) n w with
  | Some (x, h, n, w) => Some (x, s <| wr_heap := h |>, n, w)
  | None => None
  end.
Definition store_dataproduct (dp : product) : dotnet W Z := λ s n w,
  let '(gi_dp, s) := new_dataproduct dp s in Some (gi_dp, s, n, w).

(** The return code of [init] is ignored; [cwd] is the current directory. *)
Definition gravity_create_node (componentId cwd : string) : dotnet W unit :=
  on_products (gn (init componentId)) ≫= λ _, wrapper (LogDebug "GravityInit" cwd).

Definition gravity_delete_node : dotnet W unit := on_products (gn destroy_GravityNode).

Definition gravity_register_serviceprovider (serviceId : string) (type : GravityTransportTypes.Types)
    (sp : Z) : dotnet W unit :=
  at_address wr_providers sp ≫= λ _,
  on_products (gn (registerService serviceId type sp)) ≫= λ _, mret tt.

(** The three kinds of objects. *)
Definition gravity_create_requestor : dotnet W Z := λ s n w,
  let a := new_address (wr_requestors s) in Some (a, s <| wr_requestors ::= insert a None |>, n, w).
Definition gravity_set_requestor_callback (gi_requestor : Z) (cb : option Z) : dotnet W unit :=
  at_address wr_requestors gi_requestor ≫= λ _,
  wrapper (setRequestorCallback gi_requestor cb).
Definition gravity_delete_requestor (gi_req : Z) : dotnet W unit :=
  at_address wr_requestors gi_req ≫= λ _, wrapper (λ s, s <| wr_requestors ::= delete gi_req |>).
Definition gravity_create_serviceprovider : dotnet W Z := λ s n w,
  let a := new_address (wr_providers s) in Some (a, s <| wr_providers ::= insert a None |>, n, w).
Definition gravity_set_serviceprovider_callback (gi_sp : Z) (cb : option Z) : dotnet W unit :=
  at_address wr_providers gi_sp ≫= λ _, wrapper (setProviderCallback gi_sp cb).
Definition gravity_delete_serviceprovider (gi_sp : Z) : dotnet W unit :=
  at_address wr_providers gi_sp ≫= λ _, wrapper (λ s, s <| wr_providers ::= delete gi_sp |>).
Definition gravity_create_subscriber : dotnet W Z := λ s n w,
  let a := new_address (wr_subscribers s) in Some (a, s <| wr_subscribers ::= insert a None |>, n, w).
Definition gravity_set_subscriber_callback (gi_sub : Z) (on_filled : option Z) : dotnet W unit :=
  at_address wr_subscribers gi_sub ≫= λ _,
  wrapper (setSubscriberCallback gi_sub on_filled).
Definition gravity_delete_subscriber (gi_sub : Z) : dotnet W unit :=
  at_address wr_subscribers gi_sub ≫= λ _, wrapper (λ s, s <| wr_subscribers ::= delete gi_sub |>).

(** Requests.  The second makes a structure for the response, also when there is none. *)
Definition gravity_request_async (servName : string) (gi_request_dp gi_requestor : Z)
    (requestId : string) : dotnet W Z :=
  dp ← at_address wr_dataproducts gi_request_dp;
  at_address wr_requestors gi_requestor ≫= λ _,
  ret ← on_products (request_with_product servName dp gi_requestor requestId (-1) "");
  mret (code ret).
Definition gravity_request (servName : string) (gi_request_dp timeoutMs : Z) : dotnet W Z :=
  dp ← at_address wr_dataproducts gi_request_dp;
  response ← on_products (request_product_sync servName dp timeoutMs ""); store_dataproduct response.

(** Data products. *)
Definition gravity_create_dataproduct (dpId : string) : dotnet W Z :=
  dp ← on_products (heap (new_message (new_GravityDataProduct dpId))); store_dataproduct dp.
Definition gravity_delete_dataproduct (gi_dp : Z) : dotnet W unit :=
  at_address wr_dataproducts gi_dp ≫= λ _, wrapper (λ s, s <| wr_dataproducts ::= delete gi_dp |>).
Definition gravity_getsize_dataproduct (gi_dp : Z) : dotnet W Z :=
  dp ← at_address wr_dataproducts gi_dp; on_products (heap (read_message dp getDataSize)).
(** The bytes copied to [data]; [None]: more than the product has. *)
Definition gravity_getptr_dataproduct (gi_dp size : Z) : dotnet W string :=
  dp ← at_address wr_dataproducts gi_dp;
  bytes ← on_products (heap (read_message dp (λ g, if decide (0 ≤ size)%Z then getData (Z.to_nat size) g else None)));
  match bytes with Some bytes => mret bytes | None => crash end.
Definition gravity_setdata_dataproduct (gi_dp : Z) (data : string) (size : Z) : dotnet W unit :=
  dp ← at_address wr_dataproducts gi_dp;
  on_products (heap (bytes ← array_bytes data size; change_message dp (setData_bytes bytes))).

Definition gravity_node_publish (gi_dp : Z) : dotnet W unit :=
  dp ← at_address wr_dataproducts gi_dp;
  on_products (publish_product dp "" 0) ≫= λ _,
  dpId ← on_products (heap (read_message dp getDataProductID));
  wrapper (LogDebug "gravity_node_publish" ("published dataproduct with id " +:+ dpId)).
Definition gravity_node_subscribe (dpId : string) (gi_sub : Z) : dotnet W unit :=
  at_address wr_subscribers gi_sub ≫= λ _,
  on_products (gn (subscribe dpId gi_sub "" "" None)) ≫= λ _,
  wrapper (LogDebug "gravity_node_subscribe" ("subscribed to dataproduct with id " +:+ dpId)).
Definition gravity_register_debug_callback (onDebug : option Z) : dotnet W unit :=
  wrapper (λ s, s <| g_gi_onDebugCb := onDebug |>).
Definition gravity_register_dataproduct (dpId : string) (type : GravityTransportTypes.Types)
    : dotnet W unit := on_products (gn (registerDataProduct dpId type None)) ≫= λ _, mret tt.
End exported.

(** ** What managed code calls *)

Inductive DotNetCall :=
| CreateRequestor | SetRequestorCallback (a : Z) (cb : option Z) | DeleteRequestor (a : Z)
| CreateServiceProvider | SetServiceProviderCallback (a : Z) (cb : option Z) | DeleteServiceProvider (a : Z)
| CreateSubscriber | SetSubscriberCallback (a : Z) (cb : option Z) | DeleteSubscriber (a : Z)
| CreateDataProduct (dpId : string) | DeleteDataProduct (a : Z)
| SetDataProductData (a : Z) (data : string) (size : Z)
| RegisterServiceProvider (serviceId : string) (type : GravityTransportTypes.Types) (sp : Z)
| RegisterDataProduct (dpId : string) (type : GravityTransportTypes.Types)
| RegisterDebugCallback (onDebug : option Z)
| Publish (a : Z) | Subscribe (dpId : string) (a : Z)
| RequestAsync (servName : string) (dp requestor : Z) (requestId : string)
| Request (servName : string) (dp timeoutMs : Z).

Section calls.
Context {W : Type} `{NodeEnvironment W, InitEnvironment W}.
Context `{Protobuf GravityDataProductPB, Protobuf GravityConfigParamPB,
  Protobuf ServiceDirectoryRegistrationPB, Protobuf ServiceDirectoryUnregistrationPB,
  Protobuf ServiceDirectoryResponsePB, Protobuf ComponentLookupRequestPB,
  Protobuf ComponentDataLookupResponsePB, Protobuf ComponentServiceLookupResponsePB,
  Protobuf PublisherInfoPB, Protobuf ConfigRequestPB, Protobuf ConfigeResponsePB}.

Definition ignore {A} (op : dotnet W A) : dotnet W unit := op ≫= λ _, mret tt.

Definition dotnet_call (c : DotNetCall) : dotnet W unit :=
  match c with
  | CreateRequestor => ignore gravity_create_requestor
  | SetRequestorCallback a cb => gravity_set_requestor_callback a cb
  | DeleteRequestor a => gravity_delete_requestor a
  | CreateServiceProvider => ignore gravity_create_serviceprovider
  | SetServiceProviderCallback a cb => gravity_set_serviceprovider_callback a cb
  | DeleteServiceProvider a => gravity_delete_serviceprovider a
  | CreateSubscriber => ignore gravity_create_subscriber
  | SetSubscriberCallback a cb => gravity_set_subscriber_callback a cb
  | DeleteSubscriber a => gravity_delete_subscriber a
  | CreateDataProduct dpId => ignore (gravity_create_dataproduct dpId)
  | DeleteDataProduct a => gravity_delete_dataproduct a
  | SetDataProductData a data size => gravity_setdata_dataproduct a data size
  | RegisterServiceProvider serviceId type sp => gravity_register_serviceprovider serviceId type sp
  | RegisterDataProduct dpId type => gravity_register_dataproduct dpId type
  | RegisterDebugCallback onDebug => gravity_register_debug_callback onDebug
  | Publish a => gravity_node_publish a
  | Subscribe dpId a => gravity_node_subscribe dpId a
  | RequestAsync servName dp requestor requestId =>
      ignore (gravity_request_async servName dp requestor requestId)
  | Request servName dp timeoutMs => ignore (gravity_request servName dp timeoutMs)
  end.

(** Products that exist. *)
Definition live s (dp : product) : Prop :=
  match dp with Some a => is_Some (bh_messages (wr_heap s) !! a) | None => True end.

(** Managed code and node at work: calls, products that arrive, and the callbacks of the node's
    threads.  A subscriber that the node has is not deleted. *)
Inductive dotnet_reachable : Wrapper → GravityNode → W → Prop :=
| dotnet_start n w :
    gn_subscriptionList n = [] →
    dotnet_reachable (mkWrapper (mkBridgeHeap ∅ ∅) ∅ ∅ ∅ ∅ None []) n w
| dotnet_calls c s n w s' n' w' :
    dotnet_reachable s n w → dotnet_call c s n w = Some (tt, s', n', w') →
    (∀ a, c = DeleteSubscriber a → a ∉ sub_subscriber <$> gn_subscriptionList n) →
    dotnet_reachable s' n' w'
| dotnet_arrival m dp s n w h :
    dotnet_reachable s n w → new_message m (wr_heap s) = Some (dp, h) →
    dotnet_reachable (s <| wr_heap := h |>) n w
| dotnet_delivery subscriber dps s n w s' :
    dotnet_reachable s n w → Forall (live s) dps →
    SimpleGravitySubscriber_subscriptionFilled subscriber dps s = Some s' →
    dotnet_reachable s' n w
| dotnet_response requestor serviceId requestId dp s n w s' :
    dotnet_reachable s n w → live s dp →
    SimpleGravityRequestor_requestFilled requestor serviceId requestId dp s = Some s' →
    dotnet_reachable s' n w
| dotnet_service sp serviceId dp answer r s n w s' :
    dotnet_reachable s n w → live s dp →
    SimpleGravityServiceProvider_request (λ _ _ _ s, Some (answer, s)) sp serviceId dp s = Some (r, s') →
    dotnet_reachable s' n w.

(** ** What every call preserves *)

(** The subscribers that the node has, and the products that structures own, exist. *)
Record wrapper_sound s n : Prop := {
  ws_subscribers a : a ∈ sub_subscriber <$> gn_subscriptionList n → is_Some (wr_subscribers s !! a);
  ws_products gi_dp dp : wr_dataproducts s !! gi_dp = Some dp → live s dp;
}.

(** Operations that leave the node's subscriptions alone and delete no message. *)
Definition tame {A} (op : shared W A) : Prop := ∀ h n w x h' n' w',
  op h n w = Some (x, h', n', w') →
  gn_subscriptionList n' = gn_subscriptionList n ∧
  ∀ a, is_Some (bh_messages h !! a) → is_Some (bh_messages h' !! a).
Definition growing {A} (op : bridge A) : Prop := ∀ h x h',
  op h = Some (x, h') → ∀ a, is_Some (bh_messages h !! a) → is_Some (bh_messages h' !! a).

Lemma tame_ret {A} (x : A) : tame (mret x).
Proof. by intros h n w y h' n' w' [= <- <- <- <-]. Qed.
Lemma tame_bind {A B} (op : shared W A) (k : A → shared W B) :
  tame op → (∀ x, tame (k x)) → tame (op ≫= k).
Proof.
  intros Ho Hk h n w y h' n' w' E. unfold mbind, shared_bind in E.
  destruct (op h n w) as [[[[x h1] n1] w1]|] eqn:E1; [|done].
  destruct (Ho _ _ _ _ _ _ _ E1) as [S1 G1], (Hk _ _ _ _ _ _ _ _ E) as [S2 G2].
  split; [congruence|auto].
Qed.
Lemma tame_gn {A} (op : node W A) : keeps_subscriptions op → tame (gn op).
Proof.
  intros Hk h n w y h' n' w' E. unfold gn in E. destruct (op n w) as [[[x n1] w1]|] eqn:E1; [|done].
  injection E as <- <- <- <-. apply Hk in E1. injection E1 as E1 _. by split.
Qed.
Lemma tame_heap {A} (op : bridge A) : growing op → tame (heap op).
Proof.
  intros Hg h n w y h' n' w' E. unfold heap in E. destruct (op h) as [[x h1]|] eqn:E1; [|done].
  injection E as <- <- <- <-. split; [done|]. by eapply Hg.
Qed.
Lemma tame_message gdp : tame (message gdp).
Proof. by intros h n w y h' n' w' [= <- <- <- <-]. Qed.

Lemma growing_new m : growing (new_message m).
Proof. intros h x h' [= <- <-] a Ha. apply lookup_insert_is_Some'. by right. Qed.
Lemma growing_read {A} gdp (f : _ → A) : growing (read_message gdp f).
Proof.
  intros h x h' E. unfold read_message in E. apply bind_Some in E as (a & _ & E).
  apply bind_Some in E as (m & _ & [= <- <-]). done.
Qed.
Lemma growing_change gdp f : growing (change_message gdp f).
Proof.
  intros h x h' E b Hb. unfold change_message in E. apply bind_Some in E as (a & _ & E).
  apply bind_Some in E as (m & _ & [= <- <-]). apply lookup_insert_is_Some'. by right.
Qed.
Lemma growing_setdata gdp data size :
  growing (bytes ← array_bytes data size; change_message gdp (setData_bytes bytes)).
Proof.
  intros h x h' E. unfold mbind, bridge_bind, array_bytes in E. case_decide; [|done].
  by eapply growing_change.
Qed.
Lemma tame_set_message gdp m : tame (set_message gdp m).
Proof. apply tame_heap, growing_change. Qed.
Lemma tame_set_origin gdp m : tame (set_origin gdp m).
Proof. intros h n w y h' n' w'. apply tame_set_message. Qed.
Lemma tame_new_product m : tame (new_product m).
Proof. destruct m; [apply tame_heap, growing_new|apply tame_ret]. Qed.

(** [subscribe] adds the subscriber, or nothing. *)
Lemma subscribe_adds i a filter domain receive n (w : W) ret n' w' :
  subscribe i a filter domain receive n w = Some (ret, n', w') →
  ∀ b, b ∈ sub_subscriber <$> gn_subscriptionList n' → b = a ∨ b ∈ sub_subscriber <$> gn_subscriptionList n.
Proof.
  intros E b Hb. apply subscribe_subscriptions in E as (_ & receive' & E). rewrite E, fmap_app in Hb.
  apply elem_of_app in Hb as [Hb|Hb]; [by right|left]. case_decide; [|by apply elem_of_nil in Hb].
  by apply list_elem_of_singleton in Hb as ->.
Qed.
End calls.

(** ** The wrapper's invariant *)

Section invariant.
Context {W : Type} `{NodeEnvironment W, InitEnvironment W}.
Context `{Protobuf GravityDataProductPB, Protobuf GravityConfigParamPB,
  Protobuf ServiceDirectoryRegistrationPB, Protobuf ServiceDirectoryUnregistrationPB,
  Protobuf ServiceDirectoryResponsePB, Protobuf ComponentLookupRequestPB,
  Protobuf ComponentDataLookupResponsePB, Protobuf ComponentServiceLookupResponsePB,
  Protobuf PublisherInfoPB, Protobuf ConfigRequestPB, Protobuf ConfigeResponsePB}.

Lemma sound_mono s n s' :
  wrapper_sound s n → wr_heap s' = wr_heap s →
  (∀ a, is_Some (wr_subscribers s !! a) → is_Some (wr_subscribers s' !! a)) →
  (∀ a dp, wr_dataproducts s' !! a = Some dp → wr_dataproducts s !! a = Some dp) → wrapper_sound s' n.
Proof.
  intros [Hs Hp] Hh Hsub Hdp. split; [auto|]. intros a dp Ha. unfold live. rewrite Hh.
  by eapply Hp, Hdp.
Qed.

Lemma sound_log name args s n : wrapper_sound s n → wrapper_sound (LogDebug name args s) n.
Proof. intros Hs. unfold LogDebug. destruct (g_gi_onDebugCb s); [|done]. by eapply sound_mono. Qed.
Lemma sound_called c s n : wrapper_sound s n → wrapper_sound (called c s) n.
Proof. intros Hs. by eapply sound_mono. Qed.

Lemma sound_new_dataproduct dp s n a s' :
  new_dataproduct dp s = (a, s') → live s dp → wrapper_sound s n →
  wrapper_sound s' n ∧ wr_heap s' = wr_heap s.
Proof.
  intros [= <- <-] Hl [Hs Hp]. split; [|done]. split; [done|]. intros b dp' Hb.
  change (<[new_address (wr_dataproducts s) := dp]> (wr_dataproducts s) !! b = Some dp') in Hb.
  apply lookup_insert_Some in Hb as [[_ <-]|[_ Hb]]; [exact Hl|by eapply Hp].
Qed.

Definition preserves {A} (op : dotnet W A) : Prop := ∀ s n w x s' n' w',
  op s n w = Some (x, s', n', w') → wrapper_sound s n → wrapper_sound s' n'.

Lemma preserves_ret {A} (x : A) : preserves (mret x).
Proof. by intros s n w y s' n' w' [= <- <- <- <-]. Qed.
Lemma preserves_bind {A B} (op : dotnet W A) (k : A → dotnet W B) :
  preserves op → (∀ x, preserves (k x)) → preserves (op ≫= k).
Proof.
  intros Ho Hk s n w y s' n' w' E. unfold mbind, dotnet_bind in E.
  destruct (op s n w) as [[[[x s1] n1] w1]|] eqn:E1; [|done].
  intros Hs. eapply Hk; [exact E|]. by eapply Ho.
Qed.
Lemma preserves_at_address {A} (stored : Wrapper → gmap Z A) a : preserves (at_address stored a).
Proof. intros s n w x s' n' w' (y & _ & [= <- <- <- <-])%bind_Some. done. Qed.
Lemma preserves_wrapper f : (∀ s n, wrapper_sound s n → wrapper_sound (f s) n) → preserves (wrapper f).
Proof. intros Hf s n w x s' n' w' [= <- <- <- <-]. apply Hf. Qed.

Lemma sound_grown s n h n' :
  wrapper_sound s n → gn_subscriptionList n' = gn_subscriptionList n →
  (∀ a, is_Some (bh_messages (wr_heap s) !! a) → is_Some (bh_messages h !! a)) →
  wrapper_sound (s <| wr_heap := h |>) n'.
Proof.
  intros [Hs Hp] Hn Hg. split; [by rewrite Hn|]. intros a dp Ha. apply Hp in Ha.
  destruct dp as [b|]; [|done]. by apply Hg.
Qed.
Lemma preserves_on_products {A} (op : shared W A) : tame op → preserves (on_products op).
Proof.
  intros Ht s n w x s' n' w' E Hs. unfold on_products in E.
  destruct (op (wr_heap s) n w) as [[[[y h] n1] w1]|] eqn:E1; [|done]. injection E as <- <- <- <-.
  destruct (Ht _ _ _ _ _ _ _ E1) as [Hn Hg]. by apply (sound_grown s n h n1).
Qed.

(** What an operation makes exists. *)
Definition makes_live (op : shared W product) : Prop := ∀ h n w dp h' n' w',
  op h n w = Some (dp, h', n', w') → match dp with Some a => is_Some (bh_messages h' !! a) | None => True end.
Lemma makes_live_bind {A} (op : shared W A) k : (∀ x, makes_live (k x)) → makes_live (op ≫= k).
Proof.
  intros Hk h n w y h' n' w' E. unfold mbind, shared_bind in E.
  destruct (op h n w) as [[[[x h1] n1] w1]|]; [|done]. by eapply Hk.
Qed.
Lemma makes_live_new m : makes_live (new_product m).
Proof.
  destruct m as [m|]; intros h n w dp h' n' w' [= <- <- <- <-]; [|done]. cbn. by rewrite lookup_insert_eq.
Qed.
Lemma preserves_store (op : shared W product) :
  tame op → makes_live op → preserves (on_products op ≫= store_dataproduct).
Proof.
  intros Ht Hl s n w x s' n' w' E Hs. unfold mbind, dotnet_bind in E.
  destruct (on_products op s n w) as [[[[dp s1] n1] w1]|] eqn:E1; [|done].
  pose proof (preserves_on_products op Ht _ _ _ _ _ _ _ E1 Hs) as Hs1. unfold store_dataproduct in E.
  destruct (new_dataproduct dp s1) as [a s2] eqn:E2. injection E as <- <- <- <-.
  eapply sound_new_dataproduct; [exact E2| |exact Hs1]. unfold on_products in E1.
  destruct (op (wr_heap s) n w) as [[[[y h] n2] w2]|] eqn:E3; [|done]. injection E1 as <- <- <- <-.
  by eapply Hl.
Qed.

Lemma tame_publish gdp f t : tame (W:=W) (publish_product gdp f t).
Proof.
  apply tame_bind; [apply tame_message|intros m]. apply tame_bind; [apply tame_gn, keeps_quietly, quietly_publish|].
  intros r. apply tame_bind; [|intros _; apply tame_ret]. case_decide; [apply tame_set_message|apply tame_ret].
Qed.
Lemma tame_request i gdp r rid t d : tame (W:=W) (request_with_product i gdp r rid t d).
Proof.
  apply tame_bind; [apply tame_message|intros m]. apply tame_bind; [apply tame_gn, subs_request_service|].
  intros ret. apply tame_bind; [|intros _; apply tame_ret]. case_decide; [apply tame_set_origin|apply tame_ret].
Qed.
Lemma tame_request_sync i gdp t d : tame (W:=W) (request_product_sync i gdp t d).
Proof.
  apply tame_bind; [apply tame_message|intros m]. apply tame_bind; [by apply tame_gn; intros n w x n' w' [= <- <- <-]|].
  intros b. apply tame_bind; [destruct b; [apply tame_set_origin|apply tame_ret]|intros _].
  apply tame_bind; [apply tame_gn, subs_request_sync|apply tame_new_product].
Qed.
Lemma makes_live_request_sync i gdp t d : makes_live (request_product_sync i gdp t d).
Proof. do 4 (apply makes_live_bind; intros ?). apply makes_live_new. Qed.

Lemma preserves_subscribe dpId a : preserves (gravity_node_subscribe dpId a).
Proof.
  intros s n w x s' n' w' E Hs. unfold gravity_node_subscribe, mbind, dotnet_bind, at_address in E.
  destruct (wr_subscribers s !! a) as [cb|] eqn:Ha; [|done]. cbn in E.
  unfold on_products, gn, heap, mbind, option_bind in E. cbn in E.
  destruct (subscribe _ _ _ _ _ n w) as [[[ret n1] w1]|] eqn:E1; [|done]. injection E as <- <- <- <-.
  apply sound_log. destruct Hs as [Hsub Hp]. split; [|exact Hp]. intros b Hb.
  apply (subscribe_adds _ _ _ _ _ _ _ _ _ _ E1) in Hb as [->|Hb]; [by exists cb|by apply Hsub].
Qed.

(** An object that is stored, replaced or, but for subscribers, deleted. *)
Lemma preserves_objects (f : Wrapper → Wrapper) :
  (∀ s, wr_heap (f s) = wr_heap s ∧
    (∀ a, is_Some (wr_subscribers s !! a) → is_Some (wr_subscribers (f s) !! a)) ∧
    (∀ a dp, wr_dataproducts (f s) !! a = Some dp → wr_dataproducts s !! a = Some dp)) →
  preserves (wrapper f).
Proof. intros Hf. apply preserves_wrapper. intros s n Hs. destruct (Hf s) as (? & ? & ?). by eapply sound_mono. Qed.

Lemma preserves_create {A} (f : Wrapper → A) (g : Wrapper → Wrapper) :
  preserves (wrapper g) → preserves (λ s n w, Some (f s, g s, n, w)).
Proof. intros Hg s n w x s' n' w' [= <- <- <- <-]. by apply (Hg s n w tt (g s) n w). Qed.

Ltac objects :=
  apply preserves_objects; intros s; split_and!;
    [done|intros b Hb; first [exact Hb|unfold setSubscriberCallback, update; cbn; apply lookup_insert_is_Some'; by right]
    |intros b dp Hb; first [exact Hb|unfold update in Hb; cbn in Hb; by apply lookup_delete_Some in Hb as [_ ?]]].

Lemma preserves_call c :
  (∀ a, c ≠ DeleteSubscriber a) → preserves (dotnet_call (W:=W) c).
Proof.
  intros Hc. destruct c as [| | | | | | | |a| | | | | | | | | |]; cbn [dotnet_call];
    try (apply preserves_bind; [|intros ?; apply preserves_ret]).
  - apply preserves_create. objects.
  - apply preserves_bind; [apply preserves_at_address|intros _; objects].
  - apply preserves_bind; [apply preserves_at_address|intros _; objects].
  - apply preserves_create. objects.
  - apply preserves_bind; [apply preserves_at_address|intros _; objects].
  - apply preserves_bind; [apply preserves_at_address|intros _; objects].
  - apply preserves_create. objects.
  - apply preserves_bind; [apply preserves_at_address|intros _; objects].
  - by destruct (Hc a).
  - apply preserves_store; [apply tame_heap, growing_new|].
    intros h n w dp h' n' w' [= <- <- <- <-]. cbn. by rewrite lookup_insert_eq.
  - apply preserves_bind; [apply preserves_at_address|intros _; objects].
  - apply preserves_bind; [apply preserves_at_address|intros ?].
    apply preserves_on_products, tame_heap, growing_setdata.
  - apply preserves_bind; [apply preserves_at_address|intros _].
    apply preserves_bind; [apply preserves_on_products, tame_gn, subs_registerService|intros _; apply preserves_ret].
  - apply preserves_on_products, tame_gn, subs_registerDataProduct.
  - objects.
  - apply preserves_bind; [apply preserves_at_address|intros ?].
    apply preserves_bind; [apply preserves_on_products, tame_publish|intros _].
    apply preserves_bind; [apply preserves_on_products, tame_heap, growing_read|intros ?].
    apply preserves_wrapper. intros s n. apply sound_log.
  - apply preserves_subscribe.
  - apply preserves_bind; [apply preserves_at_address|intros ?].
    apply preserves_bind; [apply preserves_at_address|intros _].
    apply preserves_bind; [apply preserves_on_products, tame_request|intros ?; apply preserves_ret].
  - apply preserves_bind; [apply preserves_at_address|intros ?].
    apply preserves_store; [apply tame_request_sync|apply makes_live_request_sync].
Qed.

Lemma sound_new_dataproducts dps s n gi_dps s' :
  new_dataproducts dps s = (gi_dps, s') → Forall (live s) dps → wrapper_sound s n →
  wrapper_sound s' n ∧ length gi_dps = length dps ∧ wr_calls s' = wr_calls s ∧
  (∀ a dp, wr_dataproducts s !! a = Some dp → wr_dataproducts s' !! a = Some dp) ∧
  Forall2 (λ a dp, wr_dataproducts s' !! a = Some dp) gi_dps dps.
Proof.
  revert s gi_dps. induction dps as [|dp dps IH]; intros s gi_dps E Hl Hs; cbn in E.
  { injection E as <- <-. by split_and!. }
  destruct (new_dataproducts dps _) as [rest s2] eqn:E1. injection E as <- <-.
  apply Forall_cons in Hl as [Hdp Hl].
  destruct (sound_new_dataproduct dp s n _ _ eq_refl Hdp Hs) as [Hs1 Hh].
  destruct (IH _ _ E1) as (Hs2 & Hlen & Hc & Hkeep & HF); [done|exact Hs1|].
  assert (Hnew : wr_dataproducts s !! new_address (wr_dataproducts s) = None)
    by apply not_elem_of_dom, is_fresh.
  split_and!; [done|by cbn; f_equal|done| |constructor; [|done]].
  - intros a dp' Ha. apply Hkeep. cbn. rewrite lookup_insert_ne; [done|congruence].
  - apply Hkeep. cbn. by rewrite lookup_insert_eq.
Qed.

Lemma dotnet_reachable_sound s n (w : W) : dotnet_reachable s n w → wrapper_sound s n.
Proof.
  induction 1 as [n w Hn|c s n w s' n' w' _ IH E Hc|m dp s n w h _ IH E|a dps s n w s' _ IH Hl E
    |r sid rid dp s n w s' _ IH Hl E|sp sid dp answer r s n w s' _ IH Hl E].
  - split; [rewrite Hn; intros a ?%elem_of_nil; done|done].
  - destruct c as [| | | | | | | |a| | | | | | | | | |];
      try (eapply preserves_call; [|exact E|exact IH]; done).
    specialize (Hc a eq_refl). cbn in E. unfold gravity_delete_subscriber, mbind, dotnet_bind, at_address in E.
    destruct (wr_subscribers s !! a) as [cb|] eqn:Ha; [|done]. injection E as <- <- <-.
    destruct IH as [Hsub Hp]. split; [|exact Hp]. intros b Hb. unfold update. cbn.
    rewrite lookup_delete_ne by (by intros ->). by apply Hsub.
  - apply (sound_grown s n h n); [done..|]. by eapply growing_new.
  - unfold SimpleGravitySubscriber_subscriptionFilled in E. apply bind_Some in E as (cb & _ & E).
    set (s1 := LogDebug _ _ s) in E. assert (Hs1 : wrapper_sound s1 n) by by apply sound_log.
    destruct cb as [cb|]; [|by injection E as <-].
    destruct (new_dataproducts dps s1) as [gi_dps s2] eqn:E2. case_decide; [done|]. injection E as <-.
    apply sound_called. eapply sound_new_dataproducts; [exact E2| |exact Hs1].
    eapply Forall_impl; [exact Hl|]. intros dp. unfold live, s1, LogDebug. by destruct (g_gi_onDebugCb s).
  - unfold SimpleGravityRequestor_requestFilled in E. apply bind_Some in E as (cb & _ & E).
    set (s1 := LogDebug _ _ s) in E. assert (Hs1 : wrapper_sound s1 n) by by apply sound_log.
    destruct cb as [cb|]; [|by injection E as <-].
    destruct (new_dataproduct dp s1) as [gi_dp s2] eqn:E2. injection E as <-. apply sound_called.
    eapply sound_new_dataproduct; [exact E2| |exact Hs1].
    unfold live, s1, LogDebug in *. by destruct (g_gi_onDebugCb s).
  - unfold SimpleGravityServiceProvider_request in E. apply bind_Some in E as (cb & _ & E).
    set (s1 := LogDebug _ _ s) in E. assert (Hs1 : wrapper_sound s1 n) by by apply sound_log.
    destruct cb as [cb|]; [|by injection E as _ <-].
    destruct (new_dataproduct dp s1) as [gi_dp s2] eqn:E2. cbn in E.
    apply bind_Some in E as (x & _ & [= _ <-]). apply sound_called.
    eapply sound_new_dataproduct; [exact E2| |exact Hs1].
    unfold live, s1, LogDebug in *. by destruct (g_gi_onDebugCb s).
Qed.

(** C38. As long as managed code deletes no subscriber that the node has, whatever else it does, each
    of the node's subscribers can be called: its managed function gets structures that own
    exactly the products delivered, in that order, and no other call is made but the one to the
    debug function. *)
Theorem dotnet_subscribers_called s n (w : W) subscriber dps :
  dotnet_reachable s n w → subscriber ∈ sub_subscriber <$> gn_subscriptionList n →
  Forall (live s) dps → dps ≠ [] →
  ∃ s', SimpleGravitySubscriber_subscriptionFilled subscriber dps s = Some s' ∧ wrapper_sound s' n ∧
    match wr_subscribers s !! subscriber with
    | Some (Some cb) => ∃ gi_dps, Forall2 (λ a dp, wr_dataproducts s' !! a = Some dp) gi_dps dps ∧
        ∃ debug, wr_calls s' = wr_calls s ++ debug ++ [OnSubscriptionFilled cb gi_dps] ∧
          length debug = if g_gi_onDebugCb s is Some _ then 1 else 0
    | _ => wr_dataproducts s' = wr_dataproducts s
    end.
Proof.
  intros Hr Hin Hl Hne. pose proof (dotnet_reachable_sound _ _ _ Hr) as Hs.
  destruct (ws_subscribers _ _ Hs _ Hin) as [cb Hcb].
  unfold SimpleGravitySubscriber_subscriptionFilled. rewrite Hcb. cbn [mbind option_bind].
  set (s1 := LogDebug _ _ s). assert (Hs1 : wrapper_sound s1 n) by by apply sound_log.
  assert (Hlog : ∃ debug, wr_calls s1 = wr_calls s ++ debug ∧ length debug = if g_gi_onDebugCb s is Some _ then 1 else 0).
  { unfold s1, LogDebug. destruct (g_gi_onDebugCb s); [by eexists [_]|exists []; by rewrite app_nil_r]. }
  assert (Hdp : wr_dataproducts s1 = wr_dataproducts s) by (unfold s1, LogDebug; by destruct (g_gi_onDebugCb s)).
  destruct cb as [cb|]; [|by exists s1].
  destruct (new_dataproducts dps s1) as [gi_dps s2] eqn:E2.
  destruct (sound_new_dataproducts _ _ n _ _ E2) as (Hs2 & Hlen & Hc & _ & HF); [|exact Hs1|].
  { eapply Forall_impl; [exact Hl|]. intros dp. unfold live, s1, LogDebug. by destruct (g_gi_onDebugCb s). }
  rewrite decide_False by (intros ->; by destruct dps). eexists. split; [done|].
  split; [by apply sound_called|]. exists gi_dps. split; [exact HF|].
  destruct Hlog as (debug & Hd & Hlen'). exists debug. split; [|exact Hlen'].
  change (wr_calls s2 ++ [OnSubscriptionFilled cb gi_dps] =
    wr_calls s ++ debug ++ [OnSubscriptionFilled cb gi_dps]). by rewrite Hc, Hd, <- app_assoc.
Qed.

(** A subscriber that is deleted stays with the node, which has no other way to lose it: the
    wrapper exports no way to unsubscribe.  The next product is delivered to an object that is
    gone. *)
Lemma deleted_subscriber_called a s n (w : W) s' n' w' dps :
  dotnet_call (DeleteSubscriber a) s n w = Some (tt, s', n', w') →
  gn_subscriptionList n' = gn_subscriptionList n ∧
  SimpleGravitySubscriber_subscriptionFilled a dps s' = None.
Proof.
  intros E. cbn in E. unfold gravity_delete_subscriber, mbind, dotnet_bind, at_address in E.
  destruct (wr_subscribers s !! a) as [cb|] eqn:Ha; [|done]. injection E as <- <- <-.
  split; [done|]. unfold SimpleGravitySubscriber_subscriptionFilled. cbn. by rewrite lookup_delete_eq.
Qed.

(** A request that fails: the structure that managed code gets owns no product, and asking for
    its size follows a null pointer. *)
Lemma failed_request_unusable servName a timeout s n (w : W) gi_dp s' n' w' dp :
  wr_dataproducts s !! a = Some dp → gn_initialized n = false →
  gravity_request servName a timeout s n w = Some (gi_dp, s', n', w') →
  wr_dataproducts s' !! gi_dp = Some None ∧
  gravity_getsize_dataproduct (W:=W) gi_dp s' n' w' = None.
Proof.
  intros Ha Hi E. unfold gravity_request, mbind, dotnet_bind, at_address in E. rewrite Ha in E. cbn in E.
  unfold on_products, request_product_sync, request_sync, mbind, shared_bind, gn, message, gets, node_bind in E.
  rewrite Hi in E. cbn in E. rewrite Hi in E. cbn in E. injection E as <- <- <- <-.
  split; [cbn; by rewrite lookup_insert_eq|].
  unfold gravity_getsize_dataproduct, mbind, dotnet_bind, at_address. cbn. by rewrite lookup_insert_eq.
Qed.

(** A service provider without a function answers a null pointer; GravityServiceManager.cpp
    sets the component of what it is answered. *)
Lemma silent_provider_null managed sp serviceID dp s :
  wr_providers s !! sp = Some None →
  ∃ s', SimpleGravityServiceProvider_request managed sp serviceID dp s = Some (None, s').
Proof. intros Hsp. unfold SimpleGravityServiceProvider_request. rewrite Hsp. by eexists. Qed.
End invariant.

(** ** A concrete run *)

Section witnesses.
#[local] Existing Instances demo_environment demo_publisher demo_gdp demo_lookup demo_publishers
  demo_node_config demo_node_registration demo_node_response demo_node_service.

Fixpoint dotnet_calls_run (cs : list DotNetCall) : dotnet unit unit :=
  match cs with [] => mret tt | c :: cs => dotnet_call c ≫= λ _, dotnet_calls_run cs end.

Lemma dotnet_calls_reachable cs s n w s' n' w' :
  dotnet_reachable s n w → (∀ a, DeleteSubscriber a ∉ cs) →
  dotnet_calls_run cs s n w = Some (tt, s', n', w') → dotnet_reachable s' n' w'.
Proof.
  revert s n w. induction cs as [|c cs IH]; intros s n w R Hd E; cbn [dotnet_calls_run] in E.
  { by injection E as <- <- <-. }
  unfold mbind, dotnet_bind in E. destruct (dotnet_call c s n w) as [[[[[] s1] n1] w1]|] eqn:E1; [|done].
  apply (IH s1 n1 w1); [|intros a Ha; apply (Hd a); by right|exact E].
  eapply dotnet_calls; [exact R|exact E1|]. intros a ->. destruct (Hd a). by left.
Qed.

Definition dotnet_program : list DotNetCall :=
  [CreateSubscriber; SetSubscriberCallback 0 (Some 55%Z); RegisterDebugCallback (Some 66%Z);
   CreateDataProduct "A"; SetDataProductData 0 "abc" 3; Subscribe "P" 0].
Definition dotnet_begin : Wrapper := mkWrapper (mkBridgeHeap ∅ ∅) ∅ ∅ ∅ ∅ None [].
Definition dotnet_end : Wrapper * GravityNode :=
  match dotnet_calls_run dotnet_program dotnet_begin GravityNodeProofs.demo_node tt with
  | Some (_, s, n, _) => (s, n) | None => (dotnet_begin, GravityNodeProofs.demo_node)
  end.

Lemma dotnet_subscribers_called_witness :
  ∃ s' gi_dps debug,
    SimpleGravitySubscriber_subscriptionFilled 0 [Some 0%nat] dotnet_end.1 = Some s' ∧
    Forall2 (λ a dp, wr_dataproducts s' !! a = Some dp) gi_dps [Some 0%nat] ∧
    wr_calls s' = wr_calls dotnet_end.1 ++ debug ++ [OnSubscriptionFilled 55 gi_dps] ∧ length debug = 1.
Proof.
  destruct (dotnet_subscribers_called dotnet_end.1 dotnet_end.2 tt 0 [Some 0%nat]) as (s' & E & _ & Hm).
  - apply (dotnet_calls_reachable dotnet_program dotnet_begin GravityNodeProofs.demo_node tt).
    + by apply dotnet_start.
    + intros a Ha. repeat (apply elem_of_cons in Ha as [?|Ha]; [discriminate|]). by apply elem_of_nil in Ha.
    + by vm_compute.
  - apply (bool_decide_unpack _). by vm_compute.
  - constructor; [|constructor]. vm_compute. by eexists.
  - discriminate.
  - assert (Hcb : wr_subscribers dotnet_end.1 !! 0%Z = Some (Some 55%Z)) by by vm_compute.
    rewrite Hcb in Hm. destruct Hm as (gi_dps & HF & debug & Hc & Hl).
    exists s', gi_dps, debug. split_and!; [exact E|exact HF|exact Hc|]. rewrite Hl. by vm_compute.
Defined.
End witnesses.
