(* ===== verification/FileArchiveStart.v ===== *)
(** * The start of the archiver and of the replay
    (src/src/components/cpp/Archiver/FileArchiver.cpp, Playback/FileReplay.cpp: the constructors,
    and what the replay's loop makes its node do)

    Both initialize a node, take the name of the archive and the list of data products from
    its settings, and ignore what the node's operations return. *)

From S2P Require Import Prelude.
From S2P Require Import Messages.
From S2P Require Import CommUtil.
From S2P Require Import GravityDataProduct.
From S2P Require Import ReturnCodes.
From S2P Require Import GravityHeartbeat.
From S2P Require Import GravityNode.
From S2P Require Import GravityNodeAPI.
From S2P Require Import GravityNodeProofs.
From S2P Require Import GravityNodeComponents.
From S2P Require Import Config.
From S2P Require Import GravityNodeInit.
From S2P Require Import GravityNodeInitProofs.
From S2P Require Import GravityNodePublications.
From S2P Require Import FileArchive.
From S2P Require Import FileArchiveReplay.
#[local] Open Scope gravity_scope.
#[local] Open Scope Z_scope.

Import GravityReturnCodes.
Import GravityTransportTypes.

Section start.
Context {W : Type} `{NodeEnvironment W, InitEnvironment W}.
Context `{Protobuf GravityDataProductPB, Protobuf GravityConfigParamPB,
  Protobuf ServiceDirectoryRegistrationPB, Protobuf ServiceDirectoryUnregistrationPB,
  Protobuf ServiceDirectoryResponsePB, Protobuf ComponentLookupRequestPB,
  Protobuf ComponentDataLookupResponsePB, Protobuf ComponentServiceLookupResponsePB,
  Protobuf PublisherInfoPB, Protobuf ConfigRequestPB, Protobuf ConfigeResponsePB}.

(** ** The archiver *)

(** The codes are returned here to speak of them; the constructor drops them. *)
Fixpoint subscribe_products (subscriber : Z) (dps : list string) : node W (list GravityReturnCode) :=
  match dps with
  | [] => mret []
  | dp :: dps =>
      ret ← subscribe dp subscriber "" "" None;
      rets ← subscribe_products subscriber dps;
      mret (ret :: rets)
  end.

(** The rest of the constructor once the logger is there; [fname] is the name with the time of
    the start. *)
Definition archiver_settings (subscriber provider : Z) (fname : string)
    : node W (string * FileArchiver * list GravityReturnCode) :=
  filename ← getStringParam "ArchiveFilename" "archive.bin";
  let filename := if decide (filename = "auto") then fname else filename in
  dpList ← getStringParam "DataProductList" "";
  suspend ← getBoolParam "StartSuspended" false;
  registerService "FileArchiverControlRequest" TCP provider;;
  let '(archiver, dps) := new_FileArchiver dpList suspend in
  rets ← subscribe_products subscriber dps;
  mret (filename, archiver, rets).

(** [FileArchiver::FileArchiver]; nothing more happens without a logger. *)
Definition archiver_start (subscriber provider : Z) (fname : string)
    : node W (option (string * FileArchiver * list GravityReturnCode)) :=
  init "FileArchiver";;
  logger ← ask (λ w, (env_spdlog_registered w, w));
  if negb logger then mret None
  else a ← archiver_settings subscriber provider fname; mret (Some a).

(** ** The replay *)

(** [FileReplay::FileReplay] up to the threads, with the files there are: the reader of the
    archive, [None] inside for a file whose byte order is not determined. *)
Definition replay_start (files : string → option string)
    : node W (option (FileReplay * option FileReader)) :=
  init "FileReplay";;
  logger ← ask (λ w, (env_spdlog_registered w, w));
  if negb logger then mret None
  else
    filename ← getStringParam "ArchiveFilename" "archive.bin";
    dpList ← getStringParam "DataProductList" "";
    mret (Some (new_FileReplay, file ← files filename; FileReader_init file dpList)).
End start.

(** ** What the constructors set up *)

Section started.
Context {W : Type} `{NodeEnvironment W, InitEnvironment W}.
Context `{Protobuf GravityDataProductPB, Protobuf GravityConfigParamPB,
  Protobuf ServiceDirectoryRegistrationPB, Protobuf ServiceDirectoryUnregistrationPB,
  Protobuf ServiceDirectoryResponsePB, Protobuf ComponentLookupRequestPB,
  Protobuf ComponentDataLookupResponsePB, Protobuf ComponentServiceLookupResponsePB,
  Protobuf PublisherInfoPB}.

(** What the subscriptions of a node are for, and whose they are. *)
Definition subscriptions (n : GravityNode) : list (string * string * string * Z) :=
  (λ d, (sub_dataProductID d, sub_domain d, sub_filter d, sub_subscriber d)) <$> gn_subscriptionList n.

(** The products of a list for which the answers are success. *)
Definition successful (dps : list string) (rets : list GravityReturnCode) : list string :=
  (base.filter (λ x, x.2 = SUCCESS) (zip dps rets)).*1.

Lemma subscribe_products_subscriptions a dps n (w : W) rets n' w' :
  subscribe_products a dps n w = Some (rets, n', w') →
  length rets = length dps ∧ gn_myDomain n' = gn_myDomain n ∧
  subscriptions n' = subscriptions n ++ ((λ dp, (dp, gn_myDomain n, "", a)) <$> successful dps rets).
Proof.
  revert n w rets n' w'. induction dps as [|dp dps IH]; intros n w rets n' w' E; cbn [subscribe_products] in E.
  { injection E as <- <- <-. by rewrite app_nil_r. }
  apply bind_inv in E as (ret & n1 & w1 & (Hd & receive & Hl)%subscribe_subscriptions & E).
  apply bind_inv in E as (rest & n2 & w2 & (Hlen & Hd2 & Hl2)%IH & [= <- <- <-]).
  split; [cbn; by f_equal|]. split; [congruence|]. rewrite Hl2, Hd. unfold subscriptions at 1. rewrite Hl, fmap_app.
  rewrite <- app_assoc. f_equal. unfold successful. cbn [zip zip_with]. rewrite filter_cons. cbn [snd].
  by destruct (decide (ret = SUCCESS)).
Qed.

(** The archiver that is set up writes to an archive that holds its first integer, suspended or
    not as the setting says, and is subscribed, in the domain of its node and without a filter,
    to those products of the setting for which the node's answer was success, in their order:
    nothing tells of the others. *)
Theorem archiver_subscribed subscriber provider fname n (w : W) filename a rets n' w' :
  archiver_settings subscriber provider fname n w = Some ((filename, a, rets), n', w') →
  fa_archiveFile a = le_bytes 4 1 ∧
  ∃ dpList n1 w1 n2 w2, getStringParam "DataProductList" "" n1 w1 = Some (dpList, n2, w2) ∧
    length rets = length (split dpList) ∧
    subscriptions n' = subscriptions n ++
      ((λ dp, (dp, gn_myDomain n, "", subscriber)) <$> successful (split dpList) rets).
Proof.
  intros E. unfold archiver_settings in E.
  apply bind_inv in E as (f & n1 & w1 & Q1%quietly_getStringParam & E).
  apply bind_inv in E as (dpList & n2 & w2 & E2 & E).
  pose proof (quietly_getStringParam _ _ _ _ _ _ _ E2) as Q2.
  apply bind_inv in E as (suspend & n3 & w3 & E3 & E).
  apply bind_inv in E3 as (b & n4 & w4 & Q3%quietly_getStringParam & [= _ <- <-]).
  apply bind_inv in E as (code & n5 & w5 & K%subs_registerService & E). cbn [new_FileArchiver] in E.
  apply bind_inv in E as (rets' & n6 & w6 & (Hlen & Hd & Hs)%subscribe_products_subscriptions & E).
  injection E as <- <- <- <- <-. split; [done|]. exists dpList, n1, w1, n2, w2. split; [exact E2|].
  split; [exact Hlen|]. assert (Q : quiet n n4) by (etrans; [exact Q1|]; by etrans).
  injection K as K1 K2. rewrite Hs, K2, (quiet_myDomain _ _ Q). unfold subscriptions at 1.
  by rewrite K1, (quiet_subscriptionList _ _ Q).
Qed.
End started.
